(* ===== verification/_CoqProject ===== *)
-Q . S2P
Prelude.v
GoText.v
Errors.v
Domain.v
DomainSpec.v
Json.v
Float64.v
RuntimeProfile.v
Capacity.v
Sensitive.v
Actor.v
Store.v
ReservationRepo.v
TxFacts.v
PoolSelector.v
ReservationService.v
Scheduler.v
Reaper.v
ServiceFacts.v
CommandRepo.v
DeviceStore.v
Reconcile.v
Providers.v
MockProvider.v
DeviceOps.v
ImageCatalog.v
HostCommand.v
HostSelection.v
Completion.v
WarmPool.v
PoolCycle.v
PoolScale.v
IOSSimulator.v
IOSSession.v
ManagementStore.v
Management.v
Heartbeat.v
Agent.v
FarmSystem.v
Samples.v
FarmSafety.v
IndexSafety.v
ControlStep.v
PoolMoves.v
PoolFacts.v
SessionMoves.v
ManagementMoves.v
ControlPlane.v
SessionsKept.v
ControlSafety.v
Drives.v
ManagementServices.v
ControlServices.v
SchedulerSpec.v
ReservationSpec.v
PoolSelectorSpec.v
CommandSpec.v
CommandsKept.v
HeartbeatSpec.v
RuntimeProfileSpec.v
CapacitySpec.v
PoolSpec.v
DemandSpec.v
IOSSessionSpec.v
ManagementSpec.v
CatalogRows.v
CatalogSpec.v
ProvisionSpec.v
AgentLogic.v
AgentSteps.v
AgentSpec.v
