(* ===== verification/Prelude.v ===== *)
(** * Alcor Device Farm: verification library

    The server of this repository lends Android emulators, Android phones and iOS devices
    to test runs.  A client asks for a reservation; a scheduler binds a ready device to
    it, claims the device in STF and starts a session; a reaper ends what expired.  Host
    agents report their devices in heartbeats and execute the commands that the server
    queues for them.  A reconciler, the administrators, a warm pool of emulators, the
    catalogue of system images, the iOS simulators and the iOS session service change the
    same tables meanwhile.  All state is in PostgreSQL; each change is one transaction.
    The library translates these packages of [src/internal] into functions on a record of
    tables and proves what makes them correct, one by one and together.

    *** Conventions

    - A method of a service is a computation of the monad [Store.Tx]: it reads an
      environment ([Env]: the clocks, the rows that other transactions have locked, the
      digest, the external controllers), transforms a state ([St]: the tables [DB], the
      supply of identifiers, the log of external calls, the cursor of the pool selection)
      and ends in a value or in an error of [Errors].  [WithinTx] rolls the tables back on
      an error.  The body of every transaction is a definition of its own, [..._tx]; what a
      method does outside of a transaction is in the method, so that the interleavings of
      transactions are sequences of steps.
    - Instants are nanoseconds, 0 is the zero [time.Time].  The clock of the database is
      read once per transaction.  [FOR UPDATE] and advisory locks need no code, because a
      transaction is atomic; [SKIP LOCKED] passes over the rows of [env_locked_...].
    - An ordered query is a sort by the columns of its [ORDER BY], with ties broken by
      identifier; a query without an order comes by identifier.  A cast of a [jsonb] text
      that fails is an error of the statement: a scan with [LIMIT 1] on an index meets it
      only on the rows that it reads, a sorted query on any row.  The unique indexes and
      the checks of the migrations that the code relies on are errors of the writes.
    - Strings are byte sequences; the functions of [strings] and [utf8] that the sources
      use are in [GoText].  [float64] is the binary64 of the Standard Library, JSON numbers
      are rationals, capacities are 64-bit with wrap-around where the code can overflow.
    - Code outside of the repository is an argument: the digest, [net/url], [net], the
      STF and iOS controllers, the fence, the providers, the random generators.
    - Loops of the code that are not structural have fuel, and [None] is the end of the
      fuel; each has a theorem that a bound read from the tables is enough fuel.

    *** The files

    Foundations: [Prelude] (this file: the monad, record updates, SQL scans, orders),
    [GoText], [Errors], [Json] ([jsonb] and Go maps), [Float64], [Store] (the tables),
    [TxFacts] (reasoning about transactions: [Keeps], [ReadOnly], effects of the writes).

    Components, each with the Go files it translates:
    - [Domain]: internal/domain, the state machines and the device aggregate;
    - [Sensitive], [Actor]: internal/sensitive, internal/audit, internal/paging;
    - [RuntimeProfile], [Capacity]: internal/runtimeprofile, internal/capacity;
    - [ReservationRepo], [CommandRepo], [DeviceStore]: internal/repository and the
      statements on devices that several services share;
    - [PoolSelector], [ReservationService]: internal/reservation;
    - [Scheduler], [Reaper]: internal/scheduler, internal/reaper;
    - [Reconcile]: internal/reconcile;
    - [DeviceOps]: the operations on devices of internal/management and of its store;
    - [ManagementStore], [Management]: the rest of internal/management, images, hosts,
      pools, their images and members, mock devices and lists, with the constraints that
      the migrations put on the tables;
    - [ImageCatalog]: internal/imagecatalog;
    - [HostCommand], [Completion], [Heartbeat]: internal/hostcommand;
    - [HostSelection], [WarmPool], [PoolCycle], [PoolScale]: internal/warmpool and
      internal/phoneprofile;
    - [IOSSimulator]: internal/iossimulator;
    - [IOSSession]: internal/iossession;
    - [Providers], [MockProvider]: internal/providers with its mock, the class
      [DeviceProvider] and the laws [LawfulProvider] that its users rely on;
    - [Agent]: internal/agent, the program on a host that executes commands and sends
      heartbeats.

    The system: [FarmSystem] interleaves the transactions of the scheduler, the reservation
    service and the reaper with any rest of the farm; [alloc_step] is the abstract
    allocation protocol.  [ControlStep], [PoolMoves], [SessionMoves] and [ManagementMoves]
    prove, transaction by transaction, what the rest guarantees ([control_step], the
    classes [Moves] and [Keeps] follow the code; [PoolFacts] has the effects of the writes
    of the pool); [ControlPlane] lists these transactions, and [Drives],
    [ManagementServices] and [ControlServices] prove that the methods run no others.
    [SessionsKept] and [CommandsKept] follow the sessions and the host commands through
    all of these transactions, [CatalogRows] states the constraints of the catalogue.

    *** What the theorems show

    - The aggregates: every entry of the event log is a legal transition and the log
      replays to the state ([DomainSpec]).
    - Allocation: the transactions refine the protocol; in every reachable state every
      device that is reserved or busy belongs to exactly one reservation and conversely,
      and the rows of reservations satisfy the checks of the schema ([FarmSafety]), so that
      no transaction ever runs into the unique index on active reservations
      ([IndexSafety]); the same with all other writers running, as long as no transaction
      takes a device that a reservation still holds out of quarantine ([ControlSafety],
      [ControlServices]).  [ControlSafety] also shows that an administrator can do that.
    - Scheduling: what is chosen is the oldest request that a device can serve within the
      limits, a failed cycle restores what it reserved, a tick ends; and two situations in
      which the queue stands still ([SchedulerSpec]).
    - Reservations: leases stay within the bound of the pool, keyed operations take effect
      once, the reaper closes only what expired and its sweeps end ([ReservationSpec]); the
      rotation over pools is fair and agrees with the allocator ([PoolSelectorSpec]).
    - Host commands: they follow their state machine under every transaction of the system
      ([CommandsKept]), and the lease is a fence ([CommandSpec]); an observation of a
      heartbeat refines a specification over lifecycle, health and the texts of the reasons
      ([HeartbeatSpec]).
    - The warm pool: hosts keep their slots, devices in use are not removed, the demand is
      served, a provisioning request is made once ([PoolSpec], [DemandSpec]), with three
      farms in which a cycle cannot end or passes a limit; the evaluation of capacity is
      exact ([CapacitySpec]); profiles survive their canonical form ([RuntimeProfileSpec]).
    - The management: a resource is created once per key, an image is retired only when
      nothing needs it, an image that is ready was validated as it is ([ManagementSpec]);
      every method keeps the constraints of the catalogue ([CatalogSpec]); a pool is shown
      as provisionable exactly when some online host is not known to lack its image, a
      host that drains gets no new work, and a pool created with a default image is never served
      ([ProvisionSpec]).
    - iOS sessions: the service follows the life of a grant, a grant is used once, the
      request upstream is pinned to the reserved device, the end of a reservation closes
      the Appium session or quarantines the device, the loop against drift settles
      ([IOSSessionSpec]).
    - The host agent, by triples over the devices of any lawful provider ([AgentLogic],
      [AgentSteps], [AgentSpec]): what it reports as a success has happened and no other
      device was touched, a device that does not boot is removed, the wait for a device
      ends by its deadline, and, with the server, a replacement is recorded as the host
      runs it, reports are read back, and the devices of a heartbeat pass the checks
      exactly when what the provider lists does.

    Most theorems have a witness on a concrete farm: [Samples], and the farms at the ends
    of the specification files.

    *** Bounds and fuel

    A tick of the scheduler and a sweep of the reaper need one more turn than there are
    pending or open reservations; the loop against drift one more than there are iOS
    devices that are not quarantined.  The loops that fill pools take the fuel of their
    limits.  The agent polls a device once per interval until the deadline of its context.

    *** Not modelled

    HTTP handlers, authentication, configuration and the consoles; the docker provider, the
    adapters and the session fence, which are other processes and mostly I/O (the fence
    appears as the argument [fence_Delete] and through the calls that it makes to
    [IOSSession], a provider as the arguments of [Reconcile] and [Management] and as a
    class of the agent); remote control.  Of the agent, the loops of [Run], the goroutines
    of the commands with the lock of the resources, and the ticks that renew a lease: a
    command runs by itself and may lose its lease at any instant.  The direct update of a lifecycle in internal/repository/device.go is
    translated ([DeviceStore]) but no service calls it, so it is no step of the system.
    Logging, metrics, tickers and cancellation of contexts are left out of every method.
    Foreign keys are modelled for the images and the members of pools only; generated
    timestamps of audit rows are not checked, and identifiers are assumed to be fresh
    where the code draws them. *)
From stdpp Require Export base gmap strings list sorting.
From Stdlib Require Export ZArith Lia.

#[global] Open Scope Z_scope.

(** ** Results and the transactional state monad

    [M E S X A] is a computation that reads an environment [E], threads a state
    [S] and returns either a value of [A] or an error of [X].  The state is kept
    on failure, the way an imperative Go function that returns an [error] has
    already performed its earlier effects; rolling back is the business of the
    transaction combinator of the store, not of the monad. *)
Inductive result (X A : Type) : Type :=
  | Ok (a : A)
  | Fail (e : X).
Arguments Ok {X A} a.
Arguments Fail {X A} e.

#[export] Instance result_eq_dec {X A} `{EqDecision X, EqDecision A} : EqDecision (result X A).
Proof. solve_decision. Defined.

Definition is_ok {X A} (r : result X A) : bool := match r with Ok _ => true | Fail _ => false end.

Definition M (E S X A : Type) : Type := E -> S -> result X A * S.

Section Monad.
Context {E S X : Type}.

#[export] Instance M_ret : MRet (M E S X) := fun A a _ s => (Ok a, s).

#[export] Instance M_bind : MBind (M E S X) := fun A B f m e s =>
  match m e s with
  | (Ok a, s') => f a e s'
  | (Fail x, s') => (Fail x, s')
  end.

Definition fail {A} (x : X) : M E S X A := fun _ s => (Fail x, s).
Definition ask : M E S X E := fun e s => (Ok e, s).
Definition gets {A} (f : S -> A) : M E S X A := fun _ s => (Ok (f s), s).
Definition modify (f : S -> S) : M E S X unit := fun _ s => (Ok tt, f s).

(** Go's [if cond { return err }]. *)
Definition guard_or (b : bool) (x : X) : M E S X unit := if b then mret tt else fail x.

Definition lift_result {A} (r : result X A) : M E S X A := fun _ s => (r, s).

(** Go's [x, err := m; if errors.Is(err, e) {...}]: the error becomes a value. *)
Definition attempt {A} (m : M E S X A) : M E S X (result X A) := fun e s =>
  let '(r, s') := m e s in (Ok r, s').

Lemma bind_ok {A B} (m : M E S X A) (f : A -> M E S X B) e s b s' :
  (m ≫= f) e s = (Ok b, s') <-> exists a s1, m e s = (Ok a, s1) /\ f a e s1 = (Ok b, s').
Proof.
  unfold mbind, M_bind. split.
  - destruct (m e s) as [[a|x] s1]; [eauto | discriminate].
  - intros (a & s1 & -> & ->). done.
Qed.

Lemma bind_fail {A B} (m : M E S X A) (f : A -> M E S X B) e s x s' :
  (m ≫= f) e s = (Fail x, s') <->
  m e s = (Fail x, s') \/ exists a s1, m e s = (Ok a, s1) /\ f a e s1 = (Fail x, s').
Proof.
  unfold mbind, M_bind. split.
  - destruct (m e s) as [[a|y] s1]; [eauto|]. intros [= -> ->]. by left.
  - intros [->|(a & s1 & -> & ->)]; done.
Qed.

Lemma bind_step {A B} (m : M E S X A) (f : A -> M E S X B) e s a s1 :
  m e s = (Ok a, s1) -> (m ≫= f) e s = f a e s1.
Proof. unfold mbind, M_bind. by intros ->. Qed.

Lemma ret_ok {A} (a b : A) (e : E) (s s' : S) :
  (mret a : M E S X A) e s = (Ok b, s') <-> a = b /\ s = s'.
Proof. unfold mret, M_ret. split; [by intros [= -> ->] | by intros [-> ->]]. Qed.

Lemma fail_ok {A} (x : X) (b : A) (e : E) (s s' : S) : fail x e s <> (Ok b, s').
Proof. discriminate. Qed.

Lemma gets_ok {A} (f : S -> A) b e s s' : gets f e s = (Ok b, s') <-> f s = b /\ s = s'.
Proof. unfold gets. split; [by intros [= -> ->] | by intros [-> ->]]. Qed.

Lemma guard_ok b (x : X) (e : E) (s s' : S) u :
  guard_or b x e s = (Ok u, s') <-> b = true /\ s = s'.
Proof. destruct b, u; cbn; split; try by intros [= ->]. by intros [? ->]. intros [? _]; done. Qed.
End Monad.

(** ** Record updates

    [r <| f := v |>] rebuilds a record with one field changed.  A record type
    takes part by giving its eta expansion as an [Eta] instance. *)
Class Eta (R : Type) : Type := eta_of : R -> R.
Class SetField {R T : Type} (p : R -> T) : Type := set_field : (T -> T) -> R -> R.
Arguments set_field {R T} p {_} _ _.

Ltac build_set_field p :=
  lazymatch type of p with
  | ?R -> ?T =>
    let e := constr:(_ : Eta R) in
    let f := fresh "f" in let r := fresh "r" in
    refine (fun (f : T -> T) (r : R) => _);
    let body := eval hnf in (e r) in
    let g := eval pattern (p r) in body in
    lazymatch g with
    | ?h _ => let out := eval cbv beta in (h (f (p r))) in exact out
    end
  end.
#[export] Hint Extern 1 (SetField ?p) => build_set_field p : typeclass_instances.

Declare Scope farm_scope.
Delimit Scope farm_scope with farm.
Notation "r <| p := v |>" := (set_field p (fun _ => v) r)
  (at level 12, left associativity, p at level 11, format "r  <| p  :=  v |>") : farm_scope.
#[global] Open Scope farm_scope.

(** ** Ordering: SQL's [ORDER BY t, id] and its first matching row *)
Definition key : Type := Z * string.

Definition key_le (a b : key) : Prop := a.1 < b.1 \/ (a.1 = b.1 /\ String.le a.2 b.2).

#[export] Instance key_le_dec : RelDecision key_le.
Proof. intros a b. unfold key_le. apply _. Defined.

#[export] Instance key_le_total : Total key_le.
Proof.
  intros [t1 i1] [t2 i2]. unfold key_le; cbn.
  destruct (Z.lt_trichotomy t1 t2) as [?|[->|?]]; [by left; left| |by right; left].
  destruct (String.le_total i1 i2); [left|right]; right; done.
Qed.

#[export] Instance key_le_trans : Transitive key_le.
Proof.
  intros [t1 i1] [t2 i2] [t3 i3]. unfold key_le; cbn.
  intros [?|[-> ?]] [?|[-> ?]]; [left; lia|by left|by left|right; split; [done|by etrans]].
Qed.

Section OrderBy.
Context {R : Type} (k : R -> key).

Definition by_key (a b : R) : Prop := key_le (k a) (k b).

#[export] Instance by_key_dec : RelDecision by_key.
Proof. intros a b. unfold by_key. apply _. Defined.

Definition order_by (l : list R) : list R := merge_sort by_key l.

Lemma order_by_perm l : order_by l ≡ₚ l.
Proof. apply merge_sort_Permutation. Qed.

Lemma elem_of_order_by x l : x ∈ order_by l <-> x ∈ l.
Proof. by rewrite order_by_perm. Qed.

Lemma order_by_sorted l : StronglySorted by_key (order_by l).
Proof.
  apply StronglySorted_merge_sort.
  - intros a b c. unfold by_key. apply key_le_trans.
  - intros a b. unfold by_key. apply key_le_total.
Qed.
End OrderBy.

(** The first element that satisfies a boolean test: [LIMIT 1] of an ordered scan. *)
Fixpoint first_where {R} (p : R -> bool) (l : list R) : option R :=
  match l with
  | [] => None
  | x :: l' => if p x then Some x else first_where p l'
  end.

Lemma first_where_Some {R} (p : R -> bool) l x :
  first_where p l = Some x -> x ∈ l /\ p x = true.
Proof.
  induction l as [|y l IH]; cbn; [done|]. destruct (p y) eqn:Hy.
  - intros [= ->]. split; [apply elem_of_cons; by left|done].
  - intros H%IH. rewrite elem_of_cons. tauto.
Qed.

Lemma first_where_None {R} (p : R -> bool) l :
  first_where p l = None <-> forall x, x ∈ l -> p x = false.
Proof.
  induction l as [|y l IH]; cbn.
  - split; [|done]. intros _ x []%elem_of_nil.
  - destruct (p y) eqn:Hy; split; try done.
    + intros H. rewrite H in Hy; [done|apply elem_of_cons; by left].
    + intros H x [->|?]%elem_of_cons; [done|by apply IH].
    + intros H. apply IH. intros x Hx. apply H, elem_of_cons. by right.
Qed.

Lemma first_where_minimal {R} (k : R -> key) (p : R -> bool) l x :
  first_where p (order_by k l) = Some x ->
  x ∈ l /\ p x = true /\ forall y, y ∈ l -> p y = true -> key_le (k x) (k y).
Proof.
  intros H. destruct (first_where_Some _ _ _ H) as [Hx Hp].
  rewrite elem_of_order_by in Hx. split; [done|]. split; [done|].
  intros y Hy Hpy. rewrite <-(elem_of_order_by k) in Hy.
  pose proof (order_by_sorted k l) as Hs. revert H Hy.
  induction Hs as [|z s Hs IH Hz]; cbn; [done|]. destruct (p z) eqn:Hz'.
  - intros [= ->] [->|Hy]%elem_of_cons.
    + destruct (key_le_total (k x) (k x)); done.
    + rewrite Forall_forall in Hz. by apply Hz.
  - intros H [->|Hy]%elem_of_cons; [congruence|by apply IH].
Qed.

(** ** Go time and durations: nanoseconds; the zero [time.Time] is 0 *)
Definition Second : Z := 1000000000.
Definition Minute : Z := 60 * Second.
Definition Millisecond : Z := 1000000.

(** [time.Duration / time.Second] truncates toward zero. *)
Definition duration_seconds (d : Z) : Z := Z.quot d Second.

(** ** Automation shared by the components *)
Create HintDb farm.

Ltac inv_pair :=
  repeat match goal with
  | H : (_, _) = (_, _) |- _ => injection H as H; subst
  end.

(** Open a monadic success [m e s = (Ok a, s')] one bind at a time. *)
Ltac m_inv H :=
  lazymatch type of H with
  | (_ ≫= _) _ _ = (Ok _, _) =>
    let a := fresh "a" in let s1 := fresh "s" in
    let H1 := fresh H in let H2 := fresh H in
    apply bind_ok in H as (a & s1 & H1 & H2); cbv beta in H2
  | mret _ _ _ = (Ok _, _) => apply ret_ok in H as [? ?]; subst
  | fail _ _ _ = (Ok _, _) => by apply fail_ok in H
  | gets _ _ _ = (Ok _, _) => apply gets_ok in H as [? ?]; subst
  | guard_or _ _ _ _ = (Ok _, _) => apply guard_ok in H as [? ?]; subst
  end.

Ltac case_dec :=
  repeat match goal with
  | |- context [decide ?P] => destruct (decide P)
  | H : context [decide ?P] |- _ => destruct (decide P)
  end.

(** ** SQL predicates that can raise an error

    [None] is an error of the evaluation (a failed cast).  An ordered scan with
    [LIMIT 1] evaluates its condition row by row until one holds; a scan that must be
    sorted first evaluates it on every row. *)
Fixpoint exists_sql {R} (p : R -> option bool) (l : list R) : option bool :=
  match l with
  | [] => Some false
  | x :: l' => match p x with None => None | Some true => Some true | Some false => exists_sql p l' end
  end.

Fixpoint first_sql {R} (p : R -> option bool) (l : list R) : option (option R) :=
  match l with
  | [] => Some None
  | x :: l' => match p x with None => None | Some true => Some (Some x) | Some false => first_sql p l' end
  end.

Fixpoint filter_sql {R} (p : R -> option bool) (l : list R) : option (list R) :=
  match l with
  | [] => Some []
  | x :: l' =>
    match p x, filter_sql p l' with
    | Some true, Some r => Some (x :: r)
    | Some false, Some r => Some r
    | _, _ => None
    end
  end.

(** [AND] and [OR] of conditions evaluated from left to right. *)
Definition and_sql (a b : option bool) : option bool := match a with Some true => b | _ => a end.
Definition or_sql (a b : option bool) : option bool := match a with Some false => b | _ => a end.

Lemma exists_sql_true {R} (p : R -> option bool) l :
  exists_sql p l = Some true -> exists x, x ∈ l /\ p x = Some true.
Proof.
  induction l as [|x l IH]; cbn; [done|]. destruct (p x) as [[]|] eqn:Hx; [|intros H|done].
  - exists x. split; [apply elem_of_cons; by left|done].
  - destruct (IH H) as (y & ? & ?). exists y. split; [apply elem_of_cons; by right|done].
Qed.

Lemma exists_sql_false {R} (p : R -> option bool) l :
  exists_sql p l = Some false -> forall x, x ∈ l -> p x = Some false.
Proof.
  induction l as [|x l IH]; cbn; [by intros _ x []%elem_of_nil|].
  destruct (p x) as [[]|] eqn:Hx; [done|intros H|done].
  intros y [->|Hy]%elem_of_cons; [done|by apply IH].
Qed.

Lemma exists_sql_total {R} (p : R -> option bool) l :
  (forall x, x ∈ l -> p x <> None) -> exists b, exists_sql p l = Some b.
Proof.
  induction l as [|x l IH]; cbn; intros H; [eauto|].
  destruct (p x) as [[]|] eqn:Hx; [eauto| |].
  - apply IH. intros y Hy. apply H, elem_of_cons. by right.
  - destruct (H x); [apply elem_of_cons; by left|done].
Qed.

Lemma exists_sql_error {R} (p : R -> option bool) l x :
  x ∈ l -> p x = None -> (forall y, y ∈ l -> p y <> Some true) -> exists_sql p l = None.
Proof.
  induction l as [|y l IH]; [by intros []%elem_of_nil|]. intros Hx Hp Hall. cbn.
  destruct (p y) as [[]|] eqn:Hy; [|apply IH|done].
  - by destruct (Hall y); [apply elem_of_cons; left|].
  - by apply elem_of_cons in Hx as [->|Hx]; [congruence|].
  - done.
  - intros z Hz. apply Hall, elem_of_cons. by right.
Qed.

Lemma first_sql_Some {R} (p : R -> option bool) l x :
  first_sql p l = Some (Some x) ->
  exists l1 l2, l = l1 ++ x :: l2 /\ p x = Some true /\ Forall (fun y => p y = Some false) l1.
Proof.
  induction l as [|y l IH]; cbn; [done|]. destruct (p y) as [[]|] eqn:Hy; [|intros H|done].
  - intros [= ->]. exists [], l. split_and!; [done|done|constructor].
  - destruct (IH H) as (l1 & l2 & -> & Hx & Hl). exists (y :: l1), l2.
    split_and!; [done|done|by constructor].
Qed.

Lemma first_sql_None {R} (p : R -> option bool) l :
  first_sql p l = Some None <-> Forall (fun y => p y = Some false) l.
Proof.
  induction l as [|y l IH]; cbn; [split; [constructor|done]|].
  rewrite Forall_cons. destruct (p y) as [[]|]; rewrite <-?IH; naive_solver.
Qed.

Lemma first_sql_error {R} (p : R -> option bool) l :
  first_sql p l = None <->
  exists l1 x l2, l = l1 ++ x :: l2 /\ p x = None /\ Forall (fun y => p y = Some false) l1.
Proof.
  induction l as [|y l IH]; cbn.
  - split; [done|]. by intros ([] & ? & ? & ? & _).
  - destruct (p y) as [[]|] eqn:Hy.
    + split; [done|]. intros ([|z l1] & x & l2 & [= -> ->] & Hx & Hl); [congruence|].
      apply Forall_cons in Hl as [? _]. congruence.
    + rewrite IH. split.
      * intros (l1 & x & l2 & -> & Hx & Hl). exists (y :: l1), x, l2. split_and!; [done|done|by constructor].
      * intros ([|z l1] & x & l2 & [= -> ->] & Hx & Hl); [congruence|].
        apply Forall_cons in Hl as [_ Hl]. eauto 6.
    + split; [|done]. intros _. exists [], y, l. split_and!; [done|done|constructor].
Qed.

Lemma filter_sql_spec {R} (p : R -> option bool) l l' :
  filter_sql p l = Some l' -> forall x, x ∈ l' <-> x ∈ l /\ p x = Some true.
Proof.
  revert l'. induction l as [|y l IH]; cbn; intros l'.
  - intros [= <-] x. rewrite elem_of_nil. tauto.
  - destruct (p y) as [b|] eqn:Hy; [|done]. destruct (filter_sql p l) as [r|] eqn:Hr; [|by destruct b].
    destruct b; intros [= <-] x; rewrite ?elem_of_cons, (IH r eq_refl); naive_solver.
Qed.

Lemma filter_sql_total {R} (p : R -> option bool) l :
  (forall x, x ∈ l -> p x <> None) -> exists l', filter_sql p l = Some l'.
Proof.
  induction l as [|x l IH]; cbn; intros H; [eauto|].
  destruct IH as [r ->]; [intros y Hy; apply H, elem_of_cons; by right|].
  destruct (p x) as [[]|] eqn:Hx; [eauto|eauto|]. destruct (H x); [apply elem_of_cons; by left|done].
Qed.

(** The row an ordered [LIMIT 1] scan returns: it satisfies the condition, and every
    row that satisfies it comes after. *)
Lemma first_sql_minimal {R} (k : R -> key) (p : R -> option bool) l x :
  first_sql p (order_by k l) = Some (Some x) ->
  x ∈ l /\ p x = Some true /\ forall y, y ∈ l -> p y <> Some false -> key_le (k x) (k y).
Proof.
  intros (l1 & l2 & Hl & Hx & Hl1)%first_sql_Some.
  assert (Hin : x ∈ order_by k l). { rewrite Hl, elem_of_app, elem_of_cons. tauto. }
  rewrite elem_of_order_by in Hin. split_and!; [done|done|].
  intros y Hy Hpy. rewrite <-(elem_of_order_by k), Hl, elem_of_app, elem_of_cons in Hy.
  pose proof (order_by_sorted k l) as Hs. rewrite Hl in Hs.
  destruct Hy as [Hy|[->|Hy]].
  - rewrite Forall_forall in Hl1. by apply Hl1 in Hy.
  - destruct (key_le_total (k x) (k x)); done.
  - clear Hl. induction l1 as [|z l1 IH]; cbn in Hs.
    + apply StronglySorted_inv in Hs as [_ Hs]. rewrite Forall_forall in Hs. by apply Hs.
    + apply StronglySorted_inv in Hs as [Hs _]. apply Forall_cons in Hl1 as [_ Hl1]. by apply IH.
Qed.

(** ** Counting the rows of a table *)

(** Overwriting a counted row with one that does not count lowers the count. *)
Lemma count_rows_lt {K A} `{Countable K} (P : K * A -> Prop) `{!forall x, Decision (P x)} (m : gmap K A) k x y :
  m !! k = Some x -> P (k, x) -> ~ P (k, y) -> (size (filter P (<[k := y]> m)) < size (filter P m))%nat.
Proof.
  intros Hk Hx Hy. rewrite map_filter_insert_False by done.
  rewrite <-(insert_id m k x) at 2 by done. rewrite <-(insert_delete_eq m).
  rewrite map_filter_insert_True by done. rewrite map_size_insert_None; [lia|].
  apply map_lookup_filter_None. left. apply lookup_delete_eq.
Qed.

(** A filtered list stays sorted. *)
Lemma sorted_filter {A} (R : A -> A -> Prop) (P : A -> Prop) `{!forall x, Decision (P x)} l :
  StronglySorted R l -> StronglySorted R (filter P l).
Proof.
  induction 1 as [|x l Hs IH Hx]; [constructor|]. rewrite filter_cons. case_decide; [|done]. constructor; [done|].
  rewrite Forall_forall in Hx |- *. intros y [_ Hy]%list_elem_of_filter. by apply Hx.
Qed.
