(* ===== verification/GoText.v ===== *)
(** * Go string functions used by the services

    A Go string is a sequence of bytes, here [String.string].  This file models
    what the sources use of package [strings], [unicode/utf8] and the one regular
    expression shared by the domain and the services, [^[A-Za-z0-9_-]{16,64}$]. *)
From Stdlib Require Import Ascii.
From S2P Require Import Prelude.

Definition byte_of (a : ascii) : N := N_of_ascii a.

Fixpoint bytes (l : list N) : string :=
  match l with
  | [] => EmptyString
  | b :: l' => String (ascii_of_N b) (bytes l')
  end.

Fixpoint string_bytes (s : string) : list N :=
  match s with
  | EmptyString => []
  | String a s' => N_of_ascii a :: string_bytes s'
  end.

Definition len (s : string) : Z := Z.of_nat (String.length s).

Fixpoint strip_prefix (p s : string) : option string :=
  match p, s with
  | EmptyString, _ => Some s
  | String a p', String b s' => if Ascii.eqb a b then strip_prefix p' s' else None
  | String _ _, EmptyString => None
  end.

(** [strings.HasPrefix]. *)
Definition HasPrefix (s p : string) : bool :=
  match strip_prefix p s with Some _ => true | None => false end.

Fixpoint rev_onto (s acc : string) : string :=
  match s with
  | EmptyString => acc
  | String a s' => rev_onto s' (String a acc)
  end.
Definition rev_string (s : string) : string := rev_onto s EmptyString.

(** The UTF-8 encodings of the runes for which [unicode.IsSpace] holds. *)
Definition utf8_spaces : list string :=
  map bytes ([[9]; [10]; [11]; [12]; [13]; [32]; [194; 133]; [194; 160]; [225; 154; 128];
    [226; 128; 128]; [226; 128; 129]; [226; 128; 130]; [226; 128; 131]; [226; 128; 132];
    [226; 128; 133]; [226; 128; 134]; [226; 128; 135]; [226; 128; 136]; [226; 128; 137];
    [226; 128; 138]; [226; 128; 168]; [226; 128; 169]; [226; 128; 175]; [226; 129; 159];
    [227; 128; 128]])%N.

Fixpoint strip_any (ps : list string) (s : string) : option string :=
  match ps with
  | [] => None
  | p :: ps' => match strip_prefix p s with Some r => Some r | None => strip_any ps' s end
  end.

(** Every removed rune is at least one byte long, so the length is enough fuel. *)
Fixpoint trim_left (fuel : nat) (spaces : list string) (s : string) : string :=
  match fuel with
  | O => s
  | S n => match strip_any spaces s with Some r => trim_left n spaces r | None => s end
  end.

Definition trim_with (spaces : list string) (s : string) : string :=
  let l := trim_left (String.length s) spaces s in
  rev_string (trim_left (String.length l) (map rev_string spaces) (rev_string l)).

(** [strings.TrimSpace]. *)
Definition TrimSpace (s : string) : string := trim_with utf8_spaces s.

Definition blank (s : string) : bool := bool_decide (TrimSpace s = "").

Definition lower_ascii (a : ascii) : ascii :=
  let n := N_of_ascii a in
  if ((65 <=? n) && (n <=? 90))%N then ascii_of_N (n + 32) else a.

(** [strings.ToLower] (and SQL [lower]) on ASCII letters; the sources compare the
    result only with ASCII constants. *)
Fixpoint ToLower (s : string) : string :=
  match s with
  | EmptyString => EmptyString
  | String a s' => String (lower_ascii a) (ToLower s')
  end.

Definition in_range (lo hi n : N) : bool := ((lo <=? n) && (n <=? hi))%N.

Definition alnum (a : ascii) : bool :=
  let n := N_of_ascii a in in_range 48 57 n || in_range 65 90 n || in_range 97 122 n.

Definition identifier_char (a : ascii) : bool :=
  let n := N_of_ascii a in alnum a || (n =? 95)%N || (n =? 45)%N.

Fixpoint forall_chars (p : ascii -> bool) (s : string) : bool :=
  match s with
  | EmptyString => true
  | String a s' => p a && forall_chars p s'
  end.

(** [identifierPattern.MatchString]. *)
Definition identifierPattern (s : string) : bool :=
  forall_chars identifier_char s && (16 <=? len s) && (len s <=? 64).

(** [utf8.DecodeRune]: the code point of the first rune and its width; an invalid
    byte is U+FFFD of width one. *)
Definition cont (b : N) : bool := in_range 128 191 b.

Definition decode_rune (l : list N) : N * nat :=
  (match l with
   | b0 :: b1 :: b2 :: b3 :: _ =>
     if in_range 240 244 b0 && in_range (if b0 =? 240 then 144 else 128) (if b0 =? 244 then 143 else 191) b1
        && cont b2 && cont b3
     then (((b0 - 240) * 262144 + (b1 - 128) * 4096 + (b2 - 128) * 64 + (b3 - 128)), 4%nat) else (65533, 1%nat)
   | _ => (65533, 1%nat)
   end)%N.

Definition decode_rune3 (l : list N) : N * nat :=
  (match l with
   | b0 :: b1 :: b2 :: _ =>
     if in_range 224 239 b0 && in_range (if b0 =? 224 then 160 else 128) (if b0 =? 237 then 159 else 191) b1 && cont b2
     then ((b0 - 224) * 4096 + (b1 - 128) * 64 + (b2 - 128), 3%nat) else decode_rune l
   | _ => (65533, 1%nat)
   end)%N.

Definition DecodeRune (l : list N) : N * nat :=
  (match l with
   | [] => (65533, 1%nat)
   | b0 :: rest =>
     if b0 <? 128 then (b0, 1%nat)
     else match rest with
          | b1 :: _ => if in_range 194 223 b0 && cont b1
                       then ((b0 - 192) * 64 + (b1 - 128), 2%nat) else decode_rune3 l
          | [] => (65533, 1%nat)
          end
   end)%N.

(** [for _, r := range s]: the runes of a string. *)
Fixpoint runes_fuel (fuel : nat) (l : list N) : list N :=
  match fuel, l with
  | S n, _ :: _ => let '(r, w) := DecodeRune l in r :: runes_fuel n (drop w l)
  | _, _ => []
  end.
Definition runes (s : string) : list N := runes_fuel (String.length s) (string_bytes s).
Definition rune_count (s : string) : Z := Z.of_nat (length (runes s)).

(** [unicode.IsControl]: category Cc. *)
Definition IsControl (r : N) : bool := ((r <? 32) || in_range 127 159 r)%N.

(** ** Trimming *)
Lemma strip_prefix_spec p : forall s r, strip_prefix p s = Some r <-> s = (p ++ r)%string.
Proof.
  induction p as [|a p IH]; intros s r; cbn; [split; [by intros [= ->]|by intros ->]|].
  destruct s as [|b s]; [done|]. destruct (Ascii.eqb_spec a b) as [->|Hne]; [|split; [done|by intros [= ->]]].
  rewrite IH. split; [by intros ->|by intros [= ->]].
Qed.

Lemma strip_any_spec ps s r : strip_any ps s = Some r -> exists p, p ∈ ps /\ s = (p ++ r)%string.
Proof.
  induction ps as [|p ps IH]; cbn; [done|]. destruct (strip_prefix p s) as [x|] eqn:E.
  - intros [= <-]. apply strip_prefix_spec in E. exists p. split; [by left|done].
  - intros (q & ? & ?)%IH. exists q. split; [by right|done].
Qed.

Lemma strip_any_None ps s : strip_any ps s = None <-> forall p r, p ∈ ps -> s <> (p ++ r)%string.
Proof.
  induction ps as [|p ps IH]; cbn; [split; [by intros _ p r ?%elem_of_nil|done]|]. destruct (strip_prefix p s) as [x|] eqn:E.
  - split; [done|]. intros H. apply strip_prefix_spec in E. destruct (H p x); [by left|done].
  - rewrite IH. split.
    + intros H q r [->|Hq]%elem_of_cons; [|by apply H]. intros Hs. apply strip_prefix_spec in Hs. congruence.
    + intros H q r Hq. apply H. by right.
Qed.

Lemma string_app_cons x (a b : string) : (String x a ++ b)%string = String x (a ++ b).
Proof. done. Qed.

Lemma string_length_app (a b : string) : String.length (a ++ b) = (String.length a + String.length b)%nat.
Proof. induction a as [|x a IH]; [done|]. rewrite string_app_cons. cbn. by rewrite IH. Qed.

Lemma string_app_assoc (a b c : string) : ((a ++ b) ++ c)%string = (a ++ (b ++ c))%string.
Proof. induction a as [|x a IH]; [done|]. by rewrite !string_app_cons, IH. Qed.

Lemma string_app_nil (a : string) : (a ++ "")%string = a.
Proof. induction a as [|x a IH]; [done|]. by rewrite !string_app_cons, IH. Qed.

Lemma rev_onto_app s : forall acc, rev_onto s acc = (rev_string s ++ acc)%string.
Proof.
  unfold rev_string. induction s as [|a s IH]; intros acc; cbn; [done|]. by rewrite IH, (IH (String a "")), string_app_assoc.
Qed.

Lemma rev_string_app a b : rev_string (a ++ b) = (rev_string b ++ rev_string a)%string.
Proof.
  induction a as [|x a IH]; [symmetry; apply string_app_nil|]. rewrite string_app_cons.
  unfold rev_string at 1 3. cbn. by rewrite !rev_onto_app, IH, string_app_assoc.
Qed.

Lemma rev_string_involutive s : rev_string (rev_string s) = s.
Proof.
  induction s as [|a s IH]; [done|]. change (rev_string (String a s)) with (rev_onto s (String a "")). by rewrite rev_onto_app, rev_string_app, IH.
Qed.

(** Enough fuel: no space is left at the head, and only a head is gone. *)
Lemma trim_left_spec spaces : Forall (fun p => p <> ""%string) spaces ->
  forall n s, (String.length s <= n)%nat ->
    strip_any spaces (trim_left n spaces s) = None /\ exists p, s = (p ++ trim_left n spaces s)%string.
Proof.
  intros Hs n. induction n as [|n IH]; intros s Hn; cbn.
  - destruct s; [|cbn in Hn; lia]. split; [|by exists ""%string]. apply strip_any_None. intros p r Hp E.
    apply (proj1 (Forall_forall _ _) Hs) in Hp. by destruct p.
  - destruct (strip_any spaces s) as [r|] eqn:E; [|by split; [|exists ""%string]].
    apply strip_any_spec in E as (p & Hp & ->). apply (proj1 (Forall_forall _ _) Hs) in Hp.
    rewrite string_length_app in Hn. destruct (IH r) as (H1 & q & H2); [destruct p; [done|cbn in Hn; lia]|].
    split; [done|]. exists (p ++ q)%string. by rewrite string_app_assoc, <-H2.
Qed.

Lemma trim_left_fix spaces n s : strip_any spaces s = None -> trim_left n spaces s = s.
Proof. by destruct n; cbn; [|intros ->]. Qed.

Lemma TrimSpace_idemp s : TrimSpace (TrimSpace s) = TrimSpace s.
Proof.
  assert (Forall (fun p => p <> ""%string) utf8_spaces) as Hu by (vm_compute; repeat constructor; discriminate).
  assert (Forall (fun p => p <> ""%string) (map rev_string utf8_spaces)) as Hr by (vm_compute; repeat constructor; discriminate).
  unfold TrimSpace at 2 3, trim_with. set (l := trim_left _ utf8_spaces s).
  destruct (trim_left_spec _ Hu (String.length s) s (le_n _)) as [Hl _]. fold l in Hl.
  assert (String.length (rev_string l) <= String.length l)%nat as Hlen.
  { clear. induction l as [|a l IH]; [done|]. unfold rev_string. cbn. rewrite rev_onto_app, string_length_app. cbn. lia. }
  destruct (trim_left_spec _ Hr (String.length l) (rev_string l) Hlen) as (Ht & pre & Hpre).
  set (t := trim_left _ (map rev_string utf8_spaces) (rev_string l)) in *.
  assert (l = (rev_string t ++ rev_string pre)%string) as El by (by rewrite <-rev_string_app, <-Hpre, rev_string_involutive).
  unfold TrimSpace, trim_with. rewrite (trim_left_fix utf8_spaces _ (rev_string t)).
  - rewrite rev_string_involutive, trim_left_fix; done.
  - apply strip_any_None. intros p r Hp E. rewrite El, E, string_app_assoc in Hl.
    by apply (proj1 (strip_any_None _ _) Hl p (r ++ rev_string pre)%string) in Hp.
Qed.

Example TrimSpace_tabs : TrimSpace (bytes [9; 32; 97; 32; 98; 194; 160; 10]%N) = "a b".
Proof. vm_compute. reflexivity. Qed.

Example runes_mixed : runes (bytes [97; 195; 169; 230; 177; 137; 240; 159; 152; 128; 255]%N)
  = [97; 233; 27721; 128512; 65533]%N.
Proof. vm_compute. reflexivity. Qed.
