(* ===== verification/Errors.v ===== *)
(** * Sentinel errors

    One constructor per sentinel error of the modelled packages.  Go compares
    them with [errors.Is], which unwraps [fmt.Errorf("%w: ...")] wrappers, so a
    wrapped sentinel is represented by the sentinel itself; [errors.Join] is the
    constructor [ErrJoin].  The prefix names the package: [Repo] for repository,
    [Res] for reservation, [Sched] for scheduler, [Cmd] for hostcommand, [Rec]
    for reconcile, [Mgmt] for management, [Cat] for imagecatalog,
  [Pool] for warmpool, [Ios] for iossimulator, [Ses] for iossession; the domain's errors have no prefix. *)
From S2P Require Import Prelude.

Inductive Err : Type :=
  (* internal/domain *)
  | ErrInvalidID
  | ErrInvalidStatus
  | ErrReasonRequired
  | ErrTimeRequired
  | ErrDeviceNotHealthy
  | TransitionError (resource id field from to : string)
  (* internal/repository *)
  | RepoErrNotFound
  | RepoErrIdempotencyConflict
  | RepoErrCapacityUnavailable
  | RepoErrPoolUnavailable
  | RepoErrLeaseConflict
  (* internal/scheduler *)
  | SchedErrNoPendingReservation
  | SchedErrCapacityUnavailable
  | SchedErrSTFClaimFailed
  (* internal/reservation *)
  | ResErrInvalidArgument
  | ResErrNotFound
  | ResErrConflict
  | ResErrPoolUnavailable
  | ResErrPoolSelectionUnavailable
  | ResErrCapacityUnavailable
  | ResErrNothingToReap
  | ResErrNothingToReapRemote
  | ResErrForbidden
  | ResErrSTFReleaseFailed
  | ResErrSTFRemoteFailed
  | ResErrIOSSessionCleanup
  (* internal/hostcommand *)
  | CmdErrInvalidArgument
  | CmdErrNotFound
  | CmdErrConflict
  | CmdErrNoCommand
  | CmdErrDeviceIdentityConflict
  (* internal/reconcile *)
  | RecErrInvalidArgument
  | RecErrNotFound
  (* internal/management *)
  | MgmtErrInvalidArgument
  | MgmtErrNotFound
  | MgmtErrConflict
  | MgmtErrImageUnavailable
  | MgmtErrHostUnavailable
  | MgmtErrProviderUnavailable
  | MgmtCapacityError
  (* internal/imagecatalog *)
  | CatErrInvalidArgument
  | CatErrNoBuildAgent
  | CatErrNotFound
  | CatErrConflict
  (* internal/warmpool *)
  | PoolErrNoCapacity
  (* internal/iossimulator *)
  | IosErrInvalidArgument
  | IosErrNotFound
  | IosErrConflict
  | IosErrTargetSatisfied
  (* internal/iossession *)
  | SesErrInvalidArgument
  | SesErrNotFound
  | SesErrForbidden
  | SesErrConflict
  | SesErrGrantExpired
  | SesErrGrantConsumed
  | SesErrRoutingMismatch
  | SesErrProviderBusy
  | SesErrProviderBusyConverging
  | SesErrCleanupFailed
  | SesErrHostUnavailable
  | SesErrNothingToReconcile
  (* outside the sources: the identifier generator, the database, a controller *)
  | ErrGenerateID
  | ErrUniqueViolation (constraint : string)
  | ErrInvalidTextRepresentation
  | ErrNoRows
  | ErrCardinalityViolation
  | ErrCheckViolation (constraint : string)
  | ErrExternal (message : string)
  | ErrJoin (e1 e2 : Err).

#[export] Instance Err_eq_dec : EqDecision Err.
Proof. solve_decision. Defined.

(** [errors.Is] for the sentinels; a [PoolSelectionUnavailableError] answers to
    [reservation.ErrPoolUnavailable] through its [Is] method. *)
Fixpoint errors_is (e target : Err) : bool :=
  bool_decide (e = target)
  || match e with
     | ErrJoin e1 e2 => errors_is e1 target || errors_is e2 target
     | ResErrPoolSelectionUnavailable => bool_decide (target = ResErrPoolUnavailable)
     | _ => false
     end.

(** [reservation.translateRepositoryError]. *)
Definition translateRepositoryError (e : Err) : Err :=
  if errors_is e RepoErrNotFound then ResErrNotFound
  else if errors_is e RepoErrIdempotencyConflict then ResErrConflict
  else if errors_is e RepoErrPoolUnavailable then ResErrPoolUnavailable
  else if errors_is e RepoErrCapacityUnavailable then ResErrCapacityUnavailable
  else e.

(** [hostcommand.translate]. *)
Definition translate (e : Err) : Err :=
  if errors_is e RepoErrNotFound then CmdErrNotFound
  else if errors_is e RepoErrIdempotencyConflict || errors_is e RepoErrLeaseConflict then CmdErrConflict
  else e.

(** [postgres.normalize] of the management store: a unique violation, a failed check and
    a failed cast become the errors of the service. *)
Definition normalize (e : Err) : Err :=
  match e with
  | ErrUniqueViolation _ => MgmtErrConflict
  | ErrCheckViolation _ | ErrInvalidTextRepresentation => MgmtErrInvalidArgument
  | _ => e
  end.

(** [postgres.rowError]: and a missing row. *)
Definition rowError (e : Err) : Err := match e with ErrNoRows => MgmtErrNotFound | _ => normalize e end.
