(* ===== verification/Domain.v ===== *)
(** * The device domain: statuses, transition tables and aggregates

    Models [internal/domain]: the six status machines and the [Device] aggregate.
    A Go status is a string; each enumeration has the source's constants as
    constructors and one more constructor for any other string, so that the
    validity checks of the code are real tests.  Aggregates are mutated through
    pointers in Go: an operation returns its error and the aggregate after the
    call, because a rejected transition also appends to the event log. *)
From S2P Require Import Prelude GoText Errors.

(** ** Statuses *)
Inductive DeviceLifecycleStatus : Type :=
  | DeviceProvisioning | DeviceBooting | DeviceReady | DeviceReserved | DeviceBusy
  | DeviceRecycling | DeviceStopped | DeviceQuarantined | DeviceDeleted
  | DeviceLifecycleOther (s : string).

Inductive HealthStatus : Type :=
  | HealthUnknown | HealthHealthy | HealthDegraded | HealthUnhealthy | HealthOther (s : string).

Inductive PoolStatus : Type := PoolActive | PoolDisabled | PoolOther (s : string).

Inductive ReservationStatus : Type :=
  | ReservationPending | ReservationActive | ReservationReleased | ReservationFailed
  | ReservationExpired | ReservationForceReleased | ReservationOther (s : string).

Inductive SessionStatus : Type :=
  | SessionStarting | SessionActive | SessionClosing | SessionClosed | SessionFailed
  | SessionOther (s : string).

Inductive CommandStatus : Type :=
  | CommandPending | CommandLeased | CommandSucceeded | CommandFailed | CommandTimedOut
  | CommandCanceled | CommandOther (s : string).

Inductive ImageStatus : Type :=
  | ImageDraft | ImageValidating | ImageReady | ImageFailed | ImageDisabled | ImageOther (s : string).

Inductive HostStatus : Type :=
  | HostOnline | HostOffline | HostDraining | HostMaintenance | HostOther (s : string).

#[export] Instance DeviceLifecycleStatus_eq : EqDecision DeviceLifecycleStatus. Proof. solve_decision. Defined.
#[export] Instance HealthStatus_eq : EqDecision HealthStatus. Proof. solve_decision. Defined.
#[export] Instance PoolStatus_eq : EqDecision PoolStatus. Proof. solve_decision. Defined.
#[export] Instance ReservationStatus_eq : EqDecision ReservationStatus. Proof. solve_decision. Defined.
#[export] Instance SessionStatus_eq : EqDecision SessionStatus. Proof. solve_decision. Defined.
#[export] Instance CommandStatus_eq : EqDecision CommandStatus. Proof. solve_decision. Defined.
#[export] Instance ImageStatus_eq : EqDecision ImageStatus. Proof. solve_decision. Defined.
#[export] Instance HostStatus_eq : EqDecision HostStatus. Proof. solve_decision. Defined.

(** The conversions between a status and its string, Go's [string(s)] and [T(s)].
    [names] lists the declared constants. *)
Class Status (S : Type) : Type := {
  status_names : list (S * string);
  status_other : string -> S;
  status_string : S -> string;
}.

Definition of_string {S} `{Status S} (s : string) : S :=
  match first_where (fun p => bool_decide (p.2 = s)) status_names with
  | Some p => p.1
  | None => status_other s
  end.

#[export] Instance DeviceLifecycle_status : Status DeviceLifecycleStatus := {
  status_names := [(DeviceProvisioning, "provisioning"); (DeviceBooting, "booting"); (DeviceReady, "ready");
    (DeviceReserved, "reserved"); (DeviceBusy, "busy"); (DeviceRecycling, "recycling");
    (DeviceStopped, "stopped"); (DeviceQuarantined, "quarantined"); (DeviceDeleted, "deleted")];
  status_other := DeviceLifecycleOther;
  status_string s := match s with
    | DeviceProvisioning => "provisioning" | DeviceBooting => "booting" | DeviceReady => "ready"
    | DeviceReserved => "reserved" | DeviceBusy => "busy" | DeviceRecycling => "recycling"
    | DeviceStopped => "stopped" | DeviceQuarantined => "quarantined" | DeviceDeleted => "deleted"
    | DeviceLifecycleOther x => x end }.

#[export] Instance Health_status : Status HealthStatus := {
  status_names := [(HealthUnknown, "unknown"); (HealthHealthy, "healthy");
    (HealthDegraded, "degraded"); (HealthUnhealthy, "unhealthy")];
  status_other := HealthOther;
  status_string s := match s with
    | HealthUnknown => "unknown" | HealthHealthy => "healthy" | HealthDegraded => "degraded"
    | HealthUnhealthy => "unhealthy" | HealthOther x => x end }.

#[export] Instance Pool_status : Status PoolStatus := {
  status_names := [(PoolActive, "active"); (PoolDisabled, "disabled")];
  status_other := PoolOther;
  status_string s := match s with PoolActive => "active" | PoolDisabled => "disabled" | PoolOther x => x end }.

#[export] Instance Reservation_status : Status ReservationStatus := {
  status_names := [(ReservationPending, "pending"); (ReservationActive, "active");
    (ReservationReleased, "released"); (ReservationFailed, "failed");
    (ReservationExpired, "expired"); (ReservationForceReleased, "force_released")];
  status_other := ReservationOther;
  status_string s := match s with
    | ReservationPending => "pending" | ReservationActive => "active" | ReservationReleased => "released"
    | ReservationFailed => "failed" | ReservationExpired => "expired"
    | ReservationForceReleased => "force_released" | ReservationOther x => x end }.

#[export] Instance Session_status : Status SessionStatus := {
  status_names := [(SessionStarting, "starting"); (SessionActive, "active"); (SessionClosing, "closing");
    (SessionClosed, "closed"); (SessionFailed, "failed")];
  status_other := SessionOther;
  status_string s := match s with
    | SessionStarting => "starting" | SessionActive => "active" | SessionClosing => "closing"
    | SessionClosed => "closed" | SessionFailed => "failed" | SessionOther x => x end }.

#[export] Instance Command_status : Status CommandStatus := {
  status_names := [(CommandPending, "pending"); (CommandLeased, "leased"); (CommandSucceeded, "succeeded");
    (CommandFailed, "failed"); (CommandTimedOut, "timed_out"); (CommandCanceled, "canceled")];
  status_other := CommandOther;
  status_string s := match s with
    | CommandPending => "pending" | CommandLeased => "leased" | CommandSucceeded => "succeeded"
    | CommandFailed => "failed" | CommandTimedOut => "timed_out" | CommandCanceled => "canceled"
    | CommandOther x => x end }.

#[export] Instance Image_status : Status ImageStatus := {
  status_names := [(ImageDraft, "draft"); (ImageValidating, "validating"); (ImageReady, "ready");
    (ImageFailed, "failed"); (ImageDisabled, "disabled")];
  status_other := ImageOther;
  status_string s := match s with
    | ImageDraft => "draft" | ImageValidating => "validating" | ImageReady => "ready"
    | ImageFailed => "failed" | ImageDisabled => "disabled" | ImageOther x => x end }.

#[export] Instance Host_status : Status HostStatus := {
  status_names := [(HostOnline, "online"); (HostOffline, "offline"); (HostDraining, "draining");
    (HostMaintenance, "maintenance")];
  status_other := HostOther;
  status_string s := match s with
    | HostOnline => "online" | HostOffline => "offline" | HostDraining => "draining"
    | HostMaintenance => "maintenance" | HostOther x => x end }.

(** ** Transition tables: Go's [map[S]map[S]struct{}], [None] for an absent key *)
Definition allowed {S} (values : list S) : option (list S) := Some values.

Definition deviceTransitions (s : DeviceLifecycleStatus) : option (list DeviceLifecycleStatus) :=
  match s with
  | DeviceProvisioning => allowed [DeviceBooting; DeviceQuarantined; DeviceDeleted]
  | DeviceBooting => allowed [DeviceReady; DeviceStopped; DeviceQuarantined]
  | DeviceReady => allowed [DeviceProvisioning; DeviceReserved; DeviceRecycling; DeviceStopped; DeviceQuarantined; DeviceDeleted]
  | DeviceReserved => allowed [DeviceBusy; DeviceReady; DeviceRecycling; DeviceQuarantined]
  | DeviceBusy => allowed [DeviceReady; DeviceRecycling; DeviceQuarantined]
  | DeviceRecycling => allowed [DeviceReady; DeviceStopped; DeviceQuarantined]
  | DeviceStopped => allowed [DeviceProvisioning; DeviceBooting; DeviceQuarantined; DeviceDeleted]
  | DeviceQuarantined => allowed [DeviceProvisioning; DeviceDeleted]
  | DeviceDeleted => allowed []
  | DeviceLifecycleOther _ => None
  end.

Definition healthTransitions (s : HealthStatus) : option (list HealthStatus) :=
  match s with
  | HealthUnknown => allowed [HealthHealthy; HealthDegraded; HealthUnhealthy]
  | HealthHealthy => allowed [HealthUnknown; HealthDegraded; HealthUnhealthy]
  | HealthDegraded => allowed [HealthUnknown; HealthHealthy; HealthUnhealthy]
  | HealthUnhealthy => allowed [HealthUnknown; HealthHealthy; HealthDegraded]
  | HealthOther _ => None
  end.

Definition poolTransitions (s : PoolStatus) : option (list PoolStatus) :=
  match s with
  | PoolActive => allowed [PoolDisabled]
  | PoolDisabled => allowed [PoolActive]
  | PoolOther _ => None
  end.

Definition reservationTransitions (s : ReservationStatus) : option (list ReservationStatus) :=
  match s with
  | ReservationPending => allowed [ReservationActive; ReservationFailed]
  | ReservationActive => allowed [ReservationReleased; ReservationExpired; ReservationForceReleased]
  | ReservationReleased | ReservationFailed | ReservationExpired | ReservationForceReleased => allowed []
  | ReservationOther _ => None
  end.

Definition sessionTransitions (s : SessionStatus) : option (list SessionStatus) :=
  match s with
  | SessionStarting => allowed [SessionActive; SessionFailed]
  | SessionActive => allowed [SessionClosing; SessionFailed]
  | SessionClosing => allowed [SessionClosed; SessionFailed]
  | SessionClosed | SessionFailed => allowed []
  | SessionOther _ => None
  end.

Definition commandTransitions (s : CommandStatus) : option (list CommandStatus) :=
  match s with
  | CommandPending => allowed [CommandLeased; CommandCanceled]
  | CommandLeased => allowed [CommandPending; CommandSucceeded; CommandFailed; CommandTimedOut; CommandCanceled]
  | CommandSucceeded | CommandFailed | CommandTimedOut | CommandCanceled => allowed []
  | CommandOther _ => None
  end.

Definition imageTransitions (s : ImageStatus) : option (list ImageStatus) :=
  match s with
  | ImageDraft => allowed [ImageValidating; ImageDisabled]
  | ImageValidating => allowed [ImageDraft; ImageReady; ImageFailed; ImageDisabled]
  | ImageReady => allowed [ImageDraft; ImageValidating; ImageDisabled]
  | ImageFailed => allowed [ImageDraft; ImageValidating; ImageDisabled]
  | ImageDisabled => allowed [ImageDraft]
  | ImageOther _ => None
  end.

Definition hostTransitions (s : HostStatus) : option (list HostStatus) :=
  match s with
  | HostOnline => allowed [HostOffline; HostDraining; HostMaintenance]
  | HostOffline => allowed [HostOnline; HostMaintenance]
  | HostDraining => allowed [HostOnline; HostOffline; HostMaintenance]
  | HostMaintenance => allowed [HostOnline; HostOffline]
  | HostOther _ => None
  end.

(** [_, ok := transitions[from][to]]: indexing an absent inner map finds nothing. *)
Definition has_edge {S} `{EqDecision S} (t : S -> option (list S)) (from to : S) : bool :=
  match t from with Some l => bool_decide (to ∈ l) | None => false end.

Definition is_key {S} (t : S -> option (list S)) (s : S) : bool :=
  match t s with Some _ => true | None => false end.

Definition validDeviceLifecycleStatus := is_key deviceTransitions.
Definition validHealthStatus := is_key healthTransitions.
Definition validPoolStatus := is_key poolTransitions.
Definition validReservationStatus := is_key reservationTransitions.
Definition validSessionStatus := is_key sessionTransitions.
Definition validCommandStatus := is_key commandTransitions.
Definition validImageStatus := is_key imageTransitions.
Definition validHostStatus := is_key hostTransitions.

(** ** The generic state machine *)
Record TransitionEvent : Type := mkEvent {
  ev_resource : string; ev_id : string; ev_field : string; ev_from : string; ev_to : string;
  ev_reason : string; ev_at : Z; ev_accepted : bool; ev_error_code : string }.

Record stateMachine (S : Type) : Type := mkMachine {
  sm_resource : string; sm_id : string; sm_field : string; sm_status : S;
  sm_valid : S -> bool; sm_transitions : S -> option (list S); sm_events : list TransitionEvent }.
Arguments mkMachine {S}. Arguments sm_resource {S}. Arguments sm_id {S}. Arguments sm_field {S}.
Arguments sm_status {S}. Arguments sm_valid {S}. Arguments sm_transitions {S}. Arguments sm_events {S}.

#[export] Instance eta_machine S : Eta (stateMachine S) := fun m =>
  mkMachine (sm_resource m) (sm_id m) (sm_field m) (sm_status m) (sm_valid m) (sm_transitions m) (sm_events m).

(** [time.Time.IsZero]. *)
Definition IsZero (at_ : Z) : bool := at_ =? 0.

Section Machine.
Context {S : Type} `{EqDecision S} `{Status S}.

Definition newStateMachine (resource id field : string) (status : S) (valid : S -> bool)
    (transitions : S -> option (list S)) : result Err (stateMachine S) :=
  if negb (identifierPattern id) then Fail ErrInvalidID
  else if negb (valid status) then Fail ErrInvalidStatus
  else Ok (mkMachine resource id field status valid transitions []).

Definition machine_event (m : stateMachine S) (to : S) (reason : string) (at_ : Z)
    (accepted : bool) (code : string) : TransitionEvent :=
  mkEvent (sm_resource m) (sm_id m) (sm_field m) (status_string (sm_status m)) (status_string to)
    (TrimSpace reason) at_ accepted code.

Definition recordRejected (m : stateMachine S) (to : S) (reason : string) (at_ : Z) (code : string)
    : stateMachine S :=
  m <| sm_events := sm_events m ++ [machine_event m to reason at_ false code] |>.

Definition transition (m : stateMachine S) (to : S) (reason : string) (at_ : Z)
    : result Err unit * stateMachine S :=
  if negb (sm_valid m to) then (Fail ErrInvalidStatus, m)
  else if blank reason then (Fail ErrReasonRequired, m)
  else if IsZero at_ then (Fail ErrTimeRequired, m)
  else if negb (has_edge (sm_transitions m) (sm_status m) to) then
    (Fail (TransitionError (sm_resource m) (sm_id m) (sm_field m)
             (status_string (sm_status m)) (status_string to)),
     recordRejected m to reason at_ "INVALID_STATE_TRANSITION")
  else
    (Ok tt,
     m <| sm_status := to |>
       <| sm_events := sm_events m ++ [machine_event m to reason at_ true ""] |>).

Definition clearEvents (m : stateMachine S) : stateMachine S := m <| sm_events := [] |>.
End Machine.

(** ** Aggregates over one status *)
Definition Pool : Type := stateMachine PoolStatus.
Definition RestorePool (id : string) (status : PoolStatus) : result Err Pool :=
  newStateMachine "device_pool" id "status" status validPoolStatus poolTransitions.
Definition NewPool (id : string) : result Err Pool := RestorePool id PoolActive.

Definition Reservation : Type := stateMachine ReservationStatus.
Definition RestoreReservation (id : string) (status : ReservationStatus) : result Err Reservation :=
  newStateMachine "device_reservation" id "status" status validReservationStatus reservationTransitions.

Definition Session : Type := stateMachine SessionStatus.
Definition RestoreSession (id : string) (status : SessionStatus) : result Err Session :=
  newStateMachine "device_session" id "status" status validSessionStatus sessionTransitions.
Definition NewSession (id : string) : result Err Session := RestoreSession id SessionStarting.

Definition Command : Type := stateMachine CommandStatus.
Definition RestoreCommand (id : string) (status : CommandStatus) : result Err Command :=
  newStateMachine "device_host_command" id "status" status validCommandStatus commandTransitions.

Definition Image : Type := stateMachine ImageStatus.
Definition RestoreImage (id : string) (status : ImageStatus) : result Err Image :=
  newStateMachine "device_image" id "status" status validImageStatus imageTransitions.
Definition NewImage (id : string) : result Err Image := RestoreImage id ImageDraft.

Definition Host : Type := stateMachine HostStatus.
Definition RestoreHost (id : string) (status : HostStatus) : result Err Host :=
  newStateMachine "device_host" id "status" status validHostStatus hostTransitions.

(** ** The Device aggregate: a lifecycle machine, a health value and its own log *)
Record Device : Type := mkDevice {
  dv_lifecycle : stateMachine DeviceLifecycleStatus;
  dv_health : HealthStatus;
  dv_events : list TransitionEvent }.
#[export] Instance eta_Device : Eta Device := fun d => mkDevice (dv_lifecycle d) (dv_health d) (dv_events d).

Definition RestoreDevice (id : string) (lifecycle : DeviceLifecycleStatus) (health : HealthStatus)
    : result Err Device :=
  match newStateMachine "device" id "lifecycle_status" lifecycle validDeviceLifecycleStatus deviceTransitions with
  | Fail e => Fail e
  | Ok state => if negb (validHealthStatus health) then Fail ErrInvalidStatus else Ok (mkDevice state health [])
  end.

Definition Lifecycle (d : Device) : DeviceLifecycleStatus := sm_status (dv_lifecycle d).
Definition Health (d : Device) : HealthStatus := dv_health d.

Definition Transition (d : Device) (to : DeviceLifecycleStatus) (reason : string) (at_ : Z)
    : result Err unit * Device :=
  if bool_decide (to = DeviceReady) && negb (bool_decide (dv_health d = HealthHealthy)) then
    (Fail ErrDeviceNotHealthy,
     if negb (blank reason) && negb (IsZero at_)
     then d <| dv_lifecycle := recordRejected (dv_lifecycle d) to reason at_ "DEVICE_NOT_HEALTHY" |>
     else d)
  else
    let '(r, m) := transition (dv_lifecycle d) to reason at_ in
    (r, d <| dv_lifecycle := m |>).

Definition health_event (d : Device) (to : HealthStatus) (reason : string) (at_ : Z)
    (accepted : bool) (code : string) : TransitionEvent :=
  mkEvent "device" (sm_id (dv_lifecycle d)) "health_status" (status_string (dv_health d)) (status_string to)
    (TrimSpace reason) at_ accepted code.

Definition UpdateHealth (d : Device) (to : HealthStatus) (reason : string) (at_ : Z)
    : result Err unit * Device :=
  if negb (validHealthStatus to) then (Fail ErrInvalidStatus, d)
  else if blank reason then (Fail ErrReasonRequired, d)
  else if IsZero at_ then (Fail ErrTimeRequired, d)
  else if negb (has_edge healthTransitions (dv_health d) to) then
    (Fail (TransitionError "device" (sm_id (dv_lifecycle d)) "health_status"
             (status_string (dv_health d)) (status_string to)),
     d <| dv_events := dv_events d ++ [health_event d to reason at_ false "INVALID_STATE_TRANSITION"] |>)
  else
    (Ok tt,
     d <| dv_health := to |>
       <| dv_events := dv_events d ++ [health_event d to reason at_ true ""] |>).

Definition IsSchedulable (d : Device) : bool :=
  bool_decide (Lifecycle d = DeviceReady) && bool_decide (Health d = HealthHealthy).

(** [sort.SliceStable(result, func(l, r) { return result[l].At.Before(result[r].At) })]. *)
Fixpoint insert_event (e : TransitionEvent) (l : list TransitionEvent) : list TransitionEvent :=
  match l with
  | [] => [e]
  | x :: l' => if ev_at x <? ev_at e then x :: insert_event e l' else e :: x :: l'
  end.
Definition stable_sort_events (l : list TransitionEvent) : list TransitionEvent :=
  foldr insert_event [] l.

Definition Events (d : Device) : list TransitionEvent :=
  stable_sort_events (sm_events (dv_lifecycle d) ++ dv_events d).

(** ** Health reasons *)
Definition HostUnavailableReason : string := "设备宿主机离线或暂不可用".
Definition STFReadinessStabilizationReason : string := "STF readiness stabilization is in progress".
Definition AgentReportedUnhealthyReason : string :=
  "agent heartbeat reported an assigned or schedulable device is not healthy".

Definition IsSTFFailureReason (reason : string) : bool :=
  let reason := TrimSpace reason in
  bool_decide (reason = "device is not visible through STF") || HasPrefix reason "STF ".

Definition IsSystemRecoverableHealthReason (reason : string) : bool :=
  let reason := TrimSpace reason in
  bool_decide (reason = HostUnavailableReason) || bool_decide (reason = AgentReportedUnhealthyReason)
  || IsSTFFailureReason reason || HasPrefix reason "IOS_PROVIDER_DEVICE_MISSING:".
