(* ===== verification/DomainSpec.v ===== *)
(** * Properties of the domain aggregates

    Helper lemmas about one call of [transition], [Transition] and
    [UpdateHealth], and the theorems about arbitrary sequences of calls. *)
From S2P Require Import Prelude GoText Errors Domain.

(** ** One call *)
Section OneCall.
Context {S : Type} `{EqDecision S} `{Status S}.
Implicit Types m : stateMachine S.

(** What one call of [transition] can do to a machine. *)
Inductive machine_effect (m : stateMachine S) : result Err unit -> stateMachine S -> Prop :=
  | effect_none e : machine_effect m (Fail e) m
  | effect_rejected to reason at_ code :
      has_edge (sm_transitions m) (sm_status m) to = false ->
      machine_effect m (Fail (TransitionError (sm_resource m) (sm_id m) (sm_field m)
          (status_string (sm_status m)) (status_string to))) (recordRejected m to reason at_ code)
  | effect_accepted to reason at_ :
      has_edge (sm_transitions m) (sm_status m) to = true ->
      machine_effect m (Ok tt) (m <| sm_status := to |>
         <| sm_events := sm_events m ++ [machine_event m to reason at_ true ""] |>).

Lemma transition_effect m to reason at_ :
  machine_effect m (transition m to reason at_).1 (transition m to reason at_).2.
Proof.
  unfold transition.
  destruct (sm_valid m to); cbn; [|by constructor].
  destruct (blank reason); cbn; [by constructor|].
  destruct (IsZero at_); cbn; [by constructor|].
  destruct (has_edge _ _ to) eqn:He; cbn; by constructor.
Qed.

(** A call with proper arguments succeeds exactly along an edge of the table. *)
Lemma transition_ok m to reason at_ :
  sm_valid m to = true -> blank reason = false -> at_ <> 0 ->
  has_edge (sm_transitions m) (sm_status m) to = true ->
  (transition m to reason at_).1 = Ok tt /\ sm_status (transition m to reason at_).2 = to.
Proof.
  intros Hv Hb Ht He. unfold transition, IsZero.
  rewrite Hv, Hb, He. apply Z.eqb_neq in Ht. by rewrite Ht.
Qed.

Lemma transition_frame m to reason at_ :
  let m' := (transition m to reason at_).2 in
  sm_id m' = sm_id m /\ sm_valid m' = sm_valid m /\ sm_transitions m' = sm_transitions m.
Proof. destruct (transition_effect m to reason at_); done. Qed.

Lemma transition_fail_status m to reason at_ e :
  (transition m to reason at_).1 = Fail e -> sm_status (transition m to reason at_).2 = sm_status m.
Proof. destruct (transition_effect m to reason at_); done. Qed.

Lemma transition_success m to reason at_ :
  (transition m to reason at_).1 = Ok tt ->
  has_edge (sm_transitions m) (sm_status m) to = true /\ sm_status (transition m to reason at_).2 = to.
Proof.
  unfold transition.
  destruct (sm_valid m to); cbn; [|done].
  destruct (blank reason); cbn; [done|].
  destruct (IsZero at_); cbn; [done|].
  by destruct (has_edge _ _ to).
Qed.
End OneCall.

(** ** Sequences of calls on one machine *)
Definition call (S : Type) : Type := S * string * Z.

Definition run_calls {S} `{EqDecision S} `{Status S} (m : stateMachine S) (cs : list (call S)) : stateMachine S :=
  foldl (fun m '(to, reason, at_) => (transition m to reason at_).2) m cs.

(** Replaying a log from a status: every event starts at the current status and
    an accepted one moves it. *)
Fixpoint replay (s : string) (l : list TransitionEvent) : option string :=
  match l with
  | [] => Some s
  | e :: l' => if bool_decide (ev_from e = s)
               then replay (if ev_accepted e then ev_to e else s) l' else None
  end.

Lemma replay_snoc l : forall s t e,
  replay s l = Some t -> ev_from e = t ->
  replay s (l ++ [e]) = Some (if ev_accepted e then ev_to e else t).
Proof.
  induction l as [|x l IH]; intros s t e; cbn.
  - intros [= ->] ->. by rewrite bool_decide_eq_true_2.
  - case_bool_decide; [|done]. intros Hr He. by apply IH.
Qed.

(** the event log of a machine is a faithful history.  Whatever sequence of
    transitions is requested on a freshly restored machine, replaying its log from
    the restored status gives its current status, and every accepted event is an
    edge of the machine's transition table. *)
Theorem event_log_replays {S} `{EqDecision S} `{Status S} (m0 : stateMachine S) (cs : list (call S)) :
  sm_events m0 = [] ->
  let m := run_calls m0 cs in
  replay (status_string (sm_status m0)) (sm_events m) = Some (status_string (sm_status m))
  /\ Forall (fun e => ev_accepted e = true -> exists s t,
       has_edge (sm_transitions m0) s t = true /\ ev_from e = status_string s /\ ev_to e = status_string t)
     (sm_events m).
Proof.
  intros Hnil. unfold run_calls.
  enough (forall m, sm_transitions m = sm_transitions m0 ->
    replay (status_string (sm_status m0)) (sm_events m) = Some (status_string (sm_status m)) ->
    Forall (fun e => ev_accepted e = true -> exists s t,
       has_edge (sm_transitions m0) s t = true /\ ev_from e = status_string s /\ ev_to e = status_string t)
     (sm_events m) ->
    let m' := foldl (fun m '(to, reason, at_) => (transition m to reason at_).2) m cs in
    replay (status_string (sm_status m0)) (sm_events m') = Some (status_string (sm_status m'))
    /\ Forall (fun e => ev_accepted e = true -> exists s t,
       has_edge (sm_transitions m0) s t = true /\ ev_from e = status_string s /\ ev_to e = status_string t)
     (sm_events m')) as Hgen.
  { apply Hgen; rewrite ?Hnil; done. }
  induction cs as [|[[to reason] at_] cs IH]; intros m Htr Hrep Hall; cbn; [done|].
  pose proof (transition_frame m to reason at_) as (_ & _ & Hfr). cbn in Hfr.
  apply IH; [congruence| |]; destruct (transition_effect m to reason at_); cbn; try done.
  - by rewrite (replay_snoc _ _ _ _ Hrep).
  - by rewrite (replay_snoc _ _ _ _ Hrep).
  - apply Forall_app; split; [done|]. constructor; [|constructor]. intros [=].
  - apply Forall_app; split; [done|]. constructor; [|constructor]. intros _.
    eexists _, _. split_and!; [rewrite <-Htr; eassumption|reflexivity|reflexivity].
Qed.

Definition sample_machine : stateMachine DeviceLifecycleStatus :=
  mkMachine "device" "device-0000000001" "lifecycle_status" DeviceBooting
    validDeviceLifecycleStatus deviceTransitions [].

Example event_log_replays_witness :
  replay "booting" (sm_events (run_calls sample_machine
     [(DeviceReady, "checks passed", 5); (DeviceBusy, "skipped a step", 6); (DeviceReserved, "reserved", 7)]))
  = Some "reserved".
Proof.
  exact (proj1 (event_log_replays sample_machine
    [(DeviceReady, "checks passed", 5); (DeviceBusy, "skipped a step", 6); (DeviceReserved, "reserved", 7)]
    eq_refl)).
Defined.

(** terminal statuses are final.  Once a machine is in a status with no outgoing
    edge (a deleted device, a closed or failed session, a finished reservation or a
    completed command), no sequence of requests changes its status. *)
Theorem terminal_absorbing {S} `{EqDecision S} `{Status S} (m : stateMachine S) (cs : list (call S)) :
  sm_transitions m (sm_status m) = Some [] ->
  sm_status (run_calls m cs) = sm_status m.
Proof.
  unfold run_calls. revert m. induction cs as [|[[to reason] at_] cs IH]; intros m Hm; cbn; [done|].
  assert (sm_status (transition m to reason at_).2 = sm_status m
    /\ sm_transitions (transition m to reason at_).2 = sm_transitions m) as [Hst Htr].
  { destruct (transition_effect m to reason at_) as [| |? ? ? He]; [done|done|].
    unfold has_edge in He. rewrite Hm in He. case_bool_decide as Hin; [|done].
    by apply not_elem_of_nil in Hin. }
  rewrite IH; [done|]. by rewrite Hst, Htr.
Qed.

Example terminal_absorbing_witness :
  sm_status (run_calls (sample_machine <| sm_status := DeviceDeleted |>)
    [(DeviceProvisioning, "rebuild", 9); (DeviceReady, "ready", 10)]) = DeviceDeleted.
Proof. exact (terminal_absorbing (sample_machine <| sm_status := DeviceDeleted |>) _ eq_refl). Defined.

(** ** The Device aggregate *)
Inductive device_call : Type :=
  | CallTransition (to : DeviceLifecycleStatus) (reason : string) (at_ : Z)
  | CallUpdateHealth (to : HealthStatus) (reason : string) (at_ : Z).

Definition device_step (d : Device) (c : device_call) : result Err unit * Device :=
  match c with
  | CallTransition to reason at_ => Transition d to reason at_
  | CallUpdateHealth to reason at_ => UpdateHealth d to reason at_
  end.

Lemma Transition_success d to reason at_ :
  (Transition d to reason at_).1 = Ok tt ->
  (to = DeviceReady -> Health d = HealthHealthy)
  /\ has_edge (sm_transitions (dv_lifecycle d)) (Lifecycle d) to = true
  /\ Lifecycle (Transition d to reason at_).2 = to
  /\ Health (Transition d to reason at_).2 = Health d.
Proof.
  unfold Transition, Lifecycle, Health. case_bool_decide; cbn.
  - case_bool_decide; cbn; [|done].
    destruct (transition _ _ _ _) as [r m] eqn:E; cbn. intros ->.
    pose proof (transition_success (dv_lifecycle d) to reason at_) as Hs. rewrite E in Hs.
    destruct (Hs eq_refl) as [He Hst]. done.
  - destruct (transition _ _ _ _) as [r m] eqn:E; cbn. intros ->.
    pose proof (transition_success (dv_lifecycle d) to reason at_) as Hs. rewrite E in Hs.
    destruct (Hs eq_refl) as [He Hst]. done.
Qed.

Lemma Transition_fail d to reason at_ e :
  (Transition d to reason at_).1 = Fail e ->
  Lifecycle (Transition d to reason at_).2 = Lifecycle d /\ Health (Transition d to reason at_).2 = Health d.
Proof.
  unfold Transition, Lifecycle, Health. destruct (_ && _); cbn.
  - by destruct (_ && _).
  - destruct (transition _ _ _ _) as [r m] eqn:E; cbn. intros ->.
    pose proof (transition_fail_status (dv_lifecycle d) to reason at_ e) as Hs. rewrite E in Hs. auto.
Qed.

Lemma UpdateHealth_success d to reason at_ :
  (UpdateHealth d to reason at_).1 = Ok tt ->
  has_edge healthTransitions (Health d) to = true
  /\ Health (UpdateHealth d to reason at_).2 = to
  /\ Lifecycle (UpdateHealth d to reason at_).2 = Lifecycle d.
Proof.
  unfold UpdateHealth, Health, Lifecycle. destruct (validHealthStatus to); cbn; [|done].
  destruct (blank reason); cbn; [done|]. destruct (IsZero at_); cbn; [done|].
  by destruct (has_edge _ _ to).
Qed.

Lemma UpdateHealth_fail d to reason at_ e :
  (UpdateHealth d to reason at_).1 = Fail e ->
  Health (UpdateHealth d to reason at_).2 = Health d /\ Lifecycle (UpdateHealth d to reason at_).2 = Lifecycle d.
Proof.
  unfold UpdateHealth, Health, Lifecycle. destruct (validHealthStatus to); cbn; [|done].
  destruct (blank reason); cbn; [done|]. destruct (IsZero at_); cbn; [done|].
  by destruct (has_edge _ _ to).
Qed.

(** a device becomes schedulable (ready and healthy) through exactly two calls,
    both successful: a transition to ready along an edge of the lifecycle table while
    the device is already healthy, or a recovery of its health while it is ready. *)
Theorem schedulable_entry (d : Device) (c : device_call) :
  IsSchedulable d = false -> IsSchedulable (device_step d c).2 = true ->
  (device_step d c).1 = Ok tt
  /\ match c with
     | CallTransition to _ _ =>
       to = DeviceReady /\ Health d = HealthHealthy
       /\ has_edge (sm_transitions (dv_lifecycle d)) (Lifecycle d) DeviceReady = true
     | CallUpdateHealth to _ _ =>
       to = HealthHealthy /\ Lifecycle d = DeviceReady
       /\ has_edge healthTransitions (Health d) HealthHealthy = true
     end.
Proof.
  unfold IsSchedulable. intros Hno Hyes.
  apply andb_true_iff in Hyes as [Hl Hh]. apply bool_decide_eq_true in Hl, Hh.
  apply andb_false_iff in Hno. destruct c as [to reason at_|to reason at_]; cbn [device_step] in *.
  - destruct (Transition d to reason at_).1 as [[]|e] eqn:Hr.
    + apply Transition_success in Hr as (_ & He & Hl' & Hh'). split; [done|].
      rewrite Hl' in Hl. subst. rewrite Hh' in Hh. done.
    + apply Transition_fail in Hr as [El Eh]. rewrite El in Hl. rewrite Eh in Hh.
      destruct Hno as [[]%bool_decide_eq_false|[]%bool_decide_eq_false]; done.
  - destruct (UpdateHealth d to reason at_).1 as [[]|e] eqn:Hr.
    + apply UpdateHealth_success in Hr as (He & Hh' & Hl'). split; [done|].
      rewrite Hh' in Hh. subst. rewrite Hl' in Hl. done.
    + apply UpdateHealth_fail in Hr as [Eh El]. rewrite El in Hl. rewrite Eh in Hh.
      destruct Hno as [[]%bool_decide_eq_false|[]%bool_decide_eq_false]; done.
Qed.

Definition sample_device : Device := mkDevice sample_machine HealthHealthy [].

Example schedulable_entry_witness :
  (device_step sample_device (CallTransition DeviceReady "checks passed" 5)).1 = Ok tt.
Proof. exact (proj1 (schedulable_entry sample_device (CallTransition DeviceReady "checks passed" 5) eq_refl eq_refl)). Defined.

(** The failure path every controller shares: mark the device unhealthy unless it
    already is, then quarantine it unless it already is. *)
Definition quarantine_path (d : Device) (reason : string) (at_ : Z) : result Err unit * Device :=
  let '(r1, d1) := if bool_decide (Health d = HealthUnhealthy) then (Ok tt, d)
                   else UpdateHealth d HealthUnhealthy reason at_ in
  match r1 with
  | Fail e => (Fail e, d1)
  | Ok _ => if bool_decide (Lifecycle d1 = DeviceQuarantined) then (Ok tt, d1)
            else Transition d1 DeviceQuarantined reason at_
  end.

(** the failure path cannot fail.  For every device restored from a valid row that
    is not deleted, marking it unhealthy and quarantining it succeeds and leaves it
    quarantined and unhealthy; a deleted device is the only one it refuses. *)
Theorem quarantine_path_total (id reason : string) (l : DeviceLifecycleStatus) (h : HealthStatus) (at_ : Z) (d : Device) :
  RestoreDevice id l h = Ok d -> blank reason = false -> at_ <> 0 ->
  if bool_decide (l = DeviceDeleted) then is_ok (quarantine_path d reason at_).1 = false
  else (quarantine_path d reason at_).1 = Ok tt
       /\ Lifecycle (quarantine_path d reason at_).2 = DeviceQuarantined
       /\ Health (quarantine_path d reason at_).2 = HealthUnhealthy.
Proof.
  unfold RestoreDevice, newStateMachine. intros Hd Hb Ht.
  destruct (identifierPattern id); [|done]. cbn in Hd.
  destruct (validDeviceLifecycleStatus l) eqn:Hl; [|done]. cbn in Hd.
  destruct (validHealthStatus h) eqn:Hh; [|done]. injection Hd as <-.
  unfold quarantine_path, Lifecycle, Health, UpdateHealth, Transition, transition, IsZero, blank in *.
  apply Z.eqb_neq in Ht. cbn. rewrite Hb, Ht.
  destruct h; try done; destruct l; try done; cbn; rewrite ?Hb, ?Ht; cbn; rewrite ?Hb, ?Ht; done.
Qed.

Example quarantine_path_total_witness :
  (quarantine_path sample_device "no heartbeat" 7).1 = Ok tt.
Proof.
  exact (proj1 (quarantine_path_total "device-0000000001" "no heartbeat" DeviceBooting HealthHealthy 7
    sample_device eq_refl eq_refl ltac:(lia))).
Defined.

(** ** The merged event log *)
Definition ev_le (a b : TransitionEvent) : Prop := ev_at a <= ev_at b.

Lemma insert_event_perm e l : insert_event e l ≡ₚ e :: l.
Proof.
  induction l as [|x l IH]; cbn; [done|]. destruct (_ <? _); [|done].
  rewrite IH. by constructor.
Qed.

Lemma insert_event_sorted e l : StronglySorted ev_le l -> StronglySorted ev_le (insert_event e l).
Proof.
  induction 1 as [|x l Hs IH Hx]; cbn; [repeat constructor|].
  destruct (Z.ltb_spec (ev_at x) (ev_at e)).
  - constructor; [done|]. rewrite insert_event_perm. constructor; [unfold ev_le; lia|done].
  - constructor; [by constructor|]. constructor; [done|].
    eapply Forall_impl; [done|]. unfold ev_le. intros; lia.
Qed.

Lemma insert_event_stable t e l :
  StronglySorted ev_le l ->
  filter (fun x => ev_at x = t) (insert_event e l) = filter (fun x => ev_at x = t) (e :: l).
Proof.
  induction 1 as [|x l Hs IH Hx]; cbn; [done|].
  destruct (Z.ltb_spec (ev_at x) (ev_at e)); [|done].
  rewrite !filter_cons, IH, filter_cons. case_decide; case_decide; congruence || lia || done.
Qed.

(** [Events] merges the lifecycle and health logs into one history: it has exactly
    the events of both logs, in time order, and events with the same timestamp keep
    the order in which the logs list them (the sort is stable). *)
Theorem Events_stable_sorted (d : Device) :
  Events d ≡ₚ sm_events (dv_lifecycle d) ++ dv_events d
  /\ StronglySorted ev_le (Events d)
  /\ forall t, filter (fun e => ev_at e = t) (Events d)
             = filter (fun e => ev_at e = t) (sm_events (dv_lifecycle d) ++ dv_events d).
Proof.
  unfold Events. generalize (sm_events (dv_lifecycle d) ++ dv_events d) as l. intros l.
  assert (StronglySorted ev_le (stable_sort_events l)) as Hs.
  { induction l; cbn; [constructor|by apply insert_event_sorted]. }
  split; [|split; [done|]].
  - clear Hs. induction l as [|e l IH]; cbn; [done|]. by rewrite insert_event_perm, IH.
  - intros t. induction l as [|e l IH]; cbn; [done|].
    assert (StronglySorted ev_le (stable_sort_events l)) as Hl.
    { clear. induction l; cbn; [constructor|by apply insert_event_sorted]. }
    change (foldr insert_event [] l) with (stable_sort_events l).
    rewrite insert_event_stable by done. rewrite !filter_cons, IH; done.
Qed.
