(* ===== verification/Json.v ===== *)
(** * JSON values: Go's [map[string]any] and PostgreSQL's [jsonb]

    Requested capabilities travel as Go maps, are stored as [jsonb] and are matched
    in SQL with [?], [->>], [@>] and a cast to [int].  An object is an association
    list; a number is a rational.  [device_schedulable_capabilities] is the SQL
    function of migration 000014. *)
From Stdlib Require Import QArith Ascii.
From S2P Require Import Prelude GoText.

#[global] Open Scope Z_scope.

#[warnings="-register-all"]
Inductive json : Type :=
  | JNull
  | JBool (b : bool)
  | JNum (q : Q)
  | JStr (s : string)
  | JArr (l : list json)
  | JObj (kvs : list (string * json)).

Definition jint (n : Z) : json := JNum (inject_Z n).

Abbreviation obj := (list (string * json)).

Fixpoint assoc (k : string) (kvs : obj) : option json :=
  match kvs with
  | [] => None
  | (k', v) :: rest => if bool_decide (k = k') then Some v else assoc k rest
  end.

(** [m[k] = v] on a Go map. *)
Fixpoint assoc_set (k : string) (v : json) (kvs : obj) : obj :=
  match kvs with
  | [] => [(k, v)]
  | (k', v') :: rest => if bool_decide (k = k') then (k, v) :: rest else (k', v') :: assoc_set k v rest
  end.

(** [delete(m, k)]. *)
Definition assoc_delete (k : string) (kvs : obj) : obj := filter (fun p => p.1 <> k) kvs.

(** jsonb [?]: the key exists. *)
Definition has_key (kvs : obj) (k : string) : bool :=
  match assoc k kvs with Some _ => true | None => false end.

Definition scalar_eqb (a b : json) : bool :=
  match a, b with
  | JNull, JNull => true
  | JBool x, JBool y => Bool.eqb x y
  | JNum x, JNum y => Qeq_bool x y
  | JStr x, JStr y => String.eqb x y
  | _, _ => false
  end.

(** jsonb [a @> b]: every key of an object of [b] occurs in [a] with a containing
    value, every element of an array of [b] is contained in some element of [a]. *)
Fixpoint contains (a b : json) {struct b} : bool :=
  match b with
  | JObj bs =>
    match a with
    | JObj kvs =>
      (fix all (bs : list (string * json)) : bool :=
         match bs with
         | [] => true
         | (k, v) :: rest =>
           match assoc k kvs with Some av => contains av v | None => false end && all rest
         end) bs
    | _ => false
    end
  | JArr bs =>
    match a with
    | JArr l =>
      (fix all (bs : list json) : bool :=
         match bs with
         | [] => true
         | v :: rest => existsb (fun av => contains av v) l && all rest
         end) bs
    | _ => false
    end
  | _ => scalar_eqb a b
  end.

Definition obj_contains (a b : obj) : bool := contains (JObj a) (JObj b).

(** Go's [reflect.DeepEqual] on decoded JSON: maps are equal when each has the
    keys of the other with equal values; arrays are equal element by element. *)
Fixpoint json_eqb (a b : json) {struct b} : bool :=
  match b with
  | JObj bs =>
    match a with
    | JObj kvs =>
      forallb (fun p => has_key bs p.1) kvs
      && (fix all (bs : list (string * json)) : bool :=
            match bs with
            | [] => true
            | (k, v) :: rest =>
              match assoc k kvs with Some av => json_eqb av v | None => false end && all rest
            end) bs
    | _ => false
    end
  | JArr bs =>
    match a with
    | JArr l =>
      (fix all (l bs : list json) {struct bs} : bool :=
         match l, bs with
         | [], [] => true
         | x :: l', v :: rest => json_eqb x v && all l' rest
         | _, _ => false
         end) l bs
    | _ => false
    end
  | _ => scalar_eqb a b
  end.

(** ** Casts *)

(** The text of an integer, as [->>] and [fmt] print it. *)
Fixpoint digits_fuel (fuel : nat) (n : Z) (acc : string) : string :=
  match fuel with
  | O => acc
  | S f =>
    let acc' := String (ascii_of_N (48 + Z.to_N (n mod 10))) acc in
    if n <? 10 then acc' else digits_fuel f (n / 10) acc'
  end.
Definition Z_text (n : Z) : string :=
  if n <? 0 then String "-" (digits_fuel (S (Z.to_nat (Z.log2 (- n)))) (- n) EmptyString)
  else digits_fuel (S (Z.to_nat (Z.log2 n))) n EmptyString.

Definition Q_integral (q : Q) : option Z :=
  let r := Qred q in if bool_decide (Qden r = 1%positive) then Some (Qnum r) else None.

(** jsonb [->>] followed by a comparison with a text: the text of the value when it is
    null, a string, a boolean or an integer.  The text of any other value contains a
    character (a dot, a bracket or a brace) that no identifier or platform has, so it
    is rendered here as a bracket, which compares the same way. *)
Definition text_of (v : json) : option string :=
  match v with
  | JNull => None
  | JStr s => Some s
  | JBool b => Some (if b then "true" else "false")%string
  | JNum q => match Q_integral q with Some n => Some (Z_text n) | None => Some "[" end
  | JArr _ | JObj _ => Some "["
  end.

Definition get_text (kvs : obj) (k : string) : option string :=
  match assoc k kvs with Some v => text_of v | None => None end.

Definition in_int4 (n : Z) : bool := (-2147483648 <=? n) && (n <=? 2147483647).

Definition is_digit (a : ascii) : bool := in_range 48 57 (N_of_ascii a).

Fixpoint digits_value (acc : Z) (s : string) : option Z :=
  match s with
  | EmptyString => Some acc
  | String a s' => if is_digit a then digits_value (acc * 10 + Z.of_N (N_of_ascii a - 48)) s' else None
  end.

(** The value of a decimal numeral, surrounding white space allowed. *)
Definition numeral (s : string) : option Z :=
  match trim_with (map bytes [[9]; [10]; [11]; [12]; [13]; [32]]%N) s with
  | String "-" (String _ _ as d) => option_map Z.opp (digits_value 0 d)
  | String "+" (String _ _ as d) => digits_value 0 d
  | String _ _ as d => digits_value 0 d
  | EmptyString => None
  end.

Definition within (ok : Z -> bool) (o : option Z) : option Z :=
  match o with Some n => if ok n then Some n else None | None => None end.

(** PostgreSQL's [text::int] on decimal numerals; [None] is the error
    "invalid input syntax" or "out of range". *)
Definition int4in (s : string) : option Z := within in_int4 (numeral s).

Definition in_int8 (n : Z) : bool := (-9223372036854775808 <=? n) && (n <=? 9223372036854775807).

(** [COALESCE((kvs->>k)::t, d)] for an integer type with range [ok]; [None] is a cast error. *)
Definition cast_or (ok : Z -> bool) (kvs : obj) (k : string) (d : Z) : option Z :=
  match assoc k kvs with
  | None | Some JNull => Some d
  | Some (JStr s) => within ok (numeral s)
  | Some (JNum q) => within ok (Q_integral q)
  | Some (JBool _) | Some (JArr _) | Some (JObj _) => None
  end.

(** [COALESCE(NULLIF(kvs->>k,'')::int, 0)]; [None] is a cast error. *)
Definition coalesce_int (kvs : obj) (k : string) : option Z :=
  match assoc k kvs with
  | None | Some JNull => Some 0
  | Some (JStr s) => if bool_decide (s = "") then Some 0 else int4in s
  | Some (JNum q) => within in_int4 (Q_integral q)
  | Some (JBool _) | Some (JArr _) | Some (JObj _) => None
  end.

(** jsonb [a || b] on objects: the keys of [b] override those of [a]. *)
Definition obj_merge (a b : obj) : obj := foldl (fun acc p => assoc_set p.1 p.2 acc) a b.

(** ** The capabilities that take part in scheduling *)
Definition sql_schedulable_keys : list string :=
  ["platformVersion"; "automationName"; "deviceClass"; "realDevice"; "model";
   "apiLevel"; "abi"; "resolution"; "hardware_profile_id"].

Definition device_schedulable_capabilities (requested : obj) : obj :=
  filter (fun p => p.1 ∈ sql_schedulable_keys) requested.

(** ** Lemmas *)
Lemma assoc_set_same k v kvs : assoc k (assoc_set k v kvs) = Some v.
Proof.
  induction kvs as [|[k' v'] l IH]; cbn; [by rewrite bool_decide_eq_true_2|].
  case_bool_decide as E; cbn; [by rewrite bool_decide_eq_true_2|]. by rewrite bool_decide_eq_false_2.
Qed.

Lemma assoc_set_other k k' v kvs : k <> k' -> assoc k (assoc_set k' v kvs) = assoc k kvs.
Proof.
  intros Hne. induction kvs as [|[k2 v2] l IH]; cbn; [by rewrite bool_decide_eq_false_2|].
  case_bool_decide as E; cbn.
  - subst. by rewrite !bool_decide_eq_false_2.
  - by rewrite IH.
Qed.

Lemma assoc_delete_same k kvs : assoc k (assoc_delete k kvs) = None.
Proof.
  unfold assoc_delete. induction kvs as [|[k' v'] l IH]; [done|].
  rewrite filter_cons. cbn. case_decide as E; [|done]. cbn. by rewrite bool_decide_eq_false_2.
Qed.

Lemma assoc_delete_other k k' kvs : k <> k' -> assoc k (assoc_delete k' kvs) = assoc k kvs.
Proof.
  intros Hne. unfold assoc_delete. induction kvs as [|[k2 v2] l IH]; [done|].
  rewrite filter_cons. cbn. case_decide as E; cbn.
  - by rewrite IH.
  - subst. by rewrite IH, bool_decide_eq_false_2.
Qed.

Lemma contains_obj_spec kvs bs :
  obj_contains kvs bs = true <-> Forall (fun p => exists av, assoc p.1 kvs = Some av /\ contains av p.2 = true) bs.
Proof.
  unfold obj_contains. cbn. induction bs as [|[k v] bs IH]; [done|].
  rewrite Forall_cons, andb_true_iff, IH. cbn.
  destruct (assoc k kvs) as [av|]; [naive_solver|]. split; [by intros [? _]|]. by intros [(? & ? & _) _].
Qed.

(** Only the schedulable keys of a request are compared with a device. *)
Lemma schedulable_contains_spec caps requested :
  obj_contains caps (device_schedulable_capabilities requested) = true <->
  forall k v, (k, v) ∈ requested -> k ∈ sql_schedulable_keys ->
    exists av, assoc k caps = Some av /\ contains av v = true.
Proof.
  rewrite contains_obj_spec, Forall_forall. unfold device_schedulable_capabilities. split.
  - intros H k v Hin Hk. apply (H (k, v)). by apply list_elem_of_filter.
  - intros H [k v] [Hk Hin]%list_elem_of_filter. by apply H.
Qed.

Example contains_example :
  obj_contains [("apiLevel", jint 34); ("model", JStr "Pixel"); ("realDevice", JBool false)]
    (device_schedulable_capabilities [("apiLevel", jint 34); ("androidMinSdkLevel", JStr "abc")]) = true.
Proof. vm_compute. reflexivity. Qed.
Example coalesce_int_examples :
  map (coalesce_int [("a", jint 30); ("b", JStr " 34"); ("c", JStr "abc"); ("d", JNum (61 # 2)); ("e", JStr "")])
    ["a"; "b"; "c"; "d"; "e"; "f"] = [Some 30; Some 34; None; None; Some 0; Some 0].
Proof. vm_compute. reflexivity. Qed.
Example Z_text_examples : map Z_text [0; 7; 10; 16384; -250]%Z = ["0"; "7"; "10"; "16384"; "-250"].
Proof. vm_compute. reflexivity. Qed.
