(* ===== verification/Float64.v ===== *)
(** * Go's float64

    A [float64] is a value of the standard library's specification of IEEE-754
    arithmetic with 53 bits of precision and exponents up to 1024, so that comparisons
    with NaN, roundings and conversions are those of the machine.  A number of a
    decoded JSON document is the float64 nearest to it. *)
From Stdlib Require Import SpecFloat QArith Ascii.
From S2P Require Import Prelude GoText Json.

#[global] Open Scope Z_scope.

Definition float64 : Type := spec_float.
Definition prec : Z := 53.
Definition emax : Z := 1024.

Definition f_of_Z (n : Z) : float64 := binary_normalize prec emax n 0 false.

(** Correct rounding of a rational: one rounded division of its two integers. *)
Definition f_of_Q (q : Q) : float64 :=
  match Qnum q with
  | Z0 => S754_zero false
  | Zpos n => SFdiv prec emax (S754_finite false n 0) (S754_finite false (Qden q) 0)
  | Zneg n => SFdiv prec emax (S754_finite true n 0) (S754_finite false (Qden q) 0)
  end.

(** The exact value of a finite float. *)
Definition f_to_Q (f : float64) : option Q :=
  match f with
  | S754_zero _ => Some (0 # 1)
  | S754_finite s m e =>
    let n := cond_Zopp s (Zpos m) in
    Some (match e with Zneg k => n # (Pos.pow 2 k) | Z0 => n # 1 | Zpos k => (n * Zpos (Pos.pow 2 k)) # 1 end)
  | _ => None
  end.

Definition f_lt (a b : float64) : bool := SFltb a b.
Definition f_eq (a b : float64) : bool := SFeqb a b.
Definition f_sub (a b : float64) : float64 := SFsub prec emax a b.
Definition f_add (a b : float64) : float64 := SFadd prec emax a b.
Definition f_mul (a b : float64) : float64 := SFmul prec emax a b.
Definition f_div (a b : float64) : float64 := SFdiv prec emax a b.

(** [math.Max]: NaN and infinities as documented. *)
Definition f_max (x y : float64) : float64 :=
  match x, y with
  | S754_infinity false, _ | _, S754_infinity false => S754_infinity false
  | S754_nan, _ | _, S754_nan => S754_nan
  | S754_zero sx, S754_zero sy => if sx then y else x
  | _, _ => if SFltb y x then x else y
  end.

(** The integer part toward zero, [math.Floor] and [math.Ceil] as integers;
    [None] for a value that is not finite. *)
Definition f_trunc (f : float64) : option Z :=
  match f with
  | S754_zero _ => Some 0
  | S754_finite s m e => Some (cond_Zopp s (if 0 <=? e then Zpos m * 2 ^ e else Zpos m / 2 ^ (- e)))
  | _ => None
  end.

Definition f_floor (f : float64) : option Z :=
  match f with
  | S754_zero _ => Some 0
  | S754_finite s m e => let n := cond_Zopp s (Zpos m) in Some (if 0 <=? e then n * 2 ^ e else n / 2 ^ (- e))
  | _ => None
  end.

Definition f_ceil (f : float64) : option Z := option_map Z.opp (f_floor (SFopp f)).

(** [math.Trunc(f) == f]. *)
Definition f_integral (f : float64) : bool :=
  match f with
  | S754_nan => false
  | S754_infinity _ | S754_zero _ => true
  | S754_finite _ m e => (0 <=? e) || (Zpos m mod 2 ^ (- e) =? 0)
  end.

Definition min_int64 : Z := - 2 ^ 63.
Definition max_int64 : Z := 2 ^ 63 - 1.
Definition in_int64 (n : Z) : bool := (min_int64 <=? n) && (n <=? max_int64).

(** [int64(f)]: out of range, the value of the amd64 instruction. *)
Definition to_int64 (truncated : option Z) : Z :=
  match truncated with
  | Some n => if in_int64 n then n else min_int64
  | None => min_int64
  end.

(** Two's complement wrap-around of int64 arithmetic. *)
Definition wrap64 (n : Z) : Z := (n + 2 ^ 63) mod 2 ^ 64 - 2 ^ 63.

Lemma wrap64_id n : in_int64 n = true -> wrap64 n = n.
Proof.
  unfold in_int64, min_int64, max_int64, wrap64. rewrite andb_true_iff, !Z.leb_le. intros [? ?].
  rewrite Z.mod_small; lia.
Qed.

(** ** [strconv.ParseFloat]

    Decimal numerals with an optional fraction and exponent, infinities and NaN;
    [None] is an error, out of range included.  Hexadecimal numerals are not modelled:
    they are errors here. *)
Fixpoint split_digits (acc : Z) (n : Z) (s : string) : Z * Z * string :=
  match s with
  | String a s' => if is_digit a then split_digits (acc * 10 + Z.of_N (N_of_ascii a - 48)) (n + 1) s' else (acc, n, s)
  | EmptyString => (acc, n, s)
  end.

Fixpoint exponent_value (acc : Z) (s : string) : option Z :=
  match s with
  | EmptyString => Some acc
  | String a s' =>
    if is_digit a then exponent_value (if acc <? 10000 then acc * 10 + Z.of_N (N_of_ascii a - 48) else acc) s' else None
  end.

Definition parse_exponent (s : string) : option Z :=
  match s with
  | EmptyString => Some 0
  | String a rest =>
    if String.eqb (ToLower (String a EmptyString)) "e" then
      match rest with
      | String "-" (String _ _ as d) => option_map Z.opp (exponent_value 0 d)
      | String "+" (String _ _ as d) => exponent_value 0 d
      | String _ _ => exponent_value 0 rest
      | EmptyString => None
      end
    else None
  end.

Definition scaled (m e : Z) : Q := if 0 <=? e then inject_Z (m * 10 ^ e) else m # (Z.to_pos (10 ^ (- e))).

Definition parse_decimal (s : string) : option Q :=
  let '(m, n, rest) := split_digits 0 0 s in
  let '(m, k, total, rest) :=
    match rest with
    | String "." rest => let '(m', k, rest) := split_digits m 0 rest in (m', k, n + k, rest)
    | _ => (m, 0, n, rest)
    end in
  if total =? 0 then None
  else match parse_exponent rest with Some e => Some (scaled m (e - k)) | None => None end.

Definition parse_unsigned (negative : bool) (s : string) : option float64 :=
  let l := ToLower s in
  if String.eqb l "inf" || String.eqb l "infinity" then Some (S754_infinity negative)
  else match parse_decimal s with
       | Some q => match f_of_Q q with
                   | S754_infinity _ => None
                   | f => Some (if negative then SFopp f else f)
                   end
       | None => None
       end.

Definition ParseFloat (s : string) : option float64 :=
  if String.eqb (ToLower s) "nan" then Some S754_nan
  else match s with
       | String "-" rest => parse_unsigned true rest
       | String "+" rest => parse_unsigned false rest
       | _ => parse_unsigned false s
       end.

Example ParseFloat_examples :
  map (fun s => option_map f_to_Q (ParseFloat s)) ["1.5"; "4"; "-.25e1"; "1e"; ""; "2."; "nan"; "1e999"; "0"]
  = [Some (Some (6755399441055744 # 4503599627370496)); Some (Some (4503599627370496 # 1125899906842624));
     Some (Some (-5629499534213120 # 2251799813685248)); None; None; Some (Some (4503599627370496 # 2251799813685248));
     Some None; None; Some (Some (0 # 1))].
Proof. vm_compute. reflexivity. Qed.
Example f_examples : map (fun q => f_floor (f_of_Q q)) [7 # 2; -7 # 2; 1 # 3; 64 # 1] = [Some 3; Some (-4); Some 0; Some 64].
Proof. vm_compute. reflexivity. Qed.
