(* ===== verification/RuntimeProfile.v ===== *)
(** * Emulator runtime profiles ([internal/runtimeprofile])

    The resource contract of one Docker Android emulator: its defaults, its parsing
    from a JSON object, its validation and its canonical JSON.  The number of CPU cores
    is a float64; the other numbers are machine integers. *)
From Stdlib Require Import SpecFloat.
From S2P Require Import Prelude GoText Json Float64.

Record Profile : Type := mkProfile {
  rp_ContainerCPUCores : float64; rp_ContainerMemoryMB : Z; rp_GuestCPUCores : Z; rp_GuestMemoryMB : Z;
  rp_DataDiskMB : Z; rp_ImageDiskMB : Z; rp_Width : Z; rp_Height : Z; rp_DensityDPI : Z; rp_VMHeapMB : Z;
  rp_Graphics : string }.
#[export] Instance eta_Profile : Eta Profile := fun p =>
  mkProfile (rp_ContainerCPUCores p) (rp_ContainerMemoryMB p) (rp_GuestCPUCores p) (rp_GuestMemoryMB p) (rp_DataDiskMB p)
    (rp_ImageDiskMB p) (rp_Width p) (rp_Height p) (rp_DensityDPI p) (rp_VMHeapMB p) (rp_Graphics p).

Definition GraphicsAuto : string := "auto".
Definition GraphicsHost : string := "host".
Definition GraphicsSoftware : string := "software".

Definition Default : Profile := mkProfile (f_of_Z 4) 5120 4 4096 4096 0 1080 2400 420 512 GraphicsAuto.

(** ** Reading values; [None] is an error *)
Fixpoint floatValue (values : obj) (fallback : float64) (keys : list string) : option float64 :=
  match keys with
  | [] => Some fallback
  | key :: rest =>
    match assoc key values with
    | None => floatValue values fallback rest
    | Some (JNum q) => Some (f_of_Q q)
    | Some (JStr s) => ParseFloat (TrimSpace s)
    | Some _ => None
    end
  end.

Definition int64Value (values : obj) (fallback : Z) (keys : list string) : option Z :=
  match floatValue values (f_of_Z fallback) keys with
  | Some value =>
    if negb (f_integral value) || f_lt (f_of_Z max_int64) value || f_lt value (f_of_Z min_int64) then None
    else Some (to_int64 (f_trunc value))
  | None => None
  end.

Definition hasAny (values : obj) (keys : list string) : bool := existsb (has_key values) keys.

(** ** Limits *)
Definition within_limits (p : Profile) : bool :=
  negb (f_lt (rp_ContainerCPUCores p) (f_of_Z 1) || f_lt (f_of_Z 64) (rp_ContainerCPUCores p)
  || (rp_ContainerMemoryMB p <? 2048) || (262144 <? rp_ContainerMemoryMB p)
  || (rp_GuestCPUCores p <? 1) || (32 <? rp_GuestCPUCores p)
  || (rp_GuestMemoryMB p <? 1536) || (rp_ContainerMemoryMB p - 512 <? rp_GuestMemoryMB p)
  || (rp_DataDiskMB p <? 2048) || (1048576 <? rp_DataDiskMB p) || (rp_ImageDiskMB p <? 0)
  || (rp_Width p <? 320) || (4320 <? rp_Width p) || (rp_Height p <? 480) || (7680 <? rp_Height p)
  || (rp_DensityDPI p <? 120) || (960 <? rp_DensityDPI p) || (rp_VMHeapMB p <? 128)
  || (Z.quot (rp_GuestMemoryMB p) 2 <? rp_VMHeapMB p)).

Definition Validate (p : Profile) : bool :=
  within_limits p && bool_decide (rp_Graphics p ∈ [GraphicsAuto; GraphicsHost; GraphicsSoftware]).

(** ** Parsing *)
Definition bind_opt {A B} (o : option A) (f : A -> option B) : option B := match o with Some a => f a | None => None end.

Notation "x <-? o ;; k" := (bind_opt o (fun x => k)) (at level 100, o at next level, right associativity) : farm_scope.

(** The guest is sized after the container when it is not given. *)
Definition default_guest_cpus (p : Profile) : Z :=
  Z.max 1 (Z.min (rp_GuestCPUCores p) (to_int64 (f_floor (rp_ContainerCPUCores p)))).

Definition default_guest_memory (p : Profile) : Z :=
  let m := Z.max 1536 (Z.min (rp_GuestMemoryMB p) (wrap64 (rp_ContainerMemoryMB p - 1024))) in
  if wrap64 (rp_ContainerMemoryMB p - 512) <? m then wrap64 (rp_ContainerMemoryMB p - 512) else m.

Definition sized_guest (values : obj) (p : Profile) : Profile :=
  let p := if hasAny values ["guest_cpu_cores"] then p else p <| rp_GuestCPUCores := default_guest_cpus p |> in
  if hasAny values ["guest_memory_mb"] then p else p <| rp_GuestMemoryMB := default_guest_memory p |>.

Definition graphics_of (values : obj) (fallback : string) : option string :=
  match assoc "graphics" values with
  | None => Some fallback
  | Some (JStr text) => Some (ToLower (TrimSpace text))
  | Some _ => None
  end.

Definition Parse (values : obj) : option Profile :=
  let d := Default in
  cpu <-? floatValue values (rp_ContainerCPUCores d) ["container_cpu_cores"; "cpu"] ;;
  memory <-? int64Value values (rp_ContainerMemoryMB d) ["container_memory_mb"; "memory_mb"] ;;
  guestMemory <-? int64Value values (rp_GuestMemoryMB d) ["guest_memory_mb"] ;;
  dataDisk <-? int64Value values (rp_DataDiskMB d) ["data_disk_mb"] ;;
  imageDisk <-? int64Value values (rp_ImageDiskMB d) ["image_disk_mb"] ;;
  heap <-? int64Value values (rp_VMHeapMB d) ["vm_heap_mb"] ;;
  guestCPU <-? int64Value values (rp_GuestCPUCores d) ["guest_cpu_cores"] ;;
  width <-? int64Value values (rp_Width d) ["width"] ;;
  height <-? int64Value values (rp_Height d) ["height"] ;;
  density <-? int64Value values (rp_DensityDPI d) ["density_dpi"] ;;
  let p := sized_guest values (mkProfile cpu memory guestCPU guestMemory dataDisk imageDisk width height density heap (rp_Graphics d)) in
  graphics <-? graphics_of values (rp_Graphics p) ;;
  let p := p <| rp_Graphics := graphics |> in
  if Validate p then Some p else None.

(** ** The canonical document *)

(** A float64 as JSON; infinities and NaN have none, [json.Marshal] fails on them. *)
Definition float_json (f : float64) : json := match f_to_Q f with Some q => JNum q | None => JNull end.

Definition marshals (p : Profile) : bool := bool_decide (is_Some (f_to_Q (rp_ContainerCPUCores p))).

Definition Map (p : Profile) : obj :=
  [("container_cpu_cores", float_json (rp_ContainerCPUCores p)); ("container_memory_mb", jint (rp_ContainerMemoryMB p));
   ("guest_cpu_cores", jint (rp_GuestCPUCores p)); ("guest_memory_mb", jint (rp_GuestMemoryMB p));
   ("data_disk_mb", jint (rp_DataDiskMB p)); ("image_disk_mb", jint (rp_ImageDiskMB p)); ("width", jint (rp_Width p));
   ("height", jint (rp_Height p)); ("density_dpi", jint (rp_DensityDPI p)); ("vm_heap_mb", jint (rp_VMHeapMB p));
   ("graphics", JStr (rp_Graphics p))].

Example Parse_examples :
  map (fun v => option_map (fun p => (rp_GuestCPUCores p, rp_GuestMemoryMB p)) (Parse v))
    [[]; [("cpu", jint 2); ("memory_mb", jint 2048)]; [("cpu", JStr "0.5")]; [("memory_mb", JStr "4096.5")]; [("cpu", JStr "NaN")]]
  = [Some (4, 4096); Some (2, 1536); None; None; Some (1, 4096)].
Proof. vm_compute. reflexivity. Qed.
