(* ===== verification/Capacity.v ===== *)
(** * Host capacity ([internal/capacity])

    The admission of emulators on a host: the host's report, the allocations already
    made or queued, and the deterministic evaluation of one more profile.  Memory and
    disk are int64 megabytes with wrap-around; CPU cores are float64.  An instant in a
    JSON document is a number of nanoseconds, as everywhere in the development. *)
From Stdlib Require Import SpecFloat.
From S2P Require Import Prelude GoText Json Float64 RuntimeProfile.

Definition DefaultReserveCPUCores : float64 := f_of_Z 1.
Definition DefaultReserveMemoryMB : Z := 2048.
Definition DefaultReserveDiskMB : Z := 4096.

Record Host : Type := mkCapacityHost {
  ch_CPUCores : float64; ch_MemoryTotalMB : Z; ch_MemoryAvailableMB : Z; ch_DiskTotalMB : Z; ch_DiskAvailableMB : Z;
  ch_DeviceSlots : Z; ch_CollectedAt : Z }.
#[export] Instance eta_CapacityHost : Eta Host := fun h =>
  mkCapacityHost (ch_CPUCores h) (ch_MemoryTotalMB h) (ch_MemoryAvailableMB h) (ch_DiskTotalMB h) (ch_DiskAvailableMB h)
    (ch_DeviceSlots h) (ch_CollectedAt h).

(** The number of a JSON value, zero for anything else. *)
Definition number (v : option json) : float64 := match v with Some (JNum q) => f_of_Q q | _ => S754_zero false end.

Definition int_number (v : option json) : Z := to_int64 (f_trunc (number v)).

Definition HostFromMap (values : obj) : option Host :=
  match assoc "resource_model" values with
  | Some (JStr "dynamic_v1") =>
    let get k := assoc k values in
    let h := mkCapacityHost (number (get "cpu_cores")) (int_number (get "memory_total_mb"))
               (int_number (get "memory_available_mb")) (int_number (get "disk_total_mb"))
               (int_number (get "disk_available_mb")) (int_number (get "device_slots"))
               (match get "collected_at" with Some (JNum q) => default 0 (Q_integral q) | _ => 0 end) in
    if f_lt (S754_zero false) (ch_CPUCores h) && (0 <? ch_MemoryTotalMB h) && (0 <=? ch_MemoryAvailableMB h)
       && (0 <? ch_DiskTotalMB h) && (0 <=? ch_DiskAvailableMB h)
    then Some h else None
  | _ => None
  end.

Record Allocation : Type := mkAllocation { al_CPUCores : float64; al_MemoryMB : Z; al_DiskMB : Z; al_Slots : Z }.
Definition no_allocation : Allocation := mkAllocation (S754_zero false) 0 0 0.

(** The error text of a result ([ChineseMessage]) is not modelled. *)
Record Result : Type := mkCapacityResult {
  cr_Fits : bool; cr_Additional : Z; cr_Limiting : string; cr_Shortfall : list (string * Z);
  cr_AvailableCPU : float64; cr_AvailableMemoryMB : Z; cr_AvailableDiskMB : Z }.

(** ** Evaluation *)
Definition availableCPU (host : Host) (existing pending : Allocation) : float64 :=
  f_max (S754_zero false) (f_sub (f_sub (f_sub (ch_CPUCores host) DefaultReserveCPUCores) (al_CPUCores existing)) (al_CPUCores pending)).

Definition availableMemory (host : Host) (existing pending : Allocation) : Z :=
  let accounted := wrap64 (wrap64 (wrap64 (ch_MemoryTotalMB host - DefaultReserveMemoryMB) - al_MemoryMB existing) - al_MemoryMB pending) in
  let realtime := wrap64 (wrap64 (ch_MemoryAvailableMB host - DefaultReserveMemoryMB) - al_MemoryMB pending) in
  Z.max 0 (Z.min accounted realtime).

Definition availableDisk (host : Host) (pending : Allocation) : Z :=
  Z.max 0 (wrap64 (wrap64 (ch_DiskAvailableMB host - DefaultReserveDiskMB) - al_DiskMB pending)).

Definition requestDisk (requested : Profile) (imageAlreadyCached : bool) : Z :=
  if imageAlreadyCached then rp_DataDiskMB requested else wrap64 (rp_DataDiskMB requested + rp_ImageDiskMB requested).

Definition MaxInt : Z := max_int64.

(** How many more devices each resource allows. *)
Record Limits : Type := mkLimits { byCPU : Z; byMemory : Z; byDisk : Z; bySlots : Z }.

Definition limits (host : Host) (existing pending : Allocation) (requested : Profile) (imageAlreadyCached : bool) : Limits :=
  let disk := requestDisk requested imageAlreadyCached in
  mkLimits (to_int64 (f_floor (f_div (availableCPU host existing pending) (rp_ContainerCPUCores requested))))
    (Z.quot (availableMemory host existing pending) (rp_ContainerMemoryMB requested))
    (if 0 <? disk then Z.quot (availableDisk host pending) disk else MaxInt)
    (if 0 <? ch_DeviceSlots host then wrap64 (wrap64 (ch_DeviceSlots host - al_Slots existing) - al_Slots pending) else MaxInt).

Definition additional (l : Limits) : Z := Z.max 0 (Z.min (Z.min (Z.min (byCPU l) (byMemory l)) (byDisk l)) (bySlots l)).

(** The first of the smallest limits. *)
Definition limiting (l : Limits) : string :=
  (foldl (fun acc p => if p.1 <? acc.1 then p else acc) (MaxInt, EmptyString)
    [(byCPU l, "cpu"%string); (byMemory l, "memory"%string); (byDisk l, "disk"%string); (bySlots l, "device_slots"%string)]).2.

Definition shortfalls (host : Host) (existing pending : Allocation) (requested : Profile) (imageAlreadyCached : bool)
    : list (string * Z) :=
  let l := limits host existing pending requested imageAlreadyCached in
  let cpu := availableCPU host existing pending in
  let memory := availableMemory host existing pending in
  let disk := availableDisk host pending in
  let wanted := requestDisk requested imageAlreadyCached in
  (if f_lt cpu (rp_ContainerCPUCores requested)
   then [("cpu_millicores"%string, to_int64 (f_ceil (f_mul (f_sub (rp_ContainerCPUCores requested) cpu) (f_of_Z 1000))))] else [])
  ++ (if memory <? rp_ContainerMemoryMB requested then [("memory_mb"%string, rp_ContainerMemoryMB requested - memory)] else [])
  ++ (if disk <? wanted then [("disk_mb"%string, wanted - disk)] else [])
  ++ (if (0 <? ch_DeviceSlots host) && (bySlots l <? 1) then [("device_slots"%string, 1)] else []).

(** [requested] comes from [Parse], so that its memory is not zero. *)
Definition Evaluate (host : Host) (existing pending : Allocation) (requested : Profile) (imageAlreadyCached : bool) : Result :=
  let l := limits host existing pending requested imageAlreadyCached in
  let fits := 0 <? additional l in
  mkCapacityResult fits (additional l) (limiting l)
    (if fits then [] else shortfalls host existing pending requested imageAlreadyCached)
    (availableCPU host existing pending) (availableMemory host existing pending) (availableDisk host pending).

Definition example_host : Host := mkCapacityHost (f_of_Z 16) 32768 30000 200000 150000 4 0.
Example Evaluate_examples :
  (let r := Evaluate example_host (mkAllocation (f_of_Z 4) 5120 4096 1) no_allocation Default true in
   (cr_Fits r, cr_Additional r, cr_Limiting r, cr_Shortfall r) = (true, 2, "cpu", []))
  /\ (let r := Evaluate (example_host <| ch_MemoryAvailableMB := 5000 |>) no_allocation no_allocation Default true in
      (cr_Fits r, cr_Additional r, cr_Limiting r, cr_Shortfall r) = (false, 0, "memory", [("memory_mb", 2168)])).
Proof. split; vm_compute; reflexivity. Qed.
