(* ===== verification/Sensitive.v ===== *)
(** * Redaction of secrets: [internal/sensitive]

    The three regular expressions are written as matchers that consume a prefix of
    the text and return the rest.  Every character class of the expressions excludes
    only ASCII characters, so a byte-wise scan agrees with Go's rune-wise scan; the
    [(?i)] flag also folds U+212A to [k] and U+017F to [s]. *)
From Stdlib Require Import Ascii.
From S2P Require Import Prelude GoText Json.

Definition Redacted : string := "[REDACTED]".

Definition re_space (a : ascii) : bool :=
  let n := N_of_ascii a in in_range 9 10 n || in_range 12 13 n || (n =? 32)%N.

Definition re_word (a : ascii) : bool := alnum a || (N_of_ascii a =? 95)%N.

(** [\b]: exactly one side is a word character. *)
Definition word_boundary (prev : option ascii) (s : string) : bool :=
  xorb (match prev with Some a => re_word a | None => false end)
       (match s with String a _ => re_word a | EmptyString => false end).

Definition kelvin : string := bytes [226; 132; 170]%N.
Definition long_s : string := bytes [197; 191]%N.

(** One case-folded literal character. *)
Definition step_ci (c : ascii) (s : string) : option string :=
  match s with
  | String b s' =>
    if Ascii.eqb (lower_ascii b) c then Some s'
    else if Ascii.eqb c "k"%char then strip_prefix kelvin s
    else if Ascii.eqb c "s"%char then strip_prefix long_s s
    else None
  | EmptyString => None
  end.

Fixpoint lit_ci (l s : string) : option string :=
  match l with
  | EmptyString => Some s
  | String c l' => match step_ci c s with Some r => lit_ci l' r | None => None end
  end.

Definition step_class (p : ascii -> bool) (s : string) : option string :=
  match s with
  | String a s' => if p a then Some s' else None
  | EmptyString => None
  end.

(** A class that contains all letters also matches the two folded runes. *)
Definition step_letters (p : ascii -> bool) (s : string) : option string :=
  match step_class p s with
  | Some r => Some r
  | None => strip_any [kelvin; long_s] s
  end.

(** Greedy repetition: the number of steps taken and the rest. *)
Fixpoint run_steps (fuel : nat) (step : string -> option string) (s : string) : nat * string :=
  match fuel with
  | O => (O, s)
  | S f => match step s with
           | Some r => let '(n, r') := run_steps f step r in (S n, r')
           | None => (O, s)
           end
  end.
Definition greedy (step : string -> option string) (s : string) : nat * string :=
  run_steps (String.length s) step s.

Definition at_least (n : nat) (step : string -> option string) (s : string) : option string :=
  let '(m, r) := greedy step s in if (n <=? m)%nat then Some r else None.

Fixpoint one_of (chars : string) (a : ascii) : bool :=
  match chars with
  | EmptyString => false
  | String c chars' => Ascii.eqb a c || one_of chars' a
  end.

(** Sequencing of matchers. *)
Definition andthen (o : option string) (f : string -> option string) : option string :=
  match o with Some r => f r | None => None end.
#[local] Notation "o ~> f" := (andthen o f) (at level 50, left associativity).

(** [bearer\s+[A-Za-z0-9._~+/=-]{6,}]. *)
Definition bearerPattern (s : string) : option string :=
  lit_ci "bearer" s ~> at_least 1 (step_class re_space)
  ~> at_least 6 (step_letters (fun a => alnum a || one_of "._~+/=-" a)).

Definition secret_keyword (s : string) : option string :=
  let alt (o1 o2 : option string) := match o1 with Some r => Some r | None => o2 end in
  alt (lit_ci "token" s) (alt (lit_ci "password" s) (alt (lit_ci "passwd" s) (alt (lit_ci "secret" s)
  (alt (lit_ci "cookie" s) (alt (lit_ci "credential" s)
    (r ← lit_ci "api" s;
     lit_ci "key" (match step_class (one_of "_-") r with Some r' => r' | None => r end))))))).

(** [(token|...)\s*[:=]\s*[^\s,;]+]. *)
Definition secretPattern (s : string) : option string :=
  secret_keyword s ~> at_least 0 (step_class re_space) ~> step_class (one_of ":=")
  ~> at_least 0 (step_class re_space)
  ~> at_least 1 (step_class (fun a => negb (re_space a || one_of ",;" a))).

Definition url_scheme (s : string) : option string :=
  step_letters (fun a => let n := N_of_ascii (lower_ascii a) in in_range 97 122 n) s
  ~> at_least 0 (step_letters (fun a => alnum a || one_of "+.-" a)).

(** A scheme, [://], a user without space, slash, at-sign or colon, [:], a password
    without space or at-sign, [@]. *)
Definition credentialURLPattern (s : string) : option string :=
  url_scheme s ~> lit_ci "://" ~> at_least 1 (step_class (fun a => negb (re_space a || one_of "/@:" a)))
  ~> lit_ci ":" ~> at_least 1 (step_class (fun a => negb (re_space a || one_of "@" a)))
  ~> lit_ci "@".

(** [MatchString]: a match at some position. *)
Fixpoint match_anywhere (m : string -> option string) (prev : option ascii) (s : string) : bool :=
  match s with
  | EmptyString => false
  | String a s' =>
    (word_boundary prev s && match m s with Some _ => true | None => false end)
    || match_anywhere m (Some a) s'
  end.

Definition Contains (value : string) : bool :=
  match_anywhere bearerPattern None value || match_anywhere secretPattern None value
  || match_anywhere credentialURLPattern None value.

Definition matched (s rest : string) : string :=
  String.substring 0 (String.length s - String.length rest) s.

Fixpoint last_char (d : option ascii) (s : string) : option ascii :=
  match s with
  | EmptyString => d
  | String a s' => last_char (Some a) s'
  end.

(** [ReplaceAllStringFunc]: the matches from left to right, without overlap. *)
Fixpoint replace_all (fuel : nat) (m : string -> option string) (repl : string -> string)
    (prev : option ascii) (s : string) : string :=
  match fuel, s with
  | S f, String a s' =>
    let here := if word_boundary prev s then m s else None in
    match here with
    | Some rest =>
      let text := matched s rest in
      (repl text ++ replace_all f m repl (last_char prev text) rest)%string
    | None => String a (replace_all f m repl (Some a) s')
    end
  | _, _ => s
  end.
Definition ReplaceAll (m : string -> option string) (repl : string -> string) (s : string) : string :=
  replace_all (String.length s) m repl None s.

(** [match[:strings.IndexAny(match, ":=")]]. *)
Fixpoint before_any (chars : string) (s : string) : string :=
  match s with
  | EmptyString => EmptyString
  | String a s' => if one_of chars a then EmptyString else String a (before_any chars s')
  end.

Definition RedactText (value : string) : string :=
  let value := ReplaceAll bearerPattern (fun _ => "Bearer " ++ Redacted)%string value in
  let value := ReplaceAll secretPattern
    (fun text => TrimSpace (before_any ":=" text) ++ "=" ++ Redacted)%string value in
  ReplaceAll credentialURLPattern
    (fun text => match url_scheme text with Some r => matched text r | None => EmptyString end
                 ++ "://" ++ Redacted ++ "@")%string value.

Fixpoint drop_chars (chars s : string) : string :=
  match s with
  | EmptyString => EmptyString
  | String a s' => if one_of chars a then drop_chars chars s' else String a (drop_chars chars s')
  end.

Fixpoint contains_sub (sub s : string) : bool :=
  HasPrefix s sub || match s with String _ s' => contains_sub sub s' | EmptyString => false end.

Definition sensitiveKey (k : string) : bool :=
  let normalized := drop_chars "-_. " (ToLower k) in
  existsb (fun fragment => contains_sub fragment normalized)
    ["authorization"; "password"; "passwd"; "token"; "secret"; "cookie"; "credential"; "apikey"; "dsn"].

(** [containsValue] and [ContainsMap] are mutually recursive in the source. *)
Fixpoint containsValue (v : json) : bool :=
  match v with
  | JStr s => Contains s
  | JObj kvs =>
    (fix any (kvs : list (string * json)) : bool :=
       match kvs with
       | [] => false
       | (k, v) :: rest => sensitiveKey k || containsValue v || any rest
       end) kvs
  | JArr l =>
    (fix any (l : list json) : bool :=
       match l with
       | [] => false
       | v :: rest => containsValue v || any rest
       end) l
  | _ => false
  end.
Definition ContainsMap (source : obj) : bool := containsValue (JObj source).

Fixpoint redactValue (v : json) : json :=
  match v with
  | JStr s => JStr (RedactText s)
  | JObj kvs =>
    JObj ((fix all (kvs : list (string * json)) : list (string * json) :=
       match kvs with
       | [] => []
       | (k, v) :: rest => (k, if sensitiveKey k then JStr Redacted else redactValue v) :: all rest
       end) kvs)
  | JArr l =>
    JArr ((fix all (l : list json) : list json :=
       match l with
       | [] => []
       | v :: rest => redactValue v :: all rest
       end) l)
  | _ => v
  end.
Definition RedactMap (source : obj) : obj :=
  match redactValue (JObj source) with JObj kvs => kvs | _ => [] end.

Example RedactText_examples :
  map RedactText ["use Bearer abc.DEF-123 now"; "x token : 42, y"; "postgres://bob:pw@db/x"; "tokens=1"; "mytoken=1"]
  = ["use Bearer [REDACTED] now"; "x token=[REDACTED], y"; "postgres://[REDACTED]@db/x"; "tokens=1"; "mytoken=1"].
Proof. vm_compute. reflexivity. Qed.

Example sensitiveKey_examples :
  map sensitiveKey ["API-Key"; "access_token"; "platformName"; "monkey"; "db.dsn"] = [true; true; false; false; true].
Proof. vm_compute. reflexivity. Qed.
