(* ===== verification/Actor.v ===== *)
(** * Audited identities: [internal/audit], and the list window of [internal/paging] *)
From S2P Require Import Prelude GoText.

Record Actor : Type := mkActor { act_Type : string; act_ID : string; act_ClientID : string }.

Definition ActorService : string := "service".
Definition ActorAgent : string := "agent".
Definition ActorConsole : string := "console".
Definition ActorSystem : string := "system".

Definition validField (value : string) (limit : Z) : bool :=
  if blank value || (limit <? Z.of_nat (length (runes value))) then false
  else forallb (fun r => negb (IsControl r)) (runes value).

Definition Service (actorID : string) : Actor :=
  let actorID := TrimSpace actorID in
  let actorID := if validField actorID 128 then actorID else ActorService in
  mkActor ActorService actorID ActorService.

Definition Console (subjectID : string) : Actor :=
  let subjectID := TrimSpace subjectID in
  mkActor ActorConsole subjectID (ActorConsole ++ ":" ++ subjectID)%string.

Definition System : Actor := mkActor ActorSystem ActorSystem ActorSystem.

Definition Valid (actor : Actor) : bool :=
  (String.eqb (act_Type actor) ActorService || String.eqb (act_Type actor) ActorAgent
   || String.eqb (act_Type actor) ActorConsole || String.eqb (act_Type actor) ActorSystem)
  && validField (act_ID actor) 128 && validField (act_ClientID actor) 128.

(** ** Pages: [paging.New] is the only constructor of a [Page] *)
Definition MaxSize : Z := 200.

Record Page : Type := mkPage { page_number : Z; page_size : Z }.

Definition NewPage (number size : Z) : option Page :=
  if (number <? 1) || (size <? 1) || (MaxSize <? size) then None else Some (mkPage number size).

Definition Limit (p : Page) : Z := page_size p.
Definition Offset (p : Page) : Z := (page_number p - 1) * page_size p.

(** [paging.Result], what a paginated endpoint returns; the items are never null. *)
Record PageResult (A : Type) : Type := mkPageResult { pr_Items : list A; pr_Page : Z; pr_PageSize : Z; pr_Total : Z }.
Arguments mkPageResult {A}. Arguments pr_Items {A}. Arguments pr_Page {A}. Arguments pr_PageSize {A}. Arguments pr_Total {A}.

Definition NewResult {A} (items : list A) (page : Page) (total : Z) : PageResult A :=
  mkPageResult items (page_number page) (page_size page) total.

(** SQL [LIMIT n OFFSET k] of an ordered result. *)
Definition window {A} (p : Page) (l : list A) : list A :=
  take (Z.to_nat (Limit p)) (drop (Z.to_nat (Offset p)) l).
