(* ===== verification/Store.v ===== *)
(** * The device database and its transactions

    The tables of the PostgreSQL schema that the modelled packages read and write,
    one record per row, and the monad [Tx] in which every repository function and
    service method is written.  The state holds the database, the supply of fresh
    identifiers (the random generator of [internal/identifier]), the log of calls made
    to the external STF and iOS controllers and the device provider, and the process-wide pool selection cursor.
    The environment holds the database clock, the process clock, the rows locked by
    other transactions ([SKIP LOCKED]), the SHA-256 digest of a JSON value and the
    behaviour of the external controllers.

    [WithinTx] is [database.WithinTx]: when the body fails the database is the one
    the transaction started from, while identifiers drawn and external calls made
    stay as they are.  Inside one transaction the database clock is read once. *)
From S2P Require Import Prelude GoText Errors Domain Json Sensitive Actor.

(** ** Rows *)
Record DeviceRow : Type := mkDeviceRow {
  d_id : string; d_host_id : string; d_image_id : option string;
  d_platform : string; d_device_kind : string; d_provider_type : string; d_provider_ref : string;
  d_lifecycle_mode : string; d_serial : string; d_stf_serial : option string;
  d_adb_endpoint : option string; d_appium_endpoint : option string; d_capabilities : obj;
  d_lifecycle : DeviceLifecycleStatus; d_health : HealthStatus; d_health_reason : option string;
  d_consecutive_failures : Z; d_last_seen_at : option Z; d_created_at : Z; d_updated_at : Z;
  d_runtime_profile_override : option obj; d_pending_image_id : option string; d_pending_runtime_profile : option obj;
  d_reimage_status : string; d_reimage_error : option string;
  d_runtime_profile_update_status : string; d_runtime_profile_update_error : option string; d_name : string }.
#[export] Instance eta_DeviceRow : Eta DeviceRow := fun d =>
  mkDeviceRow (d_id d) (d_host_id d) (d_image_id d) (d_platform d) (d_device_kind d) (d_provider_type d)
    (d_provider_ref d) (d_lifecycle_mode d) (d_serial d) (d_stf_serial d) (d_adb_endpoint d)
    (d_appium_endpoint d) (d_capabilities d) (d_lifecycle d) (d_health d) (d_health_reason d)
    (d_consecutive_failures d) (d_last_seen_at d) (d_created_at d) (d_updated_at d)
    (d_runtime_profile_override d) (d_pending_image_id d) (d_pending_runtime_profile d) (d_reimage_status d)
    (d_reimage_error d) (d_runtime_profile_update_status d) (d_runtime_profile_update_error d) (d_name d).

(** [repository.ReservationRecord], a row of [device_reservations]. *)
Record ReservationRecord : Type := mkReservation {
  r_ID : string; r_ClientID : string; r_PoolID : string; r_DeviceID : option string;
  r_OwnerType : string; r_OwnerID : string; r_RequestedCapabilities : obj; r_LeaseSeconds : Z;
  r_Status : ReservationStatus; r_IdempotencyKey : string; r_StartsAt : option Z; r_ExpiresAt : option Z;
  r_ReleasedAt : option Z; r_FailureCode : option string; r_CreatedAt : Z; r_UpdatedAt : Z }.
#[export] Instance eta_ReservationRecord : Eta ReservationRecord := fun r =>
  mkReservation (r_ID r) (r_ClientID r) (r_PoolID r) (r_DeviceID r) (r_OwnerType r) (r_OwnerID r)
    (r_RequestedCapabilities r) (r_LeaseSeconds r) (r_Status r) (r_IdempotencyKey r) (r_StartsAt r)
    (r_ExpiresAt r) (r_ReleasedAt r) (r_FailureCode r) (r_CreatedAt r) (r_UpdatedAt r).

(** The columns of [device_sessions] that only the iOS session service reads and writes. *)
Record FenceColumns : Type := mkFence {
  f_GrantHash : option string; f_GrantExpiresAt : option Z; f_GrantConsumedAt : option Z;
  f_AppiumSessionID : option string; f_AppiumStartedAt : option Z; f_AppiumEndedAt : option Z }.
#[export] Instance eta_FenceColumns : Eta FenceColumns := fun f =>
  mkFence (f_GrantHash f) (f_GrantExpiresAt f) (f_GrantConsumedAt f) (f_AppiumSessionID f) (f_AppiumStartedAt f) (f_AppiumEndedAt f).

Definition no_fence : FenceColumns := mkFence None None None None None None.

(** [repository.SessionRecord], a row of [device_sessions]. *)
Record SessionRecord : Type := mkSession {
  s_ID : string; s_ReservationID : string; s_DeviceID : string; s_Status : SessionStatus;
  s_StartedAt : option Z; s_EndedAt : option Z; s_ConnectionMetadata : obj; s_CreatedAt : Z; s_UpdatedAt : Z;
  s_Fence : FenceColumns }.
#[export] Instance eta_SessionRecord : Eta SessionRecord := fun s =>
  mkSession (s_ID s) (s_ReservationID s) (s_DeviceID s) (s_Status s) (s_StartedAt s) (s_EndedAt s)
    (s_ConnectionMetadata s) (s_CreatedAt s) (s_UpdatedAt s) (s_Fence s).

Record HostRow : Type := mkHostRow {
  h_id : string; h_host_type : string; h_address : option string; h_capacity : obj; h_used_capacity : obj;
  h_status : HostStatus; h_draining : bool; h_last_heartbeat_at : option Z; h_created_at : Z; h_updated_at : Z;
  h_capabilities : obj; h_host_os : string; h_host_arch : string; h_name : string }.
#[export] Instance eta_HostRow : Eta HostRow := fun h =>
  mkHostRow (h_id h) (h_host_type h) (h_address h) (h_capacity h) (h_used_capacity h) (h_status h) (h_draining h)
    (h_last_heartbeat_at h) (h_created_at h) (h_updated_at h) (h_capabilities h) (h_host_os h) (h_host_arch h) (h_name h).

Record PoolRow : Type := mkPoolRow {
  p_id : string; p_name : string; p_platform : string; p_status : PoolStatus;
  p_max_lease_seconds : Z; p_max_concurrency : Z; p_fresh_vm_per_run : bool;
  p_default_image_id : option string; p_base_device_id : option string; p_created_at : Z;
  p_total_target : Z; p_min_ready : Z; p_updated_at : Z; p_default_lease_seconds : Z }.
#[export] Instance eta_PoolRow : Eta PoolRow := fun p =>
  mkPoolRow (p_id p) (p_name p) (p_platform p) (p_status p) (p_max_lease_seconds p) (p_max_concurrency p)
    (p_fresh_vm_per_run p) (p_default_image_id p) (p_base_device_id p) (p_created_at p) (p_total_target p)
    (p_min_ready p) (p_updated_at p) (p_default_lease_seconds p).

Record PoolDeviceRow : Type := mkPoolDeviceRow {
  pd_pool_id : string; pd_device_id : string; pd_enabled : bool; pd_created_at : Z; pd_updated_at : Z }.
#[export] Instance eta_PoolDeviceRow : Eta PoolDeviceRow := fun pd =>
  mkPoolDeviceRow (pd_pool_id pd) (pd_device_id pd) (pd_enabled pd) (pd_created_at pd) (pd_updated_at pd).

Record ImageRow : Type := mkImageRow {
  im_id : string; im_api_level : Z; im_abi : string; im_resolution : string; im_resource_config : obj;
  im_status : ImageStatus; im_docker_image : string; im_docker_digest : string; im_name : string;
  im_validation_error : option string; im_created_at : Z; im_updated_at : Z }.
#[export] Instance eta_ImageRow : Eta ImageRow := fun i =>
  mkImageRow (im_id i) (im_api_level i) (im_abi i) (im_resolution i) (im_resource_config i) (im_status i)
    (im_docker_image i) (im_docker_digest i) (im_name i) (im_validation_error i) (im_created_at i) (im_updated_at i).

(** A row of [android_system_image_catalog]. *)
Record CatalogRow : Type := mkCatalogRow {
  ca_id : string; ca_package_name : string; ca_api_level : Z; ca_image_type : string; ca_abi : string;
  ca_revision : string; ca_source_updated_at : Z; ca_last_seen_at : Z }.

(** A row of [device_image_preparations]. *)
Record PreparationRow : Type := mkPreparationRow {
  pr_id : string; pr_catalog_id : string; pr_host_id : string; pr_build_command_id : string;
  pr_validation_command_id : option string; pr_client_id : string; pr_idempotency_key : string; pr_catalog_revision : string;
  pr_runtime_profile : obj; pr_status : string; pr_docker_image : option string; pr_docker_digest : option string;
  pr_image_disk_mb : option Z; pr_image_id : option string; pr_error_code : option string; pr_created_at : Z; pr_updated_at : Z }.
#[export] Instance eta_PreparationRow : Eta PreparationRow := fun p =>
  mkPreparationRow (pr_id p) (pr_catalog_id p) (pr_host_id p) (pr_build_command_id p) (pr_validation_command_id p)
    (pr_client_id p) (pr_idempotency_key p) (pr_catalog_revision p) (pr_runtime_profile p) (pr_status p) (pr_docker_image p)
    (pr_docker_digest p) (pr_image_disk_mb p) (pr_image_id p) (pr_error_code p) (pr_created_at p) (pr_updated_at p).

Record PoolImageRow : Type := mkPoolImageRow {
  pi_pool_id : string; pi_image_id : string; pi_enabled : bool; pi_min_ready : Z; pi_max_instances : Z;
  pi_created_at : Z; pi_updated_at : Z }.
#[export] Instance eta_PoolImageRow : Eta PoolImageRow := fun p =>
  mkPoolImageRow (pi_pool_id p) (pi_image_id p) (pi_enabled p) (pi_min_ready p) (pi_max_instances p) (pi_created_at p) (pi_updated_at p).

(** A row of [device_host_image_states]: whether a host was seen to hold an image. *)
Record HostImageRow : Type := mkHostImageRow {
  hi_host_id : string; hi_image_id : string; hi_available : bool; hi_error_code : option string; hi_observed_at : Z }.

(** A row of [device_provisioning_jobs]. *)
Record JobRow : Type := mkJobRow {
  j_id : string; j_client_id : string; j_idempotency_key : string; j_request_hash : string; j_pool_id : string;
  j_catalog_id : string; j_hardware_profile_id : string; j_runtime_profile : obj; j_preparation_id : option string;
  j_image_id : option string; j_device_id : option string; j_command_id : option string; j_status : string;
  j_error_stage : option string; j_error_code : option string; j_capacity_result : option obj; j_created_at : Z; j_updated_at : Z }.
#[export] Instance eta_JobRow : Eta JobRow := fun j =>
  mkJobRow (j_id j) (j_client_id j) (j_idempotency_key j) (j_request_hash j) (j_pool_id j) (j_catalog_id j)
    (j_hardware_profile_id j) (j_runtime_profile j) (j_preparation_id j) (j_image_id j) (j_device_id j) (j_command_id j)
    (j_status j) (j_error_stage j) (j_error_code j) (j_capacity_result j) (j_created_at j) (j_updated_at j).

(** [repository.CommandRecord], a row of [device_host_commands]. *)
Record CommandRecord : Type := mkCommand {
  c_ID : string; c_HostID : string; c_CommandType : string; c_Payload : obj; c_Status : CommandStatus;
  c_LeaseToken : option string; c_LeaseExpiresAt : option Z; c_Attempts : Z; c_MaxAttempts : Z;
  c_IdempotencyKey : string; c_Result : option obj; c_ErrorCode : option string;
  c_CreatedAt : Z; c_UpdatedAt : Z; c_CompletedAt : option Z }.
#[export] Instance eta_CommandRecord : Eta CommandRecord := fun c =>
  mkCommand (c_ID c) (c_HostID c) (c_CommandType c) (c_Payload c) (c_Status c) (c_LeaseToken c)
    (c_LeaseExpiresAt c) (c_Attempts c) (c_MaxAttempts c) (c_IdempotencyKey c) (c_Result c) (c_ErrorCode c)
    (c_CreatedAt c) (c_UpdatedAt c) (c_CompletedAt c).

Record IdempotencyRow : Type := mkIdempotency {
  i_request_hash : string; i_resource_type : string; i_resource_id : string; i_response_status : Z }.

Record AuditRow : Type := mkAudit {
  a_id : string; a_actor_type : string; a_actor_id : string; a_action : string; a_resource_type : string;
  a_resource_id : string; a_request_id : string; a_reason : string; a_summary : obj; a_created_at : Z }.

Record HealthEventRow : Type := mkHealthEvent {
  e_id : string; e_device_id : string; e_source : string; e_event_type : string; e_severity : string;
  e_reason : string; e_payload : obj; e_observed_at : Z; e_created_at : Z }.

Record DB : Type := mkDB {
  devices : gmap string DeviceRow;
  device_hosts : gmap string HostRow;
  device_pools : gmap string PoolRow;
  device_pool_devices : gmap (string * string) PoolDeviceRow;
  device_reservations : gmap string ReservationRecord;
  device_sessions : gmap string SessionRecord;
  device_host_commands : gmap string CommandRecord;
  device_idempotency_records : gmap (string * string * string) IdempotencyRow;
  device_audit_events : list AuditRow;
  device_health_events : list HealthEventRow;
  device_images : gmap string ImageRow;
  device_pool_images : gmap (string * string) PoolImageRow;
  device_host_image_states : gmap (string * string) HostImageRow;
  android_system_image_catalog : gmap string CatalogRow;
  device_image_preparations : gmap string PreparationRow;
  device_provisioning_jobs : gmap string JobRow }.
#[export] Instance eta_DB : Eta DB := fun db =>
  mkDB (devices db) (device_hosts db) (device_pools db) (device_pool_devices db) (device_reservations db)
    (device_sessions db) (device_host_commands db) (device_idempotency_records db)
    (device_audit_events db) (device_health_events db) (device_images db) (device_pool_images db)
    (device_host_image_states db) (android_system_image_catalog db) (device_image_preparations db)
    (device_provisioning_jobs db).

Definition empty_db : DB := mkDB ∅ ∅ ∅ ∅ ∅ ∅ ∅ ∅ [] [] ∅ ∅ ∅ ∅ ∅ ∅.

(** ** External controllers *)
Inductive ExtCall : Type :=
  | CallClaim (serial : string) (ttl : Z)
  | CallRelease (serial : string)
  | CallRemoteConnect (serial : string)
  | CallRemoteDisconnect (serial : string)
  | CallCloseForReservation (reservation : string)
  | CallProvider (operation ref : string).

(** The STF adapter as the sources' interfaces [DeviceClaimer] and [STFController]
    see it: an error is a value with its [IsRetryable] answer. *)
Record STFController : Type := mkSTF {
  stf_Claim : string -> Z -> option (string * bool);
  stf_Release : string -> option string;
  stf_RemoteConnect : string -> result string string;
  stf_RemoteDisconnect : string -> option string }.

Record IOSSessionController : Type := mkIOS { ios_CloseForReservation : string -> option string }.

Record Env : Type := mkEnv {
  env_clock : Z;
  env_process_clock : Z;
  env_locked_reservations : gset string;
  env_locked_devices : gset string;
  env_locked_commands : gset string;
  env_locked_hosts : gset string;
  env_digest : json -> string;
  env_stf : option STFController;
  env_ios : option IOSSessionController }.

Record St : Type := mkSt {
  st_db : DB; st_ids : list string; st_calls : list ExtCall; st_poolSelectionCursor : gmap string Z }.
#[export] Instance eta_St : Eta St := fun s => mkSt (st_db s) (st_ids s) (st_calls s) (st_poolSelectionCursor s).

Definition Tx (A : Type) : Type := M Env St Err A.
#[export] Instance Tx_ret : MRet Tx := @M_ret Env St Err.
#[export] Instance Tx_bind : MBind Tx := @M_bind Env St Err.

(** ** Primitives *)
Definition get_db : Tx DB := gets st_db.
Definition put_db (f : DB -> DB) : Tx unit := modify (fun s => s <| st_db := f (st_db s) |>).
Definition throw {A} (e : Err) : Tx A := fail e.

(** [database.ClockNow]. *)
Definition ClockNow : Tx Z := fun env s => (Ok (env_clock env), s).
(** [time.Now().UTC()]. *)
Definition ProcessNow : Tx Z := fun env s => (Ok (env_process_clock env), s).

(** The [IDGenerator]; an empty supply is a failing generator. *)
Definition newID : Tx string := fun _ s =>
  match st_ids s with
  | [] => (Fail ErrGenerateID, s)
  | i :: rest => (Ok i, s <| st_ids := rest |>)
  end.

Definition record_call (c : ExtCall) : Tx unit := modify (fun s => s <| st_calls := st_calls s ++ [c] |>).

(** [database.WithinTx]: commit on success, roll the database back on error. *)
Definition WithinTx {A} (body : Tx A) : Tx A := fun env s =>
  match body env s with
  | (Ok a, s') => (Ok a, s')
  | (Fail e, s') => (Fail e, s' <| st_db := st_db s |>)
  end.

(** [errors.Is(err, e)] on a read: the row or, for a missing row, [None]. *)
Definition optional {A} (e : Err) (m : Tx A) : Tx (option A) := fun env s =>
  match m env s with
  | (Ok a, s') => (Ok (Some a), s')
  | (Fail x, s') => if errors_is x e then (Ok None, s') else (Fail x, s')
  end.

(** Map the error of a computation, Go's [return translate(err)]. *)
Definition map_err {A} (f : Err -> Err) (m : Tx A) : Tx A := fun env s =>
  match m env s with
  | (Ok a, s') => (Ok a, s')
  | (Fail x, s') => (Fail (f x), s')
  end.

(** The rows of a table. *)
Definition rows {K} `{Countable K} {R} (t : gmap K R) : list R := (map_to_list t).*2.

Lemma elem_of_rows {K} `{Countable K} {R} (t : gmap K R) r :
  r ∈ rows t <-> exists k, t !! k = Some r.
Proof.
  unfold rows. rewrite list_elem_of_fmap. split.
  - intros ([k v] & -> & Hin%elem_of_map_to_list). by exists k.
  - intros [k Hk]. exists (k, r). by rewrite elem_of_map_to_list.
Qed.

(** [UPDATE t SET ... WHERE id=$1 AND guard]: the number of rows affected. *)
Definition update_device (id : string) (guard : DeviceRow -> bool) (f : DeviceRow -> DeviceRow) : Tx Z :=
  db ← get_db;
  match devices db !! id with
  | Some d => if guard d
              then _ ← put_db (fun db => db <| devices := <[id := f d]> (devices db) |>); mret 1
              else mret 0
  | None => mret 0
  end.

(** A write of a reservation row goes through the partial unique index
    [uq_device_reservations_active_device] on [device_id] where status is active. *)
Definition holds_active (d : string) (r : ReservationRecord) : bool :=
  bool_decide (r_Status r = ReservationActive) && bool_decide (r_DeviceID r = Some d).

Definition active_conflict (db : DB) (id : string) (r : ReservationRecord) : bool :=
  match r_DeviceID r with
  | Some d =>
    holds_active d r
    && existsb (fun x => negb (String.eqb (r_ID x) id) && holds_active d x) (rows (device_reservations db))
  | None => false
  end.

Definition write_reservation (id : string) (r : ReservationRecord) : Tx unit :=
  db ← get_db;
  if active_conflict db id r then throw (ErrUniqueViolation "uq_device_reservations_active_device")
  else put_db (fun db => db <| device_reservations := <[id := r]> (device_reservations db) |>).

(** [UPDATE device_reservations SET ... WHERE id=$1 AND guard RETURNING ...]. *)
Definition update_reservation (id : string) (guard : ReservationRecord -> bool)
    (f : ReservationRecord -> ReservationRecord) : Tx (option ReservationRecord) :=
  db ← get_db;
  match device_reservations db !! id with
  | Some r => if guard r then _ ← write_reservation id (f r); mret (Some (f r)) else mret None
  | None => mret None
  end.

(** [if result.RowsAffected() != 1 { return e }]. *)
Definition expect_one (n : Z) (e : Err) : Tx unit := if n =? 1 then mret tt else throw e.
Definition expect_row {A} (o : option A) (e : Err) : Tx A :=
  match o with Some a => mret a | None => throw e end.

Definition status_is (x : ReservationStatus) (r : ReservationRecord) : bool := bool_decide (r_Status r = x).
Definition lifecycle_is (x : DeviceLifecycleStatus) (d : DeviceRow) : bool := bool_decide (d_lifecycle d = x).
Definition healthy (d : DeviceRow) : bool := bool_decide (d_health d = HealthHealthy).

(** A call on an aggregate inside a transaction: its error ends the transaction. *)
Definition apply_call {A} (call : result Err unit * A) : Tx A :=
  match call with
  | (Ok _, a) => mret a
  | (Fail e, _) => throw e
  end.

(** ** Lemmas *)
Lemma WithinTx_ok {A} (body : Tx A) env s a s' :
  WithinTx body env s = (Ok a, s') <-> body env s = (Ok a, s').
Proof. unfold WithinTx. destruct (body env s) as [[b|e] s1]; split; done. Qed.

Lemma WithinTx_fail {A} (body : Tx A) env s e s' :
  WithinTx body env s = (Fail e, s') -> st_db s' = st_db s.
Proof. unfold WithinTx. destruct (body env s) as [[b|x] s1]; [done|]. by intros [= _ <-]. Qed.

(** ** Draining loops

    [for { x, err := step(); if err == nil { continue }; break }]: repeat a step until it
    fails.  [None] means that the fuel ran out. *)
Fixpoint drain {A} (fuel : nat) (step : Tx A) : Tx (option Err) :=
  match fuel with
  | O => mret None
  | S n =>
    r ← attempt step;
    match r with
    | Ok _ => drain n step
    | Fail e => mret (Some e)
    end
  end.

(** A step whose every success lowers a measure is drained by any larger fuel. *)
Lemma drain_measure {A} (step : Tx A) (mu : St -> nat) (Inv : St -> Prop) env :
  (forall s a s', Inv s -> step env s = (Ok a, s') -> Inv s' /\ (mu s' < mu s)%nat) ->
  forall fuel s, Inv s -> (mu s < fuel)%nat ->
    exists e s', drain fuel step env s = (Ok (Some e), s').
Proof.
  intros Hstep. induction fuel as [|n IH]; intros s HI Hmu; [lia|].
  cbn [drain]. unfold mbind, Tx_bind, M_bind, attempt.
  destruct (step env s) as [[a|e] s'] eqn:E; [|eauto].
  destruct (Hstep _ _ _ HI E). apply IH; [done|lia].
Qed.
