(* ===== verification/ReservationRepo.v ===== *)
(** * The reservation repository: [internal/repository/reservation.go]

    One definition per repository method, in the order of the source.  A [SELECT ...
    ORDER BY ... LIMIT 1] is the first row, in that order, that satisfies the [WHERE]
    clause; [FOR UPDATE SKIP LOCKED] passes over the rows another transaction holds.
    A scan over the pending index is evaluated row by row; a query that needs a sort
    evaluates its condition on every row first.  A failed [::int] cast is the error
    [ErrInvalidTextRepresentation]. *)
From S2P Require Import Prelude GoText Errors Domain Json Sensitive Actor Store.

Record CreateReservationParams : Type := mkCreateParams {
  cp_ID : string; cp_ClientID : string; cp_PoolID : string; cp_OwnerType : string; cp_OwnerID : string;
  cp_RequestedCapabilities : obj; cp_LeaseSeconds : Z; cp_IdempotencyKey : string }.

Record ReservationFilter : Type := mkFilter { rf_OwnerType : string; rf_OwnerID : string }.

Record PoolPolicy : Type := mkPolicy {
  pp_Status : PoolStatus; pp_Platform : string; pp_MaxLeaseSeconds : Z; pp_MaxConcurrency : Z;
  pp_ActiveReservations : Z; pp_FreshVMPerRun : bool }.

Record DeviceAssignment : Type := mkAssignment {
  da_ID : string; da_HostID : string; da_Platform : string; da_DeviceKind : string; da_LifecycleMode : string;
  da_Lifecycle : DeviceLifecycleStatus; da_Health : HealthStatus; da_Serial : string; da_STFSerial : string;
  da_ADBEndpoint : option string; da_AppiumEndpoint : option string; da_AppiumUDID : string }.

Record ExpiredRemoteSession : Type := mkExpiredRemote {
  xr_ID : string; xr_ReservationID : string; xr_DeviceID : string; xr_Serial : string; xr_ExpiresAt : Z }.

Record OperationParams : Type := mkOperation {
  op_ClientID : string; op_Scope : string; op_Key : string; op_RequestHash : string;
  op_ResourceType : string; op_ResourceID : string; op_ResponseStatus : Z }.

Definition TargetDeviceCapability : string := "_device_farm_target_device_id".

(** ** Row orders *)
Definition by_created (r : ReservationRecord) : key := (r_CreatedAt r, r_ID r).
Definition by_expiry (r : ReservationRecord) : key := (default 0 (r_ExpiresAt r), r_ID r).
Definition by_updated (r : ReservationRecord) : key := (r_UpdatedAt r, r_ID r).

Definition reservations (db : DB) : list ReservationRecord := rows (device_reservations db).

Definition not_skipped (env : Env) (r : ReservationRecord) : bool :=
  negb (bool_decide (r_ID r ∈ env_locked_reservations env)).

Definition env_gets {A} (f : Env -> DB -> A) : Tx A := fun env s => (Ok (f env (st_db s)), s).

(** A query result that may be a cast error. *)
Definition or_cast_error {A} (o : option A) : Tx A :=
  match o with Some a => mret a | None => throw ErrInvalidTextRepresentation end.

(** ** Creating a reservation *)
Definition sameReservationRequest (record : ReservationRecord) (params : CreateReservationParams) : bool :=
  String.eqb (r_ClientID record) (cp_ClientID params) && String.eqb (r_PoolID record) (cp_PoolID params)
  && String.eqb (r_OwnerType record) (cp_OwnerType params) && String.eqb (r_OwnerID record) (cp_OwnerID params)
  && (r_LeaseSeconds record =? cp_LeaseSeconds params)
  && String.eqb (r_IdempotencyKey record) (cp_IdempotencyKey params)
  && json_eqb (JObj (r_RequestedCapabilities record)) (JObj (cp_RequestedCapabilities params)).

Definition pending_row (params : CreateReservationParams) (now : Z) : ReservationRecord :=
  mkReservation (cp_ID params) (cp_ClientID params) (cp_PoolID params) None (cp_OwnerType params)
    (cp_OwnerID params) (cp_RequestedCapabilities params) (cp_LeaseSeconds params) ReservationPending
    (cp_IdempotencyKey params) None None None None now now.

Definition same_idempotency_key (client key : string) (r : ReservationRecord) : bool :=
  String.eqb (r_ClientID r) client && String.eqb (r_IdempotencyKey r) key.

(** [INSERT ... ON CONFLICT (client_id, idempotency_key) DO UPDATE ... RETURNING]: the
    new row, or the existing one for that key. *)
Definition CreatePending (params : CreateReservationParams) : Tx ReservationRecord :=
  db ← get_db;
  now ← ClockNow;
  record ← match first_where (same_idempotency_key (cp_ClientID params) (cp_IdempotencyKey params)) (reservations db) with
           | Some existing => mret existing
           | None =>
             match device_reservations db !! cp_ID params with
             | Some _ => throw (ErrUniqueViolation "device_reservations_pkey")
             | None => _ ← write_reservation (cp_ID params) (pending_row params now); mret (pending_row params now)
             end
           end;
  if sameReservationRequest record params then mret record else throw RepoErrIdempotencyConflict.

(** ** The allocation queries *)

(** The join of devices, their pool memberships, hosts and pools. *)
Record Membership : Type := mkMembership {
  m_device : DeviceRow; m_entry : PoolDeviceRow; m_host : HostRow; m_pool : PoolRow }.

Definition memberships (db : DB) : list Membership :=
  omap (fun pd =>
    d ← devices db !! pd_device_id pd;
    h ← device_hosts db !! d_host_id d;
    p ← device_pools db !! pd_pool_id pd;
    Some (mkMembership d pd h p)) (rows (device_pool_devices db)).

(** The conditions on a device, its membership, its host and its pool. *)
Definition available (m : Membership) : bool :=
  pd_enabled (m_entry m) && bool_decide (p_status (m_pool m) = PoolActive)
  && String.eqb (p_platform (m_pool m)) (d_platform (m_device m))
  && bool_decide (h_status (m_host m) = HostOnline) && negb (h_draining (m_host m))
  && lifecycle_is DeviceReady (m_device m) && healthy (m_device m).

(** The conditions that compare the requested capabilities with the device. *)
Definition capabilities_match (requested : obj) (m : Membership) : bool :=
  (negb (has_key requested TargetDeviceCapability)
   || bool_decide (get_text requested TargetDeviceCapability = Some (d_id (m_device m))))
  && (negb (has_key requested "platformName")
      || bool_decide (option_map ToLower (get_text requested "platformName") = Some (p_platform (m_pool m))))
  && obj_contains (d_capabilities (m_device m)) (device_schedulable_capabilities requested).

(** The [androidMinSdkLevel] lower bound. *)
Definition min_sdk_satisfied (requested : obj) (m : Membership) : option bool :=
  match coalesce_int requested "androidMinSdkLevel" with
  | None => None
  | Some 0 => Some true
  | Some lower => match coalesce_int (d_capabilities (m_device m)) "apiLevel" with
                  | None => None
                  | Some level => Some (lower <=? level)
                  end
  end.

Definition allocatable (requested : obj) (m : Membership) : option bool :=
  if available m && capabilities_match requested m then min_sdk_satisfied requested m else Some false.

(** [r.failure_code IS NULL OR r.updated_at <= clock_timestamp() - interval '5 seconds']. *)
Definition retry_due (now : Z) (r : ReservationRecord) : bool :=
  match r_FailureCode r with None => true | Some _ => r_UpdatedAt r <=? now - 5 * Second end.

Definition unassigned_pending (r : ReservationRecord) : bool :=
  status_is ReservationPending r && bool_decide (r_DeviceID r = None).

(** A row is locked, or skipped, after its condition has been evaluated. *)
Definition allocatable_pending (env : Env) (db : DB) (r : ReservationRecord) : option bool :=
  if unassigned_pending r && retry_due (env_clock env) r
  then match exists_sql (allocatable (r_RequestedCapabilities r)) (memberships db) with
       | Some b => Some (b && not_skipped env r)
       | None => None
       end
  else Some false.

Definition LockNextAllocatablePending : Tx ReservationRecord :=
  found ← env_gets (fun env db => first_sql (allocatable_pending env db) (order_by by_created (reservations db)));
  record ← or_cast_error found;
  expect_row record RepoErrNotFound.

Definition LockNextPending : Tx ReservationRecord :=
  found ← env_gets (fun env db =>
    first_where (fun r => not_skipped env r && status_is ReservationPending r)
      (order_by by_created (reservations db)));
  expect_row found RepoErrNotFound.

Definition assignment (d : DeviceRow) : DeviceAssignment :=
  mkAssignment (d_id d) (d_host_id d) (d_platform d) (d_device_kind d) (d_lifecycle_mode d) (d_lifecycle d)
    (d_health d) (d_serial d)
    (match d_stf_serial d with Some s => if bool_decide (s = "") then d_serial d else s | None => d_serial d end)
    (d_adb_endpoint d) (d_appium_endpoint d)
    (default (d_serial d) (get_text (d_capabilities d) "appiumUdid")).

Definition device_order (m : Membership) : key := (d_created_at (m_device m), d_id (m_device m)).

Definition LockMatchingDevice (capabilities : obj) : Tx DeviceAssignment :=
  filtered ← env_gets (fun _ db => filter_sql (allocatable capabilities) (memberships db));
  matching ← or_cast_error filtered;
  found ← env_gets (fun env _ =>
    first_where (fun m => negb (bool_decide (d_id (m_device m) ∈ env_locked_devices env)))
      (order_by device_order matching));
  m ← expect_row found RepoErrCapacityUnavailable;
  mret (assignment (m_device m)).

(** ** The claim protocol: reserve, then activate or compensate *)
Definition ReserveForClaim (reservationID deviceID : string) (reservedAt : Z) : Tx unit :=
  n ← update_device deviceID (fun d => lifecycle_is DeviceReady d && healthy d)
        (fun d => d <| d_lifecycle := DeviceReserved |> <| d_updated_at := reservedAt |>);
  _ ← expect_one n RepoErrCapacityUnavailable;
  r ← update_reservation reservationID unassigned_pending
        (fun r => r <| r_DeviceID := Some deviceID |> <| r_FailureCode := None |> <| r_UpdatedAt := reservedAt |>);
  _ ← expect_row r RepoErrNotFound;
  mret tt.

Definition claims_device (deviceID : string) (r : ReservationRecord) : bool :=
  status_is ReservationPending r && bool_decide (r_DeviceID r = Some deviceID).

Definition CompensateClaim (reservationID deviceID failureCode : string) (terminal : bool) (compensatedAt : Z) : Tx unit :=
  n ← update_device deviceID (lifecycle_is DeviceReserved)
        (fun d => d <| d_lifecycle := DeviceRecycling |> <| d_updated_at := compensatedAt |>);
  _ ← expect_one n RepoErrNotFound;
  n ← update_device deviceID (fun d => lifecycle_is DeviceRecycling d && healthy d)
        (fun d => d <| d_lifecycle := DeviceReady |> <| d_updated_at := compensatedAt |>);
  _ ← expect_one n RepoErrNotFound;
  let status := if terminal then ReservationFailed else ReservationPending in
  r ← update_reservation reservationID (claims_device deviceID)
        (fun r => r <| r_DeviceID := None |> <| r_Status := status |> <| r_FailureCode := Some failureCode |>
                    <| r_UpdatedAt := compensatedAt |>);
  _ ← expect_row r RepoErrNotFound;
  mret tt.

Definition opt_text (o : option string) : json := match o with Some s => JStr s | None => JNull end.

Definition session_metadata (device : DeviceAssignment) : obj :=
  [("host_id", JStr (da_HostID device)); ("platform", JStr (da_Platform device));
   ("serial", JStr (da_Serial device)); ("adb_endpoint", opt_text (da_ADBEndpoint device));
   ("appium_endpoint", opt_text (da_AppiumEndpoint device)); ("appium_udid", JStr (da_AppiumUDID device))].

(** The unique session of a reservation. *)
Definition session_of (db : DB) (reservationID : string) : option SessionRecord :=
  first_where (fun s => String.eqb (s_ReservationID s) reservationID) (rows (device_sessions db)).

Definition insert_session (s : SessionRecord) : Tx unit :=
  db ← get_db;
  match device_sessions db !! s_ID s, session_of db (s_ReservationID s) with
  | Some _, _ => throw (ErrUniqueViolation "device_sessions_pkey")
  | None, Some _ => throw (ErrUniqueViolation "device_sessions_reservation_id_key")
  | None, None => put_db (fun db => db <| device_sessions := <[s_ID s := s]> (device_sessions db) |>)
  end.

Definition activated (deviceID : string) (now : Z) (r : ReservationRecord) : ReservationRecord :=
  r <| r_DeviceID := Some deviceID |> <| r_Status := ReservationActive |> <| r_StartsAt := Some now |>
    <| r_ExpiresAt := Some (now + r_LeaseSeconds r * Second) |> <| r_UpdatedAt := now |>.

Definition ActivateClaimed (reservation : ReservationRecord) (device : DeviceAssignment) (sessionID : string)
    : Tx (ReservationRecord * SessionRecord) :=
  now ← ClockNow;
  n ← update_device (da_ID device) (lifecycle_is DeviceReserved)
        (fun d => d <| d_lifecycle := DeviceBusy |> <| d_updated_at := now |>);
  _ ← expect_one n RepoErrCapacityUnavailable;
  r ← update_reservation (r_ID reservation) (claims_device (da_ID device)) (activated (da_ID device) now);
  active ← expect_row r RepoErrNotFound;
  let session := mkSession sessionID (r_ID reservation) (da_ID device) SessionActive (Some now) None
                   (session_metadata device) now now no_fence in
  _ ← insert_session session;
  mret (active, session).

Definition MarkFailed (id failureCode : string) : Tx unit :=
  now ← ClockNow;
  r ← update_reservation id (status_is ReservationPending)
        (fun r => r <| r_Status := ReservationFailed |> <| r_FailureCode := Some failureCode |> <| r_UpdatedAt := now |>);
  _ ← expect_row r RepoErrNotFound;
  mret tt.

(** ** Reads *)
Definition HasPending : Tx bool := env_gets (fun _ db => existsb (status_is ReservationPending) (reservations db)).

Definition Get (id : string) : Tx ReservationRecord :=
  db ← get_db; expect_row (device_reservations db !! id) RepoErrNotFound.

Definition LockByID (id : string) : Tx ReservationRecord :=
  db ← get_db; expect_row (device_reservations db !! id) RepoErrNotFound.

Definition expired_by (now graceSeconds : Z) (r : ReservationRecord) : bool :=
  status_is ReservationActive r
  && match r_ExpiresAt r with Some e => e + graceSeconds * Second <=? now | None => false end.

Definition LockNextExpired (graceSeconds : Z) : Tx ReservationRecord :=
  found ← env_gets (fun env db =>
    first_where (fun r => expired_by (env_clock env) graceSeconds r && not_skipped env r)
      (order_by by_expiry (reservations db)));
  expect_row found RepoErrNotFound.

Definition FindNextExpired (graceSeconds : Z) : Tx ReservationRecord :=
  found ← env_gets (fun env db =>
    first_where (expired_by (env_clock env) graceSeconds) (order_by by_expiry (reservations db)));
  expect_row found RepoErrNotFound.

Definition stale_pending (now timeoutSeconds graceSeconds : Z) (r : ReservationRecord) : bool :=
  unassigned_pending r && (r_CreatedAt r + timeoutSeconds * Second + graceSeconds * Second <=? now).

Definition FindNextStalePending (timeoutSeconds graceSeconds : Z) : Tx ReservationRecord :=
  found ← env_gets (fun env db =>
    first_where (stale_pending (env_clock env) timeoutSeconds graceSeconds) (order_by by_created (reservations db)));
  expect_row found RepoErrNotFound.

Definition orphaned_claim (now graceSeconds : Z) (r : ReservationRecord) : bool :=
  status_is ReservationPending r && negb (bool_decide (r_DeviceID r = None))
  && (r_UpdatedAt r + graceSeconds * Second <=? now).

Definition FindNextOrphanedClaim (graceSeconds : Z) : Tx ReservationRecord :=
  found ← env_gets (fun env db =>
    first_where (orphaned_claim (env_clock env) graceSeconds) (order_by by_updated (reservations db)));
  expect_row found RepoErrNotFound.

(** ** Failing a pending reservation *)
Definition FailPendingClaim (reservationID deviceID failureCode : string) (at_ : Z) : Tx unit :=
  n ← update_device deviceID (lifecycle_is DeviceReserved)
        (fun d => d <| d_lifecycle := if negb (lifecycle_is DeviceReserved d) then d_lifecycle d
                                      else if healthy d then DeviceReady else DeviceQuarantined |>
                    <| d_updated_at := at_ |>);
  _ ← expect_one n RepoErrNotFound;
  r ← update_reservation reservationID (claims_device deviceID)
        (fun r => r <| r_DeviceID := None |> <| r_Status := ReservationFailed |>
                    <| r_FailureCode := Some failureCode |> <| r_UpdatedAt := at_ |>);
  _ ← expect_row r RepoErrNotFound;
  mret tt.

Definition FailPendingReservation (reservationID failureCode : string) (at_ : Z) : Tx unit :=
  r ← update_reservation reservationID unassigned_pending
        (fun r => r <| r_Status := ReservationFailed |> <| r_FailureCode := Some failureCode |> <| r_UpdatedAt := at_ |>);
  _ ← expect_row r RepoErrNotFound;
  mret tt.

Definition CancelPending (id failureCode : string) (canceledAt : Z) : Tx ReservationRecord :=
  r ← update_reservation id unassigned_pending
        (fun r => r <| r_Status := ReservationFailed |> <| r_FailureCode := Some failureCode |> <| r_UpdatedAt := canceledAt |>);
  expect_row r RepoErrNotFound.

(** ** Idempotent operations *)
Definition operation_key (p : OperationParams) : string * string * string := (op_ClientID p, op_Scope p, op_Key p).

Definition operation_row (p : OperationParams) : IdempotencyRow :=
  mkIdempotency (op_RequestHash p) (op_ResourceType p) (op_ResourceID p) (op_ResponseStatus p).

Definition same_operation (p : OperationParams) (row : IdempotencyRow) : bool :=
  String.eqb (i_request_hash row) (op_RequestHash p) && String.eqb (i_resource_type row) (op_ResourceType p)
  && String.eqb (i_resource_id row) (op_ResourceID p).

Definition BeginOperation (p : OperationParams) : Tx bool :=
  db ← get_db;
  match device_idempotency_records db !! operation_key p with
  | None =>
    _ ← put_db (fun db => db <| device_idempotency_records :=
                  <[operation_key p := operation_row p]> (device_idempotency_records db) |>);
    mret false
  | Some row => if same_operation p row then mret true else throw RepoErrIdempotencyConflict
  end.

Definition CheckOperation (p : OperationParams) : Tx bool :=
  db ← get_db;
  match device_idempotency_records db !! operation_key p with
  | None => mret false
  | Some row => if same_operation p row then mret true else throw RepoErrIdempotencyConflict
  end.

Definition Extend (id : string) (expiresAt : Z) : Tx ReservationRecord :=
  now ← ClockNow;
  r ← update_reservation id (status_is ReservationActive)
        (fun r => r <| r_ExpiresAt := Some expiresAt |> <| r_UpdatedAt := now |>);
  expect_row r RepoErrNotFound.

(** ** Sessions and devices *)
Definition LockSession (reservationID : string) : Tx SessionRecord :=
  db ← get_db; expect_row (session_of db reservationID) RepoErrNotFound.

Definition GetSession (reservationID : string) : Tx SessionRecord :=
  db ← get_db; expect_row (session_of db reservationID) RepoErrNotFound.

Definition LockDevice (id : string) : Tx DeviceAssignment :=
  db ← get_db; d ← expect_row (devices db !! id) RepoErrNotFound; mret (assignment d).

Definition GetDevice (id : string) : Tx DeviceAssignment :=
  db ← get_db; d ← expect_row (devices db !! id) RepoErrNotFound; mret (assignment d).

Definition session_is (x : SessionStatus) (s : SessionRecord) : bool := bool_decide (s_Status s = x).

(** [UPDATE device_sessions SET ... WHERE reservation_id=$1 AND guard RETURNING ...]. *)
Definition update_session (reservationID : string) (guard : SessionRecord -> bool)
    (f : SessionRecord -> SessionRecord) : Tx (option SessionRecord) :=
  db ← get_db;
  match session_of db reservationID with
  | Some s => if guard s
              then _ ← put_db (fun db => db <| device_sessions := <[s_ID s := f s]> (device_sessions db) |>);
                   mret (Some (f s))
              else mret None
  | None => mret None
  end.

Definition RemoteKey : string := "stf_remote_session".

Definition remote_of (s : SessionRecord) : option obj :=
  match assoc RemoteKey (s_ConnectionMetadata s) with Some (JObj o) => Some o | _ => None end.

Definition remote_text (s : SessionRecord) (k : string) : option string :=
  match remote_of s with Some o => get_text o k | None => None end.

(** [(connection_metadata->'stf_remote_session'->>'expires_at')::timestamptz]: a stored
    instant is a number of nanoseconds; [None] is a cast error, [Some None] SQL null. *)
Definition remote_expiry (s : SessionRecord) : option (option Z) :=
  match remote_of s with
  | None => Some None
  | Some o => match assoc "expires_at" o with
              | None | Some JNull => Some None
              | Some (JNum q) => option_map Some (Q_integral q)
              | Some _ => None
              end
  end.

Definition SetRemoteSession (reservationID : string) (metadata : json) : Tx SessionRecord :=
  now ← ClockNow;
  s ← update_session reservationID (session_is SessionActive)
        (fun s => s <| s_ConnectionMetadata := assoc_set RemoteKey metadata (s_ConnectionMetadata s) |>
                    <| s_UpdatedAt := now |>);
  expect_row s RepoErrNotFound.

Definition remote_joined (db : DB) : list (SessionRecord * ReservationRecord * DeviceRow) :=
  omap (fun s =>
    r ← device_reservations db !! s_ReservationID s;
    d ← devices db !! s_DeviceID s;
    Some (s, r, d)) (rows (device_sessions db)).

Definition remote_expired (now : Z) (x : SessionRecord * ReservationRecord * DeviceRow) : option bool :=
  let '(s, r, _) := x in
  if session_is SessionActive s && status_is ReservationActive r && has_key (s_ConnectionMetadata s) RemoteKey
  then match remote_expiry s with
       | None => None
       | Some None => Some false
       | Some (Some at_) => Some (at_ <=? now)
       end
  else Some false.

Definition remote_order (x : SessionRecord * ReservationRecord * DeviceRow) : key :=
  (match remote_expiry x.1.1 with Some (Some at_) => at_ | _ => 0 end, s_ID x.1.1).

Definition FindNextExpiredRemoteSession : Tx ExpiredRemoteSession :=
  filtered ← env_gets (fun env db => filter_sql (remote_expired (env_clock env)) (remote_joined db));
  matching ← or_cast_error filtered;
  x ← expect_row (head (order_by remote_order matching)) RepoErrNotFound;
  let '(s, _, d) := x in
  mret (mkExpiredRemote (default "" (remote_text s "id")) (s_ReservationID s) (s_DeviceID s) (d_serial d)
          (match remote_expiry s with Some (Some at_) => at_ | _ => 0 end)).

Definition ClearRemoteSession (reservationID remoteID : string) : Tx unit :=
  now ← ClockNow;
  s ← update_session reservationID
        (fun s => session_is SessionActive s && bool_decide (remote_text s "id" = Some remoteID))
        (fun s => s <| s_ConnectionMetadata := assoc_delete RemoteKey (s_ConnectionMetadata s) |>
                    <| s_UpdatedAt := now |>);
  _ ← expect_row s RepoErrNotFound;
  mret tt.

(** ** Closing an active reservation *)
Definition closable (d : DeviceRow) : bool :=
  lifecycle_is DeviceReady d || lifecycle_is DeviceBusy d || lifecycle_is DeviceReserved d
  || lifecycle_is DeviceRecycling d || lifecycle_is DeviceQuarantined d.

Definition released_lifecycle (recycle : bool) (releaseLifecycle : DeviceLifecycleStatus) (d : DeviceRow)
    : DeviceLifecycleStatus :=
  if lifecycle_is DeviceQuarantined d then d_lifecycle d
  else if recycle then DeviceRecycling
  else if bool_decide (releaseLifecycle = DeviceQuarantined) then DeviceQuarantined
  else DeviceReady.

Definition CloseActive (reservationID deviceID : string) (terminal : ReservationStatus) (recycle : bool)
    (releaseLifecycle : DeviceLifecycleStatus) (closedAt : Z) : Tx ReservationRecord :=
  _ ← update_session reservationID (session_is SessionActive)
        (fun s => s <| s_Status := SessionClosing |> <| s_UpdatedAt := closedAt |>);
  _ ← update_session reservationID (session_is SessionClosing)
        (fun s => s <| s_Status := SessionClosed |> <| s_EndedAt := Some closedAt |> <| s_UpdatedAt := closedAt |>);
  n ← update_device deviceID closable
        (fun d => d <| d_lifecycle := released_lifecycle recycle releaseLifecycle d |>
                    <| d_lifecycle_mode := if recycle then "rebuild" else d_lifecycle_mode d |>
                    <| d_updated_at := closedAt |>);
  _ ← expect_one n RepoErrNotFound;
  r ← update_reservation reservationID (status_is ReservationActive)
        (fun r => r <| r_Status := terminal |> <| r_ReleasedAt := Some closedAt |> <| r_UpdatedAt := closedAt |>);
  expect_row r RepoErrNotFound.

Definition InsertAudit (id actorType actorID action resourceID requestID reason : string) : Tx unit :=
  now ← ClockNow;
  put_db (fun db => db <| device_audit_events := device_audit_events db ++
    [mkAudit id actorType actorID action "device_reservation" resourceID requestID (RedactText reason) [] now] |>).

(** ** Listing *)
Definition filter_matches (f : ReservationFilter) (r : ReservationRecord) : bool :=
  (String.eqb (rf_OwnerType f) "" || String.eqb (r_OwnerType r) (rf_OwnerType f))
  && (String.eqb (rf_OwnerID f) "" || String.eqb (r_OwnerID r) (rf_OwnerID f)).

Definition newest_first (l : list ReservationRecord) : list ReservationRecord := reverse (order_by by_created l).

Definition ReservationRepo_List (f : ReservationFilter) (page : Page) : Tx (list ReservationRecord * Z) :=
  db ← get_db;
  let matching := List.filter (filter_matches f) (reservations db) in
  mret (window page (newest_first matching), Z.of_nat (length matching)).

(** ** Pool policies *)
Definition count_where {R} (p : R -> bool) (l : list R) : Z := Z.of_nat (length (List.filter p l)).

Definition active_in_pool (poolID : string) (r : ReservationRecord) : bool :=
  String.eqb (r_PoolID r) poolID && status_is ReservationActive r.

Definition policy_of (p : PoolRow) (active : Z) : PoolPolicy :=
  mkPolicy (p_status p) (p_platform p) (p_max_lease_seconds p) (p_max_concurrency p) active (p_fresh_vm_per_run p).

Definition GetPoolPolicy (poolID : string) : Tx PoolPolicy :=
  db ← get_db;
  p ← expect_row (device_pools db !! poolID) RepoErrNotFound;
  mret (policy_of p (count_where (active_in_pool poolID) (reservations db))).

Definition LockPoolPolicy (poolID : string) : Tx PoolPolicy :=
  db ← get_db;
  p ← expect_row (device_pools db !! poolID) RepoErrNotFound;
  mret (policy_of p (count_where (active_in_pool poolID) (reservations db))).

(** [CASE WHEN platform='ios' THEN 'iOS - ' || address ELSE 'android-' || address END]. *)
Definition pool_name_for (address platform : string) : string :=
  if String.eqb platform "ios" then ("iOS - " ++ address)%string else ("android-" ++ address)%string.

Definition pool_by_created (p : PoolRow) : key := (p_created_at p, p_id p).
Definition entry_by_created (e : PoolDeviceRow) : key := (pd_created_at e, pd_pool_id e).
Definition pool_active (p : PoolRow) : bool := bool_decide (p_status p = PoolActive).

(** [ORDER BY flag DESC, created_at LIMIT 1]. *)
Definition first_preferring {R} (flag : R -> bool) (k : R -> key) (l : list R) : option R :=
  match head (order_by k (List.filter flag l)) with
  | Some x => Some x
  | None => head (order_by k (List.filter (fun x => negb (flag x)) l))
  end.

Definition pools_named_after_host (db : DB) (hostID : string) : list PoolRow :=
  match device_hosts db !! hostID with
  | Some h => match h_address h with
              | Some address =>
                List.filter (fun p => String.eqb (p_name p) (pool_name_for address (p_platform p))) (rows (device_pools db))
              | None => []
              end
  | None => []
  end.

(** The memberships of a device whose pool exists and satisfies a condition. *)
Definition entries_of_device (db : DB) (deviceID : string) (ok : PoolRow -> bool) : list PoolDeviceRow :=
  List.filter (fun e => String.eqb (pd_device_id e) deviceID
                   && match device_pools db !! pd_pool_id e with Some p => ok p | None => false end)
    (rows (device_pool_devices db)).

Definition LoadPoolPolicyForRelease (hostID deviceID : string) : Tx PoolPolicy :=
  db ← get_db;
  let named := first_preferring pool_active pool_by_created (pools_named_after_host db hostID) in
  let poolID := match named with
                | Some p => Some (p_id p)
                | None => option_map pd_pool_id
                            (first_preferring pd_enabled entry_by_created (entries_of_device db deviceID (fun _ => true)))
                end in
  id ← expect_row poolID RepoErrNotFound;
  p ← expect_row (device_pools db !! id) RepoErrNotFound;
  mret (policy_of p 0).

(** Active reservations of devices on a host. *)
Definition active_on_host (db : DB) (hostID : string) (r : ReservationRecord) : bool :=
  status_is ReservationActive r
  && match r_DeviceID r with
     | Some d => match devices db !! d with Some row => String.eqb (d_host_id row) hostID | None => false end
     | None => false
     end.

Definition LockPoolPolicyForHost (hostID deviceID : string) : Tx PoolPolicy :=
  db ← get_db;
  let named := head (order_by pool_by_created (List.filter pool_active (pools_named_after_host db hostID))) in
  let poolID := match named with
                | Some p => Some (p_id p)
                | None => option_map pd_pool_id
                            (head (order_by entry_by_created
                               (List.filter pd_enabled (entries_of_device db deviceID pool_active))))
                end in
  id ← expect_row poolID RepoErrNotFound;
  p ← expect_row (device_pools db !! id) RepoErrNotFound;
  _ ← guard_or (pool_active p) RepoErrNotFound;
  mret (policy_of p (count_where (active_on_host db hostID) (reservations db))).

(** ** Reservations that target one device *)
Definition targetable (poolID deviceID : string) (db : DB) : bool :=
  match devices db !! deviceID, device_pools db !! poolID, device_pool_devices db !! (poolID, deviceID) with
  | Some d, Some p, Some e =>
    pd_enabled e && pool_active p
    && negb (lifecycle_is DeviceDeleted d || lifecycle_is DeviceStopped d || lifecycle_is DeviceQuarantined d)
    && String.eqb (p_platform p) (d_platform d)
  | _, _, _ => false
  end.

Definition ValidateTargetDeviceInPool (poolID deviceID : string) : Tx unit :=
  db ← get_db; guard_or (targetable poolID deviceID db) RepoErrNotFound.

Definition FindActivePoolForDevice (deviceID : string) : Tx string :=
  db ← get_db;
  let candidates := List.filter (fun m => String.eqb (d_id (m_device m)) deviceID && available m) (memberships db) in
  m ← expect_row (head (order_by (fun m => pool_by_created (m_pool m)) candidates)) RepoErrCapacityUnavailable;
  mret (p_id (m_pool m)).

(** [pg_advisory_xact_lock]: transactions are atomic here, so the lock has no effect. *)
Definition LockTargetDevice (deviceID : string) : Tx unit := mret tt.

Definition targets (deviceID : string) (r : ReservationRecord) : bool :=
  bool_decide (get_text (r_RequestedCapabilities r) TargetDeviceCapability = Some deviceID).

Definition open_targeted (ownerID deviceID : string) (r : ReservationRecord) : bool :=
  String.eqb (r_OwnerType r) "manual" && (String.eqb ownerID "" || String.eqb (r_OwnerID r) ownerID)
  && (status_is ReservationPending r || status_is ReservationActive r) && targets deviceID r.

Definition FindOpenTargeted (ownerID deviceID : string) : Tx ReservationRecord :=
  db ← get_db;
  expect_row (first_where (open_targeted ownerID deviceID) (newest_first (reservations db))) RepoErrNotFound.

Definition keepable (ownerID deviceID : string) (now : Z) (r : ReservationRecord) : bool :=
  status_is ReservationActive r && match r_ExpiresAt r with Some e => now <? e | None => false end
  && String.eqb (r_OwnerType r) "manual" && String.eqb (r_OwnerID r) ownerID && targets deviceID r.

Definition KeepAliveTargeted (reservationID ownerID deviceID : string) (lease : Z) : Tx ReservationRecord :=
  now ← ClockNow;
  db ← get_db;
  let seconds := duration_seconds lease in
  r ← expect_row (device_reservations db !! reservationID) RepoErrNotFound;
  p ← expect_row (device_pools db !! r_PoolID r) RepoErrNotFound;
  r ← update_reservation reservationID (keepable ownerID deviceID now)
        (fun r => r <| r_ExpiresAt := Some (Z.min (now + seconds * Second) (now + p_max_lease_seconds p * Second)) |>
                    <| r_UpdatedAt := now |>);
  expect_row r RepoErrNotFound.
