(* ===== verification/TxFacts.v ===== *)
(** * Reasoning about transactions

    [Keeps g m]: whatever [m] returns, it leaves the part [g] of the database as it
    found it; [ReadOnly m]: it changes nothing.  The class instances
    follow the combinators, so that the reads of a transaction are discharged
    by type class resolution.  The
    effect lemmas state the success of a write as an equation on the database. *)
From S2P Require Import Prelude GoText Errors Domain Json Sensitive Actor Store.
From S2P Require Import ReservationRepo.

Class Keeps {X A} (g : DB -> X) (m : Tx A) : Prop :=
  keeps : forall env s r s', m env s = (r, s') -> g (st_db s') = g (st_db s).
Abbreviation KeepsDB := (Keeps (fun db => db)).
Lemma keeps_db {A} {m : Tx A} `{K : !KeepsDB m} env s r s' : m env s = (r, s') -> st_db s' = st_db s.
Proof. apply K. Qed.

(** A read: nothing of the state changes. *)
Class ReadOnly {A} (m : Tx A) : Prop :=
  read_only : forall env s r s', m env s = (r, s') -> s' = s.

#[export] Instance ReadOnly_Keeps {X A} (g : DB -> X) (m : Tx A) : ReadOnly m -> Keeps g m | 10.
Proof. intros H env s r s' E. by rewrite (H _ _ _ _ E). Qed.

#[export] Instance ret_ro {A} (a : A) : ReadOnly (mret a).
Proof. intros env s r s' [= _ <-]. done. Qed.
#[export] Instance throw_ro {A} e : ReadOnly (@throw A e).
Proof. intros env s r s' [= _ <-]. done. Qed.
#[export] Instance get_db_ro : ReadOnly get_db.
Proof. intros env s r s' [= _ <-]. done. Qed.
#[export] Instance gets_ro {A} (f : St -> A) : ReadOnly (gets f).
Proof. intros env s r s' [= _ <-]. done. Qed.
#[export] Instance env_gets_ro {A} (f : Env -> DB -> A) : ReadOnly (env_gets f).
Proof. intros env s r s' [= _ <-]. done. Qed.
#[export] Instance ClockNow_ro : ReadOnly ClockNow.
Proof. intros env s r s' [= _ <-]. done. Qed.
#[export] Instance ProcessNow_ro : ReadOnly ProcessNow.
Proof. intros env s r s' [= _ <-]. done. Qed.
#[export] Instance lift_result_ro {A} (x : result Err A) : ReadOnly (lift_result x).
Proof. intros env s r s' [= _ <-]. done. Qed.
#[export] Instance guard_or_ro b e : ReadOnly (guard_or b e).
Proof. intros env s r s'. destruct b; by intros [= _ <-]. Qed.
#[export] Instance expect_row_ro {A} (o : option A) e : ReadOnly (expect_row o e).
Proof. intros env s r s'. destruct o; by intros [= _ <-]. Qed.
#[export] Instance expect_one_ro n e : ReadOnly (expect_one n e).
Proof. intros env s r s'. unfold expect_one. destruct (n =? 1); by intros [= _ <-]. Qed.
#[export] Instance or_cast_error_ro {A} (o : option A) : ReadOnly (or_cast_error o).
Proof. intros env s r s'. destruct o; by intros [= _ <-]. Qed.
#[export] Instance apply_call_ro {A} (c : result Err unit * A) : ReadOnly (apply_call c).
Proof. intros env s r s'. destruct c as [[] ?]; by intros [= _ <-]. Qed.

#[export] Instance bind_ro {A B} (m : Tx A) (f : A -> Tx B) :
  ReadOnly m -> (forall a, ReadOnly (f a)) -> ReadOnly (m ≫= f).
Proof.
  intros Hm Hf env s r s' E. unfold mbind, Tx_bind, M_bind in E.
  destruct (m env s) as [[a|e] s1] eqn:E1; apply Hm in E1 as ->.
  - by apply Hf in E.
  - by injection E as _ <-.
Qed.
#[export] Instance bind_keeps {X A B} (g : DB -> X) (m : Tx A) (f : A -> Tx B) :
  Keeps g m -> (forall a, Keeps g (f a)) -> Keeps g (m ≫= f) | 20.
Proof.
  intros Hm Hf env s r s' E. unfold mbind, Tx_bind, M_bind in E.
  destruct (m env s) as [[a|e] s1] eqn:E1; apply Hm in E1.
  - apply Hf in E. congruence.
  - injection E as _ <-. done.
Qed.

#[export] Instance optional_ro {A} e (m : Tx A) : ReadOnly m -> ReadOnly (optional e m).
Proof.
  intros Hm env s r s'. unfold optional.
  destruct (m env s) as [[a|x] s1] eqn:E1; apply Hm in E1 as ->; [|destruct (errors_is x e)]; by intros [= _ <-].
Qed.
#[export] Instance map_err_ro {A} f (m : Tx A) : ReadOnly m -> ReadOnly (map_err f m).
Proof.
  intros Hm env s r s'. unfold map_err.
  destruct (m env s) as [[a|x] s1] eqn:E1; apply Hm in E1 as ->; by intros [= _ <-].
Qed.
#[export] Instance map_err_keeps {X A} (g : DB -> X) f (m : Tx A) : Keeps g m -> Keeps g (map_err f m) | 20.
Proof.
  intros Hm env s r s'. unfold map_err.
  destruct (m env s) as [[a|x] s1] eqn:E1; apply Hm in E1; by intros [= _ <-].
Qed.
#[export] Instance attempt_keeps {X A} (g : DB -> X) (m : Tx A) : Keeps g m -> Keeps g (attempt m) | 20.
Proof.
  intros Hm env s r s'. unfold attempt. destruct (m env s) as [x s1] eqn:E1; apply Hm in E1. by intros [= _ <-].
Qed.
#[export] Instance if_ro {A} (b : bool) (m1 m2 : Tx A) : ReadOnly m1 -> ReadOnly m2 -> ReadOnly (if b then m1 else m2).
Proof. by destruct b. Qed.
#[export] Instance if_keeps {X A} (g : DB -> X) (b : bool) (m1 m2 : Tx A) :
  Keeps g m1 -> Keeps g m2 -> Keeps g (if b then m1 else m2) | 20.
Proof. by destruct b. Qed.
#[export] Instance option_ro {A B} (o : option A) (m1 : A -> Tx B) m2 :
  (forall a, ReadOnly (m1 a)) -> ReadOnly m2 -> ReadOnly (match o with Some a => m1 a | None => m2 end).
Proof. by destruct o. Qed.
#[export] Instance option_keeps {X A B} (g : DB -> X) (o : option A) (m1 : A -> Tx B) m2 :
  (forall a, Keeps g (m1 a)) -> Keeps g m2 -> Keeps g (match o with Some a => m1 a | None => m2 end) | 20.
Proof. by destruct o. Qed.
#[export] Instance newID_keeps {X} (g : DB -> X) : Keeps g newID.
Proof. intros env s r s'. unfold newID. destruct (st_ids s); by intros [= _ <-]. Qed.
#[export] Instance record_call_keeps {X} (g : DB -> X) c : Keeps g (record_call c).
Proof. intros env s r s' [= _ <-]. done. Qed.

(** A failed transaction, and one whose body only reads, keep the database. *)
Lemma WithinTx_result {A} (body : Tx A) env s r s' :
  WithinTx body env s = (r, s') ->
  (exists a, r = Ok a /\ body env s = (Ok a, s')) \/ (exists e, r = Fail e /\ st_db s' = st_db s).
Proof.
  unfold WithinTx. destruct (body env s) as [[a|e] s1]; intros [= <- <-]; [left|right]; eauto.
Qed.
#[export] Instance WithinTx_keeps {X A} (g : DB -> X) (m : Tx A) : Keeps g m -> Keeps g (WithinTx m) | 20.
Proof.
  intros Hm env s r s' [(a & -> & E)|(e & -> & E)]%WithinTx_result; [by apply Hm in E|by rewrite E].
Qed.

(** The methods that only read. *)
Ltac solve_ro := unfold LockNextAllocatablePending, LockNextPending, LockMatchingDevice, HasPending, ReservationRepo.Get,
  LockByID, LockNextExpired, FindNextExpired, FindNextStalePending, FindNextOrphanedClaim, LockSession, GetSession,
  LockDevice, GetDevice, FindNextExpiredRemoteSession, ReservationRepo_List, GetPoolPolicy, LockPoolPolicy,
  LoadPoolPolicyForRelease, LockPoolPolicyForHost, ValidateTargetDeviceInPool, FindActivePoolForDevice,
  LockTargetDevice, FindOpenTargeted; apply _.

#[export] Instance LockNextAllocatablePending_ro : ReadOnly LockNextAllocatablePending. Proof. solve_ro. Qed.
#[export] Instance LockMatchingDevice_ro c : ReadOnly (LockMatchingDevice c). Proof. solve_ro. Qed.
#[export] Instance HasPending_ro : ReadOnly HasPending. Proof. solve_ro. Qed.
#[export] Instance Get_ro id : ReadOnly (ReservationRepo.Get id). Proof. solve_ro. Qed.
#[export] Instance LockByID_ro id : ReadOnly (LockByID id). Proof. solve_ro. Qed.
#[export] Instance FindNextExpired_ro g : ReadOnly (FindNextExpired g). Proof. solve_ro. Qed.
#[export] Instance FindNextStalePending_ro t g : ReadOnly (FindNextStalePending t g). Proof. solve_ro. Qed.
#[export] Instance FindNextOrphanedClaim_ro g : ReadOnly (FindNextOrphanedClaim g). Proof. solve_ro. Qed.
#[export] Instance LockSession_ro id : ReadOnly (LockSession id). Proof. solve_ro. Qed.
#[export] Instance GetSession_ro id : ReadOnly (GetSession id). Proof. solve_ro. Qed.
#[export] Instance LockDevice_ro id : ReadOnly (LockDevice id). Proof. solve_ro. Qed.
#[export] Instance GetDevice_ro id : ReadOnly (GetDevice id). Proof. solve_ro. Qed.
#[export] Instance GetPoolPolicy_ro id : ReadOnly (GetPoolPolicy id). Proof. solve_ro. Qed.
#[export] Instance LoadPoolPolicyForRelease_ro h d : ReadOnly (LoadPoolPolicyForRelease h d). Proof. solve_ro. Qed.
#[export] Instance LockPoolPolicyForHost_ro h d : ReadOnly (LockPoolPolicyForHost h d). Proof. solve_ro. Qed.
#[export] Instance ValidateTargetDeviceInPool_ro p d : ReadOnly (ValidateTargetDeviceInPool p d). Proof. solve_ro. Qed.
#[export] Instance FindActivePoolForDevice_ro d : ReadOnly (FindActivePoolForDevice d). Proof. solve_ro. Qed.
#[export] Instance LockTargetDevice_ro d : ReadOnly (LockTargetDevice d). Proof. solve_ro. Qed.
#[export] Instance FindOpenTargeted_ro o d : ReadOnly (FindOpenTargeted o d). Proof. solve_ro. Qed.
#[export] Instance CheckOperation_ro p : ReadOnly (CheckOperation p).
Proof. unfold CheckOperation. apply bind_ro; [apply _|]. intros db. destruct (_ !! _); apply _. Qed.

(** ** Writes *)
Definition put_device (id : string) (d : DeviceRow) (db : DB) : DB := db <| devices := <[id := d]> (devices db) |>.
Definition put_reservation (id : string) (r : ReservationRecord) (db : DB) : DB :=
  db <| device_reservations := <[id := r]> (device_reservations db) |>.
Definition put_session (id : string) (x : SessionRecord) (db : DB) : DB :=
  db <| device_sessions := <[id := x]> (device_sessions db) |>.
Definition on_db (f : DB -> DB) (s : St) : St := s <| st_db := f (st_db s) |>.

Lemma bindT_ok {A B} (m : Tx A) (f : A -> Tx B) env s b s' :
  (m ≫= f) env s = (Ok b, s') -> exists a s1, m env s = (Ok a, s1) /\ f a env s1 = (Ok b, s').
Proof. apply bind_ok. Qed.

Lemma expect_row_ok {A} (o : option A) e env s a s' : expect_row o e env s = (Ok a, s') -> o = Some a /\ s' = s.
Proof. destruct o; cbn; [by intros [= -> <-]|done]. Qed.

Lemma guardT_ok b (x : Err) (env : Env) (s : St) u s' : guard_or b x env s = (Ok u, s') -> b = true /\ s' = s.
Proof. destruct b; cbn; [by intros [= _ <-]|done]. Qed.

Lemma lift_ok {A} (r : result Err A) (env : Env) (s : St) a s' : lift_result r env s = (Ok a, s') -> r = Ok a /\ s' = s.
Proof. by intros [= -> <-]. Qed.

Lemma apply_call_ok {A} (c : result Err unit * A) env s a s' :
  apply_call c env s = (Ok a, s') -> c = (Ok tt, a) /\ s' = s.
Proof. destruct c as [[[]|e] x]; cbn; [by intros [= -> <-]|done]. Qed.

Lemma map_err_ok {A} f (m : Tx A) env s a s' : map_err f m env s = (Ok a, s') <-> m env s = (Ok a, s').
Proof. unfold map_err. destruct (m env s) as [[b|e] s1]; split; done. Qed.

Lemma optional_Some {A} e (m : Tx A) env s a s' : optional e m env s = (Ok (Some a), s') -> m env s = (Ok a, s').
Proof. unfold optional. destruct (m env s) as [[b|x] s1]; [by intros [= -> <-]|]. by destruct (errors_is x e). Qed.

Lemma optional_None {A} e (m : Tx A) env s s' :
  optional e m env s = (Ok None, s') -> exists x, errors_is x e = true /\ m env s = (Fail x, s').
Proof.
  unfold optional. destruct (m env s) as [[b|x] s1]; [done|].
  destruct (errors_is x e) eqn:E; [|done]. intros [= <-]. eauto.
Qed.

Lemma expect_one_ok n e env s u s' : expect_one n e env s = (Ok u, s') -> n = 1 /\ s' = s.
Proof. unfold expect_one. destruct (Z.eqb_spec n 1); cbn; [by intros [= _ <-]|done]. Qed.

(** The number of rows an update affects. *)
Lemma update_device_rows id g f env s :
  update_device id g f env s =
  match devices (st_db s) !! id with
  | Some d => if g d then (Ok 1, on_db (put_device id (f d)) s) else (Ok 0, s)
  | None => (Ok 0, s)
  end.
Proof.
  unfold update_device, get_db, mbind, Tx_bind, M_bind, gets. destruct (_ !! id) as [d|]; [|done]. by destruct (g d).
Qed.

Lemma update_device_one id g f env s s' :
  update_device id g f env s = (Ok 1, s') ->
  exists d, devices (st_db s) !! id = Some d /\ g d = true /\ s' = on_db (put_device id (f d)) s.
Proof.
  rewrite update_device_rows. destruct (_ !! id) as [d|] eqn:Hd; [|done].
  destruct (g d) eqn:Hg; [|done]. intros [= <-]. by exists d.
Qed.

Lemma update_reservation_Some id g f env s r' s' :
  update_reservation id g f env s = (Ok (Some r'), s') ->
  exists r, device_reservations (st_db s) !! id = Some r /\ g r = true /\ r' = f r
    /\ active_conflict (st_db s) id (f r) = false /\ s' = on_db (put_reservation id (f r)) s.
Proof.
  unfold update_reservation, write_reservation, get_db, mbind, Tx_bind, M_bind, gets.
  destruct (_ !! id) as [r|] eqn:Hr; [|done]. destruct (g r) eqn:Hg; [|done].
  destruct (active_conflict _ _ _) eqn:Hc; [done|]. intros [= <- <-]. by exists r.
Qed.

(** A write of a row that is not active never meets the unique index. *)
Lemma no_conflict db id r : status_is ReservationActive r = false -> active_conflict db id r = false.
Proof. unfold active_conflict, holds_active, status_is. intros ->. by destruct (r_DeviceID r). Qed.

Lemma update_reservation_row id g f env s :
  (forall r, status_is ReservationActive (f r) = false) ->
  update_reservation id g f env s =
  match device_reservations (st_db s) !! id with
  | Some r => if g r then (Ok (Some (f r)), on_db (put_reservation id (f r)) s) else (Ok None, s)
  | None => (Ok None, s)
  end.
Proof.
  intros Hf. unfold update_reservation, write_reservation, get_db, mbind, Tx_bind, M_bind, gets.
  destruct (_ !! id) as [r|]; [|done]. destruct (g r); [|done].
  by rewrite no_conflict.
Qed.

(** Open a successful transaction, one bind at a time; a read leaves its state. *)
Ltac tx_step H :=
  lazymatch type of H with
  | (_ ≫= _) _ _ = (Ok _, _) =>
    let a := fresh "a" in let s1 := fresh "s" in let E := fresh "E" in
    apply bindT_ok in H as (a & s1 & E & H); cbv beta in H; tx_step E
  | mret _ _ _ = (Ok _, _) => injection H as ? ?; subst
  | guard_or _ _ _ _ = (Ok _, _) => apply guardT_ok in H as [H ->]
  | expect_row _ _ _ _ = (Ok _, _) => apply expect_row_ok in H as [H ->]
  | expect_one _ _ _ _ = (Ok _, _) => apply expect_one_ok in H as [H ->]; subst
  | lift_result _ _ _ = (Ok _, _) => apply lift_ok in H as [H ->]
  | apply_call _ _ _ = (Ok _, _) => apply apply_call_ok in H as [H ->]
  | map_err _ _ _ _ = (Ok _, _) => apply map_err_ok in H
  | get_db _ _ = (Ok _, _) => injection H as ? ?; subst
  | env_gets _ _ _ = (Ok _, _) => injection H as ? ?; subst
  | gets _ _ _ = (Ok _, _) => injection H as ? ?; subst
  | ClockNow _ _ = (Ok _, _) => injection H as ? ?; subst
  | ProcessNow _ _ = (Ok _, _) => injection H as ? ?; subst
  | update_device _ _ _ _ _ = (Ok _, _) => idtac
  | _ => idtac
  end.
Ltac tx H := repeat (progress tx_step H).

Ltac tx_writes :=
  repeat match goal with
  | H : update_device _ _ _ _ _ = (Ok 1, _) |- _ =>
    let d := fresh "d" in let Hd := fresh "Hd" in let Hg := fresh "Hg" in
    apply update_device_one in H as (d & Hd & Hg & ->)
  | H : update_reservation _ _ _ _ _ = (Ok (Some _), _) |- _ =>
    let r := fresh "r" in let Hr := fresh "Hr" in let Hg := fresh "Hgr" in let Hc := fresh "Hc" in
    apply update_reservation_Some in H as (r & Hr & Hg & -> & Hc & ->)
  end.

Lemma claims_device_spec d r :
  claims_device d r = true <-> r_Status r = ReservationPending /\ r_DeviceID r = Some d.
Proof. unfold claims_device, status_is. by rewrite andb_true_iff, !bool_decide_eq_true. Qed.
Lemma unassigned_pending_spec r :
  unassigned_pending r = true <-> r_Status r = ReservationPending /\ r_DeviceID r = None.
Proof. unfold unassigned_pending, status_is. by rewrite andb_true_iff, !bool_decide_eq_true. Qed.
Lemma status_is_spec x r : status_is x r = true <-> r_Status r = x.
Proof. apply bool_decide_eq_true. Qed.
Lemma lifecycle_is_spec x d : lifecycle_is x d = true <-> d_lifecycle d = x.
Proof. apply bool_decide_eq_true. Qed.
Lemma healthy_spec d : healthy d = true <-> d_health d = HealthHealthy.
Proof. apply bool_decide_eq_true. Qed.

(** Turn the boolean tests of the guards into equations. *)
Ltac guards :=
  repeat match goal with
  | H : _ && _ = true |- _ => apply andb_true_iff in H as [? ?]
  | H : claims_device _ _ = true |- _ => apply claims_device_spec in H as [? ?]
  | H : unassigned_pending _ = true |- _ => apply unassigned_pending_spec in H as [? ?]
  | H : status_is _ _ = true |- _ => apply status_is_spec in H
  | H : lifecycle_is _ _ = true |- _ => apply lifecycle_is_spec in H
  | H : healthy _ = true |- _ => apply healthy_spec in H
  | H : bool_decide _ = true |- _ => apply bool_decide_eq_true in H
  | H : negb _ = true |- _ => apply negb_true_iff in H
  | H : (_ =? _)%string = true |- _ => apply String.eqb_eq in H
  end.

(** ** The effect of each repository write *)
Section Effects.
Context (env : Env) (s s' : St).

Lemma ReserveForClaim_ok rid did t u :
  ReserveForClaim rid did t env s = (Ok u, s') ->
  exists d r, devices (st_db s) !! did = Some d /\ d_lifecycle d = DeviceReady /\ d_health d = HealthHealthy
    /\ device_reservations (st_db s) !! rid = Some r /\ r_Status r = ReservationPending /\ r_DeviceID r = None
    /\ s' = on_db (fun db => put_reservation rid (r <| r_DeviceID := Some did |> <| r_FailureCode := None |> <| r_UpdatedAt := t |>)
                   (put_device did (d <| d_lifecycle := DeviceReserved |> <| d_updated_at := t |>) db)) s.
Proof.
  unfold ReserveForClaim. intros H. tx H. tx_writes. guards. eexists _, _. split_and!; done.
Qed.

Lemma CompensateClaim_ok rid did code terminal t u :
  CompensateClaim rid did code terminal t env s = (Ok u, s') ->
  exists d r, devices (st_db s) !! did = Some d /\ d_lifecycle d = DeviceReserved /\ d_health d = HealthHealthy
    /\ device_reservations (st_db s) !! rid = Some r /\ r_Status r = ReservationPending /\ r_DeviceID r = Some did
    /\ st_db s' = put_reservation rid (r <| r_DeviceID := None |>
                     <| r_Status := if terminal then ReservationFailed else ReservationPending |>
                     <| r_FailureCode := Some code |> <| r_UpdatedAt := t |>)
                   (put_device did (d <| d_lifecycle := DeviceReady |> <| d_updated_at := t |>) (st_db s)).
Proof.
  unfold CompensateClaim. intros H. tx H. tx_writes. guards. cbn in *.
  match goal with H : <[_ := _]> _ !! _ = Some _ |- _ => rewrite lookup_insert_eq in H; injection H as <- end.
  eexists _, _. split_and!; try done.
  unfold put_reservation, put_device. cbn. by rewrite insert_insert_eq.
Qed.

Lemma FailPendingClaim_ok rid did code t u :
  FailPendingClaim rid did code t env s = (Ok u, s') ->
  exists d r, devices (st_db s) !! did = Some d /\ d_lifecycle d = DeviceReserved
    /\ device_reservations (st_db s) !! rid = Some r /\ r_Status r = ReservationPending /\ r_DeviceID r = Some did
    /\ s' = on_db (fun db => put_reservation rid (r <| r_DeviceID := None |> <| r_Status := ReservationFailed |>
                     <| r_FailureCode := Some code |> <| r_UpdatedAt := t |>)
                   (put_device did (d <| d_lifecycle := if healthy d then DeviceReady else DeviceQuarantined |>
                     <| d_updated_at := t |>) db)) s.
Proof.
  unfold FailPendingClaim. intros H. tx H. tx_writes.
  match goal with H : lifecycle_is DeviceReserved ?d = true |- _ => rewrite H in *; cbn [negb] in * end.
  guards. eexists _, _. split_and!; done.
Qed.

Lemma FailPendingReservation_ok rid code t u :
  FailPendingReservation rid code t env s = (Ok u, s') ->
  exists r, device_reservations (st_db s) !! rid = Some r /\ r_Status r = ReservationPending /\ r_DeviceID r = None
    /\ s' = on_db (put_reservation rid (r <| r_Status := ReservationFailed |> <| r_FailureCode := Some code |>
                     <| r_UpdatedAt := t |>)) s.
Proof. unfold FailPendingReservation. intros H. tx H. tx_writes. guards. eexists _. split_and!; done. Qed.

Lemma CancelPending_ok rid code t r' :
  CancelPending rid code t env s = (Ok r', s') ->
  exists r, device_reservations (st_db s) !! rid = Some r /\ r_Status r = ReservationPending /\ r_DeviceID r = None
    /\ s' = on_db (put_reservation rid (r <| r_Status := ReservationFailed |> <| r_FailureCode := Some code |>
                     <| r_UpdatedAt := t |>)) s.
Proof. unfold CancelPending. intros H. tx H. subst. tx_writes. guards. eexists _. split_and!; done. Qed.

Lemma MarkFailed_ok rid code u :
  MarkFailed rid code env s = (Ok u, s') ->
  exists r, device_reservations (st_db s) !! rid = Some r /\ r_Status r = ReservationPending
    /\ s' = on_db (put_reservation rid (r <| r_Status := ReservationFailed |> <| r_FailureCode := Some code |>
                     <| r_UpdatedAt := env_clock env |>)) s.
Proof. unfold MarkFailed. intros H. tx H. tx_writes. guards. eexists _. split_and!; done. Qed.

Lemma Extend_ok rid t r' :
  ReservationRepo.Extend rid t env s = (Ok r', s') ->
  exists r, device_reservations (st_db s) !! rid = Some r /\ r_Status r = ReservationActive
    /\ active_conflict (st_db s) rid r' = false
    /\ r' = r <| r_ExpiresAt := Some t |> <| r_UpdatedAt := env_clock env |>
    /\ s' = on_db (put_reservation rid r') s.
Proof. unfold ReservationRepo.Extend. intros H. tx H. subst. tx_writes. guards. eexists _. split_and!; done. Qed.
End Effects.

(** ** Sessions *)
Definition with_sessions (x : gmap string SessionRecord) (db : DB) : DB := db <| device_sessions := x |>.

Lemma update_session_result id g f env s o s' :
  update_session id g f env s = (Ok o, s') ->
  match session_of (st_db s) id with
  | Some x => if g x then o = Some (f x) /\ s' = on_db (put_session (s_ID x) (f x)) s else o = None /\ s' = s
  | None => o = None /\ s' = s
  end.
Proof.
  unfold update_session, get_db, mbind, Tx_bind, M_bind, gets.
  destruct (session_of _ _) as [x|]; [|by intros [= <- <-]]. destruct (g x); by intros [= <- <-].
Qed.

(** An update of sessions touches no other table. *)
Lemma update_session_frame id g f env s o s' :
  update_session id g f env s = (Ok o, s') -> exists x, s' = on_db (with_sessions x) s.
Proof.
  intros H%update_session_result.
  assert (exists x, s = on_db (with_sessions x) s) as Hs.
  { exists (device_sessions (st_db s)). by destruct s as [[]]. }
  destruct (session_of _ _) as [x|]; [|by destruct H as [_ ->]].
  destruct (g x); [|by destruct H as [_ ->]]. destruct H as [_ ->]. by eexists.
Qed.

Lemma session_of_spec db rid x :
  session_of db rid = Some x -> s_ReservationID x = rid /\ exists k, device_sessions db !! k = Some x.
Proof.
  unfold session_of. intros [Hin Hx]%first_where_Some. apply String.eqb_eq in Hx. split; [done|].
  by apply elem_of_rows in Hin.
Qed.

Lemma session_of_None db rid :
  session_of db rid = None <-> forall k x, device_sessions db !! k = Some x -> s_ReservationID x <> rid.
Proof.
  unfold session_of. rewrite first_where_None. split.
  - intros H k x Hk He. specialize (H x). rewrite He, String.eqb_refl in H.
    assert (true = false) by (apply H, elem_of_rows; eauto). done.
  - intros H x Hin. apply elem_of_rows in Hin as [k Hk]. apply String.eqb_neq. by apply (H k).
Qed.

Lemma insert_session_ok env s s' x u :
  insert_session x env s = (Ok u, s') ->
  device_sessions (st_db s) !! s_ID x = None /\ session_of (st_db s) (s_ReservationID x) = None
  /\ s' = on_db (put_session (s_ID x) x) s.
Proof.
  unfold insert_session, get_db, mbind, Tx_bind, M_bind, gets.
  destruct (_ !! _) eqn:E1; [done|]. destruct (session_of _ _) eqn:E2; [done|]. by intros [= _ <-].
Qed.

Definition new_session (reservation : ReservationRecord) (device : DeviceAssignment) (sessionID : string) (now : Z)
    : SessionRecord :=
  mkSession sessionID (r_ID reservation) (da_ID device) SessionActive (Some now) None (session_metadata device) now now no_fence.

Section SessionEffects.
Context (env : Env) (s s' : St).

Lemma ActivateClaimed_ok reservation device sid res :
  ActivateClaimed reservation device sid env s = (Ok res, s') ->
  exists d r, devices (st_db s) !! da_ID device = Some d /\ d_lifecycle d = DeviceReserved
    /\ device_reservations (st_db s) !! r_ID reservation = Some r /\ r_Status r = ReservationPending
    /\ r_DeviceID r = Some (da_ID device)
    /\ res = (activated (da_ID device) (env_clock env) r, new_session reservation device sid (env_clock env))
    /\ active_conflict (st_db s) (r_ID reservation) res.1 = false
    /\ session_of (st_db s) (r_ID reservation) = None
    /\ s' = on_db (fun db => put_session sid res.2 (put_reservation (r_ID reservation) res.1
              (put_device (da_ID device) (d <| d_lifecycle := DeviceBusy |> <| d_updated_at := env_clock env |>) db))) s.
Proof.
  unfold ActivateClaimed. intros H. tx H. subst. tx_writes. guards.
  match goal with H : insert_session _ _ _ = _ |- _ => apply insert_session_ok in H as (? & ? & ->) end.
  eexists _, _. split_and!; done.
Qed.

Definition closed_row (terminal : ReservationStatus) (t : Z) (r : ReservationRecord) : ReservationRecord :=
  r <| r_Status := terminal |> <| r_ReleasedAt := Some t |> <| r_UpdatedAt := t |>.

Definition released_device (recycle : bool) (target : DeviceLifecycleStatus) (t : Z) (d : DeviceRow) : DeviceRow :=
  d <| d_lifecycle := released_lifecycle recycle target d |>
    <| d_lifecycle_mode := if recycle then "rebuild" else d_lifecycle_mode d |> <| d_updated_at := t |>.

Lemma CloseActive_ok rid did terminal recycle target t r' :
  CloseActive rid did terminal recycle target t env s = (Ok r', s') ->
  exists d r x, devices (st_db s) !! did = Some d /\ closable d = true
    /\ device_reservations (st_db s) !! rid = Some r /\ r_Status r = ReservationActive
    /\ r' = closed_row terminal t r
    /\ s' = on_db (fun db => put_reservation rid r' (put_device did (released_device recycle target t d)
                     (with_sessions x db))) s.
Proof.
  unfold CloseActive. intros H. tx H. subst.
  repeat match goal with H : update_session _ _ _ _ _ = (Ok _, _) |- _ =>
    apply update_session_frame in H as (? & ->) end.
  tx_writes. guards. eexists _, _, _. split_and!; done.
Qed.

Lemma SetRemoteSession_frame rid m x :
  SetRemoteSession rid m env s = (Ok x, s') -> exists y, s' = on_db (with_sessions y) s.
Proof. unfold SetRemoteSession. intros H. tx H. subst. by eapply update_session_frame. Qed.

Lemma ClearRemoteSession_frame rid m x :
  ClearRemoteSession rid m env s = (Ok x, s') -> exists y, s' = on_db (with_sessions y) s.
Proof. unfold ClearRemoteSession. intros H. tx H. subst. by eapply update_session_frame. Qed.

Lemma KeepAliveTargeted_ok rid oid did lease r' :
  KeepAliveTargeted rid oid did lease env s = (Ok r', s') ->
  exists r p e, device_reservations (st_db s) !! rid = Some r /\ device_pools (st_db s) !! r_PoolID r = Some p
    /\ r_Status r = ReservationActive /\ r_ExpiresAt r = Some e /\ env_clock env < e
    /\ r' = r <| r_ExpiresAt := Some (env_clock env + Z.min (duration_seconds lease) (p_max_lease_seconds p) * Second) |>
              <| r_UpdatedAt := env_clock env |>
    /\ active_conflict (st_db s) rid r' = false
    /\ s' = on_db (put_reservation rid r') s.
Proof.
  unfold KeepAliveTargeted. intros H. tx H. subst. tx_writes. simplify_eq. unfold keepable in *.
  destruct (r_ExpiresAt _) as [e|] eqn:He; [|by rewrite ?andb_false_r, ?andb_false_l in *].
  guards. eexists _, _, e. split_and!; try done; [lia|].
  assert (forall x y z, Z.min (x + y * Second) (x + z * Second) = x + Z.min y z * Second) as <-; [|done].
  unfold Second. lia.
Qed.

(** What [CreatePending] leaves: a new pending row, or the row of that key. *)
Lemma CreatePending_ok p r' :
  CreatePending p env s = (Ok r', s') ->
  sameReservationRequest r' p = true
  /\ ((exists k, device_reservations (st_db s) !! k = Some r' /\ s' = s
         /\ same_idempotency_key (cp_ClientID p) (cp_IdempotencyKey p) r' = true)
      \/ (device_reservations (st_db s) !! cp_ID p = None /\ r' = pending_row p (env_clock env)
          /\ (forall k x, device_reservations (st_db s) !! k = Some x ->
                same_idempotency_key (cp_ClientID p) (cp_IdempotencyKey p) x = false)
          /\ s' = on_db (put_reservation (cp_ID p) r') s)).
Proof.
  unfold CreatePending. intros H. tx H. subst.
  match goal with H : (if sameReservationRequest ?a p then _ else _) _ _ = _ |- _ =>
    destruct (sameReservationRequest a p) eqn:Hsame; [|done]; injection H as -> -> end.
  split; [done|].
  match goal with H : match first_where ?f ?l with _ => _ end _ _ = _ |- _ =>
    destruct (first_where f l) as [x|] eqn:Hf; [injection H as -> ->|] end.
  - left. apply first_where_Some in Hf as [Hin Hx]. apply elem_of_rows in Hin as [k Hk]. eauto.
  - right. rewrite first_where_None in Hf.
    match goal with H : match ?o with _ => _ end _ _ = _ |- _ => destruct o eqn:Hid; [done|] end.
    match goal with H : _ = (Ok r', s') |- _ => rename H into Hw end.
    unfold write_reservation, get_db, mbind, Tx_bind, M_bind, gets in Hw.
    rewrite no_conflict in Hw by done. injection Hw as <- <-.
    split_and!; try done. intros k x Hk. apply Hf, elem_of_rows. eauto.
Qed.
End SessionEffects.

(** ** Writes keep the tables they do not name *)
Class Preserves {X} (g : DB -> X) (f : DB -> DB) : Prop := preserves : forall db, g (f db) = g db.
#[export] Hint Extern 0 (Preserves _ _) => intros ?; reflexivity : typeclass_instances.

#[export] Instance put_db_keeps {X} (g : DB -> X) f : Preserves g f -> Keeps g (put_db f).
Proof. intros Hf env s r s' [= _ <-]. apply Hf. Qed.

Ltac solve_keeps :=
  repeat first [ apply _ | apply bind_keeps; [|intros ?] | apply map_err_keeps | apply attempt_keeps | apply WithinTx_keeps
               | progress cbv zeta
               | match goal with |- Keeps _ (match ?x with _ => _ end) => destruct x end ].

Section KeepsTables.
Context {X : Type} (g : DB -> X).

Lemma update_device_keeps id guard f :
  (forall k d db, g (put_device k d db) = g db) -> Keeps g (update_device id guard f).
Proof.
  intros Hg env s r s'. rewrite update_device_rows. destruct (_ !! id) as [d|]; [|by intros [= _ <-]].
  destruct (guard d); intros [= _ <-]; [apply Hg|done].
Qed.

Lemma update_reservation_keeps id guard f :
  (forall k d db, g (put_reservation k d db) = g db) -> Keeps g (update_reservation id guard f).
Proof.
  intros Hg env s r s' H. unfold update_reservation, write_reservation, get_db, mbind, Tx_bind, M_bind, gets in H.
  destruct (_ !! id) as [x|]; [|by injection H as _ <-]. destruct (guard x); [|by injection H as _ <-].
  destruct (active_conflict _ _ _); injection H as _ <-; [done|apply Hg].
Qed.

Lemma update_session_keeps id guard f :
  (forall x db, g (with_sessions x db) = g db) -> Keeps g (update_session id guard f).
Proof.
  intros Hg env s [o|e] s' H; [apply update_session_frame in H as [x ->]; apply Hg|].
  unfold update_session, get_db, mbind, Tx_bind, M_bind, gets in H. destruct (session_of _ _) as [y|]; [|done].
  by destruct (guard y).
Qed.

Lemma insert_session_keeps x : (forall k y db, g (put_session k y db) = g db) -> Keeps g (insert_session x).
Proof.
  intros Hg env s r s' H. unfold insert_session, get_db, mbind, Tx_bind, M_bind, gets in H.
  destruct (_ !! _); [by injection H as _ <-|].
  destruct (session_of _ _); [by injection H as _ <-|]. injection H as _ <-. apply Hg.
Qed.
End KeepsTables.

#[export] Hint Extern 5 (Keeps _ (update_device _ _ _)) => apply update_device_keeps; reflexivity : typeclass_instances.
#[export] Hint Extern 5 (Keeps _ (update_reservation _ _ _)) => apply update_reservation_keeps; reflexivity : typeclass_instances.
#[export] Hint Extern 5 (Keeps _ (update_session _ _ _)) => apply update_session_keeps; reflexivity : typeclass_instances.
#[export] Hint Extern 5 (Keeps _ (insert_session _)) => apply insert_session_keeps; reflexivity : typeclass_instances.

(** ** Rows are stored under their own identifiers *)
Record keyed (db : DB) : Prop := {
  keyed_reservation k r : device_reservations db !! k = Some r -> r_ID r = k;
  keyed_device k d : devices db !! k = Some d -> d_id d = k }.

Lemma keyed_frame db db1 :
  devices db1 = devices db -> device_reservations db1 = device_reservations db -> keyed db -> keyed db1.
Proof. intros Hd Hr [Kr Kd]. split; by rewrite ?Hd, ?Hr. Qed.

Lemma keyed_insert db db1 k r :
  devices db1 = devices db -> device_reservations db1 = <[k := r]> (device_reservations db) -> r_ID r = k ->
  keyed db -> keyed db1.
Proof.
  intros Hd Hr Hk [Kr Kd]. split; [rewrite Hr|by rewrite Hd].
  intros k' r' [[<- <-]|[_ H]]%lookup_insert_Some; [done|by apply Kr].
Qed.

Lemma keyed_insert_device db db1 k d :
  devices db1 = <[k := d]> (devices db) -> device_reservations db1 = device_reservations db -> d_id d = k ->
  keyed db -> keyed db1.
Proof.
  intros Hd Hr Hk [Kr Kd]. split; [by rewrite Hr|rewrite Hd].
  intros k' d' [[<- <-]|[_ H]]%lookup_insert_Some; [done|by apply Kd].
Qed.

Lemma keyed_write db db1 k r k' d :
  devices db1 = <[k' := d]> (devices db) -> device_reservations db1 = <[k := r]> (device_reservations db) ->
  r_ID r = k -> d_id d = k' -> keyed db -> keyed db1.
Proof.
  intros Hd Hr Hk Hk' [Kr Kd]. split; [rewrite Hr|rewrite Hd];
    intros j x [[<- <-]|[_ H]]%lookup_insert_Some; [done|by apply Kr|done|by apply Kd].
Qed.
