(* ===== verification/PoolSelector.v ===== *)
(** * Automatic pool selection: [internal/reservation/pool_selector.go]

    The query that lists the pools able to serve a request, split along its
    conditions (a device at hand, an Android pool that can grow, an iOS pool that can
    grow), and the weighted rotation over the pools it returns.  The rotation's cursor
    is process-wide state. *)
From Stdlib Require Import QArith.
From S2P Require Import Prelude GoText Errors Domain Json Actor Store ReservationRepo.

#[global] Open Scope Z_scope.

Definition schedulableCapabilityKeys : list string :=
  ["platformName"; "platformVersion"; "automationName"; "deviceClass"; "realDevice"; "model";
   "apiLevel"; "abi"; "resolution"; "hardware_profile_id"].

Definition androidMinSdkLevelKey : string := "androidMinSdkLevel".

(** A decoded JSON number is a [float64]; the conversion to [int] truncates. *)
Definition minSDKLowerBound (requested : obj) : Z :=
  match assoc androidMinSdkLevelKey requested with
  | Some (JNum q) => Z.quot (Qnum q) (Zpos (Qden q))
  | _ => 0
  end.

Definition encodeRequestedCapabilities (requested : obj) : obj :=
  foldl (fun filtered '(key, value) =>
    let trimmed := TrimSpace key in
    if bool_decide (trimmed = "") || HasPrefix trimmed "_" then filtered
    else if bool_decide (trimmed = androidMinSdkLevelKey) then filtered
    else if negb (bool_decide (trimmed ∈ schedulableCapabilityKeys)) then filtered
    else assoc_set trimmed value filtered) [] requested.

(** ** A. A matching device can be allocated now *)
Definition device_at_hand (p : PoolRow) (encoded : obj) (minSDK : Z) (m : Membership) : option bool :=
  if String.eqb (pd_pool_id (m_entry m)) (p_id p) && pd_enabled (m_entry m)
     && String.eqb (p_platform p) (d_platform (m_device m))
     && bool_decide (h_status (m_host m) = HostOnline) && negb (h_draining (m_host m))
     && lifecycle_is DeviceReady (m_device m) && healthy (m_device m)
     && obj_contains (d_capabilities (m_device m)) (device_schedulable_capabilities encoded)
  then if minSDK =? 0 then Some true
       else option_map (fun level => minSDK <=? level) (coalesce_int (d_capabilities (m_device m)) "apiLevel")
  else Some false.

(** ** B. The pool can bring up a matching device *)

(** Live leases of the pool: active and not yet expired. *)
Definition live_lease (now : Z) (poolID : string) (r : ReservationRecord) : bool :=
  String.eqb (r_PoolID r) poolID && status_is ReservationActive r
  && match r_ExpiresAt r with Some e => now <? e | None => false end.

Definition has_headroom (now : Z) (db : DB) (p : PoolRow) : bool :=
  count_where (live_lease now (p_id p)) (reservations db) <? p_max_concurrency p.

(** [devices b ON b.id = p.base_device_id AND b.lifecycle_status <> 'deleted']. *)
Definition base_device (db : DB) (p : PoolRow) : option DeviceRow :=
  id ← p_base_device_id p;
  b ← devices db !! id;
  if lifecycle_is DeviceDeleted b then None else Some b.

Definition base_capabilities (db : DB) (p : PoolRow) : obj :=
  match base_device db p with Some b => d_capabilities b | None => [] end.

(** [(capacity->>'collected_at')::timestamptz]. *)
Definition collected_at (h : HostRow) : option (option Z) :=
  match assoc "collected_at" (h_capacity h) with
  | None | Some JNull => Some None
  | Some (JNum q) => option_map Some (Q_integral q)
  | Some _ => None
  end.

Definition recent (now : Z) (at_ : option Z) (missing : bool) : bool :=
  match at_ with Some t => now - 30 * Second <? t | None => missing end.

Definition provisioned_on_host (db : DB) (h : HostRow) : Z :=
  count_where (fun e => pd_enabled e
    && match devices db !! pd_device_id e with
       | Some d => String.eqb (d_host_id d) (h_id h)
                   && (lifecycle_is DeviceProvisioning d || lifecycle_is DeviceBooting d || lifecycle_is DeviceReady d)
       | None => false
       end) (rows (device_pool_devices db)).

Definition dynamic_capacity (now : Z) (h : HostRow) (im : ImageRow) : option bool :=
  match collected_at h with
  | None => None
  | Some at_ =>
    if recent now at_ false && recent now (h_last_heartbeat_at h) true
    then match cast_or in_int8 (h_capacity h) "memory_available_mb" 0,
               cast_or in_int8 (im_resource_config im) "ramMb" 5120 with
         | Some available_mb, Some ram => Some (2048 + Z.max ram 2048 <=? available_mb)
         | _, _ => None
         end
    else Some false
  end.

Definition host_has_room (now : Z) (db : DB) (h : HostRow) (im : ImageRow) : option bool :=
  if bool_decide (get_text (h_capacity h) "resource_model" = Some "dynamic_v1") then dynamic_capacity now h im
  else if bool_decide (length (h_capacity h) = 0%nat) then Some true
  else match cast_or in_int4 (h_capacity h) "device_slots" 0, cast_or in_int4 (h_used_capacity h) "device_slots" 0 with
       | Some slots, Some used => Some (used + provisioned_on_host db h <? slots)
       | _, _ => None
       end.

(** [p.name NOT LIKE 'android-10.%' OR p.name = 'android-' || h.address]. *)
Definition host_of_pool (p : PoolRow) (h : HostRow) : bool :=
  negb (HasPrefix (p_name p) "android-10.")
  || match h_address h with Some a => String.eqb (p_name p) ("android-" ++ a)%string | None => false end.

Definition image_missing_on (db : DB) (h : HostRow) (im : ImageRow) : bool :=
  match device_host_image_states db !! (h_id h, im_id im) with
  | Some s => negb (hi_available s)
  | None => false
  end.

Definition image_capabilities (im : ImageRow) : obj :=
  [("platformName", JStr "Android"); ("apiLevel", jint (im_api_level im)); ("abi", JStr (im_abi im));
   ("resolution", JStr (im_resolution im))].

Definition android_host_serves (now : Z) (db : DB) (p : PoolRow) (im : ImageRow) (encoded : obj) (minSDK : Z)
    (h : HostRow) : option bool :=
  let wanted := device_schedulable_capabilities encoded in
  if bool_decide (h_status h = HostOnline) && negb (h_draining h)
     && (String.eqb (h_host_type h) "docker_emulator" || String.eqb (h_host_type h) "hybrid")
     && host_of_pool p h
     && bool_decide (Z_text (im_api_level im) = default (Z_text (im_api_level im)) (get_text wanted "apiLevel"))
     && ((minSDK =? 0) || (minSDK <=? im_api_level im))
     && negb (image_missing_on db h im)
  then and_sql (host_has_room now db h im)
         (Some (obj_contains (obj_merge (image_capabilities im) (base_capabilities db p)) wanted))
  else Some false.

Definition android_can_grow (now : Z) (db : DB) (p : PoolRow) (encoded : obj) (minSDK : Z) : option bool :=
  match p_default_image_id p with
  | Some image =>
    match String.eqb (p_platform p) "android", device_pool_images db !! (p_id p, image), device_images db !! image with
    | true, Some link, Some im =>
      if pi_enabled link && bool_decide (im_status im = ImageReady)
      then exists_sql (android_host_serves now db p im encoded minSDK) (rows (device_hosts db))
      else Some false
    | _, _, _ => Some false
    end
  | None => Some false
  end.

Definition is_ios_simulator (d : DeviceRow) : bool :=
  String.eqb (d_platform d) "ios" && String.eqb (d_device_kind d) "simulator"
  && String.eqb (d_provider_type d) "appium_device_farm_ios".

(** [COALESCE(capabilities->>k, '') <> '']. *)
Definition nonempty_text (kvs : obj) (k : string) : bool :=
  match get_text kvs k with Some s => negb (String.eqb s "") | None => false end.

Definition blocking_member (d : DeviceRow) : bool :=
  is_ios_simulator d
  && (lifecycle_is DeviceQuarantined d || lifecycle_is DeviceStopped d
      || (negb (lifecycle_is DeviceProvisioning d || lifecycle_is DeviceBooting d || lifecycle_is DeviceDeleted d)
          && negb (healthy d))).

Definition has_blocking_member (db : DB) (p : PoolRow) : bool :=
  existsb (fun e => String.eqb (pd_pool_id e) (p_id p) && pd_enabled e
    && match devices db !! pd_device_id e with Some d => blocking_member d | None => false end)
    (rows (device_pool_devices db)).

Definition ios_template_capabilities : obj :=
  [("platformName", JStr "iOS"); ("automationName", JStr "XCUITest"); ("deviceClass", JStr "phone");
   ("realDevice", JBool false)].

Definition ios_can_grow (db : DB) (p : PoolRow) (encoded : obj) : bool :=
  String.eqb (p_platform p) "ios"
  && match base_device db p with
     | Some b =>
       is_ios_simulator b && nonempty_text (d_capabilities b) "runtimeId" && nonempty_text (d_capabilities b) "deviceTypeId"
       && obj_contains (obj_merge ios_template_capabilities (d_capabilities b)) (device_schedulable_capabilities encoded)
       && negb (has_blocking_member db p)
     | None => false
     end.

(** ** The query *)
Definition pool_can_serve (now : Z) (db : DB) (platformName : string) (encoded : obj) (minSDK : Z) (p : PoolRow)
    : option bool :=
  if pool_active p && String.eqb (ToLower (p_platform p)) platformName
  then or_sql (exists_sql (device_at_hand p encoded minSDK) (memberships db))
         (if has_headroom now db p
          then or_sql (android_can_grow now db p encoded minSDK) (Some (ios_can_grow db p encoded))
          else Some false)
  else Some false.

Record selectablePool : Type := mkSelectable { sp_ID : string; sp_MaxConcurrency : Z }.

Definition by_pool_id (p : PoolRow) : key := (0, p_id p).

(** The lower bound is bound to an [int4] parameter of the query. *)
Definition listSelectablePools (platformName : string) (requested : obj) : Tx (list selectablePool) :=
  if String.eqb platformName "" then mret []
  else
    let encoded := encodeRequestedCapabilities requested in
    let minSDK := minSDKLowerBound requested in
    _ ← guard_or (in_int4 minSDK) ErrInvalidTextRepresentation;
    found ← env_gets (fun env db =>
      filter_sql (pool_can_serve (env_clock env) db platformName encoded minSDK) (rows (device_pools db)));
    pools ← or_cast_error found;
    mret (map (fun p => mkSelectable (p_id p) (p_max_concurrency p)) (order_by by_pool_id pools)).

(** ** The weighted rotation *)
Definition poolSelectionWeight (candidate : selectablePool) : Z :=
  if 0 <? sp_MaxConcurrency candidate then sp_MaxConcurrency candidate else 1.

Definition total_weight (candidates : list selectablePool) : Z :=
  foldr (fun c acc => poolSelectionWeight c + acc) 0 candidates.

Definition by_candidate_id (c : selectablePool) : key := (0, sp_ID c).

(** The loop over the candidates; [selected] is the value kept when it ends early. *)
Fixpoint pick (selected : string) (cursor : Z) (candidates : list selectablePool) : string :=
  match candidates with
  | [] => selected
  | c :: rest => if cursor <? poolSelectionWeight c then sp_ID c
                 else pick selected (cursor - poolSelectionWeight c) rest
  end.

(** One selection: the pool, and the platform's next cursor. *)
Definition rotate (stored : Z) (candidates : list selectablePool) : string * Z :=
  let sorted := order_by by_candidate_id candidates in
  match sorted with
  | [] => ("", stored)
  | first :: _ =>
    let total := if total_weight sorted <=? 0 then Z.of_nat (length sorted) else total_weight sorted in
    (pick (sp_ID first) (Z.rem stored total) sorted, Z.rem (stored + 1) total)
  end.

Definition selectWeightedPool (platformName : string) (candidates : list selectablePool) : Tx string :=
  cursors ← gets st_poolSelectionCursor;
  let '(selected, next) := rotate (default 0 (cursors !! platformName)) candidates in
  _ ← modify (fun s => if bool_decide (length candidates = 0%nat) then s
                       else s <| st_poolSelectionCursor := <[platformName := next]> cursors |>);
  mret selected.

Definition selectPoolForRequest (requested : obj) : Tx string :=
  let platformName := match assoc "platformName" requested with
                      | Some (JStr text) => ToLower (TrimSpace text)
                      | _ => ""
                      end in
  candidates ← listSelectablePools platformName requested;
  if bool_decide (length candidates = 0%nat) then throw ResErrPoolSelectionUnavailable
  else selectWeightedPool platformName candidates.
