(* ===== verification/ReservationService.v ===== *)
(** * The reservation service: [internal/reservation/service.go]

    Every method of the service.  The body of each database transaction is a
    definition of its own ([..._tx]): a method reads and calls the external controllers
    outside of it, and other transactions can run in between.  The service is
    configured (its database is not nil); the STF and iOS controllers are optional. *)
From S2P Require Import Prelude GoText Errors Domain Json Sensitive Actor Store.
From S2P Require Import ReservationRepo PoolSelector.

(** ** Inputs and views *)
Record CreateInput : Type := mkCreateInput {
  ci_PoolID : string; ci_RequestedDeviceID : string; ci_OwnerType : string; ci_OwnerID : string;
  ci_RequestedCapabilities : obj; ci_LeaseSeconds : Z; ci_poolIDPresent : bool }.
#[export] Instance eta_CreateInput : Eta CreateInput := fun i =>
  mkCreateInput (ci_PoolID i) (ci_RequestedDeviceID i) (ci_OwnerType i) (ci_OwnerID i)
    (ci_RequestedCapabilities i) (ci_LeaseSeconds i) (ci_poolIDPresent i).

Definition PoolIDProvided (input : CreateInput) : bool := ci_poolIDPresent input.

Record View : Type := mkView {
  v_ID : string; v_PoolID : string; v_DeviceID : option string; v_OwnerType : string; v_OwnerID : string;
  v_RequestedCapabilities : obj; v_LeaseSeconds : Z; v_Status : ReservationStatus; v_StartsAt : option Z;
  v_ExpiresAt : option Z; v_ReleasedAt : option Z; v_FailureCode : option string; v_CreatedAt : Z; v_UpdatedAt : Z }.

Definition toView (r : ReservationRecord) : View :=
  mkView (r_ID r) (r_PoolID r) (r_DeviceID r) (r_OwnerType r) (r_OwnerID r)
    (assoc_delete TargetDeviceCapability (r_RequestedCapabilities r)) (r_LeaseSeconds r) (r_Status r) (r_StartsAt r)
    (r_ExpiresAt r) (r_ReleasedAt r) (r_FailureCode r) (r_CreatedAt r) (r_UpdatedAt r).

(** ** Validation *)
Definition validOwnerType (value : string) : bool :=
  String.eqb value "run_attempt" || String.eqb value "manual" || String.eqb value "test_run".

Definition owner_char (c : Ascii.ascii) : bool := alnum c || one_of "_.@-" c.

(** Ranging over the runes of a manual owner: a rune outside ASCII is rejected, and so
    is each byte of its encoding. *)
Definition validOwnerID (ownerType value : string) : bool :=
  if String.eqb ownerType "manual" then
    negb ((len value <? 1) || (64 <? len value)) && forall_chars owner_char value
  else identifierPattern value.

Definition valid_key (key : string) : bool := negb ((len key <? 8) || (128 <? len key)).

Definition validateCreate (actor : Actor) (key : string) (input : CreateInput) : result Err unit :=
  if negb (Valid actor) || negb (valid_key key) || negb (identifierPattern (ci_PoolID input))
     || negb (validOwnerID (ci_OwnerType input) (ci_OwnerID input)) || negb (validOwnerType (ci_OwnerType input))
     || (ci_LeaseSeconds input <? 60)
  then Fail ResErrInvalidArgument
  else if negb (String.eqb (ci_RequestedDeviceID input) "") && negb (identifierPattern (ci_RequestedDeviceID input))
  then Fail ResErrInvalidArgument
  else if ContainsMap (ci_RequestedCapabilities input) then Fail ResErrInvalidArgument
  else if existsb (fun p => HasPrefix p.1 "_device_farm_") (ci_RequestedCapabilities input)
  then Fail ResErrInvalidArgument
  else Ok tt.

Definition normalizeRequestedCapabilities (source : obj) : result Err obj :=
  match assoc "platformName" source with
  | None => Ok source
  | Some (JStr platformName) =>
    let lower := ToLower (TrimSpace platformName) in
    if String.eqb lower "android" then Ok (assoc_set "platformName" (JStr "Android") source)
    else if String.eqb lower "ios" then Ok (assoc_set "platformName" (JStr "iOS") source)
    else Fail ResErrInvalidArgument
  | Some _ => Fail ResErrInvalidArgument
  end.

Definition isClosedStatus (status : ReservationStatus) : bool :=
  match status with
  | ReservationReleased | ReservationExpired | ReservationForceReleased | ReservationFailed => true
  | _ => false
  end.

(** SHA-256 of the JSON encoding, in hexadecimal. *)
Definition requestHash (value : obj) : Tx string := fun env s => (Ok (env_digest env (JObj value)), s).

(** [RestoreReservation(id, status)] followed by one transition. *)
Definition reservation_transition (id : string) (status to : ReservationStatus) (reason : string) (at_ : Z)
    : Tx (stateMachine ReservationStatus) :=
  state ← lift_result (RestoreReservation id status);
  apply_call (transition state to reason at_).

(** ** Creating *)
Definition create_targeted_tx (actorID targetDeviceID : string) (params : CreateReservationParams)
    : Tx ReservationRecord :=
  _ ← LockTargetDevice targetDeviceID;
  existing ← optional RepoErrNotFound (FindOpenTargeted "" targetDeviceID);
  match existing with
  | Some r => if String.eqb (r_OwnerID r) actorID then mret r else throw ResErrConflict
  | None => CreatePending params
  end.

Definition choose_pool (input : CreateInput) : Tx CreateInput :=
  if String.eqb (TrimSpace (ci_PoolID input)) "" then
    if PoolIDProvided input then throw ResErrInvalidArgument
    else selected ← selectPoolForRequest (ci_RequestedCapabilities input);
         mret (input <| ci_PoolID := selected |>)
  else mret input.

Definition platform_mismatch (requested : obj) (platform : string) : bool :=
  match assoc "platformName" requested with
  | Some (JStr name) => negb (String.eqb (ToLower name) platform)
  | _ => false
  end.

Definition check_policy (input : CreateInput) : Tx unit :=
  policy ← map_err translateRepositoryError (GetPoolPolicy (ci_PoolID input));
  _ ← guard_or (bool_decide (pp_Status policy = PoolActive)) ResErrPoolUnavailable;
  _ ← guard_or (negb (platform_mismatch (ci_RequestedCapabilities input) (pp_Platform policy))) ResErrInvalidArgument;
  guard_or (ci_LeaseSeconds input <=? pp_MaxLeaseSeconds policy) ResErrInvalidArgument.

Definition bind_target (input : CreateInput) (targetDeviceID : string) : Tx CreateInput :=
  if String.eqb targetDeviceID "" then mret input
  else
    _ ← guard_or (identifierPattern targetDeviceID) ResErrInvalidArgument;
    _ ← map_err translateRepositoryError (ValidateTargetDeviceInPool (ci_PoolID input) targetDeviceID);
    mret (input <| ci_RequestedCapabilities :=
            assoc_set TargetDeviceCapability (JStr targetDeviceID) (ci_RequestedCapabilities input) |>).

Definition create (actor : Actor) (key : string) (input : CreateInput) (targetDeviceID : string) : Tx View :=
  normalizedCapabilities ← lift_result (normalizeRequestedCapabilities (ci_RequestedCapabilities input));
  let input := input <| ci_RequestedCapabilities := normalizedCapabilities |> in
  input ← choose_pool input;
  _ ← lift_result (validateCreate actor key input);
  _ ← check_policy input;
  input ← bind_target input targetDeviceID;
  id ← newID;
  let params := mkCreateParams id (act_ClientID actor) (ci_PoolID input) (ci_OwnerType input) (ci_OwnerID input)
                  (ci_RequestedCapabilities input) (ci_LeaseSeconds input) key in
  record ← map_err translateRepositoryError
    (if String.eqb targetDeviceID "" then CreatePending params
     else WithinTx (create_targeted_tx (act_ID actor) targetDeviceID params));
  mret (toView record).

Definition Create (actor : Actor) (key : string) (input : CreateInput) : Tx View :=
  create actor key input (TrimSpace (ci_RequestedDeviceID input)).

Definition CreateForDevice (actor : Actor) (key deviceID : string) (leaseSeconds : Z) : Tx View :=
  _ ← guard_or (negb (negb (Valid actor) || negb (valid_key key) || negb (validOwnerID "manual" (act_ID actor))
                      || negb (identifierPattern deviceID) || (leaseSeconds <? 60))) ResErrInvalidArgument;
  existing ← map_err translateRepositoryError (optional RepoErrNotFound (FindOpenTargeted (act_ID actor) deviceID));
  match existing with
  | Some r => mret (toView r)
  | None =>
    poolID ← map_err translateRepositoryError (FindActivePoolForDevice deviceID);
    create actor key (mkCreateInput poolID "" "manual" (act_ID actor) [] leaseSeconds false) deviceID
  end.

(** ** Reading *)
Definition FindOpenForDevice (ownerID deviceID : string) : Tx View :=
  _ ← guard_or (validOwnerID "manual" ownerID && identifierPattern deviceID) ResErrInvalidArgument;
  record ← map_err translateRepositoryError (FindOpenTargeted ownerID deviceID);
  mret (toView record).

Definition KeepAliveForDevice (reservationID ownerID deviceID : string) (lease : Z) : Tx View :=
  _ ← guard_or (negb ((lease <? Minute) || negb (identifierPattern reservationID)
                      || negb (validOwnerID "manual" ownerID) || negb (identifierPattern deviceID))) ResErrInvalidArgument;
  record ← map_err translateRepositoryError (KeepAliveTargeted reservationID ownerID deviceID lease);
  mret (toView record).

Definition GetView (id : string) : Tx View :=
  _ ← guard_or (identifierPattern id) ResErrInvalidArgument;
  record ← map_err translateRepositoryError (ReservationRepo.Get id);
  mret (toView record).

Definition List_ (filter : ReservationFilter) (page : Page) : Tx (list View * Z) :=
  _ ← guard_or (String.eqb (rf_OwnerType filter) "" || validOwnerType (rf_OwnerType filter)) ResErrInvalidArgument;
  _ ← guard_or (String.eqb (rf_OwnerID filter) "" || validOwnerID (rf_OwnerType filter) (rf_OwnerID filter)) ResErrInvalidArgument;
  found ← map_err translateRepositoryError (ReservationRepo_List filter page);
  mret (map toView found.1, found.2).

(** ** Extending *)
Definition extend_operation (clientID key id hash : string) : OperationParams :=
  mkOperation clientID "extend_device_reservation" key hash "device_reservation" id 200.

Definition next_expiry (now expiresAt additionalSeconds maxLeaseSeconds : Z) : Z :=
  let maximumExpiry := now + maxLeaseSeconds * Second in
  let nextExpiry := expiresAt + additionalSeconds * Second in
  if maximumExpiry <? nextExpiry then maximumExpiry else nextExpiry.

Definition extend_tx (operation : OperationParams) (id : string) (additionalSeconds : Z) : Tx ReservationRecord :=
  replay ← BeginOperation operation;
  if (replay : bool) then ReservationRepo.Get id
  else
    current ← LockByID id;
    match r_Status current, r_StartsAt current, r_ExpiresAt current with
    | ReservationActive, Some _, Some expiresAt =>
      now ← ClockNow;
      _ ← guard_or (now <? expiresAt) ResErrConflict;
      policy ← GetPoolPolicy (r_PoolID current);
      _ ← guard_or (additionalSeconds <=? pp_MaxLeaseSeconds policy) ResErrInvalidArgument;
      ReservationRepo.Extend id (next_expiry now expiresAt additionalSeconds (pp_MaxLeaseSeconds policy))
    | _, _, _ => throw ResErrConflict
    end.

Definition extend_request (id : string) (additionalSeconds : Z) : obj :=
  [("reservation_id", JStr id); ("additional_seconds", jint additionalSeconds)].

Definition Extend (actor : Actor) (key id : string) (additionalSeconds : Z) : Tx View :=
  _ ← guard_or (negb (negb (Valid actor) || negb (valid_key key) || negb (identifierPattern id)
                      || (additionalSeconds <? 60))) ResErrInvalidArgument;
  hash ← requestHash (extend_request id additionalSeconds);
  result ← map_err translateRepositoryError
    (WithinTx (extend_tx (extend_operation (act_ClientID actor) key id hash) id additionalSeconds));
  mret (toView result).

(** ** Closing *)
Definition release_target (health : HealthStatus) (recycle : bool)
    : DeviceLifecycleStatus * string :=
  if negb (bool_decide (health = HealthHealthy)) then
    (DeviceQuarantined, "reservation released; unhealthy device quarantined")
  else if recycle then (DeviceRecycling, "reservation released; pool requires a fresh VM for the next run")
  else (DeviceReady, "reservation released; device data retained").

Definition recycles (policy : option PoolPolicy) (device : DeviceAssignment) : bool :=
  match policy with
  | None => false
  | Some policy =>
    pp_FreshVMPerRun policy && String.eqb (da_Platform device) "android" && String.eqb (da_DeviceKind device) "emulator"
    && negb (bool_decide (da_Lifecycle device = DeviceQuarantined))
    && bool_decide (da_Health device = HealthHealthy)
  end.

(** The aggregate's view of the device at release. *)
Definition release_device_transition (device : DeviceAssignment) (target : DeviceLifecycleStatus) (reason : string)
    (now : Z) : Tx unit :=
  deviceState ← lift_result (RestoreDevice (da_ID device) (da_Lifecycle device) (da_Health device));
  if negb (bool_decide (Lifecycle deviceState = DeviceQuarantined)) && negb (bool_decide (Lifecycle deviceState = target))
  then _ ← apply_call (Transition deviceState target reason now); mret tt
  else mret tt.

Definition close_session_transitions (session : SessionRecord) (reason : string) (now : Z) : Tx unit :=
  sessionState ← lift_result (RestoreSession (s_ID session) (s_Status session));
  sessionState ← apply_call (transition sessionState SessionClosing reason now);
  _ ← apply_call (transition sessionState SessionClosed reason now);
  mret tt.

Definition closeActiveLocked (current : ReservationRecord) (terminal : ReservationStatus) (actor : Actor)
    (action requestID reason : string) : Tx ReservationRecord :=
  deviceID ← expect_row (r_DeviceID current) ResErrConflict;
  now ← ClockNow;
  _ ← reservation_transition (r_ID current) (r_Status current) terminal reason now;
  session ← LockSession (r_ID current);
  _ ← close_session_transitions session reason now;
  device ← LockDevice deviceID;
  policy ← optional RepoErrNotFound (LoadPoolPolicyForRelease (da_HostID device) (da_ID device));
  let recycle := recycles policy device in
  let '(target, deviceReason) := release_target (da_Health device) recycle in
  _ ← release_device_transition device target deviceReason now;
  auditID ← newID;
  closed ← CloseActive (r_ID current) deviceID terminal recycle target now;
  _ ← InsertAudit auditID (act_Type actor) (act_ID actor) action (r_ID current) requestID reason;
  mret closed.

(** ** External controllers *)
Definition closeIOSSession (current : ReservationRecord) : Tx unit :=
  ios ← env_gets (fun env _ => env_ios env);
  match ios, r_DeviceID current with
  | Some controller, Some _ =>
    _ ← record_call (CallCloseForReservation (r_ID current));
    match ios_CloseForReservation controller (r_ID current) with
    | None => mret tt
    | Some _ => throw ResErrIOSSessionCleanup
    end
  | _, _ => mret tt
  end.

Definition releaseSTF (current : ReservationRecord) : Tx unit :=
  stf ← env_gets (fun env _ => env_stf env);
  match stf, r_DeviceID current with
  | Some controller, Some deviceID =>
    device ← map_err translateRepositoryError (GetDevice deviceID);
    if negb (String.eqb (da_Platform device) "android") then mret tt
    else
      _ ← record_call (CallRelease (da_STFSerial device));
      match stf_Release controller (da_STFSerial device) with
      | None => mret tt
      | Some _ => throw ResErrSTFReleaseFailed
      end
  | _, _ => mret tt
  end.

Definition record_stf_failure_tx (current : ReservationRecord) (actor : Actor) (requestID action reason : string) : Tx unit :=
  auditID ← newID;
  InsertAudit auditID (act_Type actor) (act_ID actor) action (r_ID current) requestID reason.

Definition recordSTFFailure (current : ReservationRecord) (actor : Actor) (requestID action reason : string) : Tx unit :=
  WithinTx (record_stf_failure_tx current actor requestID action reason).

(** [errors.Join(err, auditErr)]. *)
Definition join_error (e : Err) (r : result Err unit) : Err :=
  match r with Ok _ => e | Fail e' => ErrJoin e e' end.

(** Disconnect an active reservation from its controllers; an STF failure is audited. *)
Definition detach (current : ReservationRecord) (actor : Actor) (requestID reason : string) : Tx unit :=
  _ ← closeIOSSession current;
  released ← attempt (releaseSTF current);
  match released with
  | Ok _ => mret tt
  | Fail e =>
    audit ← attempt (recordSTFFailure current actor requestID "stf_release_failed" reason);
    throw (join_error e audit)
  end.

(** ** Releasing *)
Record ReleaseInput : Type := mkRelease { ri_Reason : string; ri_Force : bool }.

Definition release_operation (clientID key id hash : string) : OperationParams :=
  mkOperation clientID "release_device_reservation" key hash "device_reservation" id 200.

Definition release_request (id reason : string) (force : bool) : obj :=
  [("reservation_id", JStr id); ("reason", JStr reason); ("force", JBool force)].

Definition owned_by (actor : Actor) (r : ReservationRecord) : bool :=
  String.eqb (r_ClientID r) (act_ClientID actor)
  || (String.eqb (act_Type actor) ActorConsole && String.eqb (r_OwnerType r) "manual"
      && String.eqb (r_OwnerID r) (act_ID actor)).

Definition cancel_pending (current : ReservationRecord) (actor : Actor) (requestID reason : string) : Tx ReservationRecord :=
  _ ← guard_or (bool_decide (r_DeviceID current = None)) ResErrConflict;
  now ← ClockNow;
  _ ← reservation_transition (r_ID current) (r_Status current) ReservationFailed reason now;
  result ← CancelPending (r_ID current) "RESERVATION_CANCELED" now;
  auditID ← newID;
  _ ← InsertAudit auditID (act_Type actor) (act_ID actor) "cancel_pending_device_reservation" (r_ID current) requestID reason;
  mret result.

Definition release_tx (operation : OperationParams) (actor : Actor) (id requestID reason : string) (force : bool)
    : Tx ReservationRecord :=
  replay ← BeginOperation operation;
  if (replay : bool) then ReservationRepo.Get id
  else
    current ← LockByID id;
    if status_is ReservationPending current then cancel_pending current actor requestID reason
    else if negb (status_is ReservationActive current) then
      if isClosedStatus (r_Status current) then mret current else throw ResErrConflict
    else
      let terminal := if force then ReservationForceReleased else ReservationReleased in
      let action := if force then "force_release_device_reservation" else "release_device_reservation" in
      closeActiveLocked current terminal actor action requestID reason.

Definition valid_release (actor : Actor) (key id requestID reason : string) : bool :=
  negb (negb (Valid actor) || negb (valid_key key) || negb (identifierPattern id) || (len reason <? 3)
        || (500 <? len reason) || Contains reason || String.eqb requestID "").

Definition Release (actor : Actor) (key id requestID : string) (input : ReleaseInput) : Tx View :=
  let reason := TrimSpace (ri_Reason input) in
  let force := ri_Force input in
  _ ← guard_or (valid_release actor key id requestID reason) ResErrInvalidArgument;
  hash ← requestHash (release_request id reason force);
  let operation := release_operation (act_ClientID actor) key id hash in
  _ ← map_err translateRepositoryError (CheckOperation operation);
  current ← map_err translateRepositoryError (ReservationRepo.Get id);
  _ ← guard_or (owned_by actor current || force) ResErrForbidden;
  _ ← (if status_is ReservationActive current
       then detach current actor requestID "STF release failed; reservation remains active" else mret tt);
  result ← map_err translateRepositoryError (WithinTx (release_tx operation actor id requestID reason force));
  mret (toView result).

(** ** Reaping *)
Definition reaperActor : Actor := mkActor (act_Type System) "reservation_reaper" (act_ClientID System).

(** [errors.Is(err, repository.ErrNotFound)] becomes [e]. *)
Definition nothing_to_reap (e : Err) (err : Err) : Err :=
  if errors_is err RepoErrNotFound then e else translateRepositoryError err.

Definition reap_tx (gracePeriod : Z) (id requestID : string) : Tx ReservationRecord :=
  current ← LockByID id;
  match r_Status current, r_ExpiresAt current with
  | ReservationActive, Some expiresAt =>
    now ← ClockNow;
    _ ← guard_or (expiresAt + gracePeriod <=? now) ResErrNothingToReap;
    closeActiveLocked current ReservationExpired reaperActor "expire_device_reservation" requestID
      "reservation lease and grace period expired"
  | _, _ => throw ResErrNothingToReap
  end.

Definition ReapOnce (gracePeriod : Z) : Tx View :=
  _ ← guard_or (0 <=? gracePeriod) ResErrInvalidArgument;
  selected ← map_err (nothing_to_reap ResErrNothingToReap) (FindNextExpired (duration_seconds gracePeriod));
  let requestID := ("reaper_" ++ r_ID selected)%string in
  _ ← detach selected reaperActor requestID "STF release failed during expiry; reservation remains active";
  result ← map_err translateRepositoryError (WithinTx (reap_tx gracePeriod (r_ID selected) requestID));
  mret (toView result).

Definition reap_stale_tx (timeout claimGrace : Z) (id requestID : string) : Tx ReservationRecord :=
  current ← LockByID id;
  _ ← guard_or (unassigned_pending current) ResErrNothingToReap;
  now ← ClockNow;
  _ ← guard_or (r_CreatedAt current + timeout + claimGrace <=? now) ResErrNothingToReap;
  _ ← FailPendingReservation (r_ID current) "PENDING_TIMEOUT" now;
  auditID ← newID;
  _ ← InsertAudit auditID (act_Type reaperActor) (act_ID reaperActor) "fail_stale_pending_reservation" (r_ID current)
        requestID "等不到虚拟机，需要检查：预约在等待上限内未能分配到设备";
  ReservationRepo.Get (r_ID current).

Definition ReapStalePendingOnce (timeout claimGrace : Z) : Tx View :=
  _ ← guard_or ((0 <? timeout) && (0 <=? claimGrace)) ResErrInvalidArgument;
  selected ← map_err (nothing_to_reap ResErrNothingToReap)
    (FindNextStalePending (duration_seconds timeout) (duration_seconds claimGrace));
  let requestID := ("pending_reaper_" ++ r_ID selected)%string in
  result ← map_err translateRepositoryError (WithinTx (reap_stale_tx timeout claimGrace (r_ID selected) requestID));
  mret (toView result).

Definition reap_orphan_tx (grace : Z) (id requestID : string) : Tx ReservationRecord :=
  current ← LockByID id;
  match r_Status current, r_DeviceID current with
  | ReservationPending, Some deviceID =>
    now ← ClockNow;
    _ ← guard_or (r_UpdatedAt current + grace <=? now) ResErrNothingToReap;
    _ ← FailPendingClaim (r_ID current) deviceID "CLAIM_ABANDONED" now;
    auditID ← newID;
    _ ← InsertAudit auditID (act_Type reaperActor) (act_ID reaperActor) "fail_orphaned_device_claim" (r_ID current)
          requestID "设备分配中断，已释放设备并终止预约";
    ReservationRepo.Get (r_ID current)
  | _, _ => throw ResErrNothingToReap
  end.

Definition ReapOrphanedClaimOnce (grace : Z) : Tx View :=
  _ ← guard_or (0 <=? grace) ResErrInvalidArgument;
  selected ← map_err (nothing_to_reap ResErrNothingToReap) (FindNextOrphanedClaim (duration_seconds grace));
  let requestID := ("orphan_reaper_" ++ r_ID selected)%string in
  result ← map_err translateRepositoryError (WithinTx (reap_orphan_tx grace (r_ID selected) requestID));
  mret (toView result).

(** ** Remote sessions *)
Record RemoteSessionInput : Type := mkRemoteInput { rsi_OwnerType : string; rsi_OwnerID : string; rsi_TTLSeconds : Z }.

Record RemoteSessionView : Type := mkRemoteView {
  rv_ID : string; rv_ReservationID : string; rv_URL : string; rv_ExpiresAt : Z }.

Record remoteSessionMetadata : Type := mkRemoteMetadata {
  rm_ID : string; rm_URL : string; rm_ExpiresAt : Z; rm_OwnerType : string; rm_OwnerID : string;
  rm_ClientID : string; rm_IdempotencyKey : string; rm_RequestHash : string }.

(** [json.Marshal(metadata)]; an instant is the number of its nanoseconds. *)
Definition encodeRemote (m : remoteSessionMetadata) : json :=
  JObj [("id", JStr (rm_ID m)); ("remote_connect_url", JStr (rm_URL m)); ("expires_at", jint (rm_ExpiresAt m));
        ("owner_type", JStr (rm_OwnerType m)); ("owner_id", JStr (rm_OwnerID m)); ("client_id", JStr (rm_ClientID m));
        ("idempotency_key", JStr (rm_IdempotencyKey m)); ("request_hash", JStr (rm_RequestHash m))].

(** [json.Unmarshal] of a field: absent and null leave the zero value, a value of
    another type is an error. *)
Definition string_field (o : obj) (k : string) : option string :=
  match assoc k o with None | Some JNull => Some "" | Some (JStr s) => Some s | Some _ => None end.

Definition time_field (o : obj) (k : string) : option Z :=
  match assoc k o with None | Some JNull => Some 0 | Some (JNum q) => Q_integral q | Some _ => None end.

Definition unmarshalRemote (o : obj) : option remoteSessionMetadata :=
  id ← string_field o "id"; url ← string_field o "remote_connect_url"; expires ← time_field o "expires_at";
  ownerType ← string_field o "owner_type"; ownerID ← string_field o "owner_id";
  clientID ← string_field o "client_id"; key ← string_field o "idempotency_key"; hash ← string_field o "request_hash";
  Some (mkRemoteMetadata id url expires ownerType ownerID clientID key hash).

Definition decodeRemoteSession (connectionMetadata : obj) : result Err remoteSessionMetadata :=
  let remote := match assoc RemoteKey connectionMetadata with
                | None | Some JNull => unmarshalRemote []
                | Some (JObj o) => unmarshalRemote o
                | Some _ => None
                end in
  match remote with
  | None => Fail (ErrExternal "decode STF remote session")
  | Some m => if String.eqb (rm_ID m) "" || String.eqb (rm_URL m) "" || IsZero (rm_ExpiresAt m)
              then Fail ResErrConflict else Ok m
  end.

Definition remoteSessionView (reservationID : string) (m : remoteSessionMetadata) : RemoteSessionView :=
  mkRemoteView (rm_ID m) reservationID (rm_URL m) (rm_ExpiresAt m).

Definition loadRemoteSession (reservationID clientID key hash : string) : Tx RemoteSessionView :=
  session ← map_err translateRepositoryError (GetSession reservationID);
  match decodeRemoteSession (s_ConnectionMetadata session) with
  | Fail _ => throw ResErrConflict
  | Ok m =>
    _ ← guard_or (String.eqb (rm_ClientID m) clientID && String.eqb (rm_IdempotencyKey m) key
                  && String.eqb (rm_RequestHash m) hash) ResErrConflict;
    now ← ProcessNow;
    _ ← guard_or (now <? rm_ExpiresAt m) ResErrConflict;
    mret (remoteSessionView reservationID m)
  end.

Definition disconnectRemote (controller : STFController) (serial : string) : Tx unit :=
  record_call (CallRemoteDisconnect serial).

Definition remote_operation (clientID key id hash : string) : OperationParams :=
  mkOperation clientID "create_stf_remote_session" key hash "device_reservation" id 201.

Definition remote_request (id ownerType ownerID : string) (ttl : Z) : obj :=
  [("reservation_id", JStr id); ("owner_type", JStr ownerType); ("owner_id", JStr ownerID); ("ttl_seconds", jint ttl)].

Definition same_owner (clientID : string) (input : RemoteSessionInput) (r : ReservationRecord) : bool :=
  String.eqb (r_ClientID r) clientID && String.eqb (r_OwnerType r) (rsi_OwnerType input)
  && String.eqb (r_OwnerID r) (rsi_OwnerID input).

Definition remote_session_tx (operation : OperationParams) (clientID reservationID deviceID : string)
    (input : RemoteSessionInput) (encoded : json) : Tx remoteSessionMetadata :=
  locked ← LockByID reservationID;
  _ ← guard_or (status_is ReservationActive locked && bool_decide (r_DeviceID locked = Some deviceID)
                && same_owner clientID input locked) ResErrConflict;
  replay ← BeginOperation operation;
  if (replay : bool) then session ← LockSession reservationID; lift_result (decodeRemoteSession (s_ConnectionMetadata session))
  else session ← SetRemoteSession reservationID encoded; lift_result (decodeRemoteSession (s_ConnectionMetadata session)).

Definition valid_remote (actor : Actor) (key id : string) (input : RemoteSessionInput) (ttl : Z) : bool :=
  negb (negb (Valid actor) || negb (valid_key key) || negb (identifierPattern id)
        || negb (validOwnerType (rsi_OwnerType input)) || negb (validOwnerID (rsi_OwnerType input) (rsi_OwnerID input))
        || (ttl <? 30) || (3600 <? ttl)).

(** Connect to the device, store the session, and disconnect when storing fails. *)
Definition connect_remote (controller : STFController) (operation : OperationParams) (clientID key hash reservationID : string)
    (input : RemoteSessionInput) (ttl : Z) (device : DeviceAssignment) : Tx RemoteSessionView :=
  remoteID ← newID;
  _ ← record_call (CallRemoteConnect (da_STFSerial device));
  url ← (match stf_RemoteConnect controller (da_STFSerial device) with
         | Ok url => mret url
         | Fail _ => throw ResErrSTFRemoteFailed
         end);
  now ← ProcessNow;
  let metadata := mkRemoteMetadata remoteID url (now + ttl * Second) (rsi_OwnerType input) (rsi_OwnerID input)
                    clientID key hash in
  stored ← attempt (WithinTx (remote_session_tx operation clientID reservationID (da_ID device) input (encodeRemote metadata)));
  match stored with
  | Ok m => mret (remoteSessionView reservationID m)
  | Fail e => _ ← disconnectRemote controller (da_STFSerial device); throw (translateRepositoryError e)
  end.

Definition CreateRemoteSession (actor : Actor) (key reservationID : string) (input : RemoteSessionInput) : Tx RemoteSessionView :=
  stf ← env_gets (fun env _ => env_stf env);
  controller ← expect_row stf ResErrSTFRemoteFailed;
  let clientID := act_ClientID actor in
  let ttl := if rsi_TTLSeconds input =? 0 then 300 else rsi_TTLSeconds input in
  _ ← guard_or (valid_remote actor key reservationID input ttl) ResErrInvalidArgument;
  hash ← requestHash (remote_request reservationID (rsi_OwnerType input) (rsi_OwnerID input) ttl);
  let operation := remote_operation clientID key reservationID hash in
  replay ← map_err translateRepositoryError (CheckOperation operation);
  if (replay : bool) then loadRemoteSession reservationID clientID key hash
  else
    current ← map_err translateRepositoryError (ReservationRepo.Get reservationID);
    _ ← guard_or (same_owner clientID input current) ResErrForbidden;
    _ ← guard_or (status_is ReservationActive current) ResErrConflict;
    deviceID ← expect_row (r_DeviceID current) ResErrConflict;
    device ← map_err translateRepositoryError (GetDevice deviceID);
    connect_remote controller operation clientID key hash reservationID input ttl device.

Definition ReapRemoteSessionOnce : Tx RemoteSessionView :=
  stf ← env_gets (fun env _ => env_stf env);
  controller ← expect_row stf ResErrNothingToReapRemote;
  remote ← map_err (nothing_to_reap ResErrNothingToReapRemote) FindNextExpiredRemoteSession;
  _ ← record_call (CallRemoteDisconnect (xr_Serial remote));
  _ ← (match stf_RemoteDisconnect controller (xr_Serial remote) with
       | None => mret tt
       | Some _ => throw ResErrSTFRemoteFailed
       end);
  _ ← map_err (nothing_to_reap ResErrNothingToReapRemote)
        (WithinTx (ClearRemoteSession (xr_ReservationID remote) (xr_ID remote)));
  mret (mkRemoteView (xr_ID remote) (xr_ReservationID remote) "" (xr_ExpiresAt remote)).
