(* ===== verification/Scheduler.v ===== *)
(** * The scheduler: [internal/scheduler/scheduler.go]

    One cycle runs two transactions around a call to the device claimer: [reserve_tx]
    binds a ready device to a pending reservation, the claim takes the device in STF,
    and [activate_tx] starts the reservation and its session.  A failure after the first
    transaction is compensated by [compensate_tx]. *)
From S2P Require Import Prelude GoText Errors Domain Json Actor Store ReservationRepo.

Record Assignment : Type := mkSchedAssignment { as_Reservation : ReservationRecord; as_Session : SessionRecord }.

Record claimCandidate : Type := mkCandidate { cc_reservation : ReservationRecord; cc_device : DeviceAssignment }.

(** An error of the repository that the cycle turns into [ErrCapacityUnavailable]. *)
Definition as_capacity (e : Err) (err : Err) : Err := if errors_is err e then SchedErrCapacityUnavailable else err.

Definition at_capacity (policy : PoolPolicy) : bool := pp_MaxConcurrency policy <=? pp_ActiveReservations policy.

Definition next_pending : Tx ReservationRecord :=
  found ← optional RepoErrNotFound LockNextAllocatablePending;
  match found with
  | Some reservation => mret reservation
  | None =>
    hasPending ← HasPending;
    if (hasPending : bool) then throw SchedErrCapacityUnavailable else throw SchedErrNoPendingReservation
  end.

Definition reserve_tx : Tx claimCandidate :=
  reservation ← next_pending;
  device ← map_err (as_capacity RepoErrCapacityUnavailable) (LockMatchingDevice (r_RequestedCapabilities reservation));
  policy ← map_err (as_capacity RepoErrNotFound) (LockPoolPolicyForHost (da_HostID device) (da_ID device));
  _ ← guard_or (bool_decide (pp_Status policy = PoolActive)) SchedErrCapacityUnavailable;
  _ ← guard_or (negb (at_capacity policy)) SchedErrCapacityUnavailable;
  now ← ClockNow;
  deviceState ← lift_result (RestoreDevice (da_ID device) (da_Lifecycle device) (da_Health device));
  _ ← apply_call (Transition deviceState DeviceReserved "scheduler reserved device" now);
  _ ← ReserveForClaim (r_ID reservation) (da_ID device) now;
  mret (mkCandidate (reservation <| r_DeviceID := Some (da_ID device) |>) device).

Definition activate_tx (selected : claimCandidate) (sessionID : string) : Tx Assignment :=
  let chosen := cc_device selected in
  reservation ← LockByID (r_ID (cc_reservation selected));
  _ ← guard_or (claims_device (da_ID chosen) reservation) RepoErrNotFound;
  policy ← LockPoolPolicyForHost (da_HostID chosen) (da_ID chosen);
  _ ← guard_or (bool_decide (pp_Status policy = PoolActive) && negb (at_capacity policy)) SchedErrCapacityUnavailable;
  device ← LockDevice (da_ID chosen);
  now ← ProcessNow;
  reservationState ← lift_result (RestoreReservation (r_ID reservation) (r_Status reservation));
  _ ← apply_call (transition reservationState ReservationActive "device allocation claim succeeded" now);
  deviceState ← lift_result (RestoreDevice (da_ID device) (da_Lifecycle device) (da_Health device));
  _ ← apply_call (Transition deviceState DeviceBusy "device session started after allocation claim" now);
  sessionState ← lift_result (NewSession sessionID);
  _ ← apply_call (transition sessionState SessionActive "scheduler started session" now);
  result ← ActivateClaimed reservation device sessionID;
  mret (mkSchedAssignment result.1 result.2).

Definition compensate_tx (selected : claimCandidate) (failureCode : string) (terminal : bool) : Tx unit :=
  now ← ClockNow;
  CompensateClaim (r_ID (cc_reservation selected)) (da_ID (cc_device selected)) failureCode terminal now.

Definition compensateClaim (selected : claimCandidate) (failureCode : string) (terminal : bool) : Tx unit :=
  WithinTx (compensate_tx selected failureCode terminal).

(** The claimer, for a device it serves. *)
Definition claimer_for (device : DeviceAssignment) : Tx (option STFController) :=
  env_gets (fun env _ => if String.eqb (da_Platform device) "android" then env_stf env else None).

(** Errors of the cleanup are only logged. *)
Definition releaseAndCompensate (selected : claimCandidate) (failureCode : string) (terminal : bool) : Tx unit :=
  claimer ← claimer_for (cc_device selected);
  _ ← (match claimer with
       | Some _ => record_call (CallRelease (da_STFSerial (cc_device selected)))
       | None => mret tt
       end);
  _ ← attempt (compensateClaim selected failureCode terminal);
  mret tt.

Definition claim_device (selected : claimCandidate) : Tx unit :=
  let device := cc_device selected in
  let ttl := r_LeaseSeconds (cc_reservation selected) * Second in
  claimer ← claimer_for device;
  match claimer with
  | None => mret tt
  | Some stf =>
    _ ← record_call (CallClaim (da_STFSerial device) ttl);
    match stf_Claim stf (da_STFSerial device) ttl with
    | None => mret tt
    | Some (_, retryable) =>
      compensated ← attempt (compensateClaim selected "STF_CLAIM_FAILED" (negb retryable));
      match compensated with
      | Ok _ => throw SchedErrSTFClaimFailed
      | Fail e => throw (ErrJoin SchedErrSTFClaimFailed e)
      end
    end
  end.

Definition RunOnce : Tx Assignment :=
  selected ← WithinTx reserve_tx;
  _ ← claim_device selected;
  sessionID ← attempt newID;
  match sessionID with
  | Fail e => _ ← releaseAndCompensate selected "SESSION_ID_GENERATION_FAILED" true; throw e
  | Ok sessionID =>
    assignment ← attempt (WithinTx (activate_tx selected sessionID));
    match assignment with
    | Ok a => mret a
    | Fail e => _ ← releaseAndCompensate selected "STF_CLAIM_COMPENSATED" false; throw e
    end
  end.

(** One tick of [Run]: allocate until a cycle fails. *)
Definition run_tick (fuel : nat) : Tx (option Err) := drain fuel RunOnce.
