(* ===== verification/Reaper.v ===== *)
(** * The reaper: [internal/reaper/reaper.go]

    The sweeps of the reservation service under one policy, and a tick of its loop. *)
From S2P Require Import Prelude GoText Errors Domain Json Actor Store ReservationRepo.
From S2P Require Import ReservationService.

Record Policy : Type := mkReaperPolicy { GracePeriod : Z; PendingTimeout : Z; PendingClaimGrace : Z }.

Definition ReapExpired (policy : Policy) : Tx View := ReapOnce (GracePeriod policy).

Definition RunPendingOnce (policy : Policy) : Tx View :=
  if PendingTimeout policy <=? 0 then throw ResErrNothingToReap
  else ReapStalePendingOnce (PendingTimeout policy) (PendingClaimGrace policy).

Definition RunOrphanedClaimOnce (policy : Policy) : Tx View :=
  if PendingTimeout policy <=? 0 then throw ResErrNothingToReap
  else ReapOrphanedClaimOnce (PendingClaimGrace policy).

(** One tick of [Run]: each sweep in turn, drained until it fails. *)
Definition reaper_tick (fuel : nat) (policy : Policy) : Tx (list (option Err)) :=
  expired ← drain fuel (ReapExpired policy);
  remote ← drain fuel ReapRemoteSessionOnce;
  stale ← drain fuel (RunPendingOnce policy);
  orphaned ← drain fuel (RunOrphanedClaimOnce policy);
  mret [expired; remote; stale; orphaned].
