(* ===== verification/ServiceFacts.v ===== *)
(** * What each transaction of the services does to the database

    One lemma per transaction body of the scheduler and of the reservation service: its
    success as the rows it read and the database it leaves. *)
From S2P Require Import Prelude GoText Errors Domain DomainSpec Json Sensitive Actor.
From S2P Require Import Store ReservationRepo TxFacts PoolSelector ReservationService Scheduler.

(** Erase the states that reads leave unchanged. *)
Ltac ro_states :=
  repeat match goal with
  | H : ?m ?env ?s = (?r, ?s1) |- _ =>
    is_var s1;
    let E := fresh in
    assert (s1 = s) as E by (apply (read_only (m := m) env s r s1 H)); subst s1
  end.
Ltac kept_states :=
  repeat match goal with
  | H : ?m ?env ?s = (?r, ?s1) |- _ =>
    is_var s1;
    lazymatch goal with K : st_db s1 = st_db s |- _ => fail | _ => idtac end;
    let E := fresh "Keep" in
    assert (st_db s1 = st_db s) as E by (apply (keeps_db (m := m) env s r s1 H))
  end.

#[export] Instance next_pending_ro : ReadOnly next_pending.
Proof.
  unfold next_pending. apply bind_ro; [apply _|]. intros [r|]; [apply _|]. apply bind_ro; [apply _|].
  intros []; apply _.
Qed.
#[export] Instance requestHash_ro v : ReadOnly (requestHash v).
Proof. intros env s r s' [= _ <-]. done. Qed.
#[export] Instance reservation_transition_ro i a b r t : ReadOnly (reservation_transition i a b r t).
Proof. unfold reservation_transition. apply _. Qed.
#[export] Instance close_session_transitions_ro x r t : ReadOnly (close_session_transitions x r t).
Proof. unfold close_session_transitions. apply _. Qed.
#[export] Instance release_device_transition_ro d x r t : ReadOnly (release_device_transition d x r t).
Proof. unfold release_device_transition. apply _. Qed.

Section Facts.
Context (env : Env).

Lemma LockByID_ok s id r s' :
  LockByID id env s = (Ok r, s') -> device_reservations (st_db s) !! id = Some r /\ s' = s.
Proof. unfold LockByID. intros H. tx H. subst. done. Qed.

Lemma Get_ok s id r s' :
  ReservationRepo.Get id env s = (Ok r, s') -> device_reservations (st_db s) !! id = Some r /\ s' = s.
Proof. unfold ReservationRepo.Get. intros H. tx H. subst. done. Qed.

Lemma LockDevice_ok s id da s' :
  LockDevice id env s = (Ok da, s') ->
  exists d, devices (st_db s) !! id = Some d /\ da = assignment d /\ s' = s.
Proof. unfold LockDevice. intros H. tx H. subst. eauto. Qed.

Lemma GetDevice_ok s id da s' :
  GetDevice id env s = (Ok da, s') ->
  exists d, devices (st_db s) !! id = Some d /\ da = assignment d /\ s' = s.
Proof. unfold GetDevice. intros H. tx H. subst. eauto. Qed.

(** The device [LockMatchingDevice] returns. *)
Lemma LockMatchingDevice_ok s caps da s' :
  LockMatchingDevice caps env s = (Ok da, s') ->
  exists m, m ∈ memberships (st_db s) /\ allocatable caps m = Some true /\ da = assignment (m_device m) /\ s' = s
    /\ d_id (m_device m) ∉ env_locked_devices env.
Proof.
  unfold LockMatchingDevice. intros H. tx H. subst.
  destruct (filter_sql _ _) as [l|] eqn:Hf; [|done].
  match goal with H : or_cast_error _ _ _ = _ |- _ => injection H as <- <- end.
  match goal with H : first_where _ _ = Some _ |- _ => apply first_where_Some in H as [Hin Hl] end.
  rewrite elem_of_order_by in Hin. eapply filter_sql_spec in Hin as [Hm Ha]; [|done].
  eexists. split_and!; try done. guards. by apply bool_decide_eq_false in Hl.
Qed.

Lemma memberships_spec db m :
  m ∈ memberships db ->
  (exists k, device_pool_devices db !! k = Some (m_entry m))
  /\ devices db !! pd_device_id (m_entry m) = Some (m_device m)
  /\ device_hosts db !! d_host_id (m_device m) = Some (m_host m)
  /\ device_pools db !! pd_pool_id (m_entry m) = Some (m_pool m).
Proof.
  unfold memberships. intros (e & Hin & He)%list_elem_of_omap. apply elem_of_rows in Hin as [k Hk].
  destruct (devices db !! _) as [d|] eqn:Hd; [|done]. cbn in He.
  destruct (device_hosts db !! _) as [h|] eqn:Hh; [|done]. cbn in He.
  destruct (device_pools db !! _) as [p|] eqn:Hp; [|done]. injection He as <-. cbn. eauto.
Qed.

(** ** The scheduler *)
Lemma next_pending_ok s r s' :
  next_pending env s = (Ok r, s') -> LockNextAllocatablePending env s = (Ok r, s) /\ s' = s.
Proof.
  intros H. pose proof (read_only _ _ _ _ H) as ->. split; [|done].
  unfold next_pending in H. apply bindT_ok in H as (o & s1 & E & H).
  pose proof (read_only _ _ _ _ E) as ->. destruct o as [x|].
  - apply optional_Some in E. by injection H as ->.
  - apply bindT_ok in H as (b & s2 & _ & H). by destruct b.
Qed.

Lemma reserve_tx_ok s c s' :
  reserve_tx env s = (Ok c, s') ->
  exists r m policy d row,
    LockNextAllocatablePending env s = (Ok r, s)
    /\ m ∈ memberships (st_db s) /\ allocatable (r_RequestedCapabilities r) m = Some true
    /\ LockPoolPolicyForHost (d_host_id (m_device m)) (d_id (m_device m)) env s = (Ok policy, s)
    /\ pp_Status policy = PoolActive /\ pp_ActiveReservations policy < pp_MaxConcurrency policy
    /\ devices (st_db s) !! d_id (m_device m) = Some d /\ d_lifecycle d = DeviceReady /\ d_health d = HealthHealthy
    /\ device_reservations (st_db s) !! r_ID r = Some row /\ r_Status row = ReservationPending /\ r_DeviceID row = None
    /\ c = mkCandidate (r <| r_DeviceID := Some (d_id (m_device m)) |>) (assignment (m_device m))
    /\ s' = on_db (fun db => put_reservation (r_ID r)
               (row <| r_DeviceID := Some (d_id (m_device m)) |> <| r_FailureCode := None |> <| r_UpdatedAt := env_clock env |>)
               (put_device (d_id (m_device m)) (d <| d_lifecycle := DeviceReserved |> <| d_updated_at := env_clock env |>) db)) s.
Proof.
  unfold reserve_tx. intros H. tx H. ro_states.
  match goal with H : next_pending _ _ = _ |- _ => apply next_pending_ok in H as [Hnext _] end.
  match goal with H : LockMatchingDevice _ _ _ = _ |- _ => apply LockMatchingDevice_ok in H as (m & Hm & Ha & -> & _ & _) end.
  match goal with H : ReserveForClaim _ _ _ _ _ = _ |- _ => apply ReserveForClaim_ok in H as (d & row & ?) end.
  guards. destruct_and!. unfold at_capacity in *.
  eexists _, m, _, d, row. split_and!; try done. lia.
Qed.

(** [activate_tx] on a database whose rows carry their own identifiers. *)
Lemma activate_tx_ok s sel sid a s' :
  keyed (st_db s) -> activate_tx sel sid env s = (Ok a, s') ->
  let rid := r_ID (cc_reservation sel) in
  let did := da_ID (cc_device sel) in
  exists row d policy,
    device_reservations (st_db s) !! rid = Some row
    /\ r_Status row = ReservationPending /\ r_DeviceID row = Some did
    /\ LockPoolPolicyForHost (da_HostID (cc_device sel)) did env s = (Ok policy, s)
    /\ pp_ActiveReservations policy < pp_MaxConcurrency policy
    /\ devices (st_db s) !! did = Some d /\ d_lifecycle d = DeviceReserved
    /\ a = mkSchedAssignment (activated did (env_clock env) row) (new_session row (assignment d) sid (env_clock env))
    /\ active_conflict (st_db s) rid (as_Reservation a) = false
    /\ session_of (st_db s) rid = None
    /\ s' = on_db (fun db => put_session sid (as_Session a) (put_reservation rid (as_Reservation a)
              (put_device did (d <| d_lifecycle := DeviceBusy |> <| d_updated_at := env_clock env |>) db))) s.
Proof.
  unfold activate_tx. intros Hk H. tx H. ro_states.
  match goal with H : LockByID _ _ _ = _ |- _ => apply LockByID_ok in H as [Hrow _] end.
  match goal with H : LockDevice _ _ _ = _ |- _ => apply LockDevice_ok in H as (d & Hd & -> & _) end.
  match goal with H : ActivateClaimed _ _ _ _ _ = _ |- _ =>
    apply ActivateClaimed_ok in H as (d2 & r2 & Hd2 & Hl2 & Hr2 & Hs2 & Hdev2 & -> & Hc & Hso & ->) end.
  guards. unfold at_capacity in *. cbn [fst snd da_ID assignment] in *.
  pose proof (keyed_device _ Hk _ _ Hd) as Ed. pose proof (keyed_reservation _ Hk _ _ Hrow) as Er.
  rewrite Ed, Er in *. simplify_eq.
  eexists _, _, _. split_and!; try done. lia.
Qed.

Lemma compensate_tx_ok s sel code terminal u s' :
  compensate_tx sel code terminal env s = (Ok u, s') ->
  let rid := r_ID (cc_reservation sel) in
  let did := da_ID (cc_device sel) in
  exists d r, devices (st_db s) !! did = Some d /\ d_lifecycle d = DeviceReserved /\ d_health d = HealthHealthy
    /\ device_reservations (st_db s) !! rid = Some r /\ r_Status r = ReservationPending /\ r_DeviceID r = Some did
    /\ st_db s' = put_reservation rid (r <| r_DeviceID := None |>
                     <| r_Status := if terminal then ReservationFailed else ReservationPending |>
                     <| r_FailureCode := Some code |> <| r_UpdatedAt := env_clock env |>)
                   (put_device did (d <| d_lifecycle := DeviceReady |> <| d_updated_at := env_clock env |>) (st_db s)).
Proof. unfold compensate_tx. intros H. tx H. by eapply CompensateClaim_ok. Qed.

(** ** Closing *)
Definition with_audit (a : list AuditRow) (db : DB) : DB := db <| device_audit_events := a |>.

(** The policy that decides the release, as an option. *)
Definition release_policy (s : St) (d : DeviceRow) (policy : option PoolPolicy) : Prop :=
  optional RepoErrNotFound (LoadPoolPolicyForRelease (d_host_id d) (d_id d)) env s = (Ok policy, s).

(** A restored machine has the given status and table. *)
Lemma newStateMachine_ok {S} `{EqDecision S} `{Status S} res id fld (x : S) valid tr m :
  newStateMachine res id fld x valid tr = Ok m ->
  m = mkMachine res id fld x valid tr [] /\ valid x = true.
Proof.
  unfold newStateMachine. destruct (identifierPattern id); [|done]. cbn.
  destruct (valid x); [|done]. by intros [= <-].
Qed.

Lemma reservation_transition_ok id status to reason t s m s' :
  reservation_transition id status to reason t env s = (Ok m, s') -> has_edge reservationTransitions status to = true.
Proof.
  unfold reservation_transition. intros H. tx H.
  match goal with H : RestoreReservation _ _ = _ |- _ => apply newStateMachine_ok in H as [-> _] end.
  match goal with H : transition ?m ?x ?y ?z = _ |- _ =>
    pose proof (transition_success m x y z) as Ht; rewrite H in Ht end.
  by destruct (Ht eq_refl).
Qed.

Lemma release_device_transition_ok da target reason t s u s' :
  release_device_transition da target reason t env s = (Ok u, s') ->
  da_Lifecycle da <> DeviceQuarantined -> da_Lifecycle da <> target ->
  has_edge deviceTransitions (da_Lifecycle da) target = true /\ (target = DeviceReady -> da_Health da = HealthHealthy).
Proof.
  unfold release_device_transition, RestoreDevice. intros H Hq Ht. tx H.
  match goal with H : match newStateMachine ?a ?b ?c ?d ?e ?f with _ => _ end = _ |- _ =>
    destruct (newStateMachine a b c d e f) as [m|] eqn:Em; [|done];
    apply newStateMachine_ok in Em as [-> _];
    destruct (validHealthStatus (da_Health da)); [|done]; injection H as <- end.
  cbn in H. rewrite !bool_decide_eq_false_2 in H by done. cbn in H. tx H.
  match goal with H : Transition ?m ?x ?y ?z = _ |- _ =>
    pose proof (Transition_success m x y z) as Hs; rewrite H in Hs end.
  destruct (Hs eq_refl) as (? & ? & _). done.
Qed.

Definition release_state (policy : option PoolPolicy) (d : DeviceRow) : DeviceLifecycleStatus :=
  (release_target (d_health d) (recycles policy (assignment d))).1.

Lemma closeActiveLocked_ok s current terminal actor action requestID reason r' s' :
  closeActiveLocked current terminal actor action requestID reason env s = (Ok r', s') ->
  exists did d r x auditID policy,
    r_DeviceID current = Some did
    /\ devices (st_db s) !! did = Some d /\ closable d = true /\ release_policy s d policy
    /\ has_edge reservationTransitions (r_Status current) terminal = true
    /\ (d_lifecycle d <> DeviceQuarantined -> d_lifecycle d <> release_state policy d ->
          has_edge deviceTransitions (d_lifecycle d) (release_state policy d) = true)
    /\ device_reservations (st_db s) !! r_ID current = Some r /\ r_Status r = ReservationActive
    /\ r' = closed_row terminal (env_clock env) r
    /\ st_db s' = with_audit (device_audit_events (st_db s)
            ++ [mkAudit auditID (act_Type actor) (act_ID actor) action "device_reservation" (r_ID current) requestID (RedactText reason) []
             (env_clock env)])
          (put_reservation (r_ID current) r'
          (put_device did (released_device (recycles policy (assignment d)) (release_state policy d) (env_clock env) d)
             (with_sessions x (st_db s)))).
Proof.
  unfold closeActiveLocked. intros H.
  apply bindT_ok in H as (did & s1 & E & H). apply expect_row_ok in E as [Hdid ->].
  apply bindT_ok in H as (now & s1 & E & H). injection E as <- <-.
  apply bindT_ok in H as (m & s1 & Hres & H). pose proof (read_only _ _ _ _ Hres) as ->.
  apply bindT_ok in H as (x & s1 & E & H). pose proof (read_only _ _ _ _ E) as ->. clear E.
  apply bindT_ok in H as ([] & s1 & E & H). pose proof (read_only _ _ _ _ E) as ->. clear E.
  apply bindT_ok in H as (da & s1 & E & H). apply LockDevice_ok in E as (d & Hd & -> & ->).
  apply bindT_ok in H as (policy & s1 & Hpol & H). pose proof (read_only _ _ _ _ Hpol) as ->.
  assert (release_state policy d = (release_target (da_Health (assignment d)) (recycles policy (assignment d))).1) as Htarget by done.
  destruct (release_target _ _) as [target dreason]. cbn [fst] in Htarget.
  apply bindT_ok in H as ([] & s1 & Hdev & H). pose proof (read_only _ _ _ _ Hdev) as ->.
  apply bindT_ok in H as (auditID & s1 & E & H). pose proof (keeps_db _ _ _ _ E) as Hdb. clear E.
  apply bindT_ok in H as (closed & s2 & E & H). apply CloseActive_ok in E as (d2 & r & sx & Hd2 & Hcl & Hr & Hact & -> & ->).
  apply bindT_ok in H as ([] & s3 & E & H). injection E as <-. injection H as <- <-. cbn in *.
  rewrite Hdb in *. simplify_eq.
  eexists did, d, r, sx, auditID, policy. split_and!; try done.
  - by eapply reservation_transition_ok.
  - intros Hq Ht. by destruct (release_device_transition_ok _ _ _ _ _ _ _ Hdev Hq Ht).
Qed.
End Facts.
