(* ===== verification/CommandRepo.v ===== *)
(** * The host command queue: [internal/repository/command.go]

    One definition per repository method.  Each is a single statement, so it is atomic:
    the candidate of a [WITH ... FOR UPDATE SKIP LOCKED LIMIT 1] is the first row, in the
    query's order, that no other transaction holds. *)
From S2P Require Import Prelude GoText Errors Domain Json Actor Store ReservationRepo.

Record CreateCommandParams : Type := mkCreateCommand {
  cc_ID : string; cc_HostID : string; cc_CommandType : string; cc_Payload : obj;
  cc_MaxAttempts : Z; cc_IdempotencyKey : string }.

Definition commands (db : DB) : list CommandRecord := rows (device_host_commands db).

Definition put_command (id : string) (c : CommandRecord) : Tx unit :=
  put_db (fun db => db <| device_host_commands := <[id := c]> (device_host_commands db) |>).

Definition command_is (x : CommandStatus) (c : CommandRecord) : bool := bool_decide (c_Status c = x).

(** [time.Duration.Milliseconds], bound to an interval of milliseconds. *)
Definition whole_milliseconds (d : Z) : Z := Z.quot d Millisecond * Millisecond.

(** ** Creating *)
Definition command_key (hostID key : string) (c : CommandRecord) : bool :=
  String.eqb (c_HostID c) hostID && String.eqb (c_IdempotencyKey c) key.

Definition new_command (p : CreateCommandParams) (now : Z) : CommandRecord :=
  mkCommand (cc_ID p) (cc_HostID p) (cc_CommandType p) (cc_Payload p) CommandPending None None 0
    (cc_MaxAttempts p) (cc_IdempotencyKey p) None None now now None.

Definition same_command (c : CommandRecord) (p : CreateCommandParams) : bool :=
  String.eqb (c_HostID c) (cc_HostID p) && String.eqb (c_CommandType c) (cc_CommandType p)
  && (c_MaxAttempts c =? cc_MaxAttempts p) && String.eqb (c_IdempotencyKey c) (cc_IdempotencyKey p)
  && json_eqb (JObj (c_Payload c)) (JObj (cc_Payload p)).

(** [INSERT ... ON CONFLICT (host_id, idempotency_key) DO UPDATE ... RETURNING]. *)
Definition CreateCommand (p : CreateCommandParams) : Tx CommandRecord :=
  db ← get_db;
  now ← ClockNow;
  record ← match first_where (command_key (cc_HostID p) (cc_IdempotencyKey p)) (commands db) with
           | Some existing => mret existing
           | None =>
             match device_host_commands db !! cc_ID p with
             | Some _ => throw (ErrUniqueViolation "device_host_commands_pkey")
             | None => _ ← put_command (cc_ID p) (new_command p now); mret (new_command p now)
             end
           end;
  if same_command record p then mret record else throw RepoErrIdempotencyConflict.

(** ** Leasing *)
Definition by_command_created (c : CommandRecord) : key := (c_CreatedAt c, c_ID c).
Definition by_lease_expiry (c : CommandRecord) : key := (default 0 (c_LeaseExpiresAt c), c_ID c).

Definition not_locked (env : Env) (c : CommandRecord) : bool := negb (bool_decide (c_ID c ∈ env_locked_commands env)).

Definition claimable (hostID : string) (c : CommandRecord) : bool :=
  String.eqb (c_HostID c) hostID && command_is CommandPending c && (c_Attempts c <? c_MaxAttempts c).

Definition leased (leaseToken : string) (now leaseDuration : Z) (c : CommandRecord) : CommandRecord :=
  c <| c_Status := CommandLeased |> <| c_LeaseToken := Some leaseToken |>
    <| c_LeaseExpiresAt := Some (now + whole_milliseconds leaseDuration) |>
    <| c_Attempts := c_Attempts c + 1 |> <| c_UpdatedAt := now |>.

Definition ClaimNext (hostID leaseToken : string) (leaseDuration : Z) : Tx CommandRecord :=
  now ← ClockNow;
  found ← env_gets (fun env db =>
    first_where (fun c => claimable hostID c && not_locked env c) (order_by by_command_created (commands db)));
  candidate ← expect_row found RepoErrNotFound;
  let record := leased leaseToken now leaseDuration candidate in
  _ ← put_command (c_ID candidate) record;
  mret record.

(** [status='leased' AND lease_token=$2 AND attempts=$3 AND lease_expires_at >= now]. *)
Definition holds_lease (leaseToken : string) (attempt now : Z) (c : CommandRecord) : bool :=
  command_is CommandLeased c && bool_decide (c_LeaseToken c = Some leaseToken) && (c_Attempts c =? attempt)
  && match c_LeaseExpiresAt c with Some e => now <=? e | None => false end.

(** An [UPDATE] of one command under its lease. *)
Definition update_leased (id leaseToken : string) (attempt : Z) (f : Z -> CommandRecord -> CommandRecord)
    : Tx CommandRecord :=
  now ← ClockNow;
  db ← get_db;
  match device_host_commands db !! id with
  | Some c => if holds_lease leaseToken attempt now c
              then _ ← put_command id (f now c); mret (f now c)
              else throw RepoErrLeaseConflict
  | None => throw RepoErrLeaseConflict
  end.

Definition ExtendLease (id leaseToken : string) (attempt leaseDuration : Z) : Tx CommandRecord :=
  update_leased id leaseToken attempt (fun now c =>
    c <| c_LeaseExpiresAt := Some (now + whole_milliseconds leaseDuration) |> <| c_UpdatedAt := now |>).

(** ** Completing *)
Definition retries (status : CommandStatus) (retryable : bool) (c : CommandRecord) : bool :=
  retryable && bool_decide (status = CommandFailed) && (c_Attempts c <? c_MaxAttempts c).

(** A nil result is stored as the JSON null, which reads back as nil. *)
Definition completed (status : CommandStatus) (result : option obj) (errorCode : option string) (retryable : bool)
    (now : Z) (c : CommandRecord) : CommandRecord :=
  let retry := retries status retryable c in
  c <| c_Status := if retry then CommandPending else status |>
    <| c_LeaseToken := None |> <| c_LeaseExpiresAt := None |> <| c_Result := result |> <| c_ErrorCode := errorCode |>
    <| c_CompletedAt := if retry then None else Some now |> <| c_UpdatedAt := now |>.

Definition Complete (id leaseToken : string) (attempt : Z) (status : CommandStatus) (result : option obj)
    (errorCode : option string) (retryable : bool) : Tx CommandRecord :=
  update_leased id leaseToken attempt (completed status result errorCode retryable).

(** ** Recovering *)
Definition lease_expired (now : Z) (c : CommandRecord) : bool :=
  command_is CommandLeased c && match c_LeaseExpiresAt c with Some e => e <? now | None => false end.

Definition recovered (now : Z) (c : CommandRecord) : CommandRecord :=
  let retry := c_Attempts c <? c_MaxAttempts c in
  c <| c_Status := if retry then CommandPending else CommandTimedOut |>
    <| c_LeaseToken := None |> <| c_LeaseExpiresAt := None |>
    <| c_ErrorCode := if retry then None else Some "COMMAND_ATTEMPTS_EXHAUSTED" |>
    <| c_CompletedAt := if retry then None else Some now |> <| c_UpdatedAt := now |>.

Definition RecoverExpiredLease : Tx CommandRecord :=
  now ← ClockNow;
  found ← env_gets (fun env db =>
    first_where (fun c => lease_expired now c && not_locked env c) (order_by by_lease_expiry (commands db)));
  candidate ← expect_row found RepoErrNotFound;
  _ ← put_command (c_ID candidate) (recovered now candidate);
  mret (recovered now candidate).
