(* ===== verification/DeviceStore.v ===== *)
(** * The device tables as the health and operation paths use them

    The writes of [devices] that may enter or move within the partial unique indexes
    of migrations 000006 and 000014, the inserts of commands, health events and audit
    rows, and the subqueries that several statements share: the assignment of a device
    by its reservations and the commands addressed to it. *)
From S2P Require Import Prelude GoText Errors Domain Json Sensitive Actor Store.
From S2P Require Import ReservationRepo CommandRepo.

(** ** Unique indexes of [devices] *)

(** Quarantined and deleted devices are outside the indexes. *)
Definition indexed (d : DeviceRow) : bool := negb (lifecycle_is DeviceQuarantined d) && negb (lifecycle_is DeviceDeleted d).

Definition same_some (a b : option string) : bool := match a with Some _ => bool_decide (a = b) | None => false end.

(** The index that two rows of the table would share. *)
Definition shared_index (d x : DeviceRow) : option string :=
  if String.eqb (d_provider_type d) (d_provider_type x) && String.eqb (d_provider_ref d) (d_provider_ref x)
  then Some "uq_devices_provider_ref"
  else if negb (indexed d && indexed x) then None
  else if String.eqb (d_serial d) (d_serial x) then Some "uq_devices_active_serial"
  else if same_some (d_stf_serial d) (d_stf_serial x) then Some "uq_devices_active_stf_serial"
  else if same_some (d_adb_endpoint d) (d_adb_endpoint x) then Some "uq_devices_active_adb_endpoint"
  else if String.eqb (d_platform d) "android" && String.eqb (d_platform x) "android"
          && same_some (d_appium_endpoint d) (d_appium_endpoint x)
  then Some "uq_devices_active_android_appium_endpoint"
  else None.

Definition device_conflict (db : DB) (id : string) (d : DeviceRow) : option string :=
  foldr (fun x acc => if String.eqb (d_id x) id then acc else match shared_index d x with Some c => Some c | None => acc end)
    None (rows (devices db)).

(** [UPDATE devices SET ... WHERE id=$1 AND guard], through the indexes. *)
Definition save_device (id : string) (guard : DeviceRow -> bool) (f : DeviceRow -> DeviceRow) : Tx Z :=
  db ← get_db;
  match devices db !! id with
  | Some d =>
    if guard d then
      match device_conflict db id (f d) with
      | Some constraint => throw (ErrUniqueViolation constraint)
      | None => _ ← put_db (fun db => db <| devices := <[id := f d]> (devices db) |>); mret 1
      end
    else mret 0
  | None => mret 0
  end.

(** [DeviceRepository.UpdateLifecycle]. *)
Definition UpdateLifecycle (id : string) (from to : DeviceLifecycleStatus) : Tx unit :=
  now ← ClockNow;
  n ← save_device id (lifecycle_is from) (fun d => d <| d_lifecycle := to |> <| d_updated_at := now |>);
  expect_one n RepoErrNotFound.

(** ** Columns of a bounded length *)

(** What follows the first [n] characters of a text. *)
Fixpoint skip_runes (n : nat) (l : list N) : list N :=
  match n, l with
  | S m, _ :: _ => skip_runes m (drop (DecodeRune l).2 l)
  | _, _ => l
  end.

(** A value of a column of type [varchar(n)]: what is too long is cut off when it is only
    spaces, and an error otherwise. *)
Definition varchar (n : nat) (s : string) : Tx string :=
  let rest := skip_runes n (string_bytes s) in
  if bool_decide (rest = []) then mret s
  else _ ← guard_or (forallb (N.eqb 32) rest) (ErrExternal "value too long for a column of type character varying");
       mret (String.substring 0 (String.length s - length rest) s).

(** ** Inserts *)
Definition insert_health_event (id deviceID source eventType severity reason : string) (payload : obj) (observedAt : Z) : Tx Z :=
  now ← ClockNow;
  _ ← put_db (fun db => db <| device_health_events := device_health_events db ++
        [mkHealthEvent id deviceID source eventType severity reason payload observedAt now] |>);
  mret now.

Definition insert_audit (id actorType actorID action resourceType resourceID requestID reason : string) (summary : obj) : Tx unit :=
  now ← ClockNow;
  put_db (fun db => db <| device_audit_events := device_audit_events db ++
    [mkAudit id actorType actorID action resourceType resourceID requestID reason summary now] |>).

(** A plain [INSERT INTO device_host_commands]: no [ON CONFLICT]. *)
Definition insert_command (p : CreateCommandParams) : Tx unit :=
  now ← ClockNow;
  db ← get_db;
  match first_where (command_key (cc_HostID p) (cc_IdempotencyKey p)) (commands db), device_host_commands db !! cc_ID p with
  | Some _, _ => throw (ErrUniqueViolation "uq_device_host_commands_idempotency")
  | None, Some _ => throw (ErrUniqueViolation "device_host_commands_pkey")
  | None, None => put_command (cc_ID p) (new_command p now)
  end.

(** ** Subqueries *)
Definition on_device (id : string) (r : ReservationRecord) : bool := bool_decide (r_DeviceID r = Some id).

Definition latest_reservation (st : ReservationStatus) (id : string) (db : DB) : option ReservationRecord :=
  first_where (fun r => on_device id r && status_is st r)
    (order_by (fun r => (- r_UpdatedAt r, r_ID r)) (rows (device_reservations db))).

(** [COALESCE((SELECT CASE WHEN r.status='active' THEN 'busy' ELSE 'reserved' END FROM
    device_reservations r WHERE r.device_id=d.id AND r.status IN ('pending','active')
    ORDER BY CASE WHEN r.status='active' THEN 0 ELSE 1 END,r.updated_at DESC,r.id LIMIT 1),'')]. *)
Definition assignment_target (id : string) (db : DB) : string :=
  match latest_reservation ReservationActive id db, latest_reservation ReservationPending id db with
  | Some _, _ => "busy"
  | None, Some _ => "reserved"
  | None, None => ""
  end.

(** Where a device that was taken out of service returns. *)
Definition assignment_state (target : string) : DeviceLifecycleStatus :=
  if String.eqb target "busy" then DeviceBusy else if String.eqb target "reserved" then DeviceReserved else DeviceReady.

(** [EXISTS (SELECT 1 FROM device_reservations r WHERE r.device_id=d.id AND
    r.status IN ('pending','active'))]. *)
Definition has_open_reservation (id : string) (db : DB) : bool :=
  existsb (fun r => on_device id r && (status_is ReservationPending r || status_is ReservationActive r))
    (rows (device_reservations db)).

(** [c.payload->>'key' = value]. *)
Definition payload_is (key value : string) (c : CommandRecord) : bool :=
  bool_decide (get_text (c_Payload c) key = Some value).

Definition for_device (id : string) (c : CommandRecord) : bool := payload_is "device_id" id c.

(** [c.status IN ('pending','leased')]. *)
Definition in_flight (c : CommandRecord) : bool := command_is CommandPending c || command_is CommandLeased c.

Definition command_type_in (types : list string) (c : CommandRecord) : bool := bool_decide (c_CommandType c ∈ types).

Definition has_command (id : string) (p : CommandRecord -> bool) (db : DB) : bool :=
  existsb (fun c => for_device id c && p c) (commands db).

(** ** Casts *)

(** [NULLIF(o->>'k','')::timestamptz]: an instant is stored as a number of
    nanoseconds; [None] is a cast error. *)
Definition instant_or_null (kvs : obj) (k : string) : option (option Z) :=
  match assoc k kvs with
  | None | Some JNull | Some (JStr "") => Some None
  | Some (JNum q) => option_map Some (Q_integral q)
  | Some _ => None
  end.
