(* ===== verification/Reconcile.v ===== *)
(** * Reconciliation of device health ([internal/reconcile])

    Reporting a health event on a device, the reconciliation cycle over all devices,
    the automatic restarts and the timeout of host heartbeats.  The provider and the
    STF visibility probe are functions of the configuration; each reading of a list of
    devices and each transaction is one atomic step. *)
From S2P Require Import Prelude GoText Errors Domain Json Sensitive Actor Store.
From S2P Require Import ReservationRepo CommandRepo DeviceStore.

(** ** Data *)
Record EventInput : Type := mkEventInput {
  ei_Source : string; ei_EventType : string; ei_Severity : string; ei_Reason : string; ei_ObservedAt : Z;
  ei_Payload : obj; ei_ForceQuarantine : bool; ei_SuppressQuarantine : bool; ei_SuppressFailureCount : bool }.
#[export] Instance eta_EventInput : Eta EventInput := fun i =>
  mkEventInput (ei_Source i) (ei_EventType i) (ei_Severity i) (ei_Reason i) (ei_ObservedAt i) (ei_Payload i)
    (ei_ForceQuarantine i) (ei_SuppressQuarantine i) (ei_SuppressFailureCount i).

Record Event : Type := mkEvent {
  ev_ID : string; ev_DeviceID : string; ev_Source : string; ev_EventType : string; ev_Severity : string;
  ev_Reason : string; ev_Payload : obj; ev_ObservedAt : Z; ev_CreatedAt : Z }.

Record DeviceState : Type := mkDeviceState {
  st_ID : string; st_HostID : string; st_Platform : string; st_ProviderRef : string; st_Serial : string;
  st_Lifecycle : DeviceLifecycleStatus; st_Health : HealthStatus; st_HealthReason : string;
  st_AssignmentTarget : string; st_ConsecutiveFailures : Z; st_HostStatus : HostStatus;
  st_OperationInFlight : bool; st_DeletionInFlight : bool; st_LatestProvisionedAt : option Z;
  st_STFFailureStartedAt : option Z; st_HostFailureStartedAt : option Z }.

Record Result : Type := mkResult {
  re_HostsMarkedOffline : Z; re_DevicesChecked : Z; re_EventsRecorded : Z; re_DevicesQuarantined : Z;
  re_DevicesRecovered : Z; re_RestartsQueued : Z }.
#[export] Instance eta_Result : Eta Result := fun r =>
  mkResult (re_HostsMarkedOffline r) (re_DevicesChecked r) (re_EventsRecorded r) (re_DevicesQuarantined r)
    (re_DevicesRecovered r) (re_RestartsQueued r).
Definition no_result : Result := mkResult 0 0 0 0 0 0.

(** [providers.Health]. *)
Record ProviderHealth : Type := mkProviderHealth {
  ph_Components : list (string * string); ph_Online : bool; ph_ADBOnline : bool; ph_BootCompleted : bool;
  ph_AppiumHealthy : bool }.

Definition component (h : ProviderHealth) (name : string) : string :=
  match first_where (fun p => String.eqb p.1 name) (ph_Components h) with Some p => p.2 | None => "" end.

Definition Ready (h : ProviderHealth) : bool :=
  match ph_Components h with
  | _ :: _ => forallb (fun name => String.eqb (component h name) "passed") ["transport"; "os_ready"; "automation"; "router"]
  | [] => ph_Online h && ph_ADBOnline h && ph_BootCompleted h && ph_AppiumHealthy h
  end.

(** An error of the provider: [providers.ErrorCode(err)] and [err.Error()]. *)
Record ProviderError : Type := mkProviderError { pe_Code : string; pe_Text : string }.

(** The fields of [Service] set by [New]; a probe fails with the text of its error. *)
Record Config : Type := mkConfig {
  cf_provider : option (string -> result ProviderError ProviderHealth);
  cf_visibility : option (string -> result string bool);
  cf_visibilityGrace : Z; cf_hostRecoveryGrace : Z; cf_failureThreshold : Z }.

Definition New provider visibility (failureThreshold visibilityGrace hostRecoveryGrace : Z) : Config :=
  mkConfig provider visibility (if visibilityGrace <? 0 then 0 else visibilityGrace)
    (if hostRecoveryGrace <? 0 then 0 else hostRecoveryGrace) (if failureThreshold <? 1 then 3 else failureThreshold).

(** ** Reporting *)
Definition validEvent (deviceID : string) (input : EventInput) : bool :=
  negb (len deviceID <? 16) && negb (blank (ei_EventType input)) && negb (blank (ei_Reason input))
  && negb (IsZero (ei_ObservedAt input))
  && bool_decide (ei_Source input ∈ ["agent"; "provider"; "adb"; "appium"; "stf"; "reconciler"])
  && bool_decide (ei_Severity input ∈ ["info"; "warning"; "error"; "critical"]).

Definition healthOutcome (device : DeviceState) (input : EventInput) : HealthStatus * Z :=
  let failures := if ei_SuppressFailureCount input then st_ConsecutiveFailures device
                  else st_ConsecutiveFailures device + 1 in
  if String.eqb (ei_Severity input) "info" then
    if String.eqb (ei_EventType input) "health_recovered" then (HealthHealthy, 0)
    else (st_Health device, st_ConsecutiveFailures device)
  else if String.eqb (ei_Severity input) "warning" then (HealthDegraded, failures)
  else (HealthUnhealthy, failures).

(** The row and its host, as [lockDevice] and [getDevice] read them. *)
Definition device_state (db : DB) (d : DeviceRow) (h : HostRow) : DeviceState :=
  mkDeviceState (d_id d) (d_host_id d) "" (d_provider_ref d) (d_serial d) (d_lifecycle d) (d_health d)
    (default "" (d_health_reason d)) (assignment_target (d_id d) db) (d_consecutive_failures d) (h_status h)
    false false None None None.

Definition lockDevice (id : string) : Tx (option DeviceState) :=
  db ← get_db;
  mret (match devices db !! id with
        | Some d => option_map (device_state db d) (device_hosts db !! d_host_id d)
        | None => None
        end).

#[export] Instance eta_DeviceState : Eta DeviceState := fun d =>
  mkDeviceState (st_ID d) (st_HostID d) (st_Platform d) (st_ProviderRef d) (st_Serial d) (st_Lifecycle d) (st_Health d)
    (st_HealthReason d) (st_AssignmentTarget d) (st_ConsecutiveFailures d) (st_HostStatus d) (st_OperationInFlight d)
    (st_DeletionInFlight d) (st_LatestProvisionedAt d) (st_STFFailureStartedAt d) (st_HostFailureStartedAt d).

Definition getDevice (id : string) : Tx (option DeviceState) :=
  found ← lockDevice id;
  mret (option_map (fun d => d <| st_HealthReason := "" |> <| st_AssignmentTarget := "" |>) found).

Fixpoint transitions (d : Device) (targets : list DeviceLifecycleStatus) (reason : string) (now : Z) : Tx Device :=
  match targets with
  | [] => mret d
  | target :: rest => d ← apply_call (Transition d target reason now); transitions d rest reason now
  end.

Definition recoverDeviceLifecycle (device : Device) (assignmentTarget reason : string) (now : Z) : Tx Device :=
  d ← transitions device [DeviceProvisioning; DeviceBooting; DeviceReady] reason now;
  d ← transitions d (if String.eqb assignmentTarget "reserved" || String.eqb assignmentTarget "busy"
                     then [DeviceReserved] else []) reason now;
  transitions d (if String.eqb assignmentTarget "busy" then [DeviceBusy] else []) reason now.

(** Set the health unless it is already there. *)
Definition ensure_health (d : Device) (to : HealthStatus) (reason : string) (now : Z) : Tx Device :=
  if bool_decide (Health d = to) then mret d else apply_call (UpdateHealth d to reason now).

Definition recovers (device : DeviceState) (input : EventInput) (target : HealthStatus) (d : Device) : bool :=
  String.eqb (ei_EventType input) "health_recovered" && bool_decide (target = HealthHealthy)
  && bool_decide (Lifecycle d = DeviceQuarantined) && IsSystemRecoverableHealthReason (st_HealthReason device).

Definition quarantines (config : Config) (input : EventInput) (failures : Z) (d : Device) : bool :=
  (ei_ForceQuarantine input || (negb (ei_SuppressQuarantine input) && (cf_failureThreshold config <=? failures)))
  && negb (bool_decide (Lifecycle d = DeviceQuarantined)).

(** The aggregate after an event. *)
Definition reported (config : Config) (device : DeviceState) (input : EventInput) (now : Z) : Tx (Device * Z) :=
  aggregate ← lift_result (RestoreDevice (st_ID device) (st_Lifecycle device) (st_Health device));
  let '(targetHealth, failures) := healthOutcome device input in
  d ← ensure_health aggregate targetHealth (ei_Reason input) now;
  d ← (if recovers device input targetHealth d
       then recoverDeviceLifecycle d (st_AssignmentTarget device) (ei_Reason input) now else mret d);
  d ← (if quarantines config input failures d
       then apply_call (Transition d DeviceQuarantined (ei_Reason input) now) else mret d);
  mret (d, failures).

Definition stored (d : Device) (reason : string) (failures now : Z) (row : DeviceRow) : DeviceRow :=
  row <| d_lifecycle := Lifecycle d |> <| d_health := Health d |> <| d_health_reason := Some reason |>
      <| d_consecutive_failures := failures |>
      <| d_last_seen_at := if bool_decide (Health d = HealthHealthy) then Some now else d_last_seen_at row |>
      <| d_updated_at := now |>.

Definition report_tx (config : Config) (id deviceID : string) (input : EventInput) : Tx Event :=
  found ← lockDevice deviceID;
  device ← expect_row found RecErrNotFound;
  now ← ClockNow;
  outcome ← reported config device input now;
  let '(d, failures) := outcome in
  _ ← save_device (st_ID device) (fun _ => true) (stored d (ei_Reason input) failures now);
  createdAt ← insert_health_event id (st_ID device) (ei_Source input) (ei_EventType input) (ei_Severity input)
                (ei_Reason input) (ei_Payload input) (ei_ObservedAt input);
  mret (mkEvent id (st_ID device) (ei_Source input) (ei_EventType input) (ei_Severity input) (ei_Reason input)
          (ei_Payload input) (ei_ObservedAt input) createdAt).

Definition Report (config : Config) (deviceID : string) (input : EventInput) : Tx Event :=
  _ ← guard_or (validEvent deviceID input) RecErrInvalidArgument;
  let input := input <| ei_Reason := RedactText (ei_Reason input) |> <| ei_Payload := RedactMap (ei_Payload input) |> in
  id ← newID;
  WithinTx (report_tx config id deviceID input).

(** ** Reading the devices *)

(** [(SELECT max(c.completed_at) ... command_type IN ('create','rebuild') AND status='succeeded')]. *)
Definition max_instant (l : list (option Z)) : option Z :=
  foldr (fun x acc => match x, acc with Some a, Some b => Some (Z.max a b) | Some a, None => Some a | None, _ => acc end) None l.
Definition min_instant (l : list Z) : option Z :=
  foldr (fun a acc => match acc with Some b => Some (Z.min a b) | None => Some a end) None l.

Definition latest_provisioned (id : string) (db : DB) : option Z :=
  max_instant (map c_CompletedAt (filter (fun c =>
    for_device id c && command_type_in ["create"; "rebuild"] c && command_is CommandSucceeded c = true) (commands db))).

(** The first of the last [consecutive_failures] failures of STF. *)
Definition stf_failure_started (id : string) (failures : Z) (db : DB) : option Z :=
  min_instant (map e_observed_at (take (Z.to_nat failures)
    (order_by (fun e => (- e_created_at e, e_id e)) (filter (fun e =>
       String.eqb (e_device_id e) id && String.eqb (e_event_type e) "stf_not_visible" = true) (device_health_events db))))).

Definition first_instant (a b : option Z) : option Z := match a with Some _ => a | None => b end.

Definition host_failure_started (h : HostRow) : option (option Z) :=
  match instant_or_null (h_capabilities h) "host_readiness_failure_started_at" with
  | None => None
  | Some stored => Some (if bool_decide (h_status h = HostOnline) then stored
                         else first_instant stored (first_instant (h_last_heartbeat_at h) (Some (h_updated_at h))))
  end.

Definition listed (db : DB) (d : DeviceRow) (h : HostRow) : option DeviceState :=
  match host_failure_started h with
  | None => None
  | Some hostFailure =>
    Some (mkDeviceState (d_id d) (d_host_id d) (d_platform d) (d_provider_ref d) (d_serial d) (d_lifecycle d) (d_health d)
      (default "" (d_health_reason d)) (assignment_target (d_id d) db) (d_consecutive_failures d) (h_status h)
      (has_command (d_id d) (fun c => command_type_in ["create"; "rebuild"; "reimage"; "restart"; "start"] c && in_flight c) db)
      (has_command (d_id d) (fun c => command_type_in ["delete"] c && in_flight c) db)
      (latest_provisioned (d_id d) db) (stf_failure_started (d_id d) (d_consecutive_failures d) db) hostFailure)
  end.

Fixpoint listed_rows (db : DB) (ds : list DeviceRow) : option (list DeviceState) :=
  match ds with
  | [] => Some []
  | d :: rest =>
    match device_hosts db !! d_host_id d with
    | None => listed_rows db rest
    | Some h => match listed db d h, listed_rows db rest with Some x, Some l => Some (x :: l) | _, _ => None end
    end
  end.

Definition listDevices : Tx (list DeviceState) :=
  db ← get_db;
  or_cast_error (listed_rows db (order_by (fun d => (d_created_at d, d_id d)) (rows (devices db)))).

(** ** Grace periods *)
Definition schedulableLifecycle (l : DeviceLifecycleStatus) : bool :=
  bool_decide (l ∈ [DeviceBooting; DeviceReady; DeviceReserved; DeviceBusy]).

Definition within_grace (grace : Z) (started : option Z) (observedAt : Z) : bool :=
  (0 <? grace) && match started with
                  | Some at_ => (0 <=? observedAt - at_) && (observedAt - at_ <? grace)
                  | None => false
                  end.

Definition withinVisibilityGrace (config : Config) (device : DeviceState) (observedAt : Z) : bool :=
  within_grace (cf_visibilityGrace config) (st_LatestProvisionedAt device) observedAt.

Definition withinSTFOutageGrace (config : Config) (device : DeviceState) (observedAt : Z) : bool :=
  within_grace (cf_visibilityGrace config) (Some (default observedAt (st_STFFailureStartedAt device))) observedAt.

Definition withinHostRecoveryGrace (config : Config) (device : DeviceState) (observedAt : Z) : bool :=
  within_grace (cf_hostRecoveryGrace config) (st_HostFailureStartedAt device) observedAt.

(** ** Restarts *)
Definition newest (t : CommandRecord -> Z) (l : list CommandRecord) : option CommandRecord :=
  head (reverse (order_by (fun c => (t c, c_ID c)) l)).

(** The type of the last management command that succeeded, [NULLS LAST]. *)
Definition latest_management_action (id : string) (db : DB) : string :=
  let succeeded := filter (fun c => for_device id c && payload_is "operation_source" "management" c
                     && command_type_in ["stop"; "start"; "restart"] c && command_is CommandSucceeded c = true) (commands db) in
  let dated := filter (fun c => is_Some (c_CompletedAt c)) succeeded in
  let undated := filter (fun c => c_CompletedAt c = None) succeeded in
  match newest (fun c => default 0 (c_CompletedAt c)) dated, newest (fun _ => 0) undated with
  | Some c, _ => c_CommandType c
  | None, Some c => c_CommandType c
  | None, None => ""
  end.

Definition last_self_healing (id : string) (db : DB) : option CommandRecord :=
  newest c_CreatedAt (filter (fun c => for_device id c && payload_is "operation_source" "self_healing" c
    && command_type_in ["restart"] c
    && (command_is CommandSucceeded c || command_is CommandFailed c || command_is CommandTimedOut c) = true) (commands db)).

(** The last automatic restart was neither followed by a sign of life nor by an
    administrator's release from quarantine. *)
Definition already_restarted (d : DeviceRow) (db : DB) : bool :=
  match last_self_healing (d_id d) db with
  | None => false
  | Some previous =>
    (default (d_created_at d) (d_last_seen_at d) <=? default (c_UpdatedAt previous) (c_CompletedAt previous))
    && negb (existsb (fun a => String.eqb (a_resource_type a) "device" && String.eqb (a_resource_id a) (d_id d)
                        && String.eqb (a_action a) "unquarantine_device" && (c_CreatedAt previous <? a_created_at a))
               (device_audit_events db))
  end.

Definition in_android_pool (id : string) (db : DB) : bool :=
  existsb (fun pd => String.eqb (pd_device_id pd) id && pd_enabled pd
    && match device_pools db !! pd_pool_id pd with
       | Some p => String.eqb (p_platform p) "android" && bool_decide (p_status p = PoolActive) && (0 <? p_total_target p)
       | None => false
       end) (rows (device_pool_devices db)).

Definition has_live_session (id : string) (db : DB) : bool :=
  existsb (fun s => String.eqb (s_DeviceID s) id && bool_decide (s_Status s ∈ [SessionStarting; SessionActive; SessionClosing]))
    (rows (device_sessions db)).

(** The condition of the query of [queueRestart]. *)
Definition restartable (allowStopped : bool) (db : DB) (d : DeviceRow) (h : HostRow) : bool :=
  (lifecycle_is DeviceQuarantined d || (allowStopped && lifecycle_is DeviceStopped d))
  && bool_decide (h_status h = HostOnline) && negb (h_draining h) && in_android_pool (d_id d) db
  && negb (has_open_reservation (d_id d) db) && negb (has_live_session (d_id d) db)
  && negb (has_command (d_id d) in_flight db) && negb (already_restarted d db).

Definition find_restartable (deviceID : string) (allowStopped : bool) : Tx (option DeviceRow) :=
  db ← get_db;
  mret (match devices db !! deviceID with
        | Some d => match device_hosts db !! d_host_id d with
                    | Some h => if restartable allowStopped db d h then Some d else None
                    | None => None
                    end
        | None => None
        end).

Definition may_restart (allowStopped : bool) (latestManagementAction : string) (d : DeviceRow) : bool :=
  let reason := default "" (d_health_reason d) in
  String.eqb (d_platform d) "android"
  && negb (lifecycle_is DeviceQuarantined d
           && negb (String.eqb reason AgentReportedUnhealthyReason) && negb (IsSTFFailureReason reason))
  && negb (lifecycle_is DeviceStopped d && (negb allowStopped || String.eqb latestManagementAction "stop")).

(** [COALESCE(d.runtime_profile_override,i.resource_config,'{}')]. *)
Definition effective_profile (db : DB) (d : DeviceRow) : obj :=
  match d_runtime_profile_override d with
  | Some profile => profile
  | None => match d_image_id d with
            | Some image => match device_images db !! image with Some i => im_resource_config i | None => [] end
            | None => []
            end
  end.

Definition self_healing_reason : string := bytes
  [231;179;187;231;187;159;229;129;165;229;186;183;230;163;128;230;159;165;230;140;129;231;187;173;229;164;177;232;180;165;
   239;188;140;233;157;158;231;160;180;229;157;143;233;135;141;229;144;175;229;142;159;232;174;190;229;164;135]%N.
Definition unexpected_stop_reason : string := bytes
  [230;180;187;229;138;168;232;174;190;229;164;135;230;177;160;228;184;173;231;154;132;32;65;110;100;114;111;105;100;32;
   230;168;161;230;139;159;229;153;168;230;132;143;229;164;150;229;129;156;230;173;162;239;188;140;231;179;187;231;187;159;
   232;135;170;229;138;168;233;157;158;231;160;180;229;157;143;233;135;141;229;144;175;229;142;159;232;174;190;229;164;135]%N.

Definition restart_payload (d : DeviceRow) (state : DeviceLifecycleStatus) (profile : obj) : obj :=
  [("operation_source", JStr "self_healing"); ("operation_state", JStr (status_string state)); ("device_id", JStr (d_id d));
   ("host_id", JStr (d_host_id d)); ("provider_ref", JStr (d_provider_ref d));
   ("previous_reason", JStr (default "" (d_health_reason d))); ("runtime_profile", JObj profile)].

(** The health event and the audit of a queued restart. *)
Definition restart_key (commandID : string) : string := ("self-heal-restart-" ++ commandID)%string.

Definition record_restart (deviceID commandID reason : string) (previous : json) (now : Z) : Tx bool :=
  let payload := [("command_id", JStr commandID); ("previous_reason", previous)] in
  eventID ← newID;
  _ ← insert_health_event eventID deviceID "reconciler" "self_healing_restart_queued" "warning" reason payload now;
  auditID ← newID;
  _ ← insert_audit auditID "system" "system" "restart_device_self_healing" "device" deviceID (restart_key commandID) reason payload;
  mret true.

Definition restart_tx (deviceID : string) (allowStopped : bool) : Tx bool :=
  found ← find_restartable deviceID allowStopped;
  match found with
  | None => mret false
  | Some d =>
    db ← get_db;
    if negb (may_restart allowStopped (latest_management_action deviceID db) d) then mret false
    else
      now ← ClockNow;
      aggregate ← lift_result (RestoreDevice deviceID (d_lifecycle d) (d_health d));
      let stopped := lifecycle_is DeviceStopped d in
      let reason := if stopped then unexpected_stop_reason else self_healing_reason in
      let previous := JStr (default "" (d_health_reason d)) in
      a ← ensure_health aggregate HealthUnknown reason now;
      a ← apply_call (Transition a (if stopped then DeviceBooting else DeviceProvisioning) reason now);
      commandID ← newID;
      _ ← insert_command (mkCreateCommand commandID (d_host_id d) "restart"
            (restart_payload d (Lifecycle a) (effective_profile db d)) 3 (restart_key commandID));
      _ ← save_device deviceID (lifecycle_is (d_lifecycle d))
            (fun row => row <| d_lifecycle := Lifecycle a |> <| d_health := Health a |> <| d_health_reason := Some reason |>
                            <| d_updated_at := now |>);
      record_restart deviceID commandID reason previous now
  end.

Definition queueRestart (deviceID : string) (allowStopped : bool) : Tx bool := WithinTx (restart_tx deviceID allowStopped).
Definition queueSelfHealingRestart (deviceID : string) : Tx bool := queueRestart deviceID false.
Definition queueUnexpectedStoppedRestart (deviceID : string) : Tx bool := queueRestart deviceID true.

(** ** The cycle *)
Definition operation_reason : string := bytes
  [231;174;161;231;144;134;229;145;189;228;187;164;230;137;167;232;161;140;228;184;173;239;188;140;229;129;165;229;186;183;
   232;167;130;230;181;139;228;184;141;232;174;161;229;133;165;229;164;177;232;180;165]%N.

(** An input of the reconciler before its branch is chosen. *)
Definition blank_input (observedAt : Z) : EventInput := mkEventInput "reconciler" "" "" "" observedAt [] false false false.

Definition event (i : EventInput) (eventType severity reason : string) : EventInput :=
  i <| ei_EventType := eventType |> <| ei_Severity := severity |> <| ei_Reason := reason |>.

Definition suppressed (i : EventInput) : EventInput := i <| ei_SuppressFailureCount := true |> <| ei_SuppressQuarantine := true |>.

Definition usesAndroidHealthChain (device : DeviceState) : bool :=
  String.eqb (st_Platform device) "" || String.eqb (st_Platform device) "android".

(** The outcome of a visibility probe as an event. *)
Definition not_visible (i : EventInput) (probe : result string bool) : EventInput :=
  event i "stf_not_visible" "error"
    (match probe with Fail text => text | Ok _ => "device is not visible through STF" end).

Definition sees (probe : result string bool) : bool := match probe with Ok visible => visible | Fail _ => false end.

Definition inspected (config : Config) (device : DeviceState) (i : EventInput) (health : result ProviderError ProviderHealth) : EventInput :=
  match health with
  | Fail e => if String.eqb (pe_Code e) "PROVIDER_DEVICE_NOT_FOUND"
              then event i "provider_device_missing" "critical" (pe_Text e) <| ei_ForceQuarantine := true |>
              else event i "provider_health_failed" "error" (pe_Text e)
  | Ok h =>
    if negb (Ready h) then event i "provider_not_ready" "error" "provider device is not fully ready"
    else match cf_visibility config with
         | Some visible => let probe := visible (st_Serial device) in
                           if sees probe then event i "health_recovered" "info" "provider, ADB, boot and Appium checks passed"
                           else not_visible i probe
         | None => event i "health_recovered" "info" "provider, ADB, boot and Appium checks passed"
         end
  end.

(** A device that its agent reports as not healthy. *)
Definition agent_reported (device : DeviceState) (i : EventInput) : option EventInput :=
  if negb (bool_decide (st_Health device = HealthHealthy)) && schedulableLifecycle (st_Lifecycle device) then
    Some (if String.eqb (st_Platform device) "ios"
          then suppressed (event i "ios_automation_stabilizing" "warning" AgentReportedUnhealthyReason)
          else event i "agent_reported_unhealthy" "error" AgentReportedUnhealthyReason)
  else None.

(** The observation of a device without operation in flight; [None]: nothing to report. *)
Definition observation (config : Config) (device : DeviceState) (now : Z) : option EventInput :=
  let i := blank_input now in
  let schedulable := schedulableLifecycle (st_Lifecycle device) in
  if negb (bool_decide (st_HostStatus device = HostOnline)) then
    if withinHostRecoveryGrace config device now then
      if bool_decide (st_HostStatus device = HostOffline) then None
      else Some (suppressed (event i "host_unavailable" "warning" HostUnavailableReason))
    else Some (event i "host_unavailable" "warning" HostUnavailableReason)
  else if usesAndroidHealthChain device && bool_decide (is_Some (cf_visibility config)) && schedulable
          && withinVisibilityGrace config device now
  then Some (suppressed (event i "stf_stabilizing" "error" STFReadinessStabilizationReason))
  else match cf_provider config, cf_visibility config with
  | Some inspect, _ =>
    if usesAndroidHealthChain device then Some (inspected config device i (inspect (st_ProviderRef device)))
    else agent_reported device i
  | None, Some visible =>
    if usesAndroidHealthChain device && schedulable
       && (bool_decide (st_Health device = HealthHealthy) || IsSTFFailureReason (st_HealthReason device))
    then let probe := visible (st_Serial device) in
         if sees probe then
           if bool_decide (st_Health device = HealthHealthy) && (st_ConsecutiveFailures device =? 0) then None
           else Some (event i "health_recovered" "info" "STF visibility recovered")
         else Some (not_visible i probe)
    else agent_reported device i
  | None, None => agent_reported device i
  end.

(** Failures of STF just after provisioning, or of a recent outage, are tolerated. *)
Definition tolerated (config : Config) (device : DeviceState) (i : EventInput) : EventInput :=
  if String.eqb (ei_EventType i) "stf_not_visible" then
    if withinVisibilityGrace config device (ei_ObservedAt i) then suppressed i
    else if withinSTFOutageGrace config device (ei_ObservedAt i) then i <| ei_SuppressQuarantine := true |>
    else i
  else i.

(** The same event was recorded during the last minute. *)
Definition recentlyRecorded (device : DeviceState) (i : EventInput) : Tx bool :=
  now ← ClockNow;
  db ← get_db;
  mret (existsb (fun e => String.eqb (e_device_id e) (st_ID device) && String.eqb (e_event_type e) (ei_EventType i)
          && String.eqb (e_reason e) (ei_Reason i) && (now - Minute <=? e_observed_at e)) (device_health_events db)).

(** Go's [if err != nil { return result, err }]: the result so far goes with the error. *)
Definition outcome_of : Type := Result * option Err.
Definition try_with {A} (result : Result) (m : Tx A) (k : A -> Tx outcome_of) : Tx outcome_of :=
  r ← attempt m;
  match r with
  | Ok a => k a
  | Fail e => mret (result, Some e)
  end.

Definition report_observation (config : Config) (device : DeviceState) (result : Result) (i : EventInput) : Tx outcome_of :=
  try_with result (if ei_SuppressFailureCount i && ei_SuppressQuarantine i then recentlyRecorded device i else mret false)
    (fun recent : bool =>
     if recent then mret (result, None)
     else try_with result (Report config (st_ID device) i) (fun _ =>
       let result := result <| re_EventsRecorded := re_EventsRecorded result + 1 |> in
       if bool_decide (st_Lifecycle device = DeviceQuarantined) then mret (result, None)
       else try_with result (found ← getDevice (st_ID device); expect_row found RecErrNotFound) (fun updated =>
         mret (if bool_decide (st_Lifecycle updated = DeviceQuarantined)
               then result <| re_DevicesQuarantined := re_DevicesQuarantined result + 1 |> else result, None)))).

Definition restarted (result : Result) (queued : bool) : Tx outcome_of :=
  mret (if queued then result <| re_RestartsQueued := re_RestartsQueued result + 1 |> else result, None).

Definition reconcile_quarantined (config : Config) (device : DeviceState) (result : Result) : Tx outcome_of :=
  if negb (String.eqb (st_Platform device) "android") || negb (IsSystemRecoverableHealthReason (st_HealthReason device))
  then mret (result, None)
  else if IsSTFFailureReason (st_HealthReason device)
          && match cf_visibility config with Some visible => sees (visible (st_Serial device)) | None => false end then
    now ← ProcessNow;
    try_with result (Report config (st_ID device) (event (blank_input now) "health_recovered" "info" "STF visibility recovered"))
      (fun _ => mret (result <| re_DevicesChecked := re_DevicesChecked result + 1 |>
                             <| re_EventsRecorded := re_EventsRecorded result + 1 |>
                             <| re_DevicesRecovered := re_DevicesRecovered result + 1 |>, None))
  else try_with result (queueSelfHealingRestart (st_ID device)) (restarted result).

(** One turn of the loop of [RunOnce] over the devices. *)
Definition reconcile_device (config : Config) (device : DeviceState) (result : Result) : Tx outcome_of :=
  let at_ l := bool_decide (st_Lifecycle device = l) in
  let in_flight := st_OperationInFlight device in
  let deleting := st_DeletionInFlight device in
  if at_ DeviceDeleted || at_ DeviceRecycling then mret (result, None)
  else if at_ DeviceStopped && String.eqb (st_Platform device) "android" && bool_decide (st_HostStatus device = HostOnline)
          && negb in_flight && negb deleting
  then try_with result (queueUnexpectedStoppedRestart (st_ID device)) (restarted result)
  else if at_ DeviceQuarantined then reconcile_quarantined config device result
  else if in_flight && (at_ DeviceProvisioning || at_ DeviceBooting) then mret (result, None)
  else if deleting then mret (result, None)
  else
    let result := result <| re_DevicesChecked := re_DevicesChecked result + 1 |> in
    now ← ProcessNow;
    if in_flight then
      let i := suppressed (event (blank_input now) "operation_stabilizing" "warning" operation_reason) in
      try_with result (recentlyRecorded device i) (fun recent : bool =>
        if recent then mret (result, None)
        else try_with result (Report config (st_ID device) i)
               (fun _ => mret (result <| re_EventsRecorded := re_EventsRecorded result + 1 |>, None)))
    else
      match observation config device now with
      | None => mret (result, None)
      | Some i => report_observation config device result (tolerated config device i)
      end.

Fixpoint reconcile_devices (config : Config) (devices : list DeviceState) (result : Result) : Tx outcome_of :=
  match devices with
  | [] => mret (result, None)
  | device :: rest =>
    r ← reconcile_device config device result;
    match r with
    | (result', None) => reconcile_devices config rest result'
    | (result', Some e) => mret (result', Some e)
    end
  end.

(** ** Hosts whose heartbeat timed out *)
Definition stale_host (now hostTimeout : Z) (h : HostRow) : bool :=
  bool_decide (h_status h = HostOnline)
  && (default (h_created_at h) (h_last_heartbeat_at h) <? now - duration_seconds hostTimeout * Second).

Definition offline_tx (id : string) (hostTimeout : Z) : Tx Z :=
  now ← ClockNow;
  db ← get_db;
  match device_hosts db !! id with
  | Some h =>
    if stale_host now hostTimeout h then
      host ← lift_result (RestoreHost id (h_status h));
      _ ← apply_call (transition host HostOffline "host heartbeat timed out" now);
      _ ← put_db (fun db => db <| device_hosts :=
            <[id := h <| h_status := HostOffline |> <| h_draining := false |> <| h_updated_at := now |>]> (device_hosts db) |>);
      mret 1
    else mret 0
  | None => mret 0
  end.

Fixpoint mark_offline (ids : list string) (hostTimeout count : Z) : Tx Z :=
  match ids with
  | [] => mret count
  | id :: rest => n ← WithinTx (offline_tx id hostTimeout); mark_offline rest hostTimeout (count + n)
  end.

Definition markStaleHostsOffline (hostTimeout : Z) : Tx Z :=
  now ← ClockNow;
  db ← get_db;
  mark_offline (map h_id (order_by (fun h => (0, h_id h))
    (filter (fun h => stale_host now hostTimeout h = true) (rows (device_hosts db))))) hostTimeout 0.

(** The result counts what was done before an error. *)
Definition RunOnce (config : Config) (hostTimeout : Z) : Tx outcome_of :=
  _ ← guard_or (0 <? hostTimeout) RecErrInvalidArgument;
  offlineCount ← markStaleHostsOffline hostTimeout;
  devices ← listDevices;
  reconcile_devices config devices (no_result <| re_HostsMarkedOffline := offlineCount |>).
