(* ===== verification/Providers.v ===== *)
(** * Device providers ([internal/providers])

    What a provider is asked and answers, the contexts that bound its operations in time,
    the errors of Go as far as the callers look into them, and the interface [Provider] of
    the code as the class [DeviceProvider]: an operation takes a context and an instant
    and changes the state of the provider.  The laws of the class [LawfulProvider] are
    what the host agent relies on. *)
From Stdlib Require Import SpecFloat.
From S2P Require Import Prelude GoText Json Float64 RuntimeProfile Reconcile.

(** ** Errors

    The operation, the code, whether it may be retried and the cause of a [*Error]; the
    texts of messages are not modelled, nothing depends on them. *)
Inductive GoError : Type :=
  | ProviderErr (operation code : string) (retryable : bool) (cause : option GoError)
  | PlainErr (text : string)
  | WrappedErr (prefix : string) (cause : GoError)
  | JoinedErr (first second : GoError)
  | Canceled
  | DeadlineExceeded.

(** [errors.Join] of two errors that may be nil. *)
Definition errors_join (a b : option GoError) : option GoError :=
  match a, b with
  | Some x, Some y => Some (JoinedErr x y)
  | Some x, None | None, Some x => Some x
  | None, None => None
  end.

(** [errors.As(err, &providerError)]: the code and [Retryable] of the first one. *)
Fixpoint as_provider_error (e : GoError) : option (string * bool) :=
  match e with
  | ProviderErr _ code retryable _ => Some (code, retryable)
  | WrappedErr _ cause => as_provider_error cause
  | JoinedErr a b => match as_provider_error a with Some x => Some x | None => as_provider_error b end
  | PlainErr _ | Canceled | DeadlineExceeded => None
  end.

Definition ErrorCode (e : GoError) : string := match as_provider_error e with Some (code, _) => code | None => "" end.

(** ** Data *)
Inductive ProviderState : Type := StateCreated | StateRunning | StateStopped.
#[export] Instance ProviderState_eq : EqDecision ProviderState.
Proof. solve_decision. Defined.

Definition state_string (s : ProviderState) : string :=
  match s with StateCreated => "created" | StateRunning => "running" | StateStopped => "stopped" end.

(** A nil map of capabilities is [None]. *)
Record CreateRequest : Type := mkCreateRequest {
  cr_DeviceID : string; cr_HostID : string; cr_ImageID : string; cr_Platform : string; cr_DeviceKind : string;
  cr_RuntimeImage : string; cr_ProviderRef : string; cr_Serial : string; cr_Capabilities : option obj; cr_RuntimeProfile : Profile }.
#[export] Instance eta_CreateRequest : Eta CreateRequest := fun r =>
  mkCreateRequest (cr_DeviceID r) (cr_HostID r) (cr_ImageID r) (cr_Platform r) (cr_DeviceKind r) (cr_RuntimeImage r)
    (cr_ProviderRef r) (cr_Serial r) (cr_Capabilities r) (cr_RuntimeProfile r).

Record ConnectionInfo : Type := mkConnectionInfo {
  co_Platform : string; co_Serial : string; co_DeviceUDID : string; co_ProviderID : string; co_ADBEndpoint : string;
  co_AppiumEndpoint : string; co_AppiumUDID : string }.
Definition no_connection : ConnectionInfo := mkConnectionInfo "" "" "" "" "" "" "".

Definition no_health : ProviderHealth := mkProviderHealth [] false false false false.

Record Snapshot : Type := mkSnapshot {
  sn_DeviceID : string; sn_HostID : string; sn_ImageID : string; sn_Platform : string; sn_DeviceKind : string;
  sn_ProviderRef : string; sn_State : ProviderState; sn_Generation : Z; sn_Capabilities : option obj;
  sn_RuntimeProfile : Profile; sn_Health : ProviderHealth; sn_Connection : ConnectionInfo }.
#[export] Instance eta_Snapshot : Eta Snapshot := fun s =>
  mkSnapshot (sn_DeviceID s) (sn_HostID s) (sn_ImageID s) (sn_Platform s) (sn_DeviceKind s) (sn_ProviderRef s) (sn_State s)
    (sn_Generation s) (sn_Capabilities s) (sn_RuntimeProfile s) (sn_Health s) (sn_Connection s).

Definition snapshot_ready (s : Snapshot) : bool := bool_decide (sn_State s = StateRunning) && Ready (sn_Health s).

(** [runtimeprofile.Profile{}], and the comparison with it. *)
Definition zero_profile : Profile := mkProfile (S754_zero false) 0 0 0 0 0 0 0 0 0 "".
Definition is_zero_profile (p : Profile) : bool :=
  f_eq (rp_ContainerCPUCores p) (S754_zero false)
  && forallb (Z.eqb 0) [rp_ContainerMemoryMB p; rp_GuestCPUCores p; rp_GuestMemoryMB p; rp_DataDiskMB p; rp_ImageDiskMB p;
                        rp_Width p; rp_Height p; rp_DensityDPI p; rp_VMHeapMB p]
  && String.eqb (rp_Graphics p) "".

(** ** Contexts

    The instants at which a context ends, by its deadline and by cancellation. *)
Record Context : Type := mkContext { cx_Deadline : option Z; cx_Cancel : option Z }.
Definition Background : Context := mkContext None None.

Definition earlier (a b : option Z) : option Z :=
  match a, b with Some x, Some y => Some (Z.min x y) | Some x, None | None, Some x => Some x | None, None => None end.

Definition WithTimeout (parent : Context) (now timeout : Z) : Context :=
  mkContext (earlier (cx_Deadline parent) (Some (now + timeout))) (cx_Cancel parent).

Definition done_at (ctx : Context) : option Z := earlier (cx_Deadline ctx) (cx_Cancel ctx).

(** [ctx.Err()] of a context that has ended. *)
Definition ctx_error (ctx : Context) : GoError :=
  match cx_Cancel ctx, cx_Deadline ctx with
  | Some c, Some d => if c <? d then Canceled else DeadlineExceeded
  | Some _, None => Canceled
  | None, _ => DeadlineExceeded
  end.

(** Wait for a timer or for the end of the context: the error and the instant. *)
Definition sleep (ctx : Context) (duration now : Z) : option GoError * Z :=
  if duration <=? 0 then (None, now)
  else match done_at ctx with
       | Some t => if t <=? now + duration then (Some (ctx_error ctx), Z.max now t) else (None, now + duration)
       | None => (None, now + duration)
       end.

(** ** The interface *)
Record World (P : Type) : Type := mkWorld { w_now : Z; w_provider : P }.
Arguments mkWorld {P}. Arguments w_now {P}. Arguments w_provider {P}.

Definition Op (P A : Type) : Type := M unit (World P) GoError A.

(** [Discover] and [RestartWithProfile] may return a value with an error.  The last three are the interfaces that
    the agent asserts of its provider: [ImageDigestVerifier], [RestartWithProfile] and
    [CleanupCreated]. *)
Class DeviceProvider (P : Type) : Type := {
  provider_discover : Context -> string -> Op P (list Snapshot * option GoError);
  provider_create : Context -> CreateRequest -> Op P Snapshot;
  provider_start : Context -> string -> Op P Snapshot;
  provider_stop : Context -> string -> Op P Snapshot;
  provider_restart : Context -> string -> Op P Snapshot;
  provider_rebuild : Context -> string -> Op P Snapshot;
  provider_delete : Context -> string -> Op P unit;
  provider_inspect : Context -> string -> Op P ProviderHealth;
  provider_connection : Context -> string -> Op P ConnectionInfo;
  provider_verify : option (Context -> string -> string -> Op P unit);
  provider_restart_with : option (Context -> string -> Profile -> Op P (Snapshot * option GoError));
  provider_cleanup : option (Context -> string -> Op P unit) }.

(** ** What is relied on *)

(** What a device was created from: [image] is the runtime image that the provider runs
    for a requested one, as a provider may trim it or have one of its own for a blank one. *)
Record Built : Type := mkBuilt { bu_DeviceID : string; bu_ImageID : string; bu_RuntimeImage : string }.
Definition built_of (image : string -> string) (r : CreateRequest) : Built :=
  mkBuilt (cr_DeviceID r) (cr_ImageID r) (image (cr_RuntimeImage r)).

(** The clock does not go back, the provider stays well formed, and what it holds before
    and after is related, on success by [done_] (with the value) and on failure by
    [failed]. *)
Abbreviation holdings := (gmap string Built).
Definition op_spec {P A} (ok : P -> Prop) (view : P -> holdings) (op : Op P A)
    (done_ : A -> holdings -> holdings -> Prop) (failed : holdings -> holdings -> Prop) : Prop :=
  forall w r w', ok (w_provider w) -> op tt w = (r, w') ->
    w_now w <= w_now w' /\ ok (w_provider w')
    /\ match r with
       | Ok a => done_ a (view (w_provider w)) (view (w_provider w'))
       | Fail _ => failed (view (w_provider w)) (view (w_provider w'))
       end.

Definition same_devices (h h' : holdings) : Prop := h' = h.
Definition same_besides (ref : string) (h h' : holdings) : Prop := delete ref h' = delete ref h.

(** An operation that leaves the devices as they are; one that returns the device and may
    lose it when it fails. *)
Definition quiet {P A} (ok : P -> Prop) (view : P -> holdings) (op : Op P A) : Prop := op_spec ok view op (fun _ => same_devices) same_devices.
Definition returns_device {P} (ok : P -> Prop) (view : P -> holdings) (ref : string) (failed : holdings -> holdings -> Prop)
    (op : Op P Snapshot) : Prop := op_spec ok view op (fun s h h' => sn_ProviderRef s = ref /\ h' = h) failed.

(** Creating takes a free reference, or finds the device that was created before from the
    same request; what fails half-way concerns no other device.  These laws are for
    providers that name a device as they are asked to; the provider of iOS simulators
    names them itself. *)
Class LawfulProvider (P : Type) `{DeviceProvider P} : Type := {
  provider_ok : P -> Prop;
  provider_view : P -> holdings;
  provider_image : string -> string;
  create_law ctx r : op_spec provider_ok provider_view (provider_create ctx r)
    (fun s h h' => default (built_of provider_image r) (h !! cr_ProviderRef r) = built_of provider_image r
                   /\ sn_ProviderRef s = cr_ProviderRef r
                   /\ h' = <[cr_ProviderRef r := built_of provider_image r]> h) (same_besides (cr_ProviderRef r));
  delete_law ctx ref : op_spec provider_ok provider_view (provider_delete ctx ref) (fun _ h h' => h' = delete ref h) (same_besides ref);
  cleanup_law f ctx ref : provider_cleanup = Some f ->
    op_spec provider_ok provider_view (f ctx ref) (fun _ h h' => h' = delete ref h) (same_besides ref);
  start_law ctx ref : returns_device provider_ok provider_view ref same_devices (provider_start ctx ref);
  stop_law ctx ref : returns_device provider_ok provider_view ref same_devices (provider_stop ctx ref);
  restart_law ctx ref : returns_device provider_ok provider_view ref same_devices (provider_restart ctx ref);
  rebuild_law ctx ref : returns_device provider_ok provider_view ref (same_besides ref) (provider_rebuild ctx ref);
  restart_with_law f ctx ref profile : provider_restart_with = Some f ->
    op_spec provider_ok provider_view (f ctx ref profile)
      (fun s h h' => match s.2 with None => sn_ProviderRef s.1 = ref /\ h' = h | Some _ => same_besides ref h h' end) (same_besides ref);
  discover_law ctx host : quiet provider_ok provider_view (provider_discover ctx host);
  inspect_law ctx ref : quiet provider_ok provider_view (provider_inspect ctx ref);
  connection_law ctx ref : quiet provider_ok provider_view (provider_connection ctx ref);
  verify_law f ctx image digest : provider_verify = Some f -> quiet provider_ok provider_view (f ctx image digest) }.

(** An operation that heeds the deadline of its context: it ends by the deadline, or by
    the instant of its call when that is later, up to some grace for what it cannot
    interrupt. *)
Definition heeds {P A} (grace : Z) (ctx : Context) (op : Op P A) : Prop :=
  forall w r w' d, cx_Deadline ctx = Some d -> op tt w = (r, w') -> w_now w' <= Z.max (w_now w) d + grace.

(** The calls that the wait for a device makes heed it. *)
Class PromptProvider (P : Type) `{DeviceProvider P} : Type := {
  provider_grace : Z;
  grace_nonneg : 0 <= provider_grace;
  inspect_heeds ctx ref : heeds provider_grace ctx (provider_inspect ctx ref);
  connection_heeds ctx ref : heeds provider_grace ctx (provider_connection ctx ref) }.

Lemma done_by ctx d : cx_Deadline ctx = Some d -> exists t, done_at ctx = Some t /\ t <= d.
Proof. unfold done_at. intros ->. destruct (cx_Cancel ctx); cbn; eexists; (split; [done|lia]). Qed.

Lemma sleep_heeds ctx duration now d : cx_Deadline ctx = Some d -> (sleep ctx duration now).2 <= Z.max now d.
Proof.
  intros (t & Et & Ht)%done_by. unfold sleep. rewrite Et.
  destruct (duration <=? 0); [cbn; lia|]. destruct (t <=? now + duration) eqn:E; cbn; lia.
Qed.

Lemma sleep_forward ctx duration now : now <= (sleep ctx duration now).2.
Proof. unfold sleep. destruct (duration <=? 0) eqn:E; [cbn; lia|]. destruct (done_at ctx) as [t|]; [destruct (t <=? now + duration)|]; cbn; lia. Qed.
