(* ===== verification/MockProvider.v ===== *)
(** * The mock provider ([internal/providers/mock])

    Devices in memory, with the failures of a scenario.  The sleeper is the real one; the
    locks need no code.  It is an instance of [DeviceProvider], and its laws hold. *)
From Stdlib Require Import SpecFloat.
From S2P Require Import Prelude GoText Json Float64 RuntimeProfile Reconcile Providers.

Record Scenario : Type := mkScenario {
  sc_Delays : gmap string Z; sc_CreateFailure : bool; sc_StartFailure : bool; sc_Offline : bool; sc_BootTimeout : bool;
  sc_AppiumUnhealthy : bool; sc_DeleteFailure : bool }.

Record MockDevice : Type := mkMockDevice {
  md_request : CreateRequest; md_state : ProviderState; md_generation : Z; md_connection : ConnectionInfo }.
#[export] Instance eta_MockDevice : Eta MockDevice := fun d =>
  mkMockDevice (md_request d) (md_state d) (md_generation d) (md_connection d).

Record Mock : Type := mkMock {
  mp_devices : gmap string MockDevice; mp_nextPortOffset : Z; mp_baseADBPort : Z; mp_baseAppiumPort : Z;
  mp_sharedAppiumEndpoint : string; mp_scenario : Scenario }.
#[export] Instance eta_Mock : Eta Mock := fun p =>
  mkMock (mp_devices p) (mp_nextPortOffset p) (mp_baseADBPort p) (mp_baseAppiumPort p) (mp_sharedAppiumEndpoint p) (mp_scenario p).

(** [New]; 0 and the empty text are the fields that the configuration leaves out. *)
Definition NewMock (baseADBPort baseAppiumPort : Z) (sharedAppiumEndpoint : string) (scenario : Scenario) : Mock :=
  mkMock ∅ 0 (if baseADBPort =? 0 then 5555 else baseADBPort) (if baseAppiumPort =? 0 then 4723 else baseAppiumPort)
    sharedAppiumEndpoint scenario.

Definition SetScenario (scenario : Scenario) (p : Mock) : Mock := p <| mp_scenario := scenario |>.

Definition providerError (operation code : string) (retryable : bool) (cause : option GoError) : GoError :=
  ProviderErr operation code retryable cause.

(** ** Access to the state *)
Definition get_mock : Op Mock Mock := gets w_provider.
Definition put_mock (f : Mock -> Mock) : Op Mock unit := modify (fun w => mkWorld (w_now w) (f (w_provider w))).
Definition mock_fail {A} (operation code : string) (retryable : bool) : Op Mock A := fail (providerError operation code retryable None).
Definition mock_guard (b : bool) (operation code : string) (retryable : bool) : Op Mock unit :=
  guard_or b (providerError operation code retryable None).

Definition is_deadline (e : GoError) : bool := match e with DeadlineExceeded => true | _ => false end.

(** The delay of the operation. *)
Definition delayed (ctx : Context) (operation : string) : Op Mock unit := fun _ w =>
  let '(err, now) := sleep ctx (default 0 (sc_Delays (mp_scenario (w_provider w)) !! operation)) (w_now w) in
  let w' := mkWorld now (w_provider w) in
  match err with
  | None => (Ok tt, w')
  | Some e => (Fail (providerError operation (if is_deadline e then "PROVIDER_OPERATION_TIMEOUT" else "PROVIDER_OPERATION_CANCELED") true (Some e)), w')
  end.

Definition deviceLocked (operation providerRef : string) (p : Mock) : Op Mock MockDevice :=
  match mp_devices p !! providerRef with
  | Some d => mret d
  | None => mock_fail operation "PROVIDER_DEVICE_NOT_FOUND" false
  end.

Definition mock_ios (platform : string) : bool := String.eqb platform "ios".

(** ** Health *)
Definition iosHealthLocked (s : Scenario) : ProviderHealth :=
  let os_ready := if sc_BootTimeout s then "failed"%string else "passed"%string in
  let router := if sc_AppiumUnhealthy s then "failed"%string else "passed"%string in
  mkProviderHealth [("transport", "passed"); ("os_ready", os_ready); ("automation", "passed"); ("router", router);
                    ("remote_control", "unsupported")]%string
    true false (negb (sc_BootTimeout s)) (negb (sc_AppiumUnhealthy s)).

Definition iosHealthErrorLocked (s : Scenario) : option string :=
  if sc_BootTimeout s then Some "DEVICE_BOOT_TIMEOUT"%string
  else if sc_AppiumUnhealthy s then Some "APPIUM_UNHEALTHY"%string else None.

Definition snapshotLocked (p : Mock) (d : MockDevice) : Snapshot :=
  let r := md_request d in
  let s := mp_scenario p in
  let health := if bool_decide (md_state d = StateRunning) && negb (sc_Offline s)
                then if mock_ios (cr_Platform r) then iosHealthLocked s
                     else mkProviderHealth [] true true (negb (sc_BootTimeout s)) (negb (sc_BootTimeout s) && negb (sc_AppiumUnhealthy s))
                else no_health in
  mkSnapshot (cr_DeviceID r) (cr_HostID r) (cr_ImageID r) (cr_Platform r) "" (cr_ProviderRef r) (md_state d) (md_generation d)
    (cr_Capabilities r) (cr_RuntimeProfile r) health (md_connection d).

(** ** Operations *)
Definition mock_discover (ctx : Context) (hostID : string) : Op Mock (list Snapshot * option GoError) :=
  r ← attempt (delayed ctx "discover");
  p ← get_mock;
  match r with
  | Fail e => mret ([], Some e)
  | Ok _ =>
    if sc_Offline (mp_scenario p) then mret ([], Some (providerError "discover" "HOST_OFFLINE" true None))
    else mret (order_by (fun s => (0, sn_ProviderRef s))
                 (map (snapshotLocked p) (filter (fun d => cr_HostID (md_request d) = hostID) (map_to_list (mp_devices p)).*2)), None)
  end.

(** The request with its platform, its kind and, for Android, its profile. *)
Definition completed_request (r : CreateRequest) : CreateRequest :=
  let platform := if String.eqb (cr_Platform r) "" then "android"%string else cr_Platform r in
  let kind := if String.eqb (cr_DeviceKind r) "" then (if mock_ios platform then "simulator" else "emulator")%string else cr_DeviceKind r in
  r <| cr_Platform := platform |> <| cr_DeviceKind := kind |>.

Definition mock_android (platform : string) : bool := String.eqb platform "android".

Definition valid_request (r : CreateRequest) : bool :=
  negb (String.eqb (cr_DeviceID r) "" || String.eqb (cr_HostID r) "" || String.eqb (cr_ProviderRef r) ""
        || (mock_android (cr_Platform r) && String.eqb (cr_ImageID r) ""))
  && (mock_android (cr_Platform r) || mock_ios (cr_Platform r)).

Definition with_profile (r : CreateRequest) : CreateRequest :=
  if mock_android (cr_Platform r) && is_zero_profile (cr_RuntimeProfile r) then r <| cr_RuntimeProfile := Default |> else r.

Definition with_serial (r : CreateRequest) : CreateRequest :=
  if String.eqb (cr_Serial r) "" then r <| cr_Serial := ("mock-" ++ cr_ProviderRef r)%string |> else r.

(** The connection of the device that takes the next ports. *)
Definition mock_connection (p : Mock) (r : CreateRequest) : ConnectionInfo :=
  let offset := mp_nextPortOffset p in
  let adb := ("127.0.0.1:" ++ Z_text (mp_baseADBPort p + offset * 2))%string in
  let appium := ("http://127.0.0.1:" ++ Z_text (mp_baseAppiumPort p + offset))%string in
  let ios := mock_ios (cr_Platform r) in
  mkConnectionInfo (cr_Platform r) (cr_Serial r) (cr_Serial r) (cr_ProviderRef r) (if ios then "" else adb)
    (if ios && negb (String.eqb (mp_sharedAppiumEndpoint p) "") then mp_sharedAppiumEndpoint p else appium) (cr_Serial r).

Definition mock_create (ctx : Context) (request : CreateRequest) : Op Mock Snapshot :=
  _ ← delayed ctx "create";
  let r := completed_request request in
  _ ← mock_guard (valid_request r) "create" "INVALID_ARGUMENT" false;
  let r := with_profile r in
  _ ← mock_guard (negb (mock_android (cr_Platform r)) || Validate (cr_RuntimeProfile r)) "create" "INVALID_ARGUMENT" false;
  p ← get_mock;
  _ ← mock_guard (negb (sc_CreateFailure (mp_scenario p))) "create" "EMULATOR_CREATE_FAILED" true;
  _ ← mock_guard (negb (bool_decide (is_Some (mp_devices p !! cr_ProviderRef r)))) "create" "PROVIDER_REF_CONFLICT" false;
  let r := with_serial r in
  let d := mkMockDevice r StateCreated 1 (mock_connection p r) in
  _ ← put_mock (fun p => p <| mp_devices := <[cr_ProviderRef r := d]> (mp_devices p) |> <| mp_nextPortOffset := mp_nextPortOffset p + 1 |>);
  mret (snapshotLocked p d).

Definition put_mock_device (ref : string) (d : MockDevice) : Op Mock unit := put_mock (fun p => p <| mp_devices := <[ref := d]> (mp_devices p) |>).

Definition mock_start (ctx : Context) (ref : string) : Op Mock Snapshot :=
  _ ← delayed ctx "start";
  p ← get_mock;
  _ ← mock_guard (negb (sc_Offline (mp_scenario p))) "start" "HOST_OFFLINE" true;
  _ ← mock_guard (negb (sc_StartFailure (mp_scenario p))) "start" "EMULATOR_START_FAILED" true;
  d ← deviceLocked "start" ref p;
  let d := d <| md_state := StateRunning |> in
  _ ← put_mock_device ref d;
  mret (snapshotLocked p d).

Definition setState (operation : string) (state : ProviderState) (incrementGeneration : bool) (ctx : Context) (ref : string) : Op Mock Snapshot :=
  _ ← delayed ctx operation;
  p ← get_mock;
  _ ← mock_guard (negb (sc_Offline (mp_scenario p))) operation "HOST_OFFLINE" true;
  d ← deviceLocked operation ref p;
  let d := d <| md_state := state |> in
  let d := if incrementGeneration then d <| md_generation := md_generation d + 1 |> else d in
  _ ← put_mock_device ref d;
  mret (snapshotLocked p d).

Definition mock_stop : Context -> string -> Op Mock Snapshot := setState "stop" StateStopped false.
Definition mock_restart : Context -> string -> Op Mock Snapshot := setState "restart" StateRunning false.
Definition mock_rebuild : Context -> string -> Op Mock Snapshot := setState "rebuild" StateRunning true.

Definition mock_delete (ctx : Context) (ref : string) : Op Mock unit :=
  _ ← delayed ctx "delete";
  p ← get_mock;
  _ ← mock_guard (negb (sc_DeleteFailure (mp_scenario p))) "delete" "EMULATOR_DELETE_FAILED" true;
  put_mock (fun p => p <| mp_devices := delete ref (mp_devices p) |>).

Definition mock_inspect (ctx : Context) (ref : string) : Op Mock ProviderHealth :=
  let operation := "inspect_health"%string in
  _ ← delayed ctx operation;
  p ← get_mock;
  let s := mp_scenario p in
  d ← deviceLocked operation ref p;
  _ ← mock_guard (negb (sc_Offline s)) operation "DEVICE_OFFLINE" true;
  _ ← mock_guard (bool_decide (md_state d = StateRunning)) operation "DEVICE_NOT_RUNNING" true;
  if mock_ios (cr_Platform (md_request d)) then
    match iosHealthErrorLocked s with
    | Some code => mock_fail operation code true
    | None => mret (iosHealthLocked s)
    end
  else
    _ ← mock_guard (negb (sc_BootTimeout s)) operation "DEVICE_BOOT_TIMEOUT" true;
    _ ← mock_guard (negb (sc_AppiumUnhealthy s)) operation "APPIUM_UNHEALTHY" true;
    mret (mkProviderHealth [] true true true true).

Definition GetConnectionInfo (ctx : Context) (ref : string) : Op Mock ConnectionInfo :=
  _ ← delayed ctx "get_connection_info";
  p ← get_mock;
  d ← deviceLocked "get_connection_info" ref p;
  mret (md_connection d).

#[export] Instance mock_provider : DeviceProvider Mock := {
  provider_discover := mock_discover; provider_create := mock_create; provider_start := mock_start; provider_stop := mock_stop;
  provider_restart := mock_restart; provider_rebuild := mock_rebuild; provider_delete := mock_delete; provider_inspect := mock_inspect;
  provider_connection := GetConnectionInfo; provider_verify := None; provider_restart_with := None; provider_cleanup := None }.

(** ** The laws *)

(** Devices are stored under their references. *)
Definition mock_ok (p : Mock) : Prop := map_Forall (fun ref d => cr_ProviderRef (md_request d) = ref) (mp_devices p).
Definition mock_built (d : MockDevice) : Built := built_of id (md_request d).
Definition mock_view (p : Mock) : holdings := mock_built <$> mp_devices p.

Lemma before_spec ctx operation w r w' :
  delayed ctx operation tt w = (r, w') -> w_now w <= w_now w' /\ w_provider w' = w_provider w.
Proof.
  unfold delayed. pose proof (sleep_forward ctx (default 0 (sc_Delays (mp_scenario (w_provider w)) !! operation)) (w_now w)) as H.
  destruct (sleep _ _ _) as [[e|] now]; intros [= _ <-]; done.
Qed.

(** After its delay, an operation of the mock is a function of its state. *)
Lemma after_delay {A} ctx operation (f : unit -> Op Mock A) done_ failed :
  (forall h, failed h h) ->
  (forall w r w', mock_ok (w_provider w) -> f tt tt w = (r, w') ->
     w_now w' = w_now w /\ mock_ok (w_provider w')
     /\ match r with
        | Ok a => done_ a (mock_view (w_provider w)) (mock_view (w_provider w'))
        | Fail _ => failed (mock_view (w_provider w)) (mock_view (w_provider w'))
        end) ->
  op_spec mock_ok mock_view (delayed ctx operation ≫= f) done_ failed.
Proof.
  intros Hrefl Hf w r w' Hok H. unfold mbind, M_bind in H.
  destruct (delayed ctx operation tt w) as [[[]|e] w1] eqn:E; apply before_spec in E as [Ht Hp].
  - rewrite <-Hp in Hok. destruct (Hf _ _ _ Hok H) as (E1 & E2 & E3). rewrite Hp in E3. split; [lia|done].
  - injection H as <- <-. split; [done|]. rewrite Hp. done.
Qed.

Lemma view_put p ref d old : mp_devices p !! ref = Some old -> md_request d = md_request old ->
  same_devices (mock_view p) (mock_view (p <| mp_devices := <[ref := d]> (mp_devices p) |>)).
Proof.
  intros Ho Hd. unfold same_devices, mock_view. cbn. rewrite fmap_insert. apply insert_id.
  rewrite lookup_fmap, Ho. cbn. unfold mock_built. by rewrite Hd.
Qed.

Lemma ok_put p ref d : mock_ok p -> cr_ProviderRef (md_request d) = ref -> mock_ok (p <| mp_devices := <[ref := d]> (mp_devices p) |>).
Proof. intros Hp Hd. by apply map_Forall_insert_2. Qed.

Ltac mock_run H :=
  unfold put_mock_device, get_mock, put_mock, deviceLocked, mock_fail, mock_guard, guard_or, fail, gets, modify, mret, M_ret, mbind, M_bind in H;
  repeat (cbv beta zeta iota in H;
    match type of H with
    | context [match mp_devices ?p !! ?ref with _ => _ end] => let E := fresh "Hm" in destruct (mp_devices p !! ref) eqn:E
    | context [if ?b then _ else _] => let E := fresh "Hb" in destruct b eqn:E
    | context [match ?x with _ => _ end] => let E := fresh "Hm" in destruct x eqn:E
    end);
  simplify_eq.

Lemma mock_delete_law ctx ref : op_spec mock_ok mock_view (mock_delete ctx ref) (fun _ h h' => h' = delete ref h) (same_besides ref).
Proof.
  apply after_delay; [done|]. intros w r w' Hok H. mock_run H; [|done].
  split; [done|]. split; [by apply map_Forall_delete|]. unfold mock_view. cbn. by rewrite fmap_delete.
Qed.

Lemma completed_ref r : cr_ProviderRef (with_serial (with_profile (completed_request r))) = cr_ProviderRef r
  /\ built_of id (with_serial (with_profile (completed_request r))) = built_of id r.
Proof. unfold with_serial, with_profile. destruct (mock_android _ && _), (String.eqb _ _); done. Qed.

Lemma mock_create_law ctx r : op_spec mock_ok mock_view (mock_create ctx r)
  (fun s h h' => default (built_of id r) (h !! cr_ProviderRef r) = built_of id r /\ sn_ProviderRef s = cr_ProviderRef r
                 /\ h' = <[cr_ProviderRef r := built_of id r]> h) (same_besides (cr_ProviderRef r)).
Proof.
  apply after_delay; [done|]. intros w x w' Hok H.
  assert (cr_ProviderRef (with_profile (completed_request r)) = cr_ProviderRef r) as Ep by (unfold with_profile; by destruct (mock_android _ && _)).
  mock_run H; try done. cbn [w_now w_provider mp_devices]. rewrite Ep in *.
  match goal with E : negb (bool_decide (is_Some _)) = true |- _ => apply negb_true_iff, bool_decide_eq_false, eq_None_not_Some in E; rename E into Hnew end.
  destruct (completed_ref r) as [Er Eb]. split; [done|]. rewrite Er. split; [by apply ok_put|]. unfold mock_view.
  rewrite lookup_fmap, Hnew. split; [done|]. split; [exact Er|]. cbn. rewrite fmap_insert. unfold mock_built at 1. cbn. by rewrite Eb.
Qed.

Lemma mock_ok_lookup p ref d : mock_ok p -> mp_devices p !! ref = Some d -> cr_ProviderRef (md_request d) = ref.
Proof. intros Hp. apply Hp. Qed.

Lemma mock_start_law ctx ref : returns_device mock_ok mock_view ref same_devices (mock_start ctx ref).
Proof.
  apply after_delay; [done|]. intros w x w' Hok H. mock_run H; try done. pose proof (mock_ok_lookup _ _ _ Hok Hm) as Hr.
  split; [done|]. split; [by apply ok_put|]. split; [exact Hr|]. by eapply view_put.
Qed.

Lemma set_state_law operation state incr failed ctx ref : (forall h, failed h h) -> returns_device mock_ok mock_view ref failed (setState operation state incr ctx ref).
Proof.
  intros Hf. apply after_delay; [done|]. intros w x w' Hok H. destruct incr; mock_run H; try done; pose proof (mock_ok_lookup _ _ _ Hok Hm) as Hr;
    (split; [done|]; split; [by apply ok_put|]; split; [exact Hr|]; by eapply view_put).
Qed.

Lemma mock_inspect_law ctx ref : quiet mock_ok mock_view (mock_inspect ctx ref).
Proof. apply after_delay; [done|]. intros w x w' Hok H. mock_run H; done. Qed.

Lemma mock_connection_law ctx ref : quiet mock_ok mock_view (GetConnectionInfo ctx ref).
Proof. apply after_delay; [done|]. intros w x w' Hok H. mock_run H; done. Qed.

Lemma mock_discover_law ctx host : quiet mock_ok mock_view (mock_discover ctx host).
Proof.
  intros w r w' Hok H. unfold mock_discover, attempt, mbind, M_bind in H.
  destruct (delayed ctx "discover" tt w) as [x w1] eqn:E. apply before_spec in E as [Ht Hp].
  assert (w' = w1 /\ is_ok r = true) as [-> Hr] by (destruct x; mock_run H; done).
  split; [done|]. rewrite Hp. split; [done|]. by destruct r.
Qed.

#[export] Instance mock_lawful : LawfulProvider Mock := {
  provider_ok := mock_ok; provider_view := mock_view; provider_image := id; create_law := mock_create_law; delete_law := mock_delete_law;
  start_law := mock_start_law; stop_law ctx ref := set_state_law _ _ _ _ ctx ref (fun _ => eq_refl); restart_law ctx ref := set_state_law _ _ _ _ ctx ref (fun _ => eq_refl);
  rebuild_law ctx ref := set_state_law _ _ _ _ ctx ref (fun _ => eq_refl); discover_law := mock_discover_law; inspect_law := mock_inspect_law;
  connection_law := mock_connection_law;
  cleanup_law f ctx ref H := ltac:(discriminate H); restart_with_law f ctx ref profile H := ltac:(discriminate H);
  verify_law f ctx image digest H := ltac:(discriminate H) }.

(** ** The deadline *)
Lemma after_delay_heeds {A} ctx operation (f : unit -> Op Mock A) :
  (forall w r w', f tt tt w = (r, w') -> w_now w' = w_now w) -> heeds 0 ctx (delayed ctx operation ≫= f).
Proof.
  intros Hf w r w' d Hd H. unfold mbind, M_bind, delayed in H.
  pose proof (sleep_heeds ctx (default 0 (sc_Delays (mp_scenario (w_provider w)) !! operation)) (w_now w) d Hd) as Hs.
  destruct (sleep _ _ _) as [[e|] now]; cbn in Hs; [injection H as <- <-; cbn; lia|]. apply Hf in H. cbn in H. lia.
Qed.

Lemma mock_inspect_heeds ctx ref : heeds 0 ctx (mock_inspect ctx ref).
Proof. apply after_delay_heeds. intros w x w' H. mock_run H; done. Qed.
Lemma mock_connection_heeds ctx ref : heeds 0 ctx (GetConnectionInfo ctx ref).
Proof. apply after_delay_heeds. intros w x w' H. mock_run H; done. Qed.

#[export] Instance mock_prompt : PromptProvider Mock := {
  provider_grace := 0; grace_nonneg := Z.le_refl 0; inspect_heeds := mock_inspect_heeds; connection_heeds := mock_connection_heeds }.

(** ** The optional operations

    The mock has none of them.  That their laws can hold is shown by a provider in memory
    that offers them: the mock, with a verification that accepts every image, a restart
    that forgets the profile and a cleanup that deletes. *)
Definition full_provider : DeviceProvider Mock := {|
  provider_discover := mock_discover; provider_create := mock_create; provider_start := mock_start; provider_stop := mock_stop;
  provider_restart := mock_restart; provider_rebuild := mock_rebuild; provider_delete := mock_delete; provider_inspect := mock_inspect;
  provider_connection := GetConnectionInfo;
  provider_verify := Some (fun _ _ _ => mret tt);
  provider_restart_with := Some (fun ctx ref _ => s ← mock_restart ctx ref; mret (s, None));
  provider_cleanup := Some mock_delete |}.

Lemma full_restart_law ctx ref : op_spec mock_ok mock_view (s ← mock_restart ctx ref; mret (s, None : option GoError))
  (fun s h h' => match s.2 with None => sn_ProviderRef s.1 = ref /\ h' = h | Some _ => same_besides ref h h' end) (same_besides ref).
Proof.
  intros w r w' Hok H. unfold mbind at 1, M_bind at 1 in H. destruct (mock_restart ctx ref tt w) as [x w1] eqn:E.
  destruct (set_state_law "restart" StateRunning false (same_besides ref) ctx ref (fun _ => eq_refl) _ _ _ Hok E) as (Ht & Hok' & Hx).
  destruct x; injection H as <- <-; done.
Qed.

Definition full_lawful : @LawfulProvider Mock full_provider.
Proof.
  refine (@Build_LawfulProvider Mock full_provider mock_ok mock_view id mock_create_law mock_delete_law _ mock_start_law
    (fun ctx ref => set_state_law _ _ _ _ ctx ref (fun _ => eq_refl)) (fun ctx ref => set_state_law _ _ _ _ ctx ref (fun _ => eq_refl))
    (fun ctx ref => set_state_law _ _ _ _ ctx ref (fun _ => eq_refl)) _ mock_discover_law mock_inspect_law mock_connection_law _).
  - intros f ctx ref [= <-]. apply mock_delete_law.
  - intros f ctx ref profile [= <-]. apply full_restart_law.
  - intros f ctx image digest [= <-] w r w' Hok [= <- <-]. split; [cbn; lia|done].
Defined.
