(* ===== verification/DeviceOps.v ===== *)
(** * Operations of administrators on devices ([internal/management])

    Quarantining and releasing a device, restarting, rebuilding, reimaging, resizing and
    deleting it, starting and stopping a simulator: the methods of the service and the
    transactions of its PostgreSQL store.  A method reads the device, prepares an
    operation and queues it; the queueing transaction checks again that the device has
    the lifecycle and the health that were read. *)
From Stdlib Require Import SpecFloat Ascii.
From S2P Require Import Prelude GoText Errors Domain Json Sensitive Actor Store.
From S2P Require Import Float64 RuntimeProfile Capacity ReservationRepo CommandRepo DeviceStore Reconcile.

(** ** Data *)
Record DeviceAudit : Type := mkDeviceAudit {
  au_ID : string; au_ActorType : string; au_ActorID : string; au_Action : string; au_RequestID : string; au_Reason : string;
  au_DestructiveApproved : bool }.
#[export] Instance eta_DeviceAudit : Eta DeviceAudit := fun a =>
  mkDeviceAudit (au_ID a) (au_ActorType a) (au_ActorID a) (au_Action a) (au_RequestID a) (au_Reason a) (au_DestructiveApproved a).

(** [management.Device]: the row, and the profile that applies to it. *)
Record Device : Type := mkDevice { dv_row : DeviceRow; dv_EffectiveRuntimeProfile : obj }.

Record DeviceOperation : Type := mkDeviceOperation {
  op_CommandID : string; op_CommandType : string; op_IdempotencyKey : string; op_Payload : obj; op_MaxAttempts : Z;
  op_Device : DeviceRow; op_ExpectedLifecycle : DeviceLifecycleStatus; op_ExpectedHealth : HealthStatus;
  op_Audit : DeviceAudit; op_RequireNoActiveReservation : bool; op_RequireNoActiveCommand : bool;
  op_DisableMemberships : bool; op_ReducePoolTargets : bool; op_Reimage : bool; op_RuntimeProfileUpdate : bool;
  op_PendingImageID : string; op_PendingRuntimeProfile : obj }.

Record DeviceReimageInput : Type := mkReimageInput { ri_ImageID : string; ri_RuntimeProfile : obj; ri_Reason : string }.

Record DeviceRuntimeProfileUpdateInput : Type := mkProfileUpdateInput {
  pu_ContainerCPUCores : json; pu_ContainerMemoryMB : Z; pu_GuestCPUCores : Z; pu_GuestMemoryMB : Z; pu_Reason : string }.

(** ** Checks *)
Definition validAuditIdentity (value : string) : bool :=
  let value := TrimSpace value in
  negb (String.eqb value "" || (128 <? Z.of_nat (length (runes value))) || Contains value)
  && forallb (fun r => negb (IsControl r)) (runes value).

Definition validReason (reason : string) : bool :=
  let reason := TrimSpace reason in (3 <=? len reason) && (len reason <=? 500) && negb (Contains reason).

Definition deviceAudit (actor : Actor) (requestID action reason : string) : Tx DeviceAudit :=
  _ ← guard_or (Valid actor && validAuditIdentity (act_ID actor) && validAuditIdentity requestID && validReason reason)
        MgmtErrInvalidArgument;
  id ← newID;
  mret (mkDeviceAudit id (act_Type actor) (TrimSpace (act_ID actor)) action (TrimSpace requestID) (TrimSpace reason) false).

Definition NUL : string := bytes [0%N].

Definition digest_text (text : string) : Tx string := env_gets (fun env _ => env_digest env (JStr text)).

Definition operationCommandKey (action actorID idempotencyKey : string) : Tx string :=
  digest ← digest_text (TrimSpace actorID ++ NUL ++ action ++ NUL ++ TrimSpace idempotencyKey);
  mret ("management-" ++ String.substring 0 32 digest)%string.

Definition operationRequestHash (action deviceID reason : string) : Tx string :=
  digest_text (action ++ NUL ++ TrimSpace deviceID ++ NUL ++ TrimSpace reason).

Definition operationStructuredRequestHash (action deviceID : string) (value : json) : Tx string :=
  env_gets (fun env _ => env_digest env (JArr [JStr (action ++ NUL ++ TrimSpace deviceID ++ NUL)%string; value])).

(** [providers.ValidRuntimeImageReference]. *)
Definition starts_at (p s : string) (i : nat) : bool := HasPrefix (String.substring i (String.length s - i) s) p.

Definition LastIndex (s p : string) : option nat :=
  first_where (starts_at p s) (reverse (seq 0 (S (String.length s - String.length p)))).

Definition occurs (s p : string) : bool := bool_decide (is_Some (LastIndex s p)).

Definition suffix_from (s : string) (i : nat) : string := String.substring i (String.length s - i) s.

Definition hex_char (a : ascii) : bool := let n := N_of_ascii a in in_range 48 57 n || in_range 97 102 n.

Definition count_at (s : string) : nat := length (filter (fun b => b = 64%N) (string_bytes s)).

Definition ValidRuntimeImageReference (value : string) : bool :=
  let value := TrimSpace value in
  if String.eqb value "" || occurs value "://" then false
  else match LastIndex value "@sha256:" with
  | Some separator =>
    let digest := suffix_from value (separator + 8) in
    negb (bool_decide (separator = 0%nat)) && bool_decide (count_at value = 1%nat) && (len digest =? 64) && forall_chars hex_char digest
  | None =>
    if occurs value "@" then false
    else match LastIndex value ":" with
    | None => false
    | Some lastColon =>
      if match LastIndex value "/" with Some lastSlash => (lastColon <=? lastSlash)%nat | None => false end then false
      else let tag := TrimSpace (suffix_from value (lastColon + 1)) in
           negb (String.eqb tag "") && negb (String.eqb (ToLower tag) "latest")
    end
  end.

Example ValidRuntimeImageReference_examples :
  map ValidRuntimeImageReference ["repo/img:34"; "repo/img:latest"; "repo/img"; "host:5000/img"; "http://repo/img:1"; "a@b:1"]
  = [true; false; false; false; false; false].
Proof. vm_compute. reflexivity. Qed.

(** ** The store *)
Definition device_of (db : DB) (d : DeviceRow) : Device := mkDevice d (effective_profile db d).

Definition load_device (id : string) : Tx Device :=
  db ← get_db;
  match devices db !! id with
  | Some d => mret (device_of db d)
  | None => throw ErrNoRows
  end.

Definition GetDevice (id : string) : Tx Device := map_err rowError (load_device id).

Definition GetImage (id : string) : Tx ImageRow :=
  db ← get_db;
  match device_images db !! id with Some i => mret i | None => throw MgmtErrNotFound end.

Definition IsDevicePoolBase (deviceID : string) : Tx bool :=
  db ← get_db;
  mret (existsb (fun p => bool_decide (p_base_device_id p = Some deviceID)) (rows (device_pools db))).

(** [UPDATE devices SET ... WHERE id AND lifecycle_status AND health_status] with the new
    statuses and reason of [d]. *)
Definition in_statuses (l : DeviceLifecycleStatus) (h : HealthStatus) (row : DeviceRow) : bool :=
  lifecycle_is l row && bool_decide (d_health row = h).

Definition update_state_tx (d : DeviceRow) (oldLifecycle : DeviceLifecycleStatus) (oldHealth : HealthStatus) (audit : DeviceAudit)
    : Tx Device :=
  now ← ClockNow;
  n ← save_device (d_id d) (in_statuses oldLifecycle oldHealth)
        (fun row => row <| d_lifecycle := d_lifecycle d |> <| d_health := d_health d |> <| d_health_reason := d_health_reason d |>
           <| d_consecutive_failures := if lifecycle_is DeviceProvisioning d && bool_decide (d_health d = HealthUnknown)
                                        then 0 else d_consecutive_failures row |> <| d_updated_at := now |>);
  _ ← expect_one n MgmtErrConflict;
  value ← load_device (d_id d);
  _ ← insert_audit (au_ID audit) (au_ActorType audit) (au_ActorID audit) (au_Action audit) "device" (d_id d) (au_RequestID audit)
        (RedactText (au_Reason audit)) [];
  mret value.

Definition UpdateDeviceState (d : DeviceRow) (oldLifecycle : DeviceLifecycleStatus) (oldHealth : HealthStatus) (audit : DeviceAudit)
    : Tx Device := map_err rowError (WithinTx (update_state_tx d oldLifecycle oldHealth audit)).

Definition command_with_key (hostID key : string) (db : DB) : option CommandRecord :=
  first_where (command_key hostID key) (commands db).

Definition payload_value (payload : obj) (k : string) : option json := assoc k payload.

Definition same_value (a b : option json) : bool :=
  match a, b with
  | Some x, Some y => json_eqb x y
  | None, None => true
  | Some JNull, None | None, Some JNull => true
  | _, _ => false
  end.

Definition ReplayDeviceOperation (deviceID hostID key commandType requestHash : string) : Tx (option Device) :=
  db ← get_db;
  match command_with_key hostID key db with
  | None => mret None
  | Some c =>
    if String.eqb (c_CommandType c) commandType && same_value (payload_value (c_Payload c) "device_id") (Some (JStr deviceID))
       && same_value (payload_value (c_Payload c) "request_hash") (Some (JStr requestHash))
    then value ← GetDevice deviceID; mret (Some value)
    else throw MgmtErrConflict
  end.

Definition disable_memberships (deviceID : string) (now : Z) (db : DB) : DB :=
  db <| device_pool_devices := (fun pd => if String.eqb (pd_device_id pd) deviceID && pd_enabled pd
                                          then pd <| pd_enabled := false |> <| pd_updated_at := now |> else pd)
                               <$> device_pool_devices db |>.

Definition member_of (deviceID poolID : string) (db : DB) : bool :=
  existsb (fun pd => String.eqb (pd_pool_id pd) poolID && String.eqb (pd_device_id pd) deviceID) (rows (device_pool_devices db)).

Definition reduced_pool (now : Z) (p : PoolRow) : PoolRow :=
  let target := Z.max 0 (p_total_target p - 1) in
  p <| p_total_target := target |> <| p_min_ready := Z.min (p_min_ready p) target |>
    <| p_max_concurrency := Z.max 1 (Z.min (p_max_concurrency p) target) |> <| p_updated_at := now |>.

Definition reduce_pool_targets (deviceID : string) (now : Z) (db : DB) : DB :=
  db <| device_pools := (fun p => if member_of deviceID (p_id p) db then reduced_pool now p else p) <$> device_pools db |>.

(** The device as the operation leaves it. *)
Definition operated (op : DeviceOperation) (now : Z) (row : DeviceRow) : DeviceRow :=
  let row := row <| d_lifecycle := d_lifecycle (op_Device op) |> <| d_health := d_health (op_Device op) |>
                 <| d_health_reason := d_health_reason (op_Device op) |> <| d_updated_at := now |> in
  let row := if op_Reimage op
             then row <| d_pending_image_id := Some (op_PendingImageID op) |>
                      <| d_pending_runtime_profile := Some (op_PendingRuntimeProfile op) |>
                      <| d_reimage_status := "pending" |> <| d_reimage_error := None |>
             else row in
  if op_RuntimeProfileUpdate op
  then row <| d_pending_image_id := None |> <| d_pending_runtime_profile := Some (op_PendingRuntimeProfile op) |>
           <| d_runtime_profile_update_status := "pending" |> <| d_runtime_profile_update_error := None |>
  else row.

Definition expected (op : DeviceOperation) (row : DeviceRow) : bool :=
  String.eqb (d_host_id row) (d_host_id (op_Device op)) && String.eqb (d_provider_ref row) (d_provider_ref (op_Device op))
  && in_statuses (op_ExpectedLifecycle op) (op_ExpectedHealth op) row.

(** The device is free for the operation. *)
Definition unoccupied (op : DeviceOperation) (db : DB) : bool :=
  let id := d_id (op_Device op) in
  negb (op_RequireNoActiveCommand op && has_command id in_flight db)
  && negb (op_RequireNoActiveReservation op && has_open_reservation id db).

(** What the operation does besides the device: its memberships, the targets of its
    pools, the audit. *)
Definition finish_operation (op : DeviceOperation) (record : CommandRecord) (now : Z) : Tx Device :=
  let id := d_id (op_Device op) in
  value ← load_device id;
  _ ← (if op_DisableMemberships op then put_db (disable_memberships id now) else mret tt);
  _ ← (if op_ReducePoolTargets op then put_db (reduce_pool_targets id now) else mret tt);
  let audit := op_Audit op in
  _ ← insert_audit (au_ID audit) (au_ActorType audit) (au_ActorID audit) (au_Action audit) "device" id (au_RequestID audit)
        (RedactText (au_Reason audit)) [("command_id", JStr (c_ID record)); ("command_type", JStr (c_CommandType record))];
  mret value.

Definition queue_tx (op : DeviceOperation) : Tx Device :=
  let id := d_id (op_Device op) in
  let host := d_host_id (op_Device op) in
  db ← get_db;
  match command_with_key host (op_IdempotencyKey op) db with
  | Some c =>
    if String.eqb (c_CommandType c) (op_CommandType op)
       && same_value (payload_value (c_Payload c) "request_hash") (payload_value (op_Payload op) "request_hash")
    then load_device id else throw MgmtErrConflict
  | None =>
    _ ← guard_or (match devices db !! id with Some row => expected op row | None => false end) MgmtErrConflict;
    _ ← guard_or (unoccupied op db) MgmtErrConflict;
    record ← map_err (fun e => if errors_is e RepoErrIdempotencyConflict then MgmtErrConflict else e)
               (CreateCommand (mkCreateCommand (op_CommandID op) host (op_CommandType op) (RedactMap (op_Payload op))
                  (op_MaxAttempts op) (op_IdempotencyKey op)));
    if negb (String.eqb (c_ID record) (op_CommandID op)) then load_device id
    else
      now ← ClockNow;
      n ← save_device id (expected op) (operated op now);
      _ ← expect_one n MgmtErrConflict;
      finish_operation op record now
  end.

Definition QueueDeviceOperation (op : DeviceOperation) : Tx Device :=
  _ ← guard_or (negb (String.eqb (op_CommandID op) "" || String.eqb (op_CommandType op) "" || String.eqb (op_IdempotencyKey op) ""
                      || (op_MaxAttempts op <? 1) || String.eqb (d_id (op_Device op)) "" || String.eqb (d_host_id (op_Device op)) ""))
        MgmtErrInvalidArgument;
  map_err Errors.normalize (WithinTx (queue_tx op)).

(** ** Direct changes of state *)
Definition with_state (d : DeviceRow) (a : Domain.Device) : DeviceRow :=
  d <| d_lifecycle := Lifecycle a |> <| d_health := Health a |>.

(** The reason of the audit is not stored with the device. *)
Definition transitionDevice (id : string) (target : DeviceLifecycleStatus) (health : HealthStatus) (reason : string)
    (audit : DeviceAudit) : Tx Device :=
  _ ← guard_or (negb (blank reason)) MgmtErrInvalidArgument;
  current ← GetDevice id;
  let row := dv_row current in
  aggregate ← lift_result (RestoreDevice (d_id row) (d_lifecycle row) (d_health row));
  now ← ProcessNow;
  a ← apply_call (Transition aggregate target reason now);
  a ← ensure_health a health reason now;
  UpdateDeviceState (with_state row a) (d_lifecycle row) (d_health row) audit.

Definition QuarantineDeviceAudited (id reason : string) (actor : Actor) (requestID : string) : Tx Device :=
  event ← deviceAudit actor requestID "quarantine_device" reason;
  transitionDevice id DeviceQuarantined HealthUnhealthy reason event.

Definition UnquarantineDeviceAudited (id reason : string) (actor : Actor) (requestID : string) : Tx Device :=
  event ← deviceAudit actor requestID "unquarantine_device" reason;
  transitionDevice id DeviceProvisioning HealthUnknown reason event.

(** ** Queued operations *)
Definition operable (l : DeviceLifecycleStatus) : bool := bool_decide (l ∈ [DeviceReady; DeviceStopped; DeviceQuarantined]).

Definition not_operable (row : DeviceRow) (to : string) : Err :=
  TransitionError "device" (d_id row) "lifecycle_status" (status_string (d_lifecycle row)) to.

Definition too_short (key : string) : bool := len (TrimSpace key) <? 8.

(** The fields of the payload that every operation has. *)
Definition base_payload (row : DeviceRow) (state : DeviceLifecycleStatus) (requestHash : string) : obj :=
  [("operation_source", JStr "management"); ("operation_state", JStr (status_string state)); ("request_hash", JStr requestHash);
   ("device_id", JStr (d_id row)); ("host_id", JStr (d_host_id row)); ("provider_ref", JStr (d_provider_ref row))].

(** Health unknown, then the first lifecycle of the operation. *)
Definition begin_operation (row : DeviceRow) (target : DeviceLifecycleStatus) (reason : string) : Tx Domain.Device :=
  aggregate ← lift_result (RestoreDevice (d_id row) (d_lifecycle row) (d_health row));
  now ← ProcessNow;
  a ← ensure_health aggregate HealthUnknown reason now;
  apply_call (Transition a target reason now).

Definition operation (commandID commandType key : string) (attempts : Z) (payload : obj) (row : DeviceRow) (a : Domain.Device)
    (audit : DeviceAudit) (free : bool) : DeviceOperation :=
  mkDeviceOperation commandID commandType key payload attempts (with_state row a) (d_lifecycle row) (d_health row) audit
    free free false false false false "" [].

Definition stringPointer (value : string) : option string := if blank value then None else Some value.

Definition iosSimulatorLifecycle (id reason idempotencyKey op : string) (event : DeviceAudit) : Tx Device :=
  _ ← guard_or (negb (blank reason || too_short idempotencyKey || (negb (String.eqb op "start") && negb (String.eqb op "stop"))))
        MgmtErrInvalidArgument;
  current ← GetDevice id;
  let row := dv_row current in
  _ ← guard_or (String.eqb (d_platform row) "ios" && String.eqb (d_device_kind row) "simulator"
                && String.eqb (d_provider_type row) "appium_device_farm_ios") MgmtErrInvalidArgument;
  _ ← guard_or (match assoc "allowlisted" (d_capabilities row) with Some (JBool b) => b | _ => false end) MgmtErrInvalidArgument;
  let stop := String.eqb op "stop" in
  let wantFrom := if stop then DeviceReady else DeviceStopped in
  let target := if stop then DeviceStopped else DeviceBooting in
  commandKey ← operationCommandKey op (au_ActorID event) idempotencyKey;
  requestHash ← operationRequestHash op (d_id row) reason;
  replayed ← ReplayDeviceOperation (d_id row) (d_host_id row) commandKey op requestHash;
  match replayed with
  | Some value => mret value
  | None =>
    _ ← guard_or (bool_decide (d_lifecycle row = wantFrom)) (not_operable row (status_string target));
    a ← begin_operation row target reason;
    commandID ← newID;
    QueueDeviceOperation (operation commandID op commandKey 3 (base_payload row (Lifecycle a) requestHash)
      (row <| d_health_reason := stringPointer reason |>) a event true)
  end.

Definition StartDeviceAudited (id reason : string) (actor : Actor) (requestID key : string) : Tx Device :=
  event ← deviceAudit actor requestID "start_ios_simulator" reason; iosSimulatorLifecycle id reason key "start" event.
Definition StopDeviceAudited (id reason : string) (actor : Actor) (requestID key : string) : Tx Device :=
  event ← deviceAudit actor requestID "stop_ios_simulator" reason; iosSimulatorLifecycle id reason key "stop" event.

(** A restart is queued whether or not the device is reserved or has a command. *)
Definition restart_target (l : DeviceLifecycleStatus) : DeviceLifecycleStatus :=
  match l with DeviceQuarantined => DeviceProvisioning | DeviceStopped => DeviceBooting | _ => DeviceStopped end.

Definition restartDevice (id reason idempotencyKey : string) (audit : DeviceAudit) : Tx Device :=
  _ ← guard_or (negb (blank reason || too_short idempotencyKey)) MgmtErrInvalidArgument;
  current ← GetDevice id;
  let row := dv_row current in
  commandKey ← operationCommandKey "restart" (au_ActorID audit) idempotencyKey;
  requestHash ← operationRequestHash "restart" (d_id row) reason;
  replayed ← ReplayDeviceOperation (d_id row) (d_host_id row) commandKey "restart" requestHash;
  match replayed with
  | Some value => mret value
  | None =>
    _ ← guard_or (operable (d_lifecycle row)) (not_operable row "restart");
    a ← begin_operation row (restart_target (d_lifecycle row)) reason;
    commandID ← newID;
    QueueDeviceOperation (operation commandID "restart" commandKey 3
      (base_payload row (Lifecycle a) requestHash ++ [("runtime_profile", JObj (dv_EffectiveRuntimeProfile current))]) row a audit false)
  end.

Definition RestartDeviceAudited (id reason : string) (actor : Actor) (requestID key : string) : Tx Device :=
  event ← deviceAudit actor requestID "restart_device" reason; restartDevice id reason key event.

Definition or_invalid {A} (o : option A) : Tx A := match o with Some a => mret a | None => throw MgmtErrInvalidArgument end.

(** A profile whose document [json.Marshal] refuses makes the queueing fail. *)
Definition marshalled (p : Profile) : Tx obj :=
  if marshals p then mret (Map p) else throw (ErrExternal "json: unsupported value: NaN").

Definition rebuild_image_payload (current : Device) : Tx obj :=
  match d_image_id (dv_row current) with
  | None => mret []
  | Some imageID =>
    image ← GetImage imageID;
    _ ← guard_or (ValidRuntimeImageReference (im_docker_image image)) MgmtErrImageUnavailable;
    profile ← or_invalid (Parse (dv_EffectiveRuntimeProfile current));
    document ← marshalled profile;
    mret [("image_id", JStr imageID); ("docker_image", JStr (im_docker_image image)); ("docker_digest", JStr (im_docker_digest image));
          ("runtime_profile", JObj document)]
  end.

Definition rebuildDevice (id reason idempotencyKey : string) (audit : DeviceAudit) : Tx Device :=
  _ ← guard_or (negb (blank reason || too_short idempotencyKey)) MgmtErrInvalidArgument;
  current ← GetDevice id;
  let row := dv_row current in
  commandKey ← operationCommandKey "rebuild" (au_ActorID audit) idempotencyKey;
  requestHash ← operationRequestHash "rebuild" (d_id row) reason;
  replayed ← ReplayDeviceOperation (d_id row) (d_host_id row) commandKey "rebuild" requestHash;
  match replayed with
  | Some value => mret value
  | None =>
    _ ← guard_or (operable (d_lifecycle row)) (not_operable row (status_string DeviceProvisioning));
    a ← begin_operation row DeviceProvisioning reason;
    commandID ← newID;
    image ← rebuild_image_payload current;
    QueueDeviceOperation (operation commandID "rebuild" commandKey 3
      (base_payload row (Lifecycle a) requestHash ++ [("capabilities", JObj (d_capabilities row))] ++ image) row a audit true)
  end.

Definition RebuildDeviceAudited (id reason : string) (actor : Actor) (requestID key : string) : Tx Device :=
  event ← deviceAudit actor requestID "rebuild_device" reason; rebuildDevice id reason key event.

Definition deleteDevice (id reason idempotencyKey : string) (audit : DeviceAudit) : Tx Device :=
  _ ← guard_or (negb (blank reason || too_short idempotencyKey)) MgmtErrInvalidArgument;
  current ← GetDevice id;
  let row := dv_row current in
  base ← IsDevicePoolBase id;
  _ ← guard_or (negb base) MgmtErrConflict;
  commandKey ← operationCommandKey "delete" (au_ActorID audit) idempotencyKey;
  requestHash ← operationRequestHash "delete" (d_id row) reason;
  replayed ← ReplayDeviceOperation (d_id row) (d_host_id row) commandKey "delete" requestHash;
  match replayed with
  | Some value => mret value
  | None =>
    _ ← guard_or (operable (d_lifecycle row)) (not_operable row (status_string DeviceDeleted));
    commandID ← newID;
    QueueDeviceOperation (mkDeviceOperation commandID "delete" commandKey (base_payload row (d_lifecycle row) requestHash) 3
      (row <| d_health_reason := Some (TrimSpace reason) |>) (d_lifecycle row) (d_health row) audit true true true true false false "" [])
  end.

Definition DeleteDeviceAudited (id reason : string) (actor : Actor) (requestID key : string) : Tx Device :=
  event ← deviceAudit actor requestID "delete_device" reason; deleteDevice id reason key event.

(** ** Capacity for a replaced profile *)
Definition HeartbeatMaxAge : Z := 30 * Second.

Definition image_cached (hostID imageID : string) (db : DB) : bool :=
  existsb (fun d => String.eqb (d_host_id d) hostID && bool_decide (d_image_id d = Some imageID)
                    && negb (lifecycle_is DeviceDeleted d)) (rows (devices db))
  || existsb (fun c => String.eqb (c_HostID c) hostID && command_type_in ["validate_image"] c && command_is CommandSucceeded c
                       && payload_is "image_id" imageID c) (commands db).

Definition obj_field (o : obj) (k : string) : obj := match assoc k o with Some (JObj kvs) => kvs | _ => [] end.

(** The queued commands of the host for other devices that will take resources. *)
Definition pending_payloads (hostID deviceID : string) (db : DB) : list obj :=
  map c_Payload (filter (fun c => String.eqb (c_HostID c) hostID && in_flight c
    && command_type_in ["create"; "rebuild"; "validate_image"] c
    && negb (bool_decide (default "" (get_text (c_Payload c) "device_id") = deviceID)) = true) (commands db)).

Fixpoint pending_allocation (acc : Allocation) (payloads : list obj) : option Allocation :=
  match payloads with
  | [] => Some acc
  | payload :: rest =>
    p <-? Parse (obj_field payload "runtime_profile") ;;
    pending_allocation (mkAllocation (f_add (al_CPUCores acc) (rp_ContainerCPUCores p))
      (wrap64 (al_MemoryMB acc + rp_ContainerMemoryMB p))
      (wrap64 (al_DiskMB acc + (rp_DataDiskMB p + rp_ImageDiskMB p))) (al_Slots acc + 1)) rest
  end.

(** [maxFloat(0, x)]. *)
Definition positive_part (x : float64) : float64 := if f_lt x (S754_zero false) then S754_zero false else x.

(** What the host uses without the device that is replaced. *)
Definition used_without (used : obj) (current : Profile) : Allocation :=
  let get k := assoc k used in
  mkAllocation (positive_part (f_sub (number (get "cpu_cores")) (rp_ContainerCPUCores current)))
    (Z.max 0 (wrap64 (int_number (get "memory_mb") - rp_ContainerMemoryMB current)))
    (Z.max 0 (wrap64 (int_number (get "data_disk_mb") - rp_DataDiskMB current)))
    (Z.max 0 (wrap64 (int_number (get "device_slots") - 1))).

Definition freed (h : Host) (current : Profile) : Host :=
  h <| ch_MemoryAvailableMB := Z.min (ch_MemoryTotalMB h) (wrap64 (ch_MemoryAvailableMB h + rp_ContainerMemoryMB current)) |>
    <| ch_DiskAvailableMB := Z.min (ch_DiskTotalMB h) (wrap64 (ch_DiskAvailableMB h + rp_DataDiskMB current)) |>.

Definition recent (now : Z) (at_ : Z) : bool := now - at_ <=? HeartbeatMaxAge.

(** Whether the target profile fits; a host that reports fixed slots takes it always. *)
Definition CheckDeviceReplacementCapacity (device : DeviceRow) (current target : Profile) (imageID : string) : Tx bool :=
  db ← get_db;
  now ← ProcessNow;
  match device_hosts db !! d_host_id device with
  | None => throw MgmtErrNotFound
  | Some h =>
    _ ← guard_or (bool_decide (h_status h = HostOnline) && negb (h_draining h)
                  && match h_last_heartbeat_at h with Some at_ => recent now at_ | None => false end) MgmtErrHostUnavailable;
    match HostFromMap (h_capacity h) with
    | None => mret true
    | Some host =>
      _ ← guard_or (negb (IsZero (ch_CollectedAt host)) && recent now (ch_CollectedAt host)) MgmtErrHostUnavailable;
      pending ← or_invalid (pending_allocation no_allocation (pending_payloads (d_host_id device) (d_id device) db));
      mret (cr_Fits (Evaluate (freed host current) (used_without (h_used_capacity h) current) pending target
                       (image_cached (d_host_id device) imageID db)))
    end
  end.

(** ** Reimaging and resizing *)
Definition decimal (n : Z) : string := Z_text n.

Definition reimageCapabilities (current : obj) (image : ImageRow) (profile : Profile) : obj :=
  obj_merge (obj_merge current (Map profile))
    [("platformName", JStr "Android"); ("apiLevel", jint (im_api_level image)); ("abi", JStr (im_abi image));
     ("resolution", JStr (decimal (rp_Width profile) ++ "x" ++ decimal (rp_Height profile))%string)].

Definition reimage_input_json (input : DeviceReimageInput) : json :=
  JObj [("image_id", JStr (ri_ImageID input)); ("runtime_profile", JObj (ri_RuntimeProfile input)); ("reason", JStr (ri_Reason input))].

Definition ReimageDeviceAudited (id : string) (input : DeviceReimageInput) (actor : Actor) (requestID idempotencyKey : string)
    : Tx Device :=
  event ← deviceAudit actor requestID "reimage_device" (ri_Reason input);
  _ ← guard_or (negb (blank (ri_ImageID input) || too_short idempotencyKey)) MgmtErrInvalidArgument;
  targetProfile ← or_invalid (Parse (ri_RuntimeProfile input));
  current ← GetDevice id;
  let row := dv_row current in
  requestHash ← operationStructuredRequestHash "reimage" (d_id row) (reimage_input_json input);
  commandKey ← operationCommandKey "reimage" (au_ActorID event) idempotencyKey;
  replayed ← ReplayDeviceOperation (d_id row) (d_host_id row) commandKey "rebuild" requestHash;
  match replayed with
  | Some value => mret value
  | None =>
    _ ← guard_or (String.eqb (d_device_kind row) "emulator" && String.eqb (d_provider_type row) "docker_emulator") MgmtErrInvalidArgument;
    _ ← guard_or (operable (d_lifecycle row)) (not_operable row (status_string DeviceProvisioning));
    targetImage ← GetImage (TrimSpace (ri_ImageID input));
    _ ← guard_or (bool_decide (im_status targetImage = ImageReady) && ValidRuntimeImageReference (im_docker_image targetImage))
          MgmtErrImageUnavailable;
    currentProfile ← or_invalid (Parse (dv_EffectiveRuntimeProfile current));
    fits ← CheckDeviceReplacementCapacity row currentProfile targetProfile (im_id targetImage);
    _ ← guard_or fits MgmtCapacityError;
    oldImageID ← or_invalid (d_image_id row);
    oldImage ← GetImage oldImageID;
    a ← begin_operation row DeviceProvisioning (ri_Reason input);
    commandID ← newID;
    target ← marshalled targetProfile;
    previous ← marshalled currentProfile;
    let payload := base_payload row (Lifecycle a) requestHash ++
      [("operation_kind", JStr "reimage"); ("image_id", JStr (im_id targetImage)); ("docker_image", JStr (im_docker_image targetImage));
       ("docker_digest", JStr (im_docker_digest targetImage));
       ("capabilities", JObj (reimageCapabilities (d_capabilities row) targetImage targetProfile)); ("runtime_profile", JObj target);
       ("rollback", JObj [("image_id", JStr (im_id oldImage)); ("docker_image", JStr (im_docker_image oldImage));
          ("docker_digest", JStr (im_docker_digest oldImage)); ("runtime_profile", JObj previous);
          ("capabilities", JObj (d_capabilities row))])] in
    QueueDeviceOperation (mkDeviceOperation commandID "rebuild" commandKey payload 1 (with_state row a) (d_lifecycle row) (d_health row)
      event true true false false true false (im_id targetImage) target)
  end.

Definition profile_input_json (input : DeviceRuntimeProfileUpdateInput) : json :=
  JObj [("container_cpu_cores", pu_ContainerCPUCores input); ("container_memory_mb", jint (pu_ContainerMemoryMB input));
        ("guest_cpu_cores", jint (pu_GuestCPUCores input)); ("guest_memory_mb", jint (pu_GuestMemoryMB input));
        ("reason", JStr (pu_Reason input))].

Definition updated_values (current : Profile) (input : DeviceRuntimeProfileUpdateInput) : obj :=
  obj_merge (Map current)
    [("container_cpu_cores", pu_ContainerCPUCores input); ("container_memory_mb", jint (pu_ContainerMemoryMB input));
     ("guest_cpu_cores", jint (pu_GuestCPUCores input)); ("guest_memory_mb", jint (pu_GuestMemoryMB input))].

(** [reflect.DeepEqual] of the two documents: a NaN differs from itself. *)
Definition same_profile (a b : Profile) : bool :=
  marshals a && marshals b && json_eqb (JObj (Map a)) (JObj (Map b)).

Definition UpdateDeviceRuntimeProfileAudited (id : string) (input : DeviceRuntimeProfileUpdateInput) (actor : Actor)
    (requestID idempotencyKey : string) : Tx Device :=
  event ← deviceAudit actor requestID "update_device_runtime_profile" (pu_Reason input);
  _ ← guard_or (negb (too_short idempotencyKey)) MgmtErrInvalidArgument;
  current ← GetDevice id;
  let row := dv_row current in
  requestHash ← operationStructuredRequestHash "runtime_profile_update" (d_id row) (profile_input_json input);
  commandKey ← operationCommandKey "runtime-profile-update" (au_ActorID event) idempotencyKey;
  replayed ← ReplayDeviceOperation (d_id row) (d_host_id row) commandKey "restart" requestHash;
  match replayed with
  | Some value => mret value
  | None =>
    _ ← guard_or (String.eqb (d_platform row) "android" && String.eqb (d_device_kind row) "emulator"
                  && String.eqb (d_provider_type row) "docker_emulator" && bool_decide (is_Some (d_image_id row))) MgmtErrInvalidArgument;
    _ ← guard_or (operable (d_lifecycle row)) (not_operable row (status_string DeviceProvisioning));
    currentProfile ← or_invalid (Parse (dv_EffectiveRuntimeProfile current));
    targetProfile ← or_invalid (Parse (updated_values currentProfile input));
    if same_profile targetProfile currentProfile then mret current
    else
      fits ← CheckDeviceReplacementCapacity row currentProfile targetProfile (default "" (d_image_id row));
      _ ← guard_or fits MgmtCapacityError;
      a ← begin_operation row DeviceProvisioning (pu_Reason input);
      commandID ← newID;
      target ← marshalled targetProfile;
      previous ← marshalled currentProfile;
      let payload := base_payload row (Lifecycle a) requestHash ++
        [("operation_kind", JStr "runtime_profile_update"); ("runtime_profile", JObj target);
         ("rollback", JObj [("runtime_profile", JObj previous)])] in
      QueueDeviceOperation (mkDeviceOperation commandID "restart" commandKey payload 1 (with_state row a) (d_lifecycle row) (d_health row)
        event true true false false false true "" target)
  end.
