(* ===== verification/ImageCatalog.v ===== *)
(** * The catalogue of Android system images ([internal/imagecatalog])

    Queueing the two commands of a build agent, and what the completion of a command
    does to the catalogue, to the preparations and to the images, in the transaction of
    the completion. *)
From Stdlib Require Import SpecFloat Ascii.
From S2P Require Import Prelude GoText Errors Domain Json Sensitive Actor Store.
From S2P Require Import Float64 RuntimeProfile ReservationRepo CommandRepo DeviceStore Reconcile DeviceOps.

(** ** Decoding a command's result into a struct

    A missing or null field keeps its zero value, a value of another type is an error.
    Field names are compared exactly. *)
Definition string_field (o : obj) (k : string) : option string :=
  match assoc k o with None | Some JNull => Some "" | Some (JStr s) => Some s | Some _ => None end.

Definition bool_field (o : obj) (k : string) : option bool :=
  match assoc k o with None | Some JNull => Some false | Some (JBool b) => Some b | Some _ => None end.

Definition int_field (o : obj) (k : string) : option Z :=
  match assoc k o with None | Some JNull => Some 0 | Some (JNum q) => within in_int8 (Q_integral q) | Some _ => None end.

Definition struct_field (o : obj) (k : string) : option obj :=
  match assoc k o with None | Some JNull => Some [] | Some (JObj kvs) => Some kvs | Some _ => None end.

Definition list_field (o : obj) (k : string) : option (list json) :=
  match assoc k o with None | Some JNull => Some [] | Some (JArr l) => Some l | Some _ => None end.

(** A null result leaves every field at its zero value. *)
Definition result_obj (c : CommandRecord) : obj := default [] (c_Result c).

(** ** Validation *)
Definition revision_char (a : ascii) : bool :=
  let n := N_of_ascii a in alnum a || (n =? 46)%N || (n =? 95)%N || (n =? 45)%N.

Definition validRevision (value : string) : bool :=
  let value := TrimSpace value in negb (String.eqb value "" || (64 <? len value)) && forall_chars revision_char value.

Definition package_of (api : Z) (imageType abi : string) : string :=
  ("system-images;android-" ++ Z_text api ++ ";" ++ imageType ++ ";" ++ abi)%string.

Definition validEntry (packageName : string) (api : Z) (imageType abi revision : string) : bool :=
  (26 <=? api) && (api <=? 99) && bool_decide (imageType ∈ ["default"; "google_apis"; "google_play"]) && String.eqb abi "x86_64"
  && validRevision revision && String.eqb packageName (package_of api imageType abi).

Definition validDigest (value : string) : bool :=
  (len value =? 71) && HasPrefix value "sha256:" && forall_chars hex_char (suffix_from value 7).

Definition catalogStatus (preparation image : string) (officialChanged : bool) : string :=
  if officialChanged then "official_updated"
  else if String.eqb image "ready" then "cached"
  else if String.eqb image "validating" || String.eqb image "draft" then "validating"
  else if String.eqb image "failed" || String.eqb image "disabled" then "failed"
  else if String.eqb preparation "failed" then "failed"
  else if String.eqb preparation "" then "downloadable"
  else if String.eqb preparation "queued" || String.eqb preparation "building" then "preparing"
  else preparation.

(** ** Queueing *)
Record Preparation : Type := mkPreparation {
  pp_ID : string; pp_CatalogID : string; pp_HostID : string; pp_CommandID : string; pp_RuntimeProfile : obj; pp_Status : string;
  pp_ImageID : string; pp_ErrorCode : string; pp_CreatedAt : Z; pp_UpdatedAt : Z }.

Definition build_agent (env : Env) (h : HostRow) : bool :=
  bool_decide (h_status h = HostOnline) && negb (h_draining h)
  && String.eqb (default "false" (get_text (h_capabilities h) "image_build_agent")) "true"
  && negb (bool_decide (h_id h ∈ env_locked_hosts env)).

(** [ORDER BY last_heartbeat_at DESC NULLS LAST,id LIMIT 1]. *)
Definition find_build_agent : Tx (option HostRow) :=
  env_gets (fun env db =>
    let agents := filter (fun h => build_agent env h = true) (rows (device_hosts db)) in
    let dated := filter (fun h => is_Some (h_last_heartbeat_at h)) agents in
    match head (order_by (fun h => (- default 0 (h_last_heartbeat_at h), h_id h)) dated) with
    | Some h => Some h
    | None => head (order_by (fun h => (0, h_id h)) agents)
    end).

Definition insert_summary_audit (actor : Actor) (requestID action resourceType resourceID : string) (summary : obj) : Tx unit :=
  id ← newID;
  insert_audit id (act_Type actor) (act_ID actor) action resourceType resourceID requestID "" summary.

Definition preparation_of (p : PreparationRow) : Preparation :=
  mkPreparation (pr_id p) (pr_catalog_id p) (pr_host_id p) (default (pr_build_command_id p) (pr_validation_command_id p))
    (pr_runtime_profile p) (pr_status p) (default "" (pr_image_id p)) (default "" (pr_error_code p)) (pr_created_at p) (pr_updated_at p).

(** [INSERT INTO device_image_preparations ... ON CONFLICT(client_id,idempotency_key)
    DO UPDATE SET idempotency_key=EXCLUDED.idempotency_key RETURNING ...]. *)
Definition insert_preparation (id catalogID hostID buildCommandID clientID key revision : string) (profile : obj) : Tx PreparationRow :=
  now ← ClockNow;
  db ← get_db;
  match first_where (fun p => String.eqb (pr_client_id p) clientID && String.eqb (pr_idempotency_key p) key)
          (rows (device_image_preparations db)) with
  | Some existing => mret existing
  | None =>
    _ ← guard_or (negb (existsb (fun p => String.eqb (pr_build_command_id p) buildCommandID) (rows (device_image_preparations db))))
          (ErrUniqueViolation "device_image_preparations_build_command_id_key");
    _ ← guard_or (negb (bool_decide (is_Some (device_image_preparations db !! id)))) (ErrUniqueViolation "device_image_preparations_pkey");
    let row := mkPreparationRow id catalogID hostID buildCommandID None clientID key revision profile "queued" None None None None None now now in
    _ ← put_db (fun db => db <| device_image_preparations := <[id := row]> (device_image_preparations db) |>);
    mret row
  end.

Definition prepare_payload (c : CatalogRow) (profile : obj) : obj :=
  [("operation_source", JStr "android_catalog"); ("catalog_id", JStr (ca_id c)); ("package_name", JStr (ca_package_name c));
   ("revision", JStr (ca_revision c)); ("runtime_profile", JObj profile)].

Definition create_catalog_command (commandID hostID commandType key : string) (payload : obj) : Tx CommandRecord :=
  map_err (fun e => if errors_is e RepoErrIdempotencyConflict then CatErrConflict else e)
    (CreateCommand (mkCreateCommand commandID hostID commandType payload 3 key)).

Definition sync_tx (commandID : string) (actor : Actor) (requestID key : string) : Tx Preparation :=
  agent ← find_build_agent;
  host ← expect_row agent CatErrNoBuildAgent;
  record ← create_catalog_command commandID (h_id host) "sync_android_catalog" ("catalog-" ++ act_ClientID actor ++ "-" ++ key)
             [("operation_source", JStr "android_catalog")];
  _ ← (if String.eqb (c_ID record) commandID
       then insert_summary_audit actor requestID "synchronize_android_system_images" "android_system_image_catalog" (c_ID record)
              [("command_id", JStr (c_ID record)); ("host_id", JStr (c_HostID record))]
       else mret tt);
  mret (mkPreparation (c_ID record) "" (c_HostID record) (c_ID record) [] "queued" "" "" (c_CreatedAt record) (c_UpdatedAt record)).

Definition prepare_tx (preparationID commandID : string) (actor : Actor) (requestID key catalogID : string) (requested : Profile)
    : Tx Preparation :=
  agent ← find_build_agent;
  host ← expect_row agent CatErrNoBuildAgent;
  db ← get_db;
  entry ← expect_row (android_system_image_catalog db !! catalogID) CatErrNotFound;
  profile ← marshalled requested;
  record ← create_catalog_command commandID (h_id host) "prepare_android_image" ("catalog-" ++ act_ClientID actor ++ "-" ++ key)
             (prepare_payload entry profile);
  row ← insert_preparation preparationID catalogID (h_id host) (c_ID record) (act_ClientID actor) key (ca_revision entry) profile;
  let existing := preparation_of row in
  _ ← guard_or (negb (negb (String.eqb (pp_CommandID existing) (c_ID record)) && String.eqb (pp_Status existing) "queued")) CatErrConflict;
  _ ← (if String.eqb (c_ID record) commandID
       then insert_summary_audit actor requestID "prepare_android_system_image" "android_system_image" catalogID
              [("preparation_id", JStr (pp_ID existing)); ("command_id", JStr (c_ID record)); ("host_id", JStr (c_HostID record));
               ("runtime_profile", JObj profile)]
       else mret tt);
  mret existing.

Definition valid_queue (actor : Actor) (requestID key : string) : bool :=
  Valid actor && negb (blank requestID) && negb (too_short key).

Definition Sync (actor : Actor) (requestID key : string) : Tx Preparation :=
  _ ← guard_or (valid_queue actor requestID key) CatErrInvalidArgument;
  _ ← newID;
  commandID ← newID;
  WithinTx (sync_tx commandID actor requestID key).

Definition Prepare (actor : Actor) (requestID key catalogID : string) (runtimeProfile : obj) : Tx Preparation :=
  _ ← guard_or (negb (blank catalogID)) CatErrInvalidArgument;
  match Parse runtimeProfile with
  | None => throw CatErrInvalidArgument
  | Some profile =>
    _ ← guard_or (valid_queue actor requestID key) CatErrInvalidArgument;
    preparationID ← newID;
    commandID ← newID;
    WithinTx (prepare_tx preparationID commandID actor requestID key catalogID profile)
  end.

(** ** Completion of the commands of the catalogue *)
Definition Catalog : Type := gmap string CatalogRow.

Record CatalogEntry : Type := mkCatalogEntry {
  ce_PackageName : string; ce_APILevel : Z; ce_ImageType : string; ce_ABI : string; ce_Revision : string }.

Definition decode_entry (v : json) : option CatalogEntry :=
  match v with
  | JNull => Some (mkCatalogEntry "" 0 "" "" "")
  | JObj o =>
    name <-? string_field o "package_name" ;;
    api <-? int_field o "api_level" ;;
    kind <-? string_field o "image_type" ;;
    abi <-? string_field o "abi" ;;
    revision <-? string_field o "revision" ;;
    Some (mkCatalogEntry name api kind abi revision)
  | _ => None
  end.

Fixpoint decode_entries (l : list json) : option (list CatalogEntry) :=
  match l with
  | [] => Some []
  | v :: rest => e <-? decode_entry v ;; es <-? decode_entries rest ;; Some (e :: es)
  end.

Definition entry_valid (e : CatalogEntry) : bool :=
  validEntry (ce_PackageName e) (ce_APILevel e) (ce_ImageType e) (ce_ABI e) (ce_Revision e).

(** [INSERT INTO android_system_image_catalog ... ON CONFLICT(package_name) DO UPDATE]: the
    source is updated when the revision changes, the entry is seen in any case. *)
Definition upsert_entry (id : string) (e : CatalogEntry) (now : Z) (catalog : Catalog) : Catalog :=
  match first_where (fun c => String.eqb (ca_package_name c) (ce_PackageName e)) (rows catalog) with
  | Some c => <[ca_id c := mkCatalogRow (ca_id c) (ca_package_name c) (ce_APILevel e) (ce_ImageType e) (ce_ABI e) (ce_Revision e)
                (if String.eqb (ca_revision c) (ce_Revision e) then ca_source_updated_at c else now) now]> catalog
  | None => <[id := mkCatalogRow id (ce_PackageName e) (ce_APILevel e) (ce_ImageType e) (ce_ABI e) (ce_Revision e) now now]> catalog
  end.

Fixpoint record_entries (es : list CatalogEntry) : Tx unit :=
  match es with
  | [] => mret tt
  | e :: rest =>
    _ ← guard_or (entry_valid e) CatErrInvalidArgument;
    id ← newID;
    now ← ClockNow;
    _ ← put_db (fun db => db <| android_system_image_catalog := upsert_entry id e now (android_system_image_catalog db) |>);
    record_entries rest
  end.

Definition reconcileSync (record : CommandRecord) : Tx unit :=
  if negb (command_is CommandSucceeded record) then mret tt
  else match list_field (result_obj record) "entries" with
  | None => throw CatErrInvalidArgument
  | Some values =>
    match decode_entries values with
    | None | Some [] => throw CatErrInvalidArgument
    | Some entries => record_entries entries
    end
  end.

(** [UPDATE device_image_preparations SET ... WHERE id=$1]. *)
Definition update_preparation (id : string) (f : PreparationRow -> PreparationRow) : Tx unit :=
  now ← ClockNow;
  put_db (fun db => db <| device_image_preparations := alter (fun p => f p <| pr_updated_at := now |>) id (device_image_preparations db) |>).

Definition failPreparation (id code : string) : Tx unit :=
  update_preparation id (fun p => p <| pr_status := "failed" |> <| pr_error_code := Some code |>).

Definition completion_code (record : CommandRecord) (fallback : string) : string :=
  match c_ErrorCode record with Some code => if String.eqb code "" then fallback else code | None => fallback end.

Definition find_preparation (p : PreparationRow -> bool) : Tx (option PreparationRow) :=
  db ← get_db; mret (first_where p (rows (device_image_preparations db))).

Record BuildOutput : Type := mkBuildOutput { bo_DockerImage : string; bo_DockerDigest : string; bo_ImageDiskMB : Z }.

Definition decode_build (o : obj) : option BuildOutput :=
  image <-? string_field o "docker_image" ;;
  digest <-? string_field o "docker_digest" ;;
  disk <-? int_field o "image_disk_mb" ;;
  if validDigest digest && ValidRuntimeImageReference image && (1 <=? disk) then Some (mkBuildOutput image digest disk) else None.

(** The canonical document of the profile with the size of the built image. *)
Definition with_image_disk (profile : Profile) (disk : Z) : Tx obj :=
  document ← marshalled profile;
  mret (assoc_set "image_disk_mb" (jint disk) document).

Definition catalog_entry (id : string) : Tx CatalogRow :=
  db ← get_db; expect_row (android_system_image_catalog db !! id) ErrNoRows.

(** The columns of a build that succeeded. *)
Definition built (output : BuildOutput) (p : PreparationRow) : PreparationRow :=
  p <| pr_docker_image := Some (bo_DockerImage output) |> <| pr_docker_digest := Some (bo_DockerDigest output) |>
    <| pr_image_disk_mb := Some (bo_ImageDiskMB output) |> <| pr_error_code := None |>.

Definition same_image (digest : string) (config : obj) (i : ImageRow) : bool :=
  String.eqb (im_docker_digest i) digest && json_eqb (JObj (im_resource_config i)) (JObj config).

Definition resolution_text (profile : Profile) : string := (Z_text (rp_Width profile) ++ "x" ++ Z_text (rp_Height profile))%string.

Definition validation_payload (job : PreparationRow) (commandID : string) (output : BuildOutput) (entry : CatalogRow)
    (profile : Profile) (mapped : obj) : obj :=
  [("operation_source", JStr "android_catalog"); ("preparation_id", JStr (pr_id job));
   ("image_id", JStr ("prepared-" ++ pr_id job)); ("device_id", JStr ("validation-" ++ commandID));
   ("provider_ref", JStr ("validation-" ++ commandID)); ("docker_image", JStr (bo_DockerImage output));
   ("docker_digest", JStr (bo_DockerDigest output));
   ("capabilities", JObj (obj_merge [("platformName", JStr "Android"); ("apiLevel", jint (ca_api_level entry));
      ("abi", JStr (ca_abi entry)); ("resolution", JStr (resolution_text profile))] mapped));
   ("runtime_profile", JObj mapped)]%string.

(** A build that succeeded: reuse the image that is ready, or queue its validation. *)
Definition reconcileBuild (record : CommandRecord) (job : PreparationRow) (output : BuildOutput) (profile : Profile) : Tx unit :=
  entry ← catalog_entry (pr_catalog_id job);
  mapped ← with_image_disk profile (bo_ImageDiskMB output);
  db ← get_db;
  match first_where (fun i => same_image (bo_DockerDigest output) mapped i && bool_decide (im_status i = ImageReady))
          (rows (device_images db)) with
  | Some image =>
    update_preparation (pr_id job) (fun p => built output p <| pr_image_id := Some (im_id image) |> <| pr_status := "cached" |>)
  | None =>
    commandID ← newID;
    command ← CreateCommand (mkCreateCommand commandID (c_HostID record) "validate_image"
                (validation_payload job commandID output entry profile mapped) 3 ("catalog-validate-" ++ pr_id job));
    update_preparation (pr_id job) (fun p => built output p <| pr_validation_command_id := Some (c_ID command) |>
                                                            <| pr_status := "validating" |>)
  end.

Definition reconcilePreparation (record : CommandRecord) : Tx unit :=
  found ← find_preparation (fun p => String.eqb (pr_build_command_id p) (c_ID record));
  match found with
  | None => mret tt
  | Some job =>
    if negb (command_is CommandSucceeded record) then failPreparation (pr_id job) (completion_code record "IMAGE_PREPARATION_FAILED")
    else if negb (String.eqb (default "" (pr_validation_command_id job)) "") then mret tt
    else match decode_build (result_obj record) with
    | None => failPreparation (pr_id job) "INVALID_IMAGE_BUILD_RESULT"
    | Some output =>
      match Parse (pr_runtime_profile job) with
      | None => failPreparation (pr_id job) "INVALID_RUNTIME_PROFILE"
      | Some profile => reconcileBuild record job output profile
      end
    end
  end.

Definition validated (o : obj) : bool :=
  match bool_field o "digest_verified", bool_field o "ready", bool_field o "stf_registered" with
  | Some verified, Some ready, Some _ => verified && ready
  | _, _, _ => false
  end.

Definition image_name (entry : CatalogRow) (digest fingerprint : string) : string :=
  ("android-api" ++ Z_text (ca_api_level entry) ++ "-" ++ ca_image_type entry ++ "-" ++ ca_abi entry ++ "-"
   ++ String.substring 0 12 (match strip_prefix "sha256:" digest with Some d => d | None => digest end) ++ "-" ++ fingerprint)%string.

(** [INSERT INTO device_images ... ON CONFLICT (docker_digest,md5(resource_config::text))
    DO UPDATE ... RETURNING id]. *)
Definition upsert_image (image : ImageRow) : Tx string :=
  db ← get_db;
  match first_where (same_image (im_docker_digest image) (im_resource_config image)) (rows (device_images db)) with
  | Some i =>
    _ ← put_db (fun db => db <| device_images := <[im_id i := i <| im_docker_image := im_docker_image image |>
          <| im_status := ImageReady |> <| im_validation_error := None |> <| im_updated_at := im_updated_at image |>]> (device_images db) |>);
    mret (im_id i)
  | None =>
    _ ← guard_or (negb (existsb (fun i => String.eqb (im_name i) (im_name image)) (rows (device_images db))))
          (ErrUniqueViolation "device_images_name_key");
    _ ← guard_or (negb (bool_decide (is_Some (device_images db !! im_id image)))) (ErrUniqueViolation "device_images_pkey");
    _ ← put_db (fun db => db <| device_images := <[im_id image := image]> (device_images db) |>);
    mret (im_id image)
  end.

(** An image that a validation found ready. *)
Definition publish_image (job : PreparationRow) (profile : Profile) : Tx unit :=
  mapped ← with_image_disk profile (default 0 (pr_image_disk_mb job));
  fingerprint ← env_gets (fun env _ => env_digest env (JObj mapped));
  entry ← catalog_entry (pr_catalog_id job);
  id ← newID;
  now ← ClockNow;
  let digest := default "" (pr_docker_digest job) in
  imageID ← upsert_image (mkImageRow id (ca_api_level entry) (ca_abi entry) (resolution_text profile) mapped ImageReady
              (default "" (pr_docker_image job)) digest (image_name entry digest (String.substring 0 10 fingerprint)) None now now);
  update_preparation (pr_id job) (fun p => p <| pr_image_id := Some imageID |> <| pr_status := "cached" |> <| pr_error_code := None |>).

Definition reconcileValidation (record : CommandRecord) : Tx unit :=
  found ← find_preparation (fun p => bool_decide (pr_validation_command_id p = Some (c_ID record)));
  match found with
  | None => mret tt
  | Some job =>
    if negb (command_is CommandSucceeded record) then failPreparation (pr_id job) (completion_code record "IMAGE_VALIDATION_FAILED")
    else if negb (validated (result_obj record)) then failPreparation (pr_id job) "IMAGE_VALIDATION_INCOMPLETE"
    else match Parse (pr_runtime_profile job) with
    | None => failPreparation (pr_id job) "INVALID_RUNTIME_PROFILE"
    | Some profile => publish_image job profile
    end
  end.

Definition ReconcileCommand (record : CommandRecord) : Tx unit :=
  if negb (match assoc "operation_source" (c_Payload record) with Some (JStr s) => String.eqb s "android_catalog" | _ => false end)
     || in_flight record then mret tt
  else if String.eqb (c_CommandType record) "sync_android_catalog" then reconcileSync record
  else if String.eqb (c_CommandType record) "prepare_android_image" then reconcilePreparation record
  else if String.eqb (c_CommandType record) "validate_image" then reconcileValidation record
  else mret tt.
