(* ===== verification/HostCommand.v ===== *)
(** * The host command service: [internal/hostcommand/service.go]

    Creating, claiming and extending commands, and what one heartbeat observation does
    to the aggregate of a device.  The completion and the recovery of commands, with the
    management operations and the images that depend on them, are in [Completion]; the
    whole heartbeat is in [Heartbeat]. *)
From S2P Require Import Prelude GoText Errors Domain Json Sensitive Actor Store.
From S2P Require Import ReservationRepo CommandRepo.

(** ** Commands *)
Record Command : Type := mkCommandView {
  cv_ID : string; cv_HostID : string; cv_CommandType : string; cv_Payload : obj; cv_Status : CommandStatus;
  cv_LeaseToken : option string; cv_LeaseExpiresAt : option Z; cv_Attempt : Z; cv_MaxAttempts : Z;
  cv_Result : option obj; cv_ErrorCode : option string; cv_CompletedAt : option Z }.

Definition toCommand (r : CommandRecord) : Command :=
  mkCommandView (c_ID r) (c_HostID r) (c_CommandType r) (c_Payload r) (c_Status r) (c_LeaseToken r)
    (c_LeaseExpiresAt r) (c_Attempts r) (c_MaxAttempts r) (c_Result r) (c_ErrorCode r) (c_CompletedAt r).

Definition command_types : list string :=
  ["create"; "start"; "stop"; "restart"; "rebuild"; "delete"; "inspect"; "validate_image"; "sync_android_catalog";
   "prepare_android_image"].
Definition validCommandType (value : string) : bool := bool_decide (value ∈ command_types).

Definition Create (hostID commandType : string) (payload : obj) (maxAttempts : Z) (key : string) : Tx Command :=
  _ ← guard_or (negb ((len hostID <? 16) || negb (validCommandType commandType) || (maxAttempts <? 1) || (len key <? 8)))
        CmdErrInvalidArgument;
  id ← newID;
  record ← map_err translate
    (CreateCommand (mkCreateCommand id hostID commandType (RedactMap payload) maxAttempts key));
  mret (toCommand record).

Record ClaimInput : Type := mkClaimInput { cl_LeaseSeconds : Z; cl_MaxCommands : Z; cl_WaitSeconds : Z }.

Definition valid_claim (hostID : string) (input : ClaimInput) : bool :=
  negb ((len hostID <? 16) || (cl_LeaseSeconds input <? 5) || (300 <? cl_LeaseSeconds input)
        || (cl_MaxCommands input <? 1) || (20 <? cl_MaxCommands input)
        || (cl_WaitSeconds input <? 0) || (30 <? cl_WaitSeconds input)).

(** [for len(commands) < input.MaxCommands]: claim until the queue is empty. *)
Fixpoint claim_batch (hostID : string) (lease : Z) (room : nat) : Tx (list Command) :=
  match room with
  | O => mret []
  | S n =>
    token ← newID;
    found ← optional RepoErrNotFound (ClaimNext hostID token lease);
    match found with
    | None => mret []
    | Some record => rest ← claim_batch hostID lease n; mret (toCommand record :: rest)
    end
  end.

(** One turn of the polling loop of [Claim], with the deadline it computed; [None] is
    another turn after 200 milliseconds. *)
Definition claim_turn (hostID : string) (input : ClaimInput) (deadline : Z) : Tx (option (list Command)) :=
  commands ← claim_batch hostID (cl_LeaseSeconds input * Second) (Z.to_nat (cl_MaxCommands input));
  now ← ProcessNow;
  if negb (bool_decide (length commands = 0%nat)) || (cl_WaitSeconds input =? 0) || (deadline <? now)
  then mret (Some commands) else mret None.

(** The first turn of [Claim] and the deadline of the following ones. *)
Definition Claim (hostID : string) (input : ClaimInput) : Tx (option (list Command) * Z) :=
  _ ← guard_or (valid_claim hostID input) CmdErrInvalidArgument;
  start ← ProcessNow;
  let deadline := start + cl_WaitSeconds input * Second in
  result ← claim_turn hostID input deadline;
  mret (result, deadline).

Record LeaseExtensionInput : Type := mkLeaseExtension { le_LeaseToken : string; le_Attempt : Z; le_LeaseSeconds : Z }.

Definition Extend (id : string) (input : LeaseExtensionInput) : Tx Command :=
  _ ← guard_or (negb ((len id <? 16) || (len (le_LeaseToken input) <? 16) || (le_Attempt input <? 1)
                      || (le_LeaseSeconds input <? 5) || (300 <? le_LeaseSeconds input))) CmdErrInvalidArgument;
  record ← map_err translate
    (ExtendLease id (le_LeaseToken input) (le_Attempt input) (le_LeaseSeconds input * Second));
  mret (toCommand record).

(** ** Heartbeat observations *)

(** A call on an aggregate: its error, or the aggregate it leaves. *)
Definition step {A} (call : result Err unit * A) : result Err A :=
  match call with (Ok _, a) => Ok a | (Fail e, _) => Fail e end.

Definition and_then {A} (r : result Err A) (f : A -> result Err A) : result Err A :=
  match r with Ok a => f a | Fail e => Fail e end.

Definition recovery_reason : string := "host and provider heartbeat recovered".

Definition recoverFromHostOutage (device : Device) (assignmentTarget : string) (now : Z) : result Err Device :=
  let move to reason d := step (Transition d to reason now) in
  and_then (and_then (and_then (and_then (and_then
    (if negb (bool_decide (Health device = HealthHealthy))
     then step (UpdateHealth device HealthHealthy recovery_reason now) else Ok device)
    (move DeviceProvisioning recovery_reason))
    (move DeviceBooting recovery_reason))
    (move DeviceReady recovery_reason))
    (fun d => if String.eqb assignmentTarget "reserved" || String.eqb assignmentTarget "busy"
              then move DeviceReserved "existing reservation restored after host recovery" d else Ok d))
    (fun d => if String.eqb assignmentTarget "busy"
              then move DeviceBusy "active session restored after host recovery" d else Ok d).

Definition applyDiscoveredLifecycle (device : Device) (incoming : DeviceLifecycleStatus) (now : Z) : result Err Device :=
  let move to reason d := step (Transition d to reason now) in
  let at_ x d := bool_decide (Lifecycle d = x) in
  if at_ incoming device then Ok device
  else match incoming with
  | DeviceBooting =>
    if at_ DeviceProvisioning device || at_ DeviceStopped device
    then move DeviceBooting "agent discovered booting device" device else Ok device
  | DeviceReady =>
    and_then (if at_ DeviceProvisioning device || at_ DeviceStopped device
              then move DeviceBooting "agent discovered running device" device else Ok device)
      (fun d => if at_ DeviceBooting d then move DeviceReady "agent health checks passed" d else Ok d)
  | DeviceStopped =>
    if at_ DeviceBooting device || at_ DeviceReady device
    then move DeviceStopped "agent discovered stopped device" device else Ok device
  | _ => Ok device
  end.

(** The part of [discoveredDeviceState] that decides, and the reported statuses. *)
Record discoveredDeviceState : Type := mkDiscoveredState {
  ds_id : string; ds_lifecycle : DeviceLifecycleStatus; ds_health : HealthStatus; ds_healthReason : option string;
  ds_operationInFlight : bool; ds_assignmentTarget : string }.

Record Observation : Type := mkObservation { ob_lifecycle : DeviceLifecycleStatus; ob_health : HealthStatus }.

Definition stf_reason (reason : option string) : bool :=
  match reason with Some r => IsSTFFailureReason r | None => false end.

Definition recoveredAutomatically (current : discoveredDeviceState) (seen : Observation) : bool :=
  bool_decide (ds_lifecycle current = DeviceQuarantined)
  && match ds_healthReason current with
     | Some r => IsSystemRecoverableHealthReason r && negb (IsSTFFailureReason r)
     | None => false
     end
  && bool_decide (ob_health seen = HealthHealthy) && negb (ds_operationInFlight current).

(** The observation is applied to the device, unless it is quarantined, deleted or
    under an operation. *)
Definition applies (current : discoveredDeviceState) (seen : Observation) : bool :=
  (negb (bool_decide (ds_lifecycle current = DeviceQuarantined)) || recoveredAutomatically current seen)
  && negb (bool_decide (ds_lifecycle current = DeviceDeleted)) && negb (ds_operationInFlight current).

Definition preserves_stf_health (current : discoveredDeviceState) (seen : Observation) : bool :=
  applies current seen && bool_decide (ob_health seen = HealthHealthy) && stf_reason (ds_healthReason current).

(** The aggregate after an observation: [updateDiscoveredDevice] up to its update. *)
Definition observe (current : discoveredDeviceState) (seen : Observation) (now : Z) : result Err Device :=
  match RestoreDevice (ds_id current) (ds_lifecycle current) (ds_health current) with
  | Fail e => Fail e
  | Ok aggregate =>
    and_then (if recoveredAutomatically current seen
              then recoverFromHostOutage aggregate (ds_assignmentTarget current) now else Ok aggregate)
      (fun d => if applies current seen then
         and_then (if negb (preserves_stf_health current seen) && negb (bool_decide (Health d = ob_health seen))
                   then step (UpdateHealth d (ob_health seen) "agent heartbeat health observation" now) else Ok d)
           (fun d => if bool_decide (ds_lifecycle current = DeviceReserved) || bool_decide (ds_lifecycle current = DeviceBusy)
                        || bool_decide (ds_lifecycle current = DeviceRecycling)
                     then Ok d else applyDiscoveredLifecycle d (ob_lifecycle seen) now)
       else Ok d)
  end.

(** The reason stored with the observed health. *)
Definition observed_reason (current : discoveredDeviceState) (seen : Observation) (d : Device) : option string :=
  if applies current seen && negb (preserves_stf_health current seen) then
    if bool_decide (Health d = HealthHealthy) then None
    else Some ("agent heartbeat reported " ++ status_string (Health d))%string
  else ds_healthReason current.

Definition resets_failures (current : discoveredDeviceState) (seen : Observation) (d : Device) : bool :=
  recoveredAutomatically current seen
  || (negb (preserves_stf_health current seen) && bool_decide (Health d = HealthHealthy)
      && negb (bool_decide (ds_lifecycle current = DeviceQuarantined))
      && negb (bool_decide (ds_lifecycle current = DeviceDeleted)) && negb (ds_operationInFlight current)).
