(* ===== verification/HostSelection.v ===== *)
(** * The host of a new emulator ([internal/warmpool/controller.go], [internal/phoneprofile])

    The catalogue of phone profiles, and [lockHostCapacity]: the first online host, in
    the order of identifiers, that holds the image and has room for the profile.  Hosts
    locked by another transaction are passed over.  The [CapacityUnavailableError] of the
    code is the [Fail] of the result, with the capacity result that it carries. *)
From Stdlib Require Import SpecFloat.
From S2P Require Import Prelude GoText Errors Domain Json Sensitive Actor Store.
From S2P Require Import Float64 RuntimeProfile Capacity ReservationRepo CommandRepo DeviceStore DeviceOps.

(** ** Phone profiles *)
Record PhoneProfile : Type := mkPhone { ph_ID : string; ph_Name : string; ph_Width : Z; ph_Height : Z; ph_Density : Z }.

Definition Catalog : list PhoneProfile :=
  [mkPhone "small_phone" "Small Phone" 720 1280 320; mkPhone "medium_phone" "Medium Phone" 1080 2400 420;
   mkPhone "pixel_10_pro_xl" "Pixel 10 Pro XL" 1344 2992 480; mkPhone "pixel_10_pro_fold" "Pixel 10 Pro Fold" 2076 2152 390;
   mkPhone "pixel_10_pro" "Pixel 10 Pro" 1280 2856 480; mkPhone "pixel_10" "Pixel 10" 1080 2424 420;
   mkPhone "pixel_9a" "Pixel 9a" 1080 2424 420; mkPhone "pixel_9_pro_xl" "Pixel 9 Pro XL" 1344 2992 480;
   mkPhone "pixel_9_pro_fold" "Pixel 9 Pro Fold" 2076 2152 390; mkPhone "pixel_9_pro" "Pixel 9 Pro" 1280 2856 480;
   mkPhone "pixel_9" "Pixel 9" 1080 2424 420; mkPhone "pixel_8a" "Pixel 8a" 1080 2400 420;
   mkPhone "pixel_8_pro" "Pixel 8 Pro" 1344 2992 480; mkPhone "pixel_8" "Pixel 8" 1080 2400 420;
   mkPhone "pixel_fold" "Pixel Fold" 2208 1840 420; mkPhone "pixel_7a" "Pixel 7a" 1080 2400 420;
   mkPhone "pixel_7_pro" "Pixel 7 Pro" 1440 3120 560; mkPhone "pixel_7" "Pixel 7" 1080 2400 420;
   mkPhone "pixel_6a" "Pixel 6a" 1080 2400 420; mkPhone "pixel_6_pro" "Pixel 6 Pro" 1440 3120 560;
   mkPhone "pixel_6" "Pixel 6" 1080 2400 420].

Definition Find (id : string) : option PhoneProfile := first_where (fun p => String.eqb (ph_ID p) (TrimSpace id)) Catalog.

(** ** Capacity results *)
Definition no_result (limiting : string) (shortfall : list (string * Z)) : Result :=
  mkCapacityResult false 0 limiting shortfall (S754_zero false) 0 0.

Definition total_shortfall (r : Result) : Z := foldr (fun p acc => wrap64 (p.2 + acc)) 0 (cr_Shortfall r).

(** The result with fewer kinds of shortfall, then with the smaller total. *)
Definition betterCapacityResult (current : option Result) (candidate : Result) : option Result :=
  match current with
  | None => Some candidate
  | Some c =>
    let kinds r := Z.of_nat (length (cr_Shortfall r)) in
    if (kinds candidate <? kinds c) || ((kinds candidate =? kinds c) && (total_shortfall candidate <? total_shortfall c))
    then Some candidate else current
  end.

(** ** One host *)
Definition jsonInt (values : obj) (key : string) : Z := int_number (assoc key values).

(** A device keeps its slot until its deletion is confirmed. *)
Definition occupies_slot (d : DeviceRow) : bool := negb (lifecycle_is DeviceDeleted d).

Definition host_devices (hostID : string) (db : DB) : list DeviceRow :=
  filter (fun d => String.eqb (d_host_id d) hostID && occupies_slot d = true) (order_by (fun d => (0, d_id d)) (rows (devices db))).

Definition pending_validations (hostID : string) (db : DB) : list obj :=
  map c_Payload (filter (fun c => String.eqb (c_HostID c) hostID && command_type_in ["validate_image"] c && in_flight c = true)
    (commands db)).

Definition validated_on (hostID imageID : string) (db : DB) : bool :=
  existsb (fun c => String.eqb (c_HostID c) hostID && command_type_in ["validate_image"] c && command_is CommandSucceeded c
                    && payload_is "image_id" imageID c) (commands db).

(** [COALESCE((SELECT s.available ...), true)]. *)
Definition image_usable (hostID imageID : string) (db : DB) : bool :=
  match device_host_image_states db !! (hostID, imageID) with Some s => hi_available s | None => true end.

Definition device_profile (d : DeviceRow) : obj := default (d_capabilities d) (d_runtime_profile_override d).

(** The devices of the host, and whether one of them has the image; [None] is a profile
    that does not parse. *)
Fixpoint existing_allocation (imageID : string) (acc : Allocation) (cached : bool) (ds : list DeviceRow) : option (Allocation * bool) :=
  match ds with
  | [] => Some (acc, cached)
  | d :: rest =>
    p <-? Parse (device_profile d) ;;
    existing_allocation imageID
      (mkAllocation (f_add (al_CPUCores acc) (rp_ContainerCPUCores p)) (wrap64 (al_MemoryMB acc + rp_ContainerMemoryMB p))
         (al_DiskMB acc) (al_Slots acc))
      (cached || String.eqb (default "" (d_image_id d)) imageID) rest
  end.

Inductive Verdict : Type :=
  | HostSkipped
  | HostImageBlocked
  | HostFits
  | HostFull (r : Result).

(** A host with fixed slots. *)
Definition assess_slots (h : HostRow) (devices pending : nat) : Verdict :=
  let limit := jsonInt (h_capacity h) "device_slots" in
  let used := Z.max (Z.of_nat devices) (jsonInt (h_used_capacity h) "device_slots") + Z.of_nat pending in
  if used <? limit then HostFits else HostFull (no_result "device_slots" [("device_slots", 1)]).

(** A host that reports its resources. *)
Definition assess_resources (db : DB) (now : Z) (imageID : string) (requested : Profile) (h : HostRow) (host : Host) : Verdict :=
  let fresh := match h_last_heartbeat_at h with Some at_ => recent now at_ | None => false end
               && negb (IsZero (ch_CollectedAt host)) && recent now (ch_CollectedAt host) in
  if negb fresh then HostSkipped
  else
    let ds := host_devices (h_id h) db in
    match existing_allocation imageID (mkAllocation (S754_zero false) 0 0 (Z.of_nat (length ds))) (validated_on (h_id h) imageID db) ds with
    | None => HostSkipped
    | Some (existing, cached) =>
      match pending_allocation no_allocation (pending_validations (h_id h) db) with
      | None => HostSkipped
      | Some pending =>
        let result := Evaluate host existing pending requested cached in
        if cr_Fits result then HostFits else HostFull result
      end
    end.

Definition assess (db : DB) (now : Z) (imageID : string) (requested : Profile) (respectImageState : bool) (h : HostRow) : Verdict :=
  if respectImageState && negb (image_usable (h_id h) imageID db) then HostImageBlocked
  else match HostFromMap (h_capacity h) with
  | None => assess_slots h (length (host_devices (h_id h) db)) (length (pending_validations (h_id h) db))
  | Some host => assess_resources db now imageID requested h host
  end.

(** ** The first host that fits *)
Fixpoint select_host (verdict : HostRow -> Verdict) (best : option Result) (blocked : bool) (hosts : list HostRow)
    : result Result string :=
  match hosts with
  | [] => Fail (if blocked then no_result "image" [("image", 1)] else default (no_result "" []) best)
  | h :: rest =>
    match verdict h with
    | HostSkipped => select_host verdict best blocked rest
    | HostImageBlocked => select_host verdict best true rest
    | HostFits => Ok (h_id h)
    | HostFull r => select_host verdict (betterCapacityResult best r) blocked rest
    end
  end.

Definition emulator_host (h : HostRow) : bool :=
  bool_decide (h_status h = HostOnline) && negb (h_draining h) && bool_decide (h_host_type h ∈ ["docker_emulator"; "hybrid"]%string).

Definition candidate_hosts (env : Env) (db : DB) : list HostRow :=
  filter (fun h => emulator_host h && negb (bool_decide (h_id h ∈ env_locked_hosts env)) = true)
    (order_by (fun h => (0, h_id h)) (rows (device_hosts db))).

Definition lockHostCapacity (imageID : string) (requested : Profile) (respectImageState : bool) : Tx (result Result string) :=
  now ← ProcessNow;
  env_gets (fun env db => select_host (assess db now imageID requested respectImageState) None false (candidate_hosts env db)).
