(* ===== verification/Completion.v ===== *)
(** * Completion of host commands ([internal/hostcommand/service.go])

    What the completion of a command, or the recovery of its last lease, does in its
    transaction: the image catalogue first, then the device that a management operation
    or an automatic restart was about. *)
From Stdlib Require Import Ascii.
From S2P Require Import Prelude GoText Errors Domain Json Sensitive Actor Store.
From S2P Require Import RuntimeProfile ReservationRepo CommandRepo DeviceStore Reconcile DeviceOps ImageCatalog HostCommand.

(** ** The result of an operation *)
Record Connection : Type := mkConnection {
  cn_Serial : string; cn_ProviderID : string; cn_ADBEndpoint : string; cn_AppiumEndpoint : string; cn_AppiumUDID : string }.

Record managementOperationResult : Type := mkOperationResult {
  mo_Platform : string; mo_State : string; mo_Generation : Z; mo_ReimageApplied : bool;
  mo_RuntimeProfileUpdateApplied : bool; mo_RollbackRestored : bool; mo_Connection : Connection; mo_Health : ProviderHealth }.

Definition decode_connection (o : obj) : option Connection :=
  serial <-? string_field o "serial" ;;
  provider <-? string_field o "provider_id" ;;
  adb <-? string_field o "adb_endpoint" ;;
  appium <-? string_field o "appium_endpoint" ;;
  udid <-? string_field o "appium_udid" ;;
  Some (mkConnection serial provider adb appium udid).

Fixpoint decode_components (kvs : obj) : option (list (string * string)) :=
  match kvs with
  | [] => Some []
  | (k, JStr v) :: rest => cs <-? decode_components rest ;; Some ((k, v) :: cs)
  | (k, JNull) :: rest => cs <-? decode_components rest ;; Some ((k, "") :: cs)
  | _ => None
  end.

Definition decode_health (o : obj) : option ProviderHealth :=
  online <-? bool_field o "online" ;;
  adb <-? bool_field o "adb_online" ;;
  boot <-? bool_field o "boot_completed" ;;
  appium <-? bool_field o "appium_healthy" ;;
  kvs <-? struct_field o "components" ;;
  components <-? decode_components kvs ;;
  Some (mkProviderHealth components online adb boot appium).

Definition decode_operation (o : obj) : option managementOperationResult :=
  platform <-? string_field o "platform" ;;
  state <-? string_field o "state" ;;
  generation <-? int_field o "generation" ;;
  reimaged <-? bool_field o "reimage_applied" ;;
  updated <-? bool_field o "runtime_profile_update_applied" ;;
  restored <-? bool_field o "rollback_restored" ;;
  connection <-? struct_field o "connection" ;;
  connection <-? decode_connection connection ;;
  health <-? struct_field o "health" ;;
  health <-? decode_health health ;;
  Some (mkOperationResult platform state generation reimaged updated restored connection health).

Definition nonempty (s : string) : bool := negb (String.eqb s "").

(** [strings.EqualFold(platform, "ios")] on ASCII letters. *)
Definition is_ios (platform : string) : bool := String.eqb (ToLower platform) "ios".

Definition reachable_by_appium (value : managementOperationResult) : bool :=
  (0 <? mo_Generation value) && nonempty (cn_Serial (mo_Connection value)) && nonempty (cn_AppiumEndpoint (mo_Connection value))
  && nonempty (cn_AppiumUDID (mo_Connection value)).

Definition validManagementOperationResult (value : managementOperationResult) : bool :=
  let h := mo_Health value in
  reachable_by_appium value && ph_Online h && ph_BootCompleted h && ph_AppiumHealthy h
  && (if is_ios (mo_Platform value)
      then String.eqb (mo_State value) "running"
           && forallb (fun name => String.eqb (component h name) "passed") ["transport"; "os_ready"; "automation"; "router"]
      else nonempty (cn_ADBEndpoint (mo_Connection value)) && ph_ADBOnline h).

(** [json.Unmarshal(record.Result, &result) == nil && validManagementOperationResult(result)]. *)
Definition valid_result (record : CommandRecord) : option managementOperationResult :=
  r <-? decode_operation (result_obj record) ;;
  if validManagementOperationResult r then Some r else None.

Definition commandPayloadString (payload : obj) (key : string) : string :=
  match assoc key payload with Some (JStr s) => TrimSpace s | _ => "" end.

(** [mapValue]; the JSON null of a missing map reads back as an empty one. *)
Definition mapValue (values : obj) (key : string) : obj := obj_field values key.

(** ** Pieces shared by the operations *)
Definition operation_done_text : string := bytes
  [232;174;190;229;164;135;231;174;161;231;144;134;229;145;189;228;187;164;230;137;167;232;161;140;229;174;140;
   230;136;144;239;188;154]%N.
Definition operation_failed_text : string := bytes
  [239;188;154;232;174;190;229;164;135;231;174;161;231;144;134;229;145;189;228;187;164;230;156;170;228;186;167;
   231;148;159;229;129;165;229;186;183;232;174;190;229;164;135;239;188;136]%N.
Definition closing_text : string := bytes
  [239;188;137]%N.
Definition stopped_text : string := bytes
  [83;105;109;117;108;97;116;111;114;32;229;183;178;229;129;156;230;173;162]%N.
Definition stop_failed_text : string := bytes
  [239;188;154;229;129;156;230;173;162;32;83;105;109;117;108;97;116;111;114;32;229;164;177;232;180;165]%N.

Definition failure_code (record : CommandRecord) : string :=
  completion_code record (if command_is CommandSucceeded record then "COMMAND_RESULT_INVALID" else "AGENT_COMMAND_FAILED").

Definition ensure_lifecycle (d : Domain.Device) (to : DeviceLifecycleStatus) (reason : string) (now : Z) : Tx Domain.Device :=
  if bool_decide (Lifecycle d = to) then mret d else apply_call (Transition d to reason now).

(** Move on from one of some lifecycles. *)
Definition advance (d : Domain.Device) (from : list DeviceLifecycleStatus) (to : DeviceLifecycleStatus) (reason : string) (now : Z)
    : Tx Domain.Device :=
  if bool_decide (Lifecycle d ∈ from) then apply_call (Transition d to reason now) else mret d.

(** The health event of an operation. *)
Definition operation_event (record : CommandRecord) (deviceID done failed : string) (ok : bool) (reason : string) (payload : obj)
    (now : Z) : Tx unit :=
  eventID ← newID;
  _ ← insert_health_event eventID deviceID "agent" (if ok then done else failed) (if ok then "info" else "error") reason
        ([("command_id", JStr (c_ID record)); ("command_type", JStr (c_CommandType record))] ++ payload) now;
  mret tt.

Definition management_event (record : CommandRecord) (deviceID : string) (ok : bool) (reason code : string) (now : Z) : Tx unit :=
  operation_event record deviceID "device_management_operation_succeeded" "device_management_operation_failed" ok reason
    [("error_code", JStr code)] now.

(** The row of a device whose operation failed. *)
Definition failed_row (a : Domain.Device) (reason : string) (now : Z) (row : DeviceRow) : DeviceRow :=
  row <| d_lifecycle := Lifecycle a |> <| d_health := Health a |> <| d_health_reason := Some reason |>
      <| d_consecutive_failures := d_consecutive_failures row + 1 |> <| d_updated_at := now |>.

(** Unhealthy, then quarantined: a device already in quarantine either stays or refuses. *)
Definition quarantine_failed (deviceID : string) (aggregate : Domain.Device) (stays : bool) (reason : string) (now : Z)
    (f : DeviceRow -> DeviceRow) : Tx unit :=
  let lifecycle := Lifecycle aggregate in
  a ← ensure_health aggregate HealthUnhealthy reason now;
  a ← (if stays then ensure_lifecycle a DeviceQuarantined reason now else apply_call (Transition a DeviceQuarantined reason now));
  _ ← save_device deviceID (lifecycle_is lifecycle) (fun row => f (failed_row a reason now row));
  mret tt.

(** The row of a device that came back with a connection. *)
Definition connected_row (a : Domain.Device) (c : Connection) (adb : option string) (reason : option string) (now : Z)
    (row : DeviceRow) : DeviceRow :=
  row <| d_serial := cn_Serial c |> <| d_adb_endpoint := adb |> <| d_appium_endpoint := Some (cn_AppiumEndpoint c) |>
      <| d_capabilities := assoc_set "appiumUdid" (JStr (cn_AppiumUDID c)) (d_capabilities row) |>
      <| d_lifecycle := Lifecycle a |> <| d_health := Health a |> <| d_health_reason := reason |>
      <| d_consecutive_failures := 0 |> <| d_last_seen_at := Some now |> <| d_updated_at := now |>.

(** The row of a device that must be seen by STF before it is healthy. *)
Definition stabilizing_row (a : Domain.Device) (c : Connection) (now : Z) (row : DeviceRow) : DeviceRow :=
  connected_row a c (Some (cn_ADBEndpoint c)) (Some STFReadinessStabilizationReason) now row.

(** ** The operations *)
Definition decode_deleted (o : obj) : bool := match bool_field o "deleted" with Some b => b | None => false end.

Definition reconcileManagementDelete (record : CommandRecord) (deviceID : string) (aggregate : Domain.Device) (now : Z) : Tx unit :=
  let succeeded := command_is CommandSucceeded record && decode_deleted (result_obj record) in
  let code := if succeeded then "" else failure_code record in
  let reason := if succeeded then "management delete command removed provider resources"
                else (code ++ ": management delete command did not remove provider resources")%string in
  _ ← (if succeeded then
         a ← apply_call (Transition aggregate DeviceDeleted reason now);
         _ ← save_device deviceID (lifecycle_is (Lifecycle aggregate))
               (fun row => row <| d_lifecycle := Lifecycle a |> <| d_health_reason := Some reason |> <| d_stf_serial := None |>
                               <| d_adb_endpoint := None |> <| d_appium_endpoint := None |> <| d_updated_at := now |>);
         mret tt
       else quarantine_failed deviceID aggregate true reason now (fun row => row));
  management_event record deviceID succeeded reason code now.

(** The outcome of a rollback operation: the valid result and whether the target was
    applied, or else the previous configuration restored. *)
Definition rollback_outcome (record : CommandRecord) (applied : managementOperationResult -> bool)
    : option (managementOperationResult * bool) :=
  r <-? valid_result record ;;
  if command_is CommandSucceeded record && applied r then Some (r, true)
  else if command_is CommandFailed record && mo_RollbackRestored r then Some (r, false) else None.

Definition was_applied (outcome : option (managementOperationResult * bool)) : bool :=
  match outcome with Some (_, applied) => applied | None => false end.
Definition was_restored (outcome : option (managementOperationResult * bool)) : bool :=
  match outcome with Some (_, applied) => negb applied | None => false end.

Definition rollback_code (record : CommandRecord) (applied : bool) (fallback : string) : string :=
  let code := default "" (c_ErrorCode record) in
  if String.eqb code "" && negb applied then fallback else code.

Definition rollback_reason (outcome : option (managementOperationResult * bool)) (code done restored failed : string) : string :=
  match outcome with
  | Some (_, true) => done
  | Some (_, false) => (code ++ ": target failed; previous " ++ restored ++ " was restored")%string
  | None => (code ++ ": target and previous " ++ failed ++ " restore did not produce a healthy device")%string
  end.

Definition profile_row (applied : bool) (payload : obj) (reason : string) (row : DeviceRow) : DeviceRow :=
  let row := row <| d_pending_runtime_profile := None |> in
  if applied
  then row <| d_runtime_profile_override := Some (mapValue payload "runtime_profile") |>
           <| d_runtime_profile_update_status := "idle" |> <| d_runtime_profile_update_error := None |>
  else row <| d_runtime_profile_update_status := "failed" |> <| d_runtime_profile_update_error := Some reason |>.

(** The device goes back to ready through its lifecycles, unhealthy until STF sees it;
    [None] when it is somewhere else. *)
Definition profile_ready (aggregate : Domain.Device) (reason : string) (now : Z) : Tx (option Domain.Device) :=
  a ← ensure_health aggregate HealthHealthy reason now;
  a ← advance a [DeviceQuarantined] DeviceProvisioning reason now;
  a ← advance a [DeviceProvisioning] DeviceBooting reason now;
  a ← advance a [DeviceBooting] DeviceReady reason now;
  if bool_decide (Lifecycle a = DeviceReady)
  then a ← apply_call (UpdateHealth a HealthUnhealthy STFReadinessStabilizationReason now); mret (Some a)
  else mret None.

Definition profile_event (record : CommandRecord) (deviceID : string) (outcome : option (managementOperationResult * bool))
    (reason code : string) (now : Z) : Tx unit :=
  operation_event record deviceID "device_runtime_profile_update_succeeded" "device_runtime_profile_update_failed"
    (was_applied outcome) reason [("rollback_restored", JBool (was_restored outcome)); ("error_code", JStr code)] now.

Definition reconcileManagementRuntimeProfileUpdate (record : CommandRecord) (deviceID : string) (aggregate : Domain.Device) (now : Z)
    : Tx unit :=
  let payload := c_Payload record in
  let outcome := rollback_outcome record mo_RuntimeProfileUpdateApplied in
  let code := rollback_code record (was_applied outcome) "RUNTIME_PROFILE_UPDATE_FAILED" in
  let reason := rollback_reason outcome code "management runtime profile update applied" "runtime profile" "runtime profile" in
  let lifecycle := Lifecycle aggregate in
  match outcome with
  | Some (r, applied) =>
    ready ← profile_ready aggregate reason now;
    match ready with
    | None => mret tt
    | Some a =>
      _ ← save_device deviceID (lifecycle_is lifecycle)
            (fun row => profile_row applied payload reason (stabilizing_row a (mo_Connection r) now row));
      profile_event record deviceID outcome reason code now
    end
  | None =>
    _ ← quarantine_failed deviceID aggregate true reason now (profile_row false payload reason);
    profile_event record deviceID outcome reason code now
  end.

Definition reimage_row (applied : bool) (payload : obj) (reason : string) (row : DeviceRow) : DeviceRow :=
  let row := row <| d_pending_image_id := None |> <| d_pending_runtime_profile := None |> in
  if applied
  then row <| d_image_id := Some (commandPayloadString payload "image_id") |>
           <| d_runtime_profile_override := Some (mapValue payload "runtime_profile") |>
           <| d_reimage_status := "idle" |> <| d_reimage_error := None |>
  else row <| d_reimage_status := "failed" |> <| d_reimage_error := Some reason |>.

(** The capabilities of the target image are merged before the identifier is set. *)
Definition merged_capabilities (applied : bool) (payload : obj) (row : DeviceRow) : DeviceRow :=
  if applied then row <| d_capabilities := obj_merge (d_capabilities row) (mapValue payload "capabilities") |> else row.

Definition reimage_ready (aggregate : Domain.Device) (reason : string) (now : Z) : Tx (option Domain.Device) :=
  a ← ensure_health aggregate HealthHealthy reason now;
  a ← advance a [DeviceProvisioning] DeviceBooting reason now;
  if bool_decide (Lifecycle a = DeviceBooting)
  then a ← apply_call (Transition a DeviceReady reason now);
       a ← apply_call (UpdateHealth a HealthUnhealthy STFReadinessStabilizationReason now);
       mret (Some a)
  else mret None.

Definition reimage_event (record : CommandRecord) (deviceID : string) (outcome : option (managementOperationResult * bool))
    (reason code : string) (now : Z) : Tx unit :=
  operation_event record deviceID "device_reimage_succeeded" "device_reimage_failed" (was_applied outcome) reason
    [("target_image_id", JStr (commandPayloadString (c_Payload record) "image_id"));
     ("rollback_restored", JBool (was_restored outcome)); ("error_code", JStr code)] now.

Definition reconcileManagementReimage (record : CommandRecord) (deviceID : string) (aggregate : Domain.Device) (now : Z) : Tx unit :=
  let payload := c_Payload record in
  let outcome := rollback_outcome record mo_ReimageApplied in
  let code := rollback_code record (was_applied outcome) "REIMAGE_COMMAND_FAILED" in
  let reason := rollback_reason outcome code "management reimage applied target image" "image" "image" in
  let lifecycle := Lifecycle aggregate in
  match outcome with
  | Some (r, applied) =>
    ready ← reimage_ready aggregate reason now;
    match ready with
    | None => mret tt
    | Some a =>
      _ ← save_device deviceID (lifecycle_is lifecycle)
            (fun row => reimage_row applied payload reason
               (stabilizing_row a (mo_Connection r) now (merged_capabilities applied payload row)));
      reimage_event record deviceID outcome reason code now
    end
  | None =>
    _ ← quarantine_failed deviceID aggregate false reason now (reimage_row false payload reason);
    reimage_event record deviceID outcome reason code now
  end.

Definition stopped_result (record : CommandRecord) : bool :=
  command_is CommandSucceeded record
  && match decode_operation (result_obj record) with
     | Some r => is_ios (mo_Platform r) && String.eqb (mo_State r) "stopped" && reachable_by_appium r
     | None => false
     end.

Definition reconcileManagementStop (record : CommandRecord) (deviceID : string) (aggregate : Domain.Device) (now : Z) : Tx unit :=
  let succeeded := stopped_result record in
  let code := if succeeded then "" else failure_code record in
  let reason := if succeeded then stopped_text else (code ++ stop_failed_text)%string in
  let lifecycle := Lifecycle aggregate in
  if succeeded then
    a ← ensure_health aggregate HealthUnknown reason now;
    if negb (bool_decide (Lifecycle a = DeviceStopped)) then mret tt
    else
      _ ← save_device deviceID (lifecycle_is lifecycle)
            (fun row => row <| d_health := Health a |> <| d_health_reason := Some reason |> <| d_consecutive_failures := 0 |>
                            <| d_last_seen_at := Some now |> <| d_updated_at := now |>);
      management_event record deviceID true reason code now
  else
    _ ← quarantine_failed deviceID aggregate false reason now (fun row => row);
    management_event record deviceID false reason code now.

(** Any other operation: create, start, restart, rebuild. *)
Definition waits_for_stf (record : CommandRecord) (r : managementOperationResult) : bool :=
  command_type_in ["create"; "rebuild"] record && negb (is_ios (mo_Platform r)).

Definition named_row (c : Connection) (row : DeviceRow) : DeviceRow :=
  if nonempty (cn_ProviderID c) then row <| d_provider_ref := cn_ProviderID c |> else row.

Definition nullif_empty (s : string) : option string := if String.eqb s "" then None else Some s.

Definition reconcileManagementRestart (record : CommandRecord) (deviceID : string) (aggregate : Domain.Device) (now : Z) : Tx unit :=
  let outcome := if command_is CommandSucceeded record then valid_result record else None in
  let lifecycle := Lifecycle aggregate in
  match outcome with
  | Some r =>
    let reason := (operation_done_text ++ c_CommandType record)%string in
    a ← ensure_health aggregate HealthHealthy reason now;
    a ← advance a [DeviceStopped; DeviceProvisioning] DeviceBooting reason now;
    if negb (bool_decide (Lifecycle a = DeviceBooting)) then mret tt
    else
      a ← apply_call (Transition a DeviceReady reason now);
      a ← (if waits_for_stf record r then apply_call (UpdateHealth a HealthUnhealthy STFReadinessStabilizationReason now) else mret a);
      let c := mo_Connection r in
      let stored_reason := if waits_for_stf record r then Some STFReadinessStabilizationReason else None in
      _ ← save_device deviceID (lifecycle_is lifecycle)
            (fun row => connected_row a c (nullif_empty (cn_ADBEndpoint c)) stored_reason now (named_row c row));
      management_event record deviceID true reason "" now
  | None =>
    let code := failure_code record in
    let reason := (code ++ operation_failed_text ++ c_CommandType record ++ closing_text)%string in
    _ ← quarantine_failed deviceID aggregate false reason now (fun row => row);
    management_event record deviceID false reason code now
  end.

(** ** Dispatch *)
Definition management_source (source : string) : bool := bool_decide (source ∈ ["management"; "self_healing"]).

(** The device is where the operation left it, or where a heartbeat may have taken it. *)
Definition operation_current (record : CommandRecord) (expectedState operationKind : string) (lifecycle : DeviceLifecycleStatus) : bool :=
  let provisioning := String.eqb expectedState (status_string DeviceProvisioning) in
  String.eqb (status_string lifecycle) expectedState
  || (command_type_in ["rebuild"] record && provisioning && bool_decide (lifecycle = DeviceBooting))
  || (String.eqb operationKind "runtime_profile_update" && provisioning
      && bool_decide (lifecycle ∈ [DeviceBooting; DeviceReady; DeviceQuarantined])).

Definition reconcile_device_operation (record : CommandRecord) (deviceID operationKind : string) (row : DeviceRow) : Tx unit :=
  now ← ClockNow;
  aggregate ← lift_result (RestoreDevice deviceID (d_lifecycle row) (d_health row));
  if command_type_in ["delete"] record then reconcileManagementDelete record deviceID aggregate now
  else if String.eqb operationKind "reimage" then reconcileManagementReimage record deviceID aggregate now
  else if String.eqb operationKind "runtime_profile_update"
  then reconcileManagementRuntimeProfileUpdate record deviceID aggregate now
  else if command_type_in ["stop"] record then reconcileManagementStop record deviceID aggregate now
  else reconcileManagementRestart record deviceID aggregate now.

Definition addressed_device (db : DB) (record : CommandRecord) (deviceID providerRef : string) : option DeviceRow :=
  match devices db !! deviceID with
  | Some d => if String.eqb (d_host_id d) (c_HostID record) && String.eqb (d_provider_ref d) providerRef then Some d else None
  | None => None
  end.

Definition reconcileManagementOperation (record : CommandRecord) : Tx unit :=
  _ ← ReconcileCommand record;
  let payload := c_Payload record in
  if in_flight record || negb (management_source (commandPayloadString payload "operation_source")) then mret tt
  else
    let deviceID := commandPayloadString payload "device_id" in
    let providerRef := commandPayloadString payload "provider_ref" in
    let expectedState := commandPayloadString payload "operation_state" in
    let operationKind := commandPayloadString payload "operation_kind" in
    _ ← guard_or (negb ((len deviceID <? 16) || String.eqb providerRef "" || String.eqb expectedState "")) CmdErrInvalidArgument;
    db ← get_db;
    match addressed_device db record deviceID providerRef with
    | None => mret tt
    | Some row =>
      if operation_current record expectedState operationKind (d_lifecycle row)
      then reconcile_device_operation record deviceID operationKind row
      else mret tt
    end.

(** ** Completing and recovering *)
Record CompletionError : Type := mkCompletionError { er_Code : string; er_Retryable : bool }.
Record CompletionInput : Type := mkCompletion {
  ci_LeaseToken : string; ci_Attempt : Z; ci_Status : CommandStatus; ci_Result : obj; ci_Error : option CompletionError }.

Definition upper (a : ascii) : bool := in_range 65 90 (N_of_ascii a).
Definition code_char (a : ascii) : bool :=
  let n := N_of_ascii a in in_range 65 90 n || in_range 48 57 n || (n =? 95)%N.

(** [errorCodePattern]: ^[A-Z][A-Z0-9_]{2,63}$. *)
Definition errorCodePattern (s : string) : bool :=
  match s with
  | String a rest => upper a && forall_chars code_char rest && (2 <=? len rest) && (len rest <=? 63)
  | EmptyString => false
  end.

Definition retryable_error (input : CompletionInput) : bool :=
  match ci_Error input with Some e => er_Retryable e | None => false end.

Definition valid_completion (id : string) (input : CompletionInput) : bool :=
  negb ((len id <? 16) || (len (ci_LeaseToken input) <? 16) || (ci_Attempt input <? 1))
  && bool_decide (ci_Status input ∈ [CommandSucceeded; CommandFailed; CommandTimedOut]).

Definition completion_error_code (input : CompletionInput) : Tx (option string) :=
  match ci_Error input with
  | None => mret None
  | Some e =>
    let value := TrimSpace (er_Code e) in
    if String.eqb value "" then mret None
    else _ ← guard_or (errorCodePattern value) CmdErrInvalidArgument; mret (Some value)
  end.

Definition complete_tx (id : string) (input : CompletionInput) (errorCode : option string) : Tx CommandRecord :=
  record ← CommandRepo.Complete id (ci_LeaseToken input) (ci_Attempt input) (ci_Status input) (Some (RedactMap (ci_Result input)))
             errorCode (retryable_error input);
  _ ← reconcileManagementOperation record;
  mret record.

Definition Complete (id : string) (input : CompletionInput) : Tx Command :=
  _ ← guard_or (valid_completion id input) CmdErrInvalidArgument;
  let target := if bool_decide (ci_Status input = CommandFailed) && retryable_error input then CommandPending else ci_Status input in
  state ← lift_result (RestoreCommand id CommandLeased);
  now ← ProcessNow;
  _ ← apply_call (transition state target "agent command completion" now);
  errorCode ← completion_error_code input;
  record ← map_err translate (WithinTx (complete_tx id input errorCode));
  mret (toCommand record).

Definition recover_tx : Tx CommandRecord :=
  record ← RecoverExpiredLease;
  _ ← reconcileManagementOperation record;
  mret record.

Definition RecoverExpiredOnce : Tx Command :=
  record ← map_err (fun e => if errors_is e RepoErrNotFound then CmdErrNoCommand else e) (WithinTx recover_tx);
  mret (toCommand record).

(** One tick of [RunLeaseRecovery]: recover until an error, whichever it is. *)
Definition recovery_tick (fuel : nat) : Tx (option Err) := drain fuel RecoverExpiredOnce.
