(* ===== verification/WarmPool.v ===== *)
(** * The warm pool controller ([internal/warmpool/controller.go])

    Creating emulators, completing and cleaning up their creation, rebuilding devices
    that were released, scaling pools down, validating images.  Each transaction of the
    controller is a definition; the cycle that runs them in the order of the code is in
    [PoolCycle] and [PoolScale].  Where a query has no order the rows come by identifier. *)
From Stdlib Require Import SpecFloat.
From S2P Require Import Prelude GoText Errors Domain Json Sensitive Actor Store.
From S2P Require Import Float64 RuntimeProfile Capacity ReservationRepo CommandRepo DeviceStore Reconcile DeviceOps ImageCatalog.
From S2P Require Import HostCommand HostSelection Completion.

(** [ORDER BY k DESC], by a time and then an identifier. *)
Definition order_by_desc {R} (k : R -> key) (l : list R) : list R := reverse (order_by k l).

(** ** Inserts *)

(** [devices.name] is a [varchar(40)] with the check [ck_devices_name]; the names that
    the services store neither begin nor end with white space. *)
Definition check_name (name : string) : Tx unit :=
  _ ← guard_or (rune_count name <=? 40) (ErrExternal "value too long for type character varying(40)");
  guard_or (2 <=? rune_count name) (ErrCheckViolation "ck_devices_name").

(** [INSERT INTO devices], through the unique indexes. *)
Definition insert_device (d : DeviceRow) : Tx unit :=
  _ ← check_name (d_name d);
  db ← get_db;
  _ ← guard_or (negb (bool_decide (is_Some (devices db !! d_id d)))) (ErrUniqueViolation "devices_pkey");
  match device_conflict db (d_id d) d with
  | Some constraint => throw (ErrUniqueViolation constraint)
  | None => put_db (fun db => db <| devices := <[d_id d := d]> (devices db) |>)
  end.

Definition insert_membership (poolID deviceID : string) : Tx unit :=
  now ← ClockNow;
  db ← get_db;
  _ ← guard_or (negb (bool_decide (is_Some (device_pool_devices db !! (poolID, deviceID))))) (ErrUniqueViolation "device_pool_devices_pkey");
  put_db (fun db => db <| device_pool_devices :=
    <[(poolID, deviceID) := mkPoolDeviceRow poolID deviceID true now now]> (device_pool_devices db) |>).

(** A row of [devices] as the inserts of the farm create it. *)
Definition new_device (id host : string) (image : option string) (platform kind provider ref mode serial : string) (caps : obj)
    (profile : option obj) (now : Z) (name : string) : DeviceRow :=
  mkDeviceRow id host image platform kind provider ref mode serial None None None caps DeviceProvisioning HealthUnknown
    None 0 None now now profile None None "idle" None "idle" None name.

(** ** Creating a device *)

(** The pool of the host: pools are named after the address of their host. *)
Definition named_after (h : HostRow) (p : PoolRow) : bool :=
  match h_address h with
  | Some address => String.eqb (p_name p)
      (if String.eqb (p_platform p) "ios" then "iOS - " ++ address else "android-" ++ address)%string
  | None => false
  end.

Definition resolvePoolForHost (hostID platform : string) (db : DB) : option string :=
  h <-? device_hosts db !! hostID ;;
  p <-? first_where (fun p => named_after h p && String.eqb (p_platform p) platform && bool_decide (p_status p = PoolActive))
          (order_by (fun p => (p_created_at p, p_id p)) (rows (device_pools db))) ;;
  Some (p_id p).

Definition poolPlatformOrDefault (poolID : string) (db : DB) : string :=
  match device_pools db !! poolID with
  | Some p => if String.eqb (p_platform p) "" then "android" else p_platform p
  | None => "android"
  end.

(** The first 16 bytes of a digest, in hexadecimal. *)
Definition short_digest (text : string) : Tx string := digest ← digest_text text; mret (String.substring 0 32 digest).

Definition create_payload (deviceID poolID imageID providerRef runtimeImage digest : string) (capabilities profile : obj)
    (provisioningKey : string) : obj :=
  [("device_id", JStr deviceID); ("pool_id", JStr poolID); ("image_id", JStr imageID); ("provider_ref", JStr providerRef);
   ("docker_image", JStr runtimeImage); ("docker_digest", JStr digest); ("capabilities", JObj capabilities);
   ("runtime_profile", JObj profile)]
  ++ (if nonempty provisioningKey then [("provisioning_key", JStr provisioningKey)] else []).

(** The name of a new emulator; an identifier has at least six characters. *)
Definition warm_name (deviceID : string) : string :=
  ("Android" ++ bytes [232; 174; 190; 229; 164; 135]%N ++ "-" ++ suffix_from deviceID (String.length deviceID - 6))%string.

Record CreatedDevice : Type := mkCreated { cd_DeviceID : string; cd_CommandID : string; cd_PoolID : string }.

Definition createDeviceCommand (poolID imageID runtimeImage digest hostID : string) (capabilities : obj) (profile : Profile)
    (provisioningKey : string) : Tx CreatedDevice :=
  deviceID ← newID;
  commandID ← newID;
  let providerRef := ("emulator-" ++ deviceID)%string in
  document ← marshalled profile;
  now ← ClockNow;
  _ ← insert_device (new_device deviceID hostID (Some imageID) "android" "emulator" "docker_emulator" providerRef "clean"
        ("pending-" ++ deviceID)%string capabilities (Some document) now (warm_name deviceID));
  db ← get_db;
  let attributed := default poolID (resolvePoolForHost hostID (poolPlatformOrDefault poolID db) db) in
  _ ← insert_membership attributed deviceID;
  key ← (if nonempty provisioningKey then h ← short_digest provisioningKey; mret ("provision-" ++ h)%string
         else h ← short_digest (attributed ++ NUL ++ imageID ++ NUL ++ deviceID)%string; mret ("warm-" ++ h)%string);
  _ ← insert_command (mkCreateCommand commandID hostID "create"
        (create_payload deviceID attributed imageID providerRef runtimeImage digest capabilities document provisioningKey) 3 key);
  mret (mkCreated deviceID commandID attributed).

(** ** Provisioning on request *)
Record ProvisionInput : Type := mkProvisionInput {
  pi_PoolID : string; pi_ImageID : string; pi_HardwareProfileID : string; pi_RuntimeProfile : Profile; pi_IdempotencyKey : string }.

Record Provisioning : Type := mkProvisioning {
  pv_ID : string; pv_DeviceID : string; pv_CommandID : string; pv_HostID : string; pv_Status : string;
  pv_ErrorStage : string; pv_ErrorCode : string; pv_CapacityResult : option obj }.

(** The latest create command with the key. *)
Definition provisioned_by (key : string) (db : DB) : option CommandRecord :=
  first_where (fun c => command_type_in ["create"] c && payload_is "provisioning_key" key c)
    (order_by (fun c => (- c_CreatedAt c, c_ID c)) (commands db)).

Definition provisioned (c : CommandRecord) : Provisioning :=
  mkProvisioning (c_ID c) (default "" (get_text (c_Payload c) "device_id")) (c_ID c) (c_HostID c) "provisioning" "" "" None.

Definition phone_capabilities (image : ImageRow) (requested : Profile) (phone : PhoneProfile) : obj :=
  obj_merge
    [("platformName", JStr "Android"); ("apiLevel", jint (im_api_level image)); ("abi", JStr (im_abi image));
     ("resolution", JStr (resolution_text requested)); ("hardware_profile_id", JStr (ph_ID phone));
     ("hardware_profile_name", JStr (ph_Name phone)); ("avd_device", JStr (ph_Name phone))]
    (Map requested).

(** [Fail] carries the capacity of the hosts; nothing was written then. *)
Definition provision_tx (input : ProvisionInput) (phone : PhoneProfile) : Tx (result Capacity.Result Provisioning) :=
  db ← get_db;
  match provisioned_by (pi_IdempotencyKey input) db with
  | Some c => mret (Ok (provisioned c))
  | None =>
    pool ← expect_row (device_pools db !! pi_PoolID input) ErrNoRows;
    _ ← guard_or (String.eqb (p_platform pool) "android") ErrNoRows;
    _ ← guard_or (bool_decide (p_status pool = PoolActive)) (ErrExternal "device pool is not active");
    image ← expect_row (device_images db !! pi_ImageID input) ErrNoRows;
    _ ← guard_or (bool_decide (im_status image = ImageReady)) ErrNoRows;
    host ← lockHostCapacity (pi_ImageID input) (pi_RuntimeProfile input) true;
    match host with
    | Fail r => mret (Fail r)
    | Ok hostID =>
      created ← createDeviceCommand (pi_PoolID input) (pi_ImageID input) (im_docker_image image) (im_docker_digest image) hostID
                  (phone_capabilities image (pi_RuntimeProfile input) phone) (pi_RuntimeProfile input) (pi_IdempotencyKey input);
      now ← ClockNow;
      _ ← put_db (fun db => db <| device_pools := alter (fun p => p <| p_total_target := p_total_target p + 1 |>
              <| p_base_device_id := match p_base_device_id p with Some b => Some b | None => Some (cd_DeviceID created) end |>
              <| p_updated_at := now |>) (cd_PoolID created) (device_pools db) |>);
      mret (Ok (mkProvisioning (cd_CommandID created) (cd_DeviceID created) (cd_CommandID created) hostID "provisioning" "" "" None))
    end
  end.

Definition invalid_request : Err := ErrExternal "invalid device provisioning request".

Definition Provision (input : ProvisionInput) : Tx (result Capacity.Result Provisioning) :=
  _ ← guard_or (nonempty (pi_PoolID input) && nonempty (pi_ImageID input) && (8 <=? len (pi_IdempotencyKey input))) invalid_request;
  _ ← guard_or (Validate (pi_RuntimeProfile input)) (ErrExternal "emulator runtime profile is outside supported limits");
  phone ← expect_row (Find (pi_HardwareProfileID input)) (ErrExternal "unknown Phone hardware profile");
  WithinTx (provision_tx input phone).

(** ** Provisioning jobs *)
Record CatalogProvisionInput : Type := mkCatalogProvision {
  cp_ClientID : string; cp_IdempotencyKey : string; cp_PoolID : string; cp_CatalogID : string;
  cp_HardwareProfileID : string; cp_RuntimeProfile : Profile }.

Definition job_view (j : JobRow) : Provisioning :=
  mkProvisioning (j_id j) (default "" (j_device_id j)) (default "" (j_command_id j)) "" (j_status j)
    (default "" (j_error_stage j)) (default "" (j_error_code j)) (j_capacity_result j).

Definition job_key (clientID key : string) (j : JobRow) : bool :=
  String.eqb (j_client_id j) clientID && String.eqb (j_idempotency_key j) key.

Definition create_job_tx (jobID hash : string) (document : obj) (input : CatalogProvisionInput) : Tx (Provisioning * bool) :=
  db ← get_db;
  pool ← expect_row (device_pools db !! cp_PoolID input) ErrNoRows;
  _ ← guard_or (String.eqb (p_platform pool) "android") ErrNoRows;
  _ ← guard_or (bool_decide (p_status pool = PoolActive)) (ErrExternal "device pool is not active");
  _ ← expect_row (android_system_image_catalog db !! cp_CatalogID input) ErrNoRows;
  match first_where (job_key (cp_ClientID input) (cp_IdempotencyKey input)) (rows (device_provisioning_jobs db)) with
  | Some j =>
    _ ← guard_or (String.eqb (j_request_hash j) hash)
          (ErrExternal "device provisioning idempotency key conflicts with another request");
    mret (job_view j, false)
  | None =>
    now ← ClockNow;
    _ ← guard_or (negb (bool_decide (is_Some (device_provisioning_jobs db !! jobID)))) (ErrUniqueViolation "device_provisioning_jobs_pkey");
    _ ← put_db (fun db => db <| device_provisioning_jobs := <[jobID := mkJobRow jobID (cp_ClientID input) (cp_IdempotencyKey input)
          hash (cp_PoolID input) (cp_CatalogID input) (cp_HardwareProfileID input) document None None None None "preparing_image"
          None None None now now]> (device_provisioning_jobs db) |>);
    mret (mkProvisioning jobID "" "" "" "preparing_image" "" "" None, true)
  end.

Definition CreateCatalogProvisioning (input : CatalogProvisionInput) : Tx (Provisioning * bool) :=
  _ ← guard_or (nonempty (cp_ClientID input) && (8 <=? len (cp_IdempotencyKey input)) && nonempty (cp_PoolID input)
                && nonempty (cp_CatalogID input) && nonempty (cp_HardwareProfileID input)) invalid_request;
  _ ← guard_or (bool_decide (is_Some (Find (cp_HardwareProfileID input))) && Validate (cp_RuntimeProfile input))
        (ErrExternal "invalid Phone hardware profile or runtime profile");
  document ← marshalled (cp_RuntimeProfile input);
  hash ← env_gets (fun env _ => env_digest env (JObj
    [("pool_id", JStr (cp_PoolID input)); ("catalog_id", JStr (cp_CatalogID input));
     ("hardware_profile_id", JStr (cp_HardwareProfileID input)); ("runtime_profile", JObj document)]));
  jobID ← newID;
  WithinTx (create_job_tx jobID hash document input).

(** [UPDATE device_provisioning_jobs SET ... WHERE id=$1 AND guard]: the rows affected. *)
Definition update_job (id : string) (guard : JobRow -> bool) (f : JobRow -> JobRow) : Tx Z :=
  now ← ClockNow;
  db ← get_db;
  match device_provisioning_jobs db !! id with
  | Some j => if guard j
              then _ ← put_db (fun db => db <| device_provisioning_jobs :=
                     <[id := f j <| j_updated_at := now |>]> (device_provisioning_jobs db) |>); mret 1
              else mret 0
  | None => mret 0
  end.

Definition job_is (status : string) (j : JobRow) : bool := String.eqb (j_status j) status.

Definition AttachPreparation (jobID preparationID : string) : Tx unit :=
  _ ← guard_or (nonempty jobID && nonempty preparationID) (ErrExternal "invalid provisioning preparation");
  n ← update_job jobID (fun j => job_is "preparing_image" j && bool_decide (j_preparation_id j = None))
        (fun j => j <| j_preparation_id := Some preparationID |>);
  guard_or (negb (n =? 0)) (ErrExternal "device provisioning state changed").

(** The latest preparation of the catalogue entry that has an image. *)
Definition cached_preparation (catalogID : string) (db : DB) : option PreparationRow :=
  first_where (fun p => String.eqb (pr_catalog_id p) catalogID && String.eqb (pr_status p) "cached" && bool_decide (is_Some (pr_image_id p)))
    (order_by_desc (fun p => (pr_updated_at p, pr_id p)) (rows (device_image_preparations db))).

Definition AttachCachedPreparation (jobID : string) : Tx bool :=
  db ← get_db;
  n ← match device_provisioning_jobs db !! jobID with
      | Some j =>
        match cached_preparation (j_catalog_id j) db with
        | Some p => update_job jobID (fun j => job_is "preparing_image" j && bool_decide (j_preparation_id j = None))
                      (fun j => j <| j_preparation_id := Some (pr_id p) |>)
        | None => mret 0
        end
      | None => mret 0
      end;
  mret (n =? 1).

Definition open_job (j : JobRow) : bool := negb (job_is "ready" j) && negb (job_is "failed" j).

Definition failed_job (stage code : string) (j : JobRow) : JobRow :=
  j <| j_status := "failed" |> <| j_error_stage := Some stage |> <| j_error_code := Some code |>.

Definition FailCatalogProvisioning (jobID stage code : string) : Tx unit :=
  _ ← guard_or (nonempty jobID) (ErrExternal "invalid device provisioning job");
  _ ← update_job jobID open_job (failed_job stage code);
  mret tt.

Definition GetCatalogProvisioning (id : string) : Tx Provisioning :=
  db ← get_db;
  j ← expect_row (device_provisioning_jobs db !! id) ErrNoRows;
  mret (job_view j).

(** [json.Marshal] of a capacity result. *)
Definition result_document (r : Capacity.Result) : obj :=
  [("fits", JBool (cr_Fits r)); ("additional_devices", jint (cr_Additional r))]
  ++ (if nonempty (cr_Limiting r) then [("limiting_resource", JStr (cr_Limiting r))] else [])
  ++ (if bool_decide (cr_Shortfall r = []) then [] else [("shortfall", JObj (map (fun p => (p.1, jint p.2)) (cr_Shortfall r)))])
  ++ [("available_cpu_cores", float_json (cr_AvailableCPU r)); ("available_memory_mb", jint (cr_AvailableMemoryMB r));
      ("available_disk_mb", jint (cr_AvailableDiskMB r))].

(** A job whose image is ready and that has no device yet. *)
Definition provision_job (j : JobRow) (image : string) : Tx unit :=
  match Parse (j_runtime_profile j) with
  | None => _ ← update_job (j_id j) (fun _ => true) (failed_job "runtime_profile" "INVALID_RUNTIME_PROFILE"); mret tt
  | Some profile =>
    r ← attempt (Provision (mkProvisionInput (j_pool_id j) image (j_hardware_profile_id j) profile ("catalog-provision-" ++ j_id j)%string));
    match r with
    | Ok (Ok created) =>
      _ ← update_job (j_id j) (fun _ => true) (fun x => x <| j_image_id := Some image |> <| j_device_id := Some (pv_DeviceID created) |>
            <| j_command_id := Some (pv_CommandID created) |> <| j_status := "creating_emulator" |> <| j_error_stage := None |>
            <| j_error_code := None |> <| j_capacity_result := None |>);
      mret tt
    | Ok (Fail capacity) =>
      _ ← update_job (j_id j) (fun x => bool_decide (j_device_id x = None)) (fun x => x <| j_status := "waiting_capacity" |>
            <| j_error_stage := Some "host_capacity" |> <| j_error_code := Some "DEVICE_CAPACITY_UNAVAILABLE" |>
            <| j_capacity_result := Some (result_document capacity) |>);
      mret tt
    | Fail _ => mret tt
    end
  end.

(** A job that follows its device. *)
Definition job_status (d : DeviceRow) : string * option string :=
  if lifecycle_is DeviceBooting d then ("adb_check", None)
  else if lifecycle_is DeviceQuarantined d then ("failed", Some "device_readiness")
  else if lifecycle_is DeviceReady d && healthy d then ("ready", None)
  else ("creating_emulator", None).

Definition follow_device (j : JobRow) (deviceID : string) : Tx unit :=
  db ← get_db;
  match devices db !! deviceID with
  | None => mret tt
  | Some d =>
    _ ← update_job (j_id j) (fun _ => true) (fun x => x <| j_status := (job_status d).1 |> <| j_error_stage := (job_status d).2 |>);
    mret tt
  end.

(** One job, with its preparation as the query read it. *)
Definition reconcile_job (j : JobRow) (p : option PreparationRow) : Tx unit :=
  match p with
  | None => mret tt
  | Some p =>
    if String.eqb (pr_status p) "failed"
    then _ ← update_job (j_id j) (fun x => negb (job_is "failed" x)) (failed_job "prepare_system_image" (default "" (pr_error_code p))); mret tt
    else if negb (String.eqb (pr_status p) "cached") || negb (nonempty (default "" (pr_image_id p))) then mret tt
    else if nonempty (default "" (j_device_id j)) then follow_device j (default "" (j_device_id j))
    else provision_job j (default "" (pr_image_id p))
  end.

Fixpoint reconcile_jobs (jobs : list (JobRow * option PreparationRow)) : Tx unit :=
  match jobs with
  | [] => mret tt
  | (j, p) :: rest => _ ← reconcile_job j p; reconcile_jobs rest
  end.

Definition reconcileCatalogProvisioningJobs : Tx unit :=
  db ← get_db;
  reconcile_jobs (map (fun j => (j, id ← j_preparation_id j; device_image_preparations db !! id))
    (filter (fun j => open_job j = true) (order_by (fun j => (j_created_at j, j_id j)) (rows (device_provisioning_jobs db))))).
