(* ===== verification/PoolCycle.v ===== *)
(** * The cycle of the warm pool ([internal/warmpool/controller.go])

    One cycle settles the devices that were released and rebuilt, the deletions that
    finished and the images under validation, moves the provisioning jobs on, and then
    scales every pool: creations that succeeded, devices to clean up, devices too many
    and devices missing. *)
From Stdlib Require Import SpecFloat.
From S2P Require Import Prelude GoText Errors Domain Json Sensitive Actor Store.
From S2P Require Import Float64 RuntimeProfile Capacity ReservationRepo CommandRepo DeviceStore Reconcile DeviceOps ImageCatalog.
From S2P Require Import HostCommand HostSelection Completion WarmPool.

(** ** Counts of a cycle ([warmpool.Result]) *)
Record Counts : Type := mkCounts {
  n_Configurations : Z; n_ValidationsQueued : Z; n_ValidationsCompleted : Z; n_ValidationsFailed : Z; n_RebuildsQueued : Z;
  n_RebuildsCompleted : Z; n_RebuildsFailed : Z; n_DevicesCreated : Z; n_DevicesReady : Z; n_DevicesFailed : Z;
  n_DeletesQueued : Z; n_DeletesCompleted : Z; n_DeletesFailed : Z; n_CapacityMisses : Z; n_BackoffSkips : Z }.
#[export] Instance eta_Counts : Eta Counts := fun c =>
  mkCounts (n_Configurations c) (n_ValidationsQueued c) (n_ValidationsCompleted c) (n_ValidationsFailed c) (n_RebuildsQueued c)
    (n_RebuildsCompleted c) (n_RebuildsFailed c) (n_DevicesCreated c) (n_DevicesReady c) (n_DevicesFailed c) (n_DeletesQueued c)
    (n_DeletesCompleted c) (n_DeletesFailed c) (n_CapacityMisses c) (n_BackoffSkips c).

Definition no_counts : Counts := mkCounts 0 0 0 0 0 0 0 0 0 0 0 0 0 0 0.

Definition add_counts (a b : Counts) : Counts :=
  mkCounts (n_Configurations a + n_Configurations b) (n_ValidationsQueued a + n_ValidationsQueued b)
    (n_ValidationsCompleted a + n_ValidationsCompleted b) (n_ValidationsFailed a + n_ValidationsFailed b)
    (n_RebuildsQueued a + n_RebuildsQueued b) (n_RebuildsCompleted a + n_RebuildsCompleted b)
    (n_RebuildsFailed a + n_RebuildsFailed b) (n_DevicesCreated a + n_DevicesCreated b) (n_DevicesReady a + n_DevicesReady b)
    (n_DevicesFailed a + n_DevicesFailed b) (n_DeletesQueued a + n_DeletesQueued b)
    (n_DeletesCompleted a + n_DeletesCompleted b) (n_DeletesFailed a + n_DeletesFailed b)
    (n_CapacityMisses a + n_CapacityMisses b) (n_BackoffSkips a + n_BackoffSkips b).

(** Run a transaction for each identifier; the first error ends the loop. *)
Fixpoint for_each (ids : list string) (m : string -> Tx Counts) : Tx Counts :=
  match ids with
  | [] => mret no_counts
  | id :: rest => c ← m id; cs ← for_each rest m; mret (add_counts c cs)
  end.

(** ** The result of a rebuild or a creation *)
Record rebuildResult : Type := mkRebuild {
  rb_Generation : Z; rb_Serial : string; rb_ADBEndpoint : string; rb_AppiumEndpoint : string; rb_AppiumUDID : string;
  rb_Online : bool; rb_ADBOnline : bool; rb_BootCompleted : bool; rb_AppiumHealthy : bool }.

Definition decode_rebuild (o : obj) : option rebuildResult :=
  generation <-? int_field o "generation" ;;
  connection <-? struct_field o "connection" ;;
  serial <-? string_field connection "serial" ;;
  adb <-? string_field connection "adb_endpoint" ;;
  appium <-? string_field connection "appium_endpoint" ;;
  udid <-? string_field connection "appium_udid" ;;
  health <-? struct_field o "health" ;;
  online <-? bool_field health "online" ;;
  adbOnline <-? bool_field health "adb_online" ;;
  boot <-? bool_field health "boot_completed" ;;
  appiumHealthy <-? bool_field health "appium_healthy" ;;
  Some (mkRebuild generation serial adb appium udid online adbOnline boot appiumHealthy).

Definition validRebuildResult (v : rebuildResult) : bool :=
  (0 <? rb_Generation v) && nonempty (rb_Serial v) && nonempty (rb_ADBEndpoint v) && nonempty (rb_AppiumEndpoint v)
  && nonempty (rb_AppiumUDID v) && rb_Online v && rb_ADBOnline v && rb_BootCompleted v && rb_AppiumHealthy v.

Definition valid_rebuild (c : CommandRecord) : option rebuildResult :=
  v <-? decode_rebuild (result_obj c) ;; if validRebuildResult v then Some v else None.

(** The row of a device that passed its checks and waits for STF. *)
Definition ready_row (a : Domain.Device) (v : rebuildResult) (now : Z) (row : DeviceRow) : DeviceRow :=
  row <| d_serial := rb_Serial v |> <| d_adb_endpoint := Some (rb_ADBEndpoint v) |> <| d_appium_endpoint := Some (rb_AppiumEndpoint v) |>
      <| d_capabilities := assoc_set "appiumUdid" (JStr (rb_AppiumUDID v)) (d_capabilities row) |>
      <| d_lifecycle := Lifecycle a |> <| d_health := Health a |> <| d_health_reason := Some STFReadinessStabilizationReason |>
      <| d_consecutive_failures := 0 |> <| d_last_seen_at := Some now |> <| d_updated_at := now |>.

(** The row of a device that goes to quarantine. *)
Definition failing_row (a : Domain.Device) (reason : string) (now : Z) (row : DeviceRow) : DeviceRow := failed_row a reason now row.

(** ** Devices that were released and are rebuilt *)
Record recyclingDevice : Type := mkRecycling {
  rd_Row : DeviceRow; rd_Image : ImageRow; rd_ReservationID : string; rd_RuntimeProfile : Profile; rd_HostOnline : bool }.

Definition recycling (d : DeviceRow) : bool :=
  String.eqb (d_device_kind d) "emulator" && String.eqb (d_lifecycle_mode d) "rebuild" && lifecycle_is DeviceRecycling d.

Definition closed_reservation (deviceID : string) (db : DB) : option ReservationRecord :=
  first_where (fun r => on_device deviceID r && (status_is ReservationReleased r || status_is ReservationExpired r
                                                 || status_is ReservationForceReleased r))
    (order_by_desc (fun r => (default (r_UpdatedAt r) (r_ReleasedAt r), r_ID r)) (rows (device_reservations db))).

Definition online_host (h : HostRow) : bool := bool_decide (h_status h = HostOnline) && negb (h_draining h).

(** [None] is a missing row. *)
Definition lockRecyclingDevice (id : string) : Tx (option recyclingDevice) :=
  db ← get_db;
  match (d <-? devices db !! id ;; h <-? device_hosts db !! d_host_id d ;; imageID <-? d_image_id d ;;
         image <-? device_images db !! imageID ;; r <-? closed_reservation id db ;;
         if recycling d then Some (d, h, image, r) else None) with
  | None => mret None
  | Some (d, h, image, r) =>
    profile ← expect_row (Parse (im_resource_config image)) (ErrExternal "invalid runtime profile");
    mret (Some (mkRecycling d image (r_ID r) profile (online_host h)))
  end.

(** [INSERT ... ON CONFLICT(host_id,idempotency_key) DO NOTHING]. *)
Definition insert_command_once (p : CreateCommandParams) : Tx unit :=
  db ← get_db;
  match first_where (command_key (cc_HostID p) (cc_IdempotencyKey p)) (commands db) with
  | Some _ => mret tt
  | None => insert_command p
  end.

Definition queueRecycleRebuild (device : recyclingDevice) : Tx unit :=
  let row := rd_Row device in
  commandID ← newID;
  document ← marshalled (rd_RuntimeProfile device);
  hash ← short_digest (d_id row ++ NUL ++ rd_ReservationID device)%string;
  insert_command_once (mkCreateCommand commandID (d_host_id row) "rebuild"
    [("device_id", JStr (d_id row)); ("host_id", JStr (d_host_id row)); ("image_id", JStr (im_id (rd_Image device)));
     ("docker_image", JStr (im_docker_image (rd_Image device))); ("docker_digest", JStr (im_docker_digest (rd_Image device)));
     ("provider_ref", JStr (d_provider_ref row)); ("reservation_id", JStr (rd_ReservationID device));
     ("capabilities", JObj (d_capabilities row)); ("runtime_profile", JObj document)] 3 ("recycle-" ++ hash)%string).

Definition state_changed : Err := ErrExternal "recycling device state changed concurrently".

Definition restored (d : DeviceRow) : Tx Domain.Device := lift_result (RestoreDevice (d_id d) (d_lifecycle d) (d_health d)).

Definition completeRecycle (current : recyclingDevice) (v : rebuildResult) : Tx unit :=
  let row := rd_Row current in
  now ← ClockNow;
  aggregate ← restored row;
  a ← ensure_health aggregate HealthHealthy "rebuild readiness checks passed" now;
  a ← apply_call (Transition a DeviceReady "rebuild removed previous run data and passed readiness checks" now);
  a ← apply_call (UpdateHealth a HealthUnhealthy STFReadinessStabilizationReason now);
  n ← save_device (d_id row) (lifecycle_is DeviceRecycling) (ready_row a v now);
  expect_one n state_changed.

Definition failRecycle (current : recyclingDevice) (code reason : string) : Tx unit :=
  let row := rd_Row current in
  now ← ClockNow;
  aggregate ← restored row;
  a ← ensure_health aggregate HealthUnhealthy reason now;
  a ← apply_call (Transition a DeviceQuarantined reason now);
  _ ← save_device (d_id row) (lifecycle_is DeviceRecycling) (failing_row a (code ++ ": " ++ reason)%string now);
  eventID ← newID;
  _ ← insert_health_event eventID (d_id row) "reconciler" "device_rebuild_failed" "error" reason
        [("error_code", JStr code); ("reservation_id", JStr (rd_ReservationID current))] now;
  mret tt.

Definition rebuild_command (device : recyclingDevice) (db : DB) : option CommandRecord :=
  first_where (fun c => command_type_in ["rebuild"] c && for_device (d_id (rd_Row device)) c
                        && payload_is "reservation_id" (rd_ReservationID device) c)
    (order_by_desc (fun c => (c_CreatedAt c, c_ID c)) (commands db)).

Definition recycle_tx (id : string) : Tx Counts :=
  found ← lockRecyclingDevice id;
  match found with
  | None => mret no_counts
  | Some current =>
    db ← get_db;
    match rebuild_command current db with
    | None =>
      if rd_HostOnline current then _ ← queueRecycleRebuild current; mret (no_counts <| n_RebuildsQueued := 1 |>)
      else mret no_counts
    | Some c =>
      if in_flight c then mret no_counts
      else if command_is CommandSucceeded c then
        match valid_rebuild c with
        | Some v => _ ← completeRecycle current v; mret (no_counts <| n_RebuildsCompleted := 1 |>)
        | None => _ ← failRecycle current "REBUILD_RESULT_INVALID" "rebuild command returned an incomplete readiness snapshot";
                  mret (no_counts <| n_RebuildsFailed := 1 |>)
        end
      else _ ← failRecycle current (completion_code c "REBUILD_FAILED") "rebuild command exhausted retries";
           mret (no_counts <| n_RebuildsFailed := 1 |>)
    end
  end.

Definition reconcileRecyclingDevices : Tx Counts :=
  db ← get_db;
  for_each (map d_id (filter (fun d => recycling d = true) (order_by (fun d => (d_updated_at d, d_id d)) (rows (devices db)))))
    (fun id => WithinTx (recycle_tx id)).

(** ** Deletions that finished *)
Definition failedCreateCleanupSource : string := "warm_pool_failed_create_cleanup".
Definition quarantinedCleanupSource : string := "warm_pool_quarantined_cleanup".
Definition scaleDownSource : string := "warm_pool_scale_down".

Definition source_of (c : CommandRecord) : string := default "" (get_text (c_Payload c) "operation_source").

Definition pool_delete (c : CommandRecord) : bool :=
  command_type_in ["delete"] c && bool_decide (source_of c ∈ [scaleDownSource; failedCreateCleanupSource; quarantinedCleanupSource]).

Definition unreconciled (c : CommandRecord) : bool := negb (payload_is "scale_down_reconciled" "true" c).

Definition finished (c : CommandRecord) : bool :=
  bool_decide (c_Status c ∈ [CommandSucceeded; CommandFailed; CommandTimedOut; CommandCanceled]).

Definition confirmed_deleted (c : CommandRecord) : bool :=
  command_is CommandSucceeded c && match bool_field (result_obj c) "deleted" with Some b => b | None => false end.

Definition deleted_text (source : string) : string * string :=
  if String.eqb source failedCreateCleanupSource
  then ("warm_pool_failed_create_cleanup_completed", "failed create cleanup removed provider resources")
  else if String.eqb source quarantinedCleanupSource
  then ("warm_pool_quarantined_cleanup_completed", "quarantined emulator resources removed")
  else ("warm_pool_scale_down_completed", "automatic scale down removed emulator resources").

Definition deleted_row (reason : string) (now : Z) (row : DeviceRow) : DeviceRow :=
  row <| d_lifecycle := DeviceDeleted |> <| d_health_reason := Some reason |> <| d_adb_endpoint := None |>
      <| d_appium_endpoint := None |> <| d_stf_serial := None |> <| d_updated_at := now |>.

(** [UPDATE device_pools SET base_device_id=NULL WHERE base_device_id=$1]. *)
Definition forget_base (deviceID : string) (now : Z) (db : DB) : DB :=
  db <| device_pools := (fun p => if bool_decide (p_base_device_id p = Some deviceID)
                                  then p <| p_base_device_id := None |> <| p_updated_at := now |> else p) <$> device_pools db |>.

(** The pool that the provisioning request of the device had raised. *)
Definition requesting_pool (deviceID : string) (db : DB) : option string :=
  c <-? first_where (fun c => command_type_in ["create"] c && for_device deviceID c && has_key (c_Payload c) "provisioning_key")
          (order_by_desc (fun c => (c_CreatedAt c, c_ID c)) (commands db)) ;;
  get_text (c_Payload c) "pool_id".

(** [SET total_target=GREATEST(p.total_target-1,0)], under [ck_device_pools_min_ready]. *)
Definition lower_target (poolID : string) (now : Z) : Tx unit :=
  db ← get_db;
  match device_pools db !! poolID with
  | None => mret tt
  | Some p =>
    let target := Z.max (p_total_target p - 1) 0 in
    _ ← guard_or (p_min_ready p <=? target) (ErrCheckViolation "ck_device_pools_min_ready");
    put_db (fun db => db <| device_pools := <[poolID := p <| p_total_target := target |> <| p_updated_at := now |>]> (device_pools db) |>)
  end.

Definition fail_jobs (deviceID : string) (now : Z) (db : DB) : DB :=
  db <| device_provisioning_jobs := (fun j => if bool_decide (j_device_id j = Some deviceID) && open_job j
          then failed_job "device_creation" "EMULATOR_CREATE_FAILED" j <| j_updated_at := now |> else j)
        <$> device_provisioning_jobs db |>.

Definition settle_deleted (d : DeviceRow) (source : string) (now : Z) : Tx unit :=
  let id := d_id d in
  let reason := (deleted_text source).2 in
  aggregate ← restored d;
  _ ← (if bool_decide (Lifecycle aggregate = DeviceDeleted) then mret aggregate
       else apply_call (Transition aggregate DeviceDeleted reason now));
  _ ← save_device id (fun _ => true) (deleted_row reason now);
  _ ← put_db (disable_memberships id now);
  _ ← put_db (forget_base id now);
  if String.eqb source failedCreateCleanupSource then
    _ ← put_db (fail_jobs id now);
    db ← get_db;
    match requesting_pool id db with Some poolID => lower_target poolID now | None => mret tt end
  else mret tt.

Definition settle_failed (d : DeviceRow) (reason : string) (now : Z) : Tx unit :=
  aggregate ← restored d;
  a ← ensure_health aggregate HealthUnhealthy reason now;
  a ← ensure_lifecycle a DeviceQuarantined reason now;
  _ ← save_device (d_id d) (fun _ => true) (failing_row a reason now);
  mret tt.

Definition unsettled_delete (deviceID : string) (db : DB) : option CommandRecord :=
  first_where (fun c => pool_delete c && for_device deviceID c && unreconciled c)
    (order_by_desc (fun c => (c_CreatedAt c, c_ID c)) (commands db)).

Definition reconciled_payload (c : CommandRecord) (now : Z) : CommandRecord :=
  c <| c_Payload := assoc_set "scale_down_reconciled" (JBool true) (c_Payload c) |> <| c_UpdatedAt := now |>.

Definition delete_event (deviceID commandID eventType severity reason : string) (c : CommandRecord) (now : Z) : Tx unit :=
  eventID ← newID;
  _ ← insert_health_event eventID deviceID "reconciler" eventType severity reason [("command_id", JStr commandID)] now;
  put_command commandID (reconciled_payload c now).

Definition settle_tx (deviceID : string) : Tx Counts :=
  db ← get_db;
  match unsettled_delete deviceID db, devices db !! deviceID with
  | Some c, Some d =>
    if in_flight c then mret no_counts
    else
      now ← ClockNow;
      let source := source_of c in
      if confirmed_deleted c then
        _ ← settle_deleted d source now;
        _ ← delete_event deviceID (c_ID c) (deleted_text source).1 "info" (deleted_text source).2 c now;
        mret (no_counts <| n_DeletesCompleted := 1 |>)
      else
        let reason := (completion_code c "EMULATOR_DELETE_FAILED" ++ ": automatic scale down could not remove emulator resources")%string in
        _ ← settle_failed d reason now;
        _ ← delete_event deviceID (c_ID c)
              (if String.eqb source failedCreateCleanupSource then "warm_pool_failed_create_cleanup_failed"
               else "warm_pool_scale_down_failed") "error" reason c now;
        mret (no_counts <| n_DeletesFailed := 1 |>)
  | _, _ => mret no_counts
  end.

(** [SELECT DISTINCT payload->>'device_id' ... ORDER BY payload->>'device_id']; a missing
    identifier is a scan error. *)
Definition deleted_devices (db : DB) : option (list string) :=
  ids <-? mapM (fun c => get_text (c_Payload c) "device_id")
           (filter (fun c => pool_delete c && finished c && unreconciled c = true) (commands db)) ;;
  Some (order_by (fun id => (0, id)) (remove_dups ids)).

Definition reconcileScaleDownDeletes : Tx Counts :=
  db ← get_db;
  ids ← or_cast_error (deleted_devices db);
  for_each ids (fun id => WithinTx (settle_tx id)).

(** ** Scaling down *)
Definition member_devices (poolID : string) (db : DB) : list DeviceRow :=
  filter (fun d => match device_pool_devices db !! (poolID, d_id d) with Some pd => pd_enabled pd | None => false end = true)
    (order_by (fun d => (d_created_at d, d_id d)) (rows (devices db))).

Definition shared_with_another (poolID deviceID : string) (db : DB) : bool :=
  existsb (fun pd => String.eqb (pd_device_id pd) deviceID && pd_enabled pd && negb (String.eqb (pd_pool_id pd) poolID))
    (rows (device_pool_devices db)).

(** The devices that the pool controller creates and deletes. *)
Definition scalable (platform : string) (d : DeviceRow) : bool :=
  String.eqb (d_platform d) platform
  && ((String.eqb platform "android" && String.eqb (d_device_kind d) "emulator" && String.eqb (d_provider_type d) "docker_emulator")
      || (String.eqb platform "ios" && String.eqb (d_device_kind d) "simulator" && String.eqb (d_provider_type d) "appium_device_farm_ios")).

Definition removable (env : Env) (db : DB) (p : PoolRow) (platform : string) (target : Z) (d : DeviceRow) : bool :=
  scalable platform d && occupies_slot d && operable (d_lifecycle d) && bool_decide (is_Some (device_hosts db !! d_host_id d))
  && ((target =? 0) || negb (bool_decide (p_base_device_id p = Some (d_id d))))
  && negb (has_open_reservation (d_id d) db) && negb (has_live_session (d_id d) db)
  && negb (has_command (d_id d) in_flight db) && negb (shared_with_another (p_id p) (d_id d) db)
  && negb (bool_decide (d_id d ∈ env_locked_devices env)).

Definition scale_down_payload (d : DeviceRow) (poolID : string) (target : Z) : obj :=
  [("operation_source", JStr scaleDownSource); ("device_id", JStr (d_id d)); ("pool_id", JStr poolID); ("platform", JStr (d_platform d));
   ("device_kind", JStr (d_device_kind d)); ("provider_type", JStr (d_provider_type d)); ("provider_ref", JStr (d_provider_ref d));
   ("target_instances", jint target)]
  ++ match d_image_id d with Some image => [("image_id", JStr image)] | None => [] end.

Definition scale_down_reason : string := bytes
  [230;140;137;232;174;190;229;164;135;230;177;160;231;155;174;230;160;135;232;135;170;229;138;168;231;188;169;229;174;185]%N.

(** One device of the pool leaves: a ready one is stopped first. *)
Definition queue_one (poolID : string) (target : Z) (d : DeviceRow) : Tx unit :=
  now ← ClockNow;
  next ← (if lifecycle_is DeviceReady d
          then aggregate ← restored d;
               a ← apply_call (Transition aggregate DeviceStopped "automatic scale down queued" now);
               mret (Lifecycle a)
          else mret (d_lifecycle d));
  commandID ← newID;
  hash ← short_digest (poolID ++ NUL ++ d_platform d ++ NUL ++ d_id d ++ NUL ++ Z_text target)%string;
  _ ← insert_command (mkCreateCommand commandID (d_host_id d) "delete" (scale_down_payload d poolID target) 3 ("scale-down-" ++ hash)%string);
  _ ← (if target =? 0
       then put_db (fun db => db <| device_pools := alter (fun p => if bool_decide (p_base_device_id p = Some (d_id d))
              then p <| p_base_device_id := None |> <| p_updated_at := now |> else p) poolID (device_pools db) |>)
       else mret tt);
  _ ← save_device (d_id d) (lifecycle_is (d_lifecycle d))
        (fun row => row <| d_lifecycle := next |> <| d_health_reason := Some "automatic scale down queued" |> <| d_updated_at := now |>);
  auditID ← newID;
  insert_audit auditID "system" "system" "scale_down_device" "device" (d_id d) ("scale-down-" ++ commandID)%string scale_down_reason
    [("command_id", JStr commandID); ("pool_id", JStr poolID); ("platform", JStr (d_platform d)); ("target_instances", jint target)].

Fixpoint queueScaleDown (poolID platform : string) (target : Z) (excess : nat) : Tx Z :=
  match excess with
  | O => mret 0
  | S n =>
    found ← env_gets (fun env db => p <-? device_pools db !! poolID ;; first_where (removable env db p platform target) (member_devices poolID db));
    match found with
    | None => mret 0
    | Some d => _ ← queue_one poolID target d; queued ← queueScaleDown poolID platform target n; mret (queued + 1)
    end
  end.

(** The devices of a pool that are not deleted. *)
Definition occupied (poolID platform : string) (db : DB) : Z :=
  Z.of_nat (length (filter (fun d => scalable platform d && occupies_slot d = true) (member_devices poolID db))).

Definition ios_scale_down_tx (poolID : string) : Tx Counts :=
  db ← get_db;
  match device_pools db !! poolID with
  | Some p =>
    if String.eqb (p_platform p) "ios" && bool_decide (p_status p = PoolActive) then
      let excess := occupied poolID "ios" db - p_total_target p in
      if excess <=? 0 then mret no_counts
      else queued ← queueScaleDown poolID "ios" (p_total_target p) (Z.to_nat excess); mret (no_counts <| n_DeletesQueued := queued |>)
    else mret no_counts
  | None => mret no_counts
  end.

Definition active_pools (platform : string) (db : DB) : list string :=
  map p_id (filter (fun p => String.eqb (p_platform p) platform && bool_decide (p_status p = PoolActive) = true)
    (order_by (fun p => (0, p_id p)) (rows (device_pools db)))).

Definition reconcileIOSScaleDown : Tx Counts :=
  db ← get_db;
  let ids := active_pools "ios" db in
  c ← for_each ids (fun id => WithinTx (ios_scale_down_tx id));
  mret (c <| n_Configurations := Z.of_nat (length ids) |>).

(** ** Images under validation *)
Definition transitionImage (image : ImageRow) (to : ImageStatus) (validationError : option string) : Tx unit :=
  aggregate ← lift_result (RestoreImage (im_id image) (im_status image));
  now ← ClockNow;
  a ← apply_call (transition aggregate to "image validation command completed" now);
  put_db (fun db => db <| device_images := <[im_id image := image <| im_status := sm_status a |>
    <| im_validation_error := validationError |> <| im_updated_at := now |>]> (device_images db) |>).

(** [DELETE FROM device_host_image_states WHERE host_id=$1 AND image_id=$2 AND available=false]. *)
Definition forget_missing_image (hostID imageID : string) (db : DB) : DB :=
  match device_host_image_states db !! (hostID, imageID) with
  | Some s => if hi_available s then db else db <| device_host_image_states := delete (hostID, imageID) (device_host_image_states db) |>
  | None => db
  end.

Definition validation_command (image : ImageRow) (db : DB) : option CommandRecord :=
  first_where (fun c => command_type_in ["validate_image"] c && payload_is "image_id" (im_id image) c && (im_updated_at image <=? c_CreatedAt c))
    (order_by_desc (fun c => (c_CreatedAt c, c_ID c)) (commands db)).

Definition image_validated (o : obj) : bool :=
  match bool_field o "digest_verified", bool_field o "ready" with Some verified, Some ready => verified && ready | _, _ => false end.

Definition queue_validation (image : ImageRow) : Tx Counts :=
  profile ← expect_row (Parse (im_resource_config image)) (ErrExternal "invalid image runtime profile");
  host ← lockHostCapacity (im_id image) profile false;
  match host with
  | Fail _ => mret no_counts
  | Ok hostID =>
    commandID ← newID;
    document ← marshalled profile;
    let ref := ("validation-" ++ commandID)%string in
    _ ← insert_command (mkCreateCommand commandID hostID "validate_image"
          [("image_id", JStr (im_id image)); ("device_id", JStr ref); ("provider_ref", JStr ref); ("docker_image", JStr (im_docker_image image));
           ("docker_digest", JStr (im_docker_digest image));
           ("capabilities", JObj (obj_merge [("platformName", JStr "Android"); ("apiLevel", jint (im_api_level image));
              ("abi", JStr (im_abi image)); ("resolution", JStr (im_resolution image))] (im_resource_config image)));
           ("runtime_profile", JObj document)] 3 ("validate-" ++ commandID)%string);
    mret (no_counts <| n_ValidationsQueued := 1 |>)
  end.

Definition image_validation_tx (imageID : string) : Tx Counts :=
  db ← get_db;
  match device_images db !! imageID with
  | None => mret no_counts
  | Some image =>
    if negb (bool_decide (im_status image = ImageValidating)) then mret no_counts
    else match validation_command image db with
    | Some c =>
      if in_flight c then mret no_counts
      else if command_is CommandSucceeded c then
        if image_validated (result_obj c) then
          _ ← transitionImage image ImageReady None;
          _ ← put_db (forget_missing_image (c_HostID c) imageID);
          mret (no_counts <| n_ValidationsCompleted := 1 |>)
        else _ ← transitionImage image ImageFailed (Some "image validation returned an incomplete result");
             mret (no_counts <| n_ValidationsFailed := 1 |>)
      else if finished c then
        _ ← transitionImage image ImageFailed (Some (completion_code c "IMAGE_VALIDATION_FAILED"));
        mret (no_counts <| n_ValidationsFailed := 1 |>)
      else queue_validation image
    | None => queue_validation image
    end
  end.

Definition reconcileImageValidations : Tx Counts :=
  db ← get_db;
  for_each (map im_id (filter (fun i => bool_decide (im_status i = ImageValidating) = true)
      (order_by (fun i => (im_created_at i, im_id i)) (rows (device_images db)))))
    (fun id => WithinTx (image_validation_tx id)).

(** ** What hosts were seen to hold *)
Definition imageOutcomeWindow : Z := 5 * Minute.
Definition imageAvailabilityErrorCodes : list string := ["IMAGE_DIGEST_MISMATCH"; "IMAGE_NOT_FOUND"]%string.

Definition outcome_key (s : HostImageRow) : string * string := (hi_host_id s, hi_image_id s).

(** The rows proposed by one [INSERT ... SELECT]: a create command, and its device. *)
Definition create_outcomes (db : DB) (observed : CommandRecord -> option Z) (available : bool) (cutoff : Z) : list HostImageRow :=
  omap (fun c => if command_type_in ["create"] c then
          at_ <-? observed c ;; id <-? get_text (c_Payload c) "device_id" ;; d <-? devices db !! id ;; image <-? d_image_id d ;;
          if cutoff <=? at_ then Some (mkHostImageRow (d_host_id d) image available (if available then None else c_ErrorCode c) at_) else None
        else None) (order_by (fun c => (0, c_ID c)) (commands db)).

Definition success_time (c : CommandRecord) : option Z := if command_is CommandSucceeded c then c_CompletedAt c else None.

Definition missing_time (c : CommandRecord) : option Z :=
  if (command_is CommandFailed c || command_is CommandTimedOut c)
     && match c_ErrorCode c with Some code => bool_decide (code ∈ imageAvailabilityErrorCodes) | None => false end
  then Some (default (c_UpdatedAt c) (c_CompletedAt c)) else None.

(** [ON CONFLICT (host_id,image_id) DO UPDATE ... WHERE observed_at < EXCLUDED.observed_at]:
    one command may not write the same row twice. *)
Fixpoint upsert_outcomes (written : list (string * string)) (proposed : list HostImageRow) : Tx unit :=
  match proposed with
  | [] => mret tt
  | s :: rest =>
    let k := outcome_key s in
    _ ← guard_or (negb (bool_decide (k ∈ written))) ErrCardinalityViolation;
    db ← get_db;
    match device_host_image_states db !! k with
    | Some old =>
      if hi_observed_at old <? hi_observed_at s
      then _ ← put_db (fun db => db <| device_host_image_states := <[k := s]> (device_host_image_states db) |>); upsert_outcomes (k :: written) rest
      else upsert_outcomes written rest
    | None => _ ← put_db (fun db => db <| device_host_image_states := <[k := s]> (device_host_image_states db) |>); upsert_outcomes (k :: written) rest
    end
  end.

Definition recordHostImageOutcomes : Tx unit :=
  now ← ClockNow;
  let cutoff := now - imageOutcomeWindow in
  db ← get_db;
  _ ← upsert_outcomes [] (create_outcomes db success_time true cutoff);
  db ← get_db;
  upsert_outcomes [] (create_outcomes db missing_time false cutoff).

(** ** Creations that succeeded *)

(** [ORDER BY completed_at DESC,id DESC LIMIT 1]: nulls come first. *)
Definition completion_key (c : CommandRecord) : key := (match c_CompletedAt c with Some t => t | None => max_int64 end, c_ID c).

Definition succeeded_create (deviceID : string) (db : DB) : option CommandRecord :=
  first_where (fun c => command_type_in ["create"] c && for_device deviceID c && command_is CommandSucceeded c)
    (order_by_desc completion_key (commands db)).

Definition creating (d : DeviceRow) : bool := lifecycle_is DeviceProvisioning d || lifecycle_is DeviceBooting d.

Definition created_devices (poolID : string) (db : DB) : list (DeviceRow * CommandRecord) :=
  omap (fun d => if creating d && negb (has_command (d_id d) (fun c => command_type_in ["rebuild"] c && in_flight c) db)
                 then option_map (pair d) (succeeded_create (d_id d) db) else None)
    (member_devices poolID db).

Definition quarantineCreateResult (d : DeviceRow) : Tx unit :=
  let reason := "create command returned an incomplete readiness snapshot" in
  now ← ClockNow;
  aggregate ← restored d;
  a ← ensure_health aggregate HealthUnhealthy reason now;
  a ← apply_call (Transition a DeviceQuarantined reason now);
  _ ← save_device (d_id d) (fun _ => true) (failing_row a "CREATE_RESULT_INVALID" now);
  mret tt.

Definition finish_create (d : DeviceRow) (v : rebuildResult) : Tx unit :=
  now ← ClockNow;
  aggregate ← restored d;
  a ← ensure_health aggregate HealthHealthy "create readiness checks passed" now;
  a ← advance a [DeviceProvisioning] DeviceBooting "emulator started" now;
  a ← apply_call (Transition a DeviceReady "create readiness checks passed" now);
  a ← apply_call (UpdateHealth a HealthUnhealthy STFReadinessStabilizationReason now);
  _ ← save_device (d_id d) (fun _ => true) (ready_row a v now);
  mret tt.

Fixpoint complete_creates (values : list (DeviceRow * CommandRecord)) : Tx (Z * Z) :=
  match values with
  | [] => mret (0, 0)
  | (d, c) :: rest =>
    match valid_rebuild c with
    | Some v => _ ← finish_create d v; r ← complete_creates rest; mret (r.1 + 1, r.2)
    | None => _ ← quarantineCreateResult d; r ← complete_creates rest; mret (r.1, r.2 + 1)
    end
  end.

Definition completeSuccessfulCreates (poolID : string) : Tx (Z * Z) := db ← get_db; complete_creates (created_devices poolID db).

(** ** Cleaning up *)
Definition cleanup_payload (source : string) (d : DeviceRow) (poolID : string) : obj :=
  [("operation_source", JStr source); ("device_id", JStr (d_id d)); ("pool_id", JStr poolID); ("platform", JStr "android");
   ("device_kind", JStr "emulator"); ("provider_type", JStr "docker_emulator"); ("provider_ref", JStr (d_provider_ref d))]
  ++ match d_image_id d with Some image => [("image_id", JStr image)] | None => [] end.

(** A quarantined emulator that nothing uses; a delete in flight is a command in flight. *)
Definition to_clean_up (db : DB) (d : DeviceRow) : bool :=
  scalable "android" d && lifecycle_is DeviceQuarantined d && bool_decide (d_health d ∈ [HealthUnhealthy; HealthDegraded])
  && negb (has_open_reservation (d_id d) db) && negb (has_live_session (d_id d) db) && negb (has_command (d_id d) in_flight db).

Definition queue_cleanup (poolID : string) (d : DeviceRow) : Tx unit :=
  commandID ← newID;
  insert_command (mkCreateCommand commandID (d_host_id d) "delete" (cleanup_payload quarantinedCleanupSource d poolID) 3
    ("quarantined-cleanup-" ++ commandID)%string).

Fixpoint queue_each (f : DeviceRow -> Tx unit) (ds : list DeviceRow) : Tx Z :=
  match ds with
  | [] => mret 0
  | d :: rest => _ ← f d; n ← queue_each f rest; mret (n + 1)
  end.

Definition queueQuarantinedCleanup (poolID : string) : Tx Z :=
  db ← get_db; queue_each (queue_cleanup poolID) (filter (fun d => to_clean_up db d = true) (member_devices poolID db)).

(** An emulator whose creation failed and that nobody has seen. *)
Definition never_created (db : DB) (d : DeviceRow) : bool :=
  (lifecycle_is DeviceProvisioning d || lifecycle_is DeviceQuarantined d) && HasPrefix (d_serial d) "pending-"
  && bool_decide (d_adb_endpoint d = None) && bool_decide (d_appium_endpoint d = None) && bool_decide (d_last_seen_at d = None)
  && has_command (d_id d) (fun c => command_type_in ["create"] c && (command_is CommandFailed c || command_is CommandTimedOut c)) db
  && negb (has_command (d_id d) (fun c => command_type_in ["create"] c && command_is CommandSucceeded c) db)
  && negb (has_command (d_id d) (fun c => command_type_in ["delete"] c && String.eqb (source_of c) failedCreateCleanupSource && in_flight c) db).

Definition create_failed_reason : string := "emulator create failed; cleanup queued".

Definition clean_failed_create (poolID : string) (d : DeviceRow) : Tx unit :=
  now ← ClockNow;
  commandID ← newID;
  hash ← short_digest (poolID ++ NUL ++ d_id d)%string;
  _ ← insert_command (mkCreateCommand commandID (d_host_id d) "delete" (cleanup_payload failedCreateCleanupSource d poolID) 3
        ("failed-create-cleanup-" ++ hash)%string);
  _ ← save_device (d_id d) (fun _ => true) (fun row => row <| d_health_reason := Some create_failed_reason |> <| d_updated_at := now |>);
  eventID ← newID;
  _ ← insert_health_event eventID (d_id d) "reconciler" "warm_pool_create_failed" "error" create_failed_reason
        [("cleanup_command_id", JStr commandID)] now;
  mret tt.

Definition cleanupFailedCreates (poolID : string) : Tx Z :=
  db ← get_db; queue_each (clean_failed_create poolID) (filter (fun d => never_created db d = true) (member_devices poolID db)).

(** ** Backing off after failed creations *)
Definition Hour : Z := 60 * Minute.

Definition recent_failures (poolID : string) (now : Z) (db : DB) : list Z :=
  omap (fun c => if command_type_in ["create"] c && (command_is CommandFailed c || command_is CommandTimedOut c) then
          at_ <-? c_CompletedAt c ;; id <-? get_text (c_Payload c) "device_id" ;;
          if existsb (fun d => String.eqb (d_id d) id && occupies_slot d) (member_devices poolID db) && (now - Hour <? at_)
          then Some at_ else None
        else None) (commands db).

Definition backoff_delay (failures : nat) : Z := 30 * Second * 2 ^ Z.min (Z.of_nat failures - 1) 4.

Definition creationBackoff (poolID : string) : Tx bool :=
  now ← ClockNow;
  db ← get_db;
  mret (match recent_failures poolID now db with
        | [] => false
        | t :: rest => now <? foldr Z.max t rest + backoff_delay (S (length rest))
        end).
