(* ===== verification/PoolScale.v ===== *)
(** * Scaling the Android pools, and the whole cycle ([internal/warmpool/controller.go])

    [reconcileAndroidDemand] creates the devices that the pending reservations lack,
    [reconcile] brings one pool to its own target, and [RunOnce] is the cycle.  The
    order of the groups of reservations is the order of [jsonb] values in the database,
    which the code does not rely on: it is the argument [jsonb_order]. *)
From Stdlib Require Import SpecFloat.
From S2P Require Import Prelude GoText Errors Domain Json Sensitive Actor Store.
From S2P Require Import Float64 RuntimeProfile Capacity ReservationRepo PoolSelector CommandRepo DeviceStore Reconcile DeviceOps ImageCatalog.
From S2P Require Import HostCommand HostSelection Completion WarmPool PoolCycle.

(** ** The template of a pool *)

(** [COALESCE(b.image_id,p.default_image_id)]. *)
Definition template_image (db : DB) (p : PoolRow) : option string :=
  match base_device db p ≫= d_image_id with Some image => Some image | None => p_default_image_id p end.

(** The pool's enabled link to its image, and the image when it is ready. *)
Definition pool_template (db : DB) (p : PoolRow) : option ImageRow :=
  id <-? template_image db p ;;
  link <-? device_pool_images db !! (p_id p, id) ;;
  image <-? device_images db !! id ;;
  if pi_enabled link && bool_decide (im_status image = ImageReady) then Some image else None.

(** [COALESCE(b.runtime_profile_override,i.resource_config,'{}')]. *)
Definition template_profile (db : DB) (p : PoolRow) (image : ImageRow) : obj :=
  match base_device db p ≫= d_runtime_profile_override with Some o => o | None => im_resource_config image end.

Definition active_android (p : PoolRow) : bool := bool_decide (p_status p = PoolActive) && String.eqb (p_platform p) "android".

(** The devices of the pool of the kind that the controller runs. *)
Definition docker_emulator (d : DeviceRow) : bool := String.eqb (d_device_kind d) "emulator" && String.eqb (d_provider_type d) "docker_emulator".

(** [lifecycle_status IN ('provisioning','booting','ready')]. *)
Definition ready_or_creating (d : DeviceRow) : bool := creating d || lifecycle_is DeviceReady d.

(** ** Demand *)

(** A reservation that any Android device could serve. *)
Definition android_demand (r : ReservationRecord) : bool :=
  let requested := r_RequestedCapabilities r in
  status_is ReservationPending r && negb (has_key requested TargetDeviceCapability)
  && (negb (has_key requested "platformName")
      || bool_decide (option_map ToLower (get_text requested "platformName") = Some "android"%string)).

Record demandGroup : Type := mkDemandGroup { dg_caps : obj; dg_deficit : Z }.

(** [GROUP BY device_schedulable_capabilities(requested_capabilities)] with the counts. *)
Fixpoint count_group (caps : obj) (groups : list (obj * Z)) : list (obj * Z) :=
  match groups with
  | [] => [(caps, 1)]
  | (c, n) :: rest => if json_eqb (JObj c) (JObj caps) then (c, n + 1) :: rest else (c, n) :: count_group caps rest
  end.

Definition pending_groups (db : DB) : list (obj * Z) :=
  foldr (fun r groups => if android_demand r then count_group (device_schedulable_capabilities (r_RequestedCapabilities r)) groups else groups)
    [] (reservations db).

(** Devices that are coming or ready and can serve the group. *)
Definition in_flight_devices (caps : obj) (db : DB) : Z :=
  count_where (fun d => ready_or_creating d && String.eqb (d_platform d) "android" && docker_emulator d && obj_contains (d_capabilities d) caps)
    (rows (devices db)).

Definition demand_groups (jsonb_order : list (obj * Z) -> list (obj * Z)) (db : DB) : list demandGroup :=
  omap (fun g => let deficit := g.2 - in_flight_devices g.1 db in if 0 <? deficit then Some (mkDemandGroup g.1 deficit) else None)
    (jsonb_order (pending_groups db)).

(** The capabilities of a new device: those of the base win over those of the image. *)
Definition template_capabilities (db : DB) (p : PoolRow) (image : ImageRow) : obj :=
  obj_merge (image_capabilities image) (base_capabilities db p).

Definition member_count (poolID : string) (db : DB) : Z := Z.of_nat (length (filter (fun d => occupies_slot d = true) (member_devices poolID db))).

(** The limit of the pool counts every device of it that is not deleted. *)
Definition below_limit (db : DB) (p : PoolRow) : bool := (p_max_concurrency p <=? 0) || (member_count (p_id p) db <? p_max_concurrency p).

Definition serves_demand (db : DB) (caps : obj) (p : PoolRow) : bool :=
  active_android p
  && match pool_template db p with Some image => obj_contains (template_capabilities db p image) caps | None => false end
  && below_limit db p.

Definition demand_pool (caps : obj) (db : DB) : option (PoolRow * ImageRow) :=
  p <-? first_where (serves_demand db caps) (order_by by_pool_id (rows (device_pools db))) ;;
  image <-? pool_template db p ;;
  Some (p, image).

(** One device for the group: [None] when no pool or no host can take it. *)
Definition create_for_demand (caps : obj) : Tx (option CreatedDevice) :=
  db ← get_db;
  match demand_pool caps db with
  | None => mret None
  | Some (p, image) =>
    profile ← expect_row (Parse (template_profile db p image)) (ErrExternal "invalid runtime profile");
    host ← lockHostCapacity (im_id image) profile true;
    match host with
    | Fail _ => mret None
    | Ok hostID =>
      created ← createDeviceCommand (p_id p) (im_id image) (im_docker_image image) (im_docker_digest image) hostID
                  (template_capabilities db p image) profile "";
      mret (Some created)
    end
  end.

(** [remaining] devices of one group; the first miss ends it.  The result counts the
    devices created and the misses. *)
Fixpoint fill_group (caps : obj) (remaining : nat) : Tx (Z * Z) :=
  match remaining with
  | O => mret (0, 0)
  | S n =>
    created ← create_for_demand caps;
    match created with
    | None => mret (0, 1)
    | Some _ => r ← fill_group caps n; mret (r.1 + 1, r.2)
    end
  end.

Fixpoint fill_groups (groups : list demandGroup) : Tx (Z * Z) :=
  match groups with
  | [] => mret (0, 0)
  | g :: rest =>
    a ← fill_group (dg_caps g) (Z.to_nat (dg_deficit g));
    b ← fill_groups rest;
    mret (a.1 + b.1, a.2 + b.2)
  end.

Definition demand_tx (jsonb_order : list (obj * Z) -> list (obj * Z)) : Tx (Z * Z) :=
  db ← get_db; fill_groups (demand_groups jsonb_order db).

Definition reconcileAndroidDemand (jsonb_order : list (obj * Z) -> list (obj * Z)) : Tx (Z * Z) := WithinTx (demand_tx jsonb_order).

(** ** One pool *)

(** The emulators of the pool: those on a known host, and all of them. *)
Definition pool_emulators (poolID : string) (db : DB) : list DeviceRow :=
  filter (fun d => docker_emulator d = true) (member_devices poolID db).

Definition on_known_host (db : DB) (d : DeviceRow) : bool := bool_decide (is_Some (device_hosts db !! d_host_id d)).

Definition activeInstances (poolID : string) (db : DB) : Z :=
  count_where (fun d => on_known_host db d && occupies_slot d) (pool_emulators poolID db).

Definition readyOrCreating (poolID : string) (db : DB) : Z :=
  count_where (fun d => on_known_host db d && ready_or_creating d) (pool_emulators poolID db).

Definition busyCount (poolID : string) (db : DB) : Z :=
  count_where (fun d => lifecycle_is DeviceBusy d || lifecycle_is DeviceReserved d) (pool_emulators poolID db).

Definition globalPendingCount (db : DB) : Z := count_where android_demand (reservations db).

(** Devices that a delete command is already queued for. *)
Definition pendingDeleteCount (poolID : string) (db : DB) : Z :=
  count_where (fun d => has_command (d_id d) (fun c => command_type_in ["delete"] c && in_flight c) db) (pool_emulators poolID db).

Definition keepInstances (p : PoolRow) (db : DB) : Z :=
  let demand := busyCount (p_id p) db + Z.min (readyOrCreating (p_id p) db) (globalPendingCount db) in
  Z.max (p_total_target p) (if 0 <? p_max_concurrency p then Z.min demand (p_max_concurrency p) else demand).

Definition effectiveActive (p : PoolRow) (db : DB) : Z := activeInstances (p_id p) db - pendingDeleteCount (p_id p) db.

Definition missing_devices (p : PoolRow) (db : DB) : Z :=
  Z.min (Z.max (p_min_ready p - readyOrCreating (p_id p) db) 0) (keepInstances p db - effectiveActive p db).

(** The creations of the loop, up to the first host capacity miss. *)
Fixpoint create_missing (poolID : string) (image : ImageRow) (capabilities : obj) (profile : Profile) (missing : nat) : Tx Counts :=
  match missing with
  | O => mret no_counts
  | S n =>
    host ← lockHostCapacity (im_id image) profile true;
    match host with
    | Fail _ => mret (no_counts <| n_CapacityMisses := 1 |>)
    | Ok hostID =>
      _ ← createDeviceCommand poolID (im_id image) (im_docker_image image) (im_docker_digest image) hostID capabilities profile "";
      c ← create_missing poolID image capabilities profile n;
      mret (add_counts (no_counts <| n_DevicesCreated := 1 |>) c)
    end
  end.

(** Growing, unless a recent creation failed. *)
Definition scale_up (p : PoolRow) (image : ImageRow) (capabilities values : obj) (backoff : bool) (missing : Z) : Tx Counts :=
  if missing <=? 0 then mret no_counts
  else if backoff then mret (no_counts <| n_BackoffSkips := 1 |>)
  else profile ← expect_row (Parse values) (ErrExternal "invalid image runtime profile");
       create_missing (p_id p) image capabilities profile (Z.to_nat missing).

Definition scale_pool (p : PoolRow) (image : ImageRow) (capabilities values : obj) : Tx Counts :=
  backoff ← creationBackoff (p_id p);
  db ← get_db;
  let keep := keepInstances p db in
  let active := effectiveActive p db in
  if keep <? active then
    queued ← queueScaleDown (p_id p) "android" keep (Z.to_nat (active - keep));
    mret (no_counts <| n_DeletesQueued := queued |>)
  else scale_up p image capabilities values backoff (missing_devices p db).

(** The capabilities of the base, or of the image; missing keys come from the image. *)
Definition pool_capabilities (db : DB) (p : PoolRow) (image : ImageRow) : obj :=
  match base_device db p with
  | Some b => foldl (fun caps kv => if has_key caps kv.1 then caps else assoc_set kv.1 kv.2 caps) (d_capabilities b) (image_capabilities image)
  | None => image_capabilities image
  end.

Definition pool_tx (poolID imageID : string) : Tx Counts :=
  db ← get_db;
  match device_pools db !! poolID with
  | None => mret no_counts
  | Some p =>
    match pool_template db p with
    | Some image =>
      if active_android p && String.eqb (im_id image) imageID then
        let capabilities := pool_capabilities db p image in
        let values := template_profile db p image in
        completed ← completeSuccessfulCreates poolID;
        let counts := no_counts <| n_DevicesReady := completed.1 |> <| n_DevicesFailed := completed.2 |> in
        cleaned ← queueQuarantinedCleanup poolID;
        let counts := counts <| n_DeletesQueued := cleaned |> in
        if 0 <? cleaned then mret counts
        else
          failed ← cleanupFailedCreates poolID;
          let counts := counts <| n_DevicesFailed := completed.2 + failed |> <| n_DeletesQueued := failed |> in
          if 0 <? failed then mret counts
          else c ← scale_pool p image capabilities values; mret (add_counts counts c)
      else mret no_counts
    | None => mret no_counts
    end
  end.

(** [Controller.reconcile]. *)
Definition reconcile (poolID imageID : string) : Tx Counts := WithinTx (pool_tx poolID imageID).

(** ** The cycle *)
Definition configurations (db : DB) : list (string * string) :=
  omap (fun p => if active_android p then option_map (fun image => (p_id p, im_id image)) (pool_template db p) else None)
    (order_by by_pool_id (rows (device_pools db))).

Fixpoint reconcile_all (keys : list (string * string)) : Tx Counts :=
  match keys with
  | [] => mret no_counts
  | (pool, image) :: rest => c ← reconcile pool image; cs ← reconcile_all rest; mret (add_counts c cs)
  end.

(** The counts that [RunOnce] takes over from a part of the cycle. *)
Definition deletes_of (c : Counts) : Counts := no_counts <| n_DeletesCompleted := n_DeletesCompleted c |> <| n_DeletesFailed := n_DeletesFailed c |>.
Definition demand_counts (r : Z * Z) : Counts := no_counts <| n_DevicesCreated := r.1 |> <| n_CapacityMisses := r.2 |>.

(** [Controller.RunOnce]; [iosScaler] is [None] when it is not configured.  The code
    returns the counts so far with an error, which the caller only logs. *)
Definition RunOnce (jsonb_order : list (obj * Z) -> list (obj * Z)) (iosScaler : option (Tx (Z * Z))) : Tx Counts :=
  rebuilds ← reconcileRecyclingDevices;
  deletes ← reconcileScaleDownDeletes;
  validations ← reconcileImageValidations;
  _ ← reconcileCatalogProvisioningJobs;
  iosDown ← reconcileIOSScaleDown;
  iosUp ← match iosScaler with Some scale => scale | None => mret (0, 0) end;
  _ ← WithinTx recordHostImageOutcomes;
  db ← get_db;
  let keys := configurations db in
  demand ← reconcileAndroidDemand jsonb_order;
  pools ← reconcile_all keys;
  mret (foldr add_counts no_counts [rebuilds; deletes_of deletes; validations; iosDown; demand_counts iosUp; demand_counts demand; pools]
        <| n_Configurations := Z.of_nat (length keys) |>).
