(* ===== verification/IOSSimulator.v ===== *)
(** * iOS simulators ([internal/iossimulator/service.go])

    Creating a simulator on a host that offers the runtime and the device type, and
    filling the iOS pools up to their target.  The catalogue of a host is part of its
    reported capabilities ([internal/adapters/appiumdevicefarm/simulator_catalog.go]). *)
From Stdlib Require Import SpecFloat.
From S2P Require Import Prelude GoText Errors Domain Json Sensitive Actor Store.
From S2P Require Import Float64 RuntimeProfile Capacity ReservationRepo PoolSelector CommandRepo DeviceStore Reconcile DeviceOps ImageCatalog.
From S2P Require Import HostCommand HostSelection Completion WarmPool PoolCycle.

Definition minimumAvailableMemoryMB : Z := 4096.
Definition minimumAvailableDiskMB : Z := 16384.

(** ** The catalogue of a host *)
Record SimulatorRuntime : Type := mkSimulatorRuntime {
  sr_ID : string; sr_Name : string; sr_Version : string; sr_DeviceTypeIDs : list string }.
Record SimulatorDeviceType : Type := mkSimulatorDeviceType { sdt_ID : string; sdt_Name : string }.
Record Catalog : Type := mkCatalog { sc_HostID : string; sc_Runtimes : list SimulatorRuntime; sc_DeviceTypes : list SimulatorDeviceType }.

(** One element of an array of strings, or of structs. *)
Definition string_item (v : json) : option string := match v with JStr s => Some s | JNull => Some "" | _ => None end.
Definition struct_item (v : json) : option obj := match v with JObj kvs => Some kvs | JNull => Some [] | _ => None end.

Definition decode_runtime (v : json) : option SimulatorRuntime :=
  o <-? struct_item v ;;
  id <-? string_field o "id" ;; name <-? string_field o "name" ;; version <-? string_field o "version" ;;
  items <-? list_field o "device_type_ids" ;;
  types <-? mapM string_item items ;;
  Some (mkSimulatorRuntime id name version types).

Definition decode_device_type (v : json) : option SimulatorDeviceType :=
  o <-? struct_item v ;;
  id <-? string_field o "id" ;; name <-? string_field o "name" ;;
  Some (mkSimulatorDeviceType id name).

Definition catalogFromCapabilities (capabilities : obj) : option Catalog :=
  o <-? struct_field capabilities "ios_simulator_catalog" ;;
  runtimes <-? list_field o "runtimes" ;;
  runtimes <-? mapM decode_runtime runtimes ;;
  types <-? list_field o "device_types" ;;
  types <-? mapM decode_device_type types ;;
  Some (mkCatalog "" runtimes types).

Definition catalogHasRuntime (catalog : Catalog) (id : string) : bool := existsb (fun r => String.eqb (sr_ID r) id) (sc_Runtimes catalog).
Definition catalogHasDeviceType (catalog : Catalog) (id : string) : bool := existsb (fun t => String.eqb (sdt_ID t) id) (sc_DeviceTypes catalog).

(** The first runtime with the identifier decides. *)
Definition catalogSupportsDeviceType (catalog : Catalog) (runtimeID deviceTypeID : string) : bool :=
  match first_where (fun r => String.eqb (sr_ID r) runtimeID) (sc_Runtimes catalog) with
  | Some r => bool_decide (deviceTypeID ∈ sr_DeviceTypeIDs r)
  | None => false
  end.

Definition catalogDeviceTypeName (catalog : Catalog) (id : string) : string :=
  match first_where (fun t => String.eqb (sdt_ID t) id) (sc_DeviceTypes catalog) with Some t => sdt_Name t | None => "iPhone" end.

(** A macOS host that reported in the last 45 seconds. *)
Definition heartbeat_within (now window : Z) (h : HostRow) : bool :=
  match h_last_heartbeat_at h with Some at_ => now - at_ <=? window | None => false end.

Definition usable_host (now : Z) (h : HostRow) : bool :=
  bool_decide (h_status h = HostOnline) && negb (h_draining h) && String.eqb (h_host_os h) "macos"
  && String.eqb (h_host_type h) "appium_device_farm_ios" && heartbeat_within now (45 * Second) h.

(** [Service.Catalog]. *)
Definition CatalogOf (hostID : string) : Tx Catalog :=
  _ ← guard_or (negb (blank hostID)) IosErrInvalidArgument;
  db ← get_db;
  h ← expect_row (device_hosts db !! hostID) IosErrNotFound;
  now ← ProcessNow;
  _ ← guard_or (usable_host now h) IosErrConflict;
  catalog ← expect_row (catalogFromCapabilities (h_capabilities h)) IosErrConflict;
  _ ← guard_or (negb (bool_decide (sc_Runtimes catalog = [])) && negb (bool_decide (sc_DeviceTypes catalog = []))) IosErrConflict;
  mret (mkCatalog hostID (sc_Runtimes catalog) (sc_DeviceTypes catalog)).

(** ** Capacity of a host *)
Definition capacityResult (cpuCores memoryAvailableMB diskAvailableMB slots usedSlots pendingSlots : Z) : Capacity.Result :=
  let requiredMemoryMB := wrap64 (minimumAvailableMemoryMB * wrap64 (pendingSlots + 1)) in
  let requiredDiskMB := wrap64 (minimumAvailableDiskMB * wrap64 (pendingSlots + 1)) in
  let memory := memoryAvailableMB <? requiredMemoryMB in
  let disk := diskAvailableMB <? requiredDiskMB in
  let full := (0 <? slots) && (slots <=? usedSlots) in
  let fits := negb (memory || disk || full) in
  mkCapacityResult fits (if fits then 1 else 0) (if memory then "memory" else if disk then "disk" else if full then "device_slots" else "")
    ((if memory then [("memory_mb"%string, wrap64 (requiredMemoryMB - memoryAvailableMB))] else [])
     ++ (if disk then [("disk_mb"%string, wrap64 (requiredDiskMB - diskAvailableMB))] else [])
     ++ (if full then [("device_slots"%string, 1)] else []))
    (f_of_Z cpuCores) memoryAvailableMB diskAvailableMB.

Definition int64Number (v : option json) : Z := int_number v.

Definition evaluateHostCapacity (capacity used : obj) (registeredSlots pendingSlots : Z) : Capacity.Result :=
  capacityResult (int64Number (assoc "cpu_cores" capacity)) (int64Number (assoc "memory_available_mb" capacity))
    (int64Number (assoc "disk_available_mb" capacity)) (int64Number (assoc "device_slots" capacity))
    (Z.max registeredSlots (int64Number (assoc "device_slots" used))) pendingSlots.

(** ** The simulators of a pool *)
Definition pool_simulators (poolID : string) (db : DB) : list DeviceRow :=
  filter (fun d => is_ios_simulator d = true) (member_devices poolID db).

(** Simulators that count towards the target. *)
Definition counts_for_target (d : DeviceRow) : bool :=
  creating d || (healthy d && bool_decide (d_lifecycle d ∈ [DeviceReady; DeviceReserved; DeviceBusy; DeviceRecycling])).

(** Simulators that may hold a slot without being usable. *)
Definition stuck (d : DeviceRow) : bool :=
  lifecycle_is DeviceQuarantined d || lifecycle_is DeviceStopped d
  || (negb (creating d || lifecycle_is DeviceDeleted d) && negb (healthy d)).

Definition current_simulators (poolID : string) (db : DB) : Z := count_where counts_for_target (pool_simulators poolID db).
Definition unavailable_simulators (poolID : string) (db : DB) : Z :=
  count_where (fun d => occupies_slot d && stuck d) (pool_simulators poolID db).

(** ** Creating a simulator *)
Record CreateInput : Type := mkCreateInput {
  ci_HostID : string; ci_PoolID : string; ci_RuntimeID : string; ci_DeviceTypeID : string; ci_DisplayName : string; ci_Reason : string }.

Record Operation : Type := mkOperation { op_DeviceID : string; op_CommandID : string; op_HostID : string; op_PoolID : string; op_Status : string }.


Definition valid_create (actor : Actor) (requestID idempotencyKey : string) (input : CreateInput) : bool :=
  Valid actor && (8 <=? len (TrimSpace idempotencyKey)) && negb (blank requestID) && negb (blank (ci_HostID input))
  && negb (blank (ci_PoolID input)) && negb (blank (ci_RuntimeID input)) && negb (blank (ci_DeviceTypeID input))
  && negb (blank (ci_Reason input)) && (rune_count (ci_RuntimeID input) <=? 255) && (rune_count (ci_DeviceTypeID input) <=? 255)
  && (rune_count (TrimSpace (ci_DisplayName input)) <=? 128) && (rune_count (TrimSpace (ci_Reason input)) <=? 500).

Definition request_document (input : CreateInput) : obj :=
  [("device_type_id", JStr (ci_DeviceTypeID input)); ("display_name", JStr (TrimSpace (ci_DisplayName input)));
   ("host_id", JStr (ci_HostID input)); ("pool_id", JStr (ci_PoolID input)); ("runtime_id", JStr (ci_RuntimeID input))].

Definition command_with_idempotency_key (key : string) (db : DB) : option CommandRecord :=
  first_where (fun c => String.eqb (c_IdempotencyKey c) key) (order_by_desc (fun c => (c_CreatedAt c, c_ID c)) (commands db)).

(** The answer of a repeated request; a missing payload value is a scan error. *)
Definition replayed (c : CommandRecord) (requestHash : string) : Tx Operation :=
  let value k := expect_row (get_text (c_Payload c) k) (ErrExternal "cannot scan NULL into *string") in
  device ← value "device_id"%string;
  pool ← value "pool_id"%string;
  hash ← value "request_hash"%string;
  _ ← guard_or (String.eqb hash requestHash) IosErrConflict;
  mret (mkOperation device (c_ID c) (c_HostID c) pool "creating_simulator").

(** The room left in the pool, checked for automatic creations only. *)
Definition check_target (p : PoolRow) (db : DB) : Tx unit :=
  _ ← guard_or (unavailable_simulators (p_id p) db <=? 0) IosErrConflict;
  guard_or (current_simulators (p_id p) db <? p_total_target p) IosErrTargetSatisfied.

Definition registered (hostID : string) (db : DB) : list DeviceRow := host_devices hostID db.

Definition host_capacity (h : HostRow) (db : DB) : Capacity.Result :=
  evaluateHostCapacity (h_capacity h) (h_used_capacity h) (Z.of_nat (length (registered (h_id h) db)))
    (count_where creating (registered (h_id h) db)).

(** The display name; an identifier has at least six characters. *)
Definition display_name (catalog : Catalog) (deviceID : string) (input : CreateInput) : string :=
  let name := TrimSpace (ci_DisplayName input) in
  if nonempty name then name
  else (catalogDeviceTypeName catalog (ci_DeviceTypeID input) ++ "-" ++ suffix_from deviceID (String.length deviceID - 6))%string.

Definition simulator_capabilities (catalog : Catalog) (deviceID : string) (input : CreateInput) : obj :=
  [("platformName", JStr "iOS"); ("automationName", JStr "XCUITest"); ("deviceClass", JStr "phone"); ("realDevice", JBool false);
   ("runtimeId", JStr (ci_RuntimeID input)); ("deviceTypeId", JStr (ci_DeviceTypeID input));
   ("model", JStr (catalogDeviceTypeName catalog (ci_DeviceTypeID input))); ("deviceName", JStr (display_name catalog deviceID input))].

Definition simulator_payload (deviceID placeholder requestHash : string) (capabilities : obj) (input : CreateInput) : obj :=
  [("operation_source", JStr "management"); ("operation_state", JStr "provisioning"); ("operation_kind", JStr "ios_simulator_create");
   ("device_id", JStr deviceID); ("host_id", JStr (ci_HostID input)); ("pool_id", JStr (ci_PoolID input));
   ("provider_ref", JStr placeholder); ("platform", JStr "ios"); ("device_kind", JStr "simulator");
   ("capabilities", JObj capabilities); ("request_hash", JStr requestHash)].

(** [SET total_target=total_target+1,max_concurrency=GREATEST(max_concurrency,total_target+1)]. *)
Definition raise_target (now : Z) (p : PoolRow) : PoolRow :=
  p <| p_max_concurrency := Z.max (p_max_concurrency p) (p_total_target p + 1) |> <| p_total_target := p_total_target p + 1 |>
    <| p_updated_at := now |>.

(** The writes of a creation. *)
Definition register_simulator (deviceID commandID auditID commandKey requestHash : string) (actor : Actor) (requestID : string)
    (catalog : Catalog) (input : CreateInput) (increaseTarget : bool) : Tx Operation :=
  let capabilities := simulator_capabilities catalog deviceID input in
  let placeholder := ("pending:" ++ deviceID)%string in
  now ← ClockNow;
  _ ← insert_device (new_device deviceID (ci_HostID input) None "ios" "simulator" "appium_device_farm_ios" placeholder "rebuild"
        placeholder capabilities None now (display_name catalog deviceID input));
  _ ← insert_membership (ci_PoolID input) deviceID;
  command ← CreateCommand (mkCreateCommand commandID (ci_HostID input) "create"
              (simulator_payload deviceID placeholder requestHash capabilities input) 3 commandKey);
  _ ← (if increaseTarget
       then put_db (fun db => db <| device_pools := alter (raise_target now) (ci_PoolID input) (device_pools db) |>)
       else mret tt);
  _ ← insert_audit auditID (act_Type actor) (act_ID actor) "create_ios_simulator" "device" deviceID requestID
        (RedactText (ci_Reason input))
        [("host_id", JStr (ci_HostID input)); ("pool_id", JStr (ci_PoolID input)); ("runtime_id", JStr (ci_RuntimeID input));
         ("device_type_id", JStr (ci_DeviceTypeID input)); ("command_id", JStr (c_ID command))];
  mret (mkOperation deviceID (c_ID command) (ci_HostID input) (ci_PoolID input) "creating_simulator").

Definition offers (catalog : Catalog) (input : CreateInput) : bool :=
  catalogHasRuntime catalog (ci_RuntimeID input) && catalogHasDeviceType catalog (ci_DeviceTypeID input)
  && catalogSupportsDeviceType catalog (ci_RuntimeID input) (ci_DeviceTypeID input).

(** The body of the transaction; [Fail] carries the capacity of the host. *)
Definition simulator_tx (deviceID commandID auditID commandKey requestHash : string) (actor : Actor) (requestID : string)
    (input : CreateInput) (increaseTarget : bool) : Tx (result Capacity.Result Operation) :=
  db ← get_db;
  match command_with_idempotency_key commandKey db with
  | Some c => operation ← replayed c requestHash; mret (Ok operation)
  | None =>
    h ← expect_row (device_hosts db !! ci_HostID input) IosErrNotFound;
    now ← ProcessNow;
    _ ← guard_or (usable_host now h) IosErrConflict;
    catalog ← expect_row (catalogFromCapabilities (h_capabilities h)) IosErrInvalidArgument;
    _ ← guard_or (offers catalog input) IosErrInvalidArgument;
    p ← expect_row (device_pools db !! ci_PoolID input) IosErrNotFound;
    _ ← guard_or (bool_decide (p_status p = PoolActive) && String.eqb (p_platform p) "ios") IosErrConflict;
    _ ← (if increaseTarget then mret tt else check_target p db);
    let capacity := host_capacity h db in
    if cr_Fits capacity
    then operation ← register_simulator deviceID commandID auditID commandKey requestHash actor requestID catalog input increaseTarget;
         mret (Ok operation)
    else mret (Fail capacity)
  end.

Definition create (actor : Actor) (requestID idempotencyKey : string) (input : CreateInput) (increaseTarget : bool)
    : Tx (result Capacity.Result Operation) :=
  _ ← guard_or (valid_create actor requestID idempotencyKey input) IosErrInvalidArgument;
  requestHash ← env_gets (fun env _ => env_digest env (JObj (request_document input)));
  keyHash ← short_digest (act_ClientID actor ++ "|" ++ TrimSpace idempotencyKey)%string;
  deviceID ← newID;
  commandID ← newID;
  auditID ← newID;
  WithinTx (simulator_tx deviceID commandID auditID ("ios-create-" ++ keyHash)%string requestHash actor requestID input increaseTarget).

Definition Create (actor : Actor) (requestID idempotencyKey : string) (input : CreateInput) : Tx (result Capacity.Result Operation) :=
  create actor requestID idempotencyKey input true.

(** ** Filling the pools *)
Definition scale_reason : string := bytes
  [230;140;137;232;174;190;229;164;135;230;177;160;231;155;174;230;160;135;232;135;170;229;138;168;230;137;169;229;174;185;32;105;79;
   83;32;230;168;161;230;139;159;229;153;168]%N.

(** The value of a capability when it is a string. *)
Definition string_value (o : obj) (k : string) : string := match assoc k o with Some (JStr s) => s | _ => "" end.

Definition scaleTemplate (poolID : string) : Tx CreateInput :=
  db ← get_db;
  d ← expect_row (p <-? device_pools db !! poolID ;;
                  if String.eqb (p_platform p) "ios" && bool_decide (p_status p = PoolActive)
                  then p_base_device_id p ≫= fun id => devices db !! id else None) IosErrNotFound;
  _ ← guard_or (is_ios_simulator d) IosErrConflict;
  let runtimeID := string_value (d_capabilities d) "runtimeId" in
  let deviceTypeID := string_value (d_capabilities d) "deviceTypeId" in
  _ ← guard_or (negb (blank runtimeID) && negb (blank deviceTypeID)) IosErrConflict;
  mret (mkCreateInput (d_host_id d) poolID runtimeID deviceTypeID (string_value (d_capabilities d) "model") scale_reason).

(** What one turn of the loop over a pool came to. *)
Inductive Turn : Type :=
  | TurnCreated
  | TurnMissed
  | TurnEnded.

(** An error that ends the loop over the pool without failing the cycle. *)
Definition ends_pool (e : Err) : bool :=
  errors_is e IosErrTargetSatisfied || errors_is e IosErrConflict || errors_is e IosErrInvalidArgument || errors_is e IosErrNotFound.

Definition scale_turn (poolID : string) : Tx Turn :=
  template ← attempt (scaleTemplate poolID);
  match template with
  | Fail e => if errors_is e IosErrConflict || errors_is e IosErrNotFound then mret TurnEnded else throw e
  | Ok input =>
    keyID ← newID;
    requestID ← newID;
    r ← attempt (create System ("ios-pool-scale-" ++ requestID)%string ("ios-pool-scale-" ++ keyID)%string input false);
    match r with
    | Ok (Ok _) => mret TurnCreated
    | Ok (Fail _) => mret TurnMissed
    | Fail e => if ends_pool e then mret TurnEnded else throw e
    end
  end.

(** The loop over one pool; [None] means that the fuel ran out. *)
Fixpoint fill_pool (fuel : nat) (poolID : string) : Tx (option (Z * Z)) :=
  match fuel with
  | O => mret None
  | S n =>
    turn ← scale_turn poolID;
    match turn with
    | TurnCreated => r ← fill_pool n poolID; mret (option_map (fun c => (c.1 + 1, c.2)) r)
    | TurnMissed => mret (Some (0, 1))
    | TurnEnded => mret (Some (0, 0))
    end
  end.

Fixpoint fill_pools (fuel : nat) (poolIDs : list string) : Tx (option (Z * Z)) :=
  match poolIDs with
  | [] => mret (Some (0, 0))
  | id :: rest =>
    a ← fill_pool fuel id;
    match a with
    | None => mret None
    | Some a => b ← fill_pools fuel rest; mret (option_map (fun b => (a.1 + b.1, a.2 + b.2)) b)
    end
  end.

Definition wants_simulators (db : DB) (p : PoolRow) : bool :=
  String.eqb (p_platform p) "ios" && bool_decide (p_status p = PoolActive) && bool_decide (is_Some (p_base_device_id p))
  && (current_simulators (p_id p) db <? p_total_target p) && negb (existsb stuck (pool_simulators (p_id p) db)).

Definition ReconcileScaleUp (fuel : nat) : Tx (option (Z * Z)) :=
  db ← get_db;
  fill_pools fuel (map p_id (filter (fun p => wants_simulators db p = true) (order_by by_pool_id (rows (device_pools db))))).
