(* ===== verification/IOSSession.v ===== *)
(** * iOS sessions ([internal/iossession])

    A reservation of an iOS device is used through the session fence of its host.  The
    service issues a one-time grant for an active reservation ([Issue]); the fence
    consumes it ([Consume]), creates an Appium session upstream and binds it ([Bind]),
    asks for each later request whether it may pass ([Authorize]) and closes the session
    ([Close]).  [CloseForReservation] closes what is still open when the reservation
    ends, and [ReconcileOnce] quarantines a device whose provider disagrees with the
    sessions of the farm.

    The grant is a text of the token generator, an argument; only its SHA-256 is stored.
    [net/url], [net.ParseIP] and the HTTP call to the fence are arguments.  A request is
    given by what the decoder of [encoding/json] finds in it. *)
From Stdlib Require Import Ascii.
From S2P Require Import Prelude GoText Errors Domain Json Sensitive Actor Store.
From S2P Require Import RuntimeProfile ReservationRepo DeviceStore Reconcile DeviceOps Completion.

(** ** Arguments of the operations *)
Record GrantInput : Type := mkGrantInput { gi_OwnerType : string; gi_OwnerID : string; gi_TTLSeconds : Z }.

Record GrantView : Type := mkGrantView {
  gv_ReservationID : string; gv_DeviceID : string; gv_HostID : string; gv_UDID : string; gv_FenceEndpoint : string;
  gv_SessionGrant : string; gv_ExpiresAt : Z }.

(** A raw JSON text: its length in bytes, the first document that the decoder finds
    ([None] is a syntax error), and whether anything but white space follows. *)
Record RawMessage : Type := mkRaw { raw_Length : Z; raw_Document : option json; raw_Trailing : bool }.

Record ConsumeInput : Type := mkConsume { gc_HostID : string; gc_SessionGrant : string; gc_Request : RawMessage }.

Record ConsumeView : Type := mkConsumeView {
  cv_ReservationID : string; cv_DeviceID : string; cv_UpstreamEndpoint : string; cv_Request : obj }.

Record BindingInput : Type := mkBindingInput { bi_HostID : string; bi_SessionGrant : string; bi_AppiumSessionID : string }.
Record FailureInput : Type := mkFailureInput { fi_HostID : string; fi_SessionGrant : string; fi_ErrorCode : string }.

(** ** Texts *)
Definition validIdentifier (value : string) : bool :=
  (16 <=? len value) && (len value <=? 64) && forall_chars identifier_char value.

Definition base64url_char (a : ascii) : bool := identifier_char a.

Fixpoint drop_chars (p : ascii -> bool) (s : string) : string :=
  match s with
  | EmptyString => EmptyString
  | String a s' => if p a then drop_chars p s' else String a (drop_chars p s')
  end.

Definition is_byte (n : N) (a : ascii) : bool := (N_of_ascii a =? n)%N.

(** [base64.RawURLEncoding.DecodeString] yields 32 bytes: 43 characters of the alphabet;
    the decoder passes over carriage returns and line feeds. *)
Definition validGrant (grant : string) : bool :=
  let text := drop_chars (fun a => is_byte 10 a || is_byte 13 a) (TrimSpace grant) in
  forall_chars base64url_char text && (len text =? 43).

Definition hashGrant (grant : string) : Tx string := digest_text grant.

(** [^[A-Za-z0-9._:-]{1,128}$]. *)
Definition appiumSessionIDPattern (s : string) : bool :=
  forall_chars (fun a => identifier_char a || is_byte 46 a || is_byte 58 a) s && (1 <=? len s) && (len s <=? 128).

Definition upper_char (a : ascii) : bool := in_range 65 90 (N_of_ascii a).

(** [^[A-Z][A-Z0-9_]{2,63}$]. *)
Definition failureCodePattern (s : string) : bool :=
  match s with
  | String a rest => upper_char a && forall_chars (fun b => upper_char b || is_digit b || is_byte 95 b) rest && (2 <=? len rest) && (len rest <=? 63)
  | EmptyString => false
  end.

(** ** The request of a new session ([capabilities.go]) *)
Definition maxSessionRequestBytes : Z := 1048576.

(** [strings.EqualFold] on ASCII letters. *)
Definition EqualFold (a b : string) : bool := String.eqb (ToLower a) (ToLower b).

Definition forbidden_key (key : string) : bool :=
  bool_decide (ToLower (drop_chars (is_byte 95) (TrimSpace key)) ∈ ["tags"; "df:tags"; "filterbyhost"; "df:filterbyhost"]%string).

(** [forbiddenSelector(...) != ""]. *)
Definition forbiddenSelector (capabilities : obj) : bool := existsb (fun kv => forbidden_key kv.1) capabilities.

Definition hasRoutingCapability (capabilities : obj) : bool :=
  existsb (fun kv => bool_decide (ToLower (TrimSpace kv.1) ∈ ["platformname"; "appium:udid"; "df:udids"]%string)) capabilities.

Definition object_of (v : option json) : option obj := match v with Some (JObj o) => Some o | _ => None end.
Definition text_value (o : obj) (key : string) : option string := match assoc key o with Some (JStr s) => Some s | _ => None end.

(** The capabilities with their only candidate: [firstMatch] defaults to one empty one. *)
Definition with_first_match (capabilities : obj) : result Err obj :=
  match assoc "firstMatch" capabilities with
  | None => Ok (assoc_set "firstMatch" (JArr [JObj []]) capabilities)
  | Some (JArr [JObj candidate]) =>
    if hasRoutingCapability candidate || forbiddenSelector candidate then Fail SesErrInvalidArgument else Ok capabilities
  | Some _ => Fail SesErrInvalidArgument
  end.

Definition pinned_match (expectedUDID : string) (alwaysMatch : obj) : obj :=
  assoc_set "df:udids" (JStr expectedUDID) (assoc_set "appium:udid" (JStr expectedUDID) (assoc_set "platformName" (JStr "iOS") alwaysMatch)).

(** The checks of [alwaysMatch], in the order of the code. *)
Definition check_always_match (expectedUDID : string) (alwaysMatch : obj) : option Err :=
  let names key := match text_value alwaysMatch key with Some s => String.eqb (TrimSpace s) expectedUDID | None => false end in
  if forbiddenSelector alwaysMatch then Some SesErrInvalidArgument
  else if negb (match text_value alwaysMatch "platformName" with Some s => EqualFold (TrimSpace s) "ios" | None => false end) then Some SesErrInvalidArgument
  else if negb (names "appium:udid"%string) then Some SesErrRoutingMismatch
  else if negb (names "df:udids"%string) then Some SesErrRoutingMismatch
  else match assoc "appium:automationName" alwaysMatch with
       | None => None
       | Some (JStr s) => if EqualFold (TrimSpace s) "xcuitest" then None else Some SesErrInvalidArgument
       | Some _ => Some SesErrInvalidArgument
       end.

Definition validateAndPinSessionRequest (raw : RawMessage) (expectedUDID : string) : result Err obj :=
  if (raw_Length raw =? 0) || (maxSessionRequestBytes <? raw_Length raw) || blank expectedUDID then Fail SesErrInvalidArgument
  else match raw_Document raw with
  | Some (JObj [(key, JObj capabilities)]) =>
    if raw_Trailing raw || negb (String.eqb key "capabilities") then Fail SesErrInvalidArgument
    else match object_of (assoc "alwaysMatch" capabilities) with
    | None => Fail SesErrInvalidArgument
    | Some alwaysMatch =>
      match with_first_match capabilities with
      | Fail e => Fail e
      | Ok capabilities =>
        match check_always_match expectedUDID alwaysMatch with
        | Some e => Fail e
        | None => Ok [("capabilities"%string, JObj (assoc_set "alwaysMatch" (JObj (pinned_match expectedUDID alwaysMatch)) capabilities))]
        end
      end
    end
  | _ => Fail SesErrInvalidArgument
  end.

(** ** What the queries read *)

(** The text form of a boolean ([boolin]); white space around it is allowed. *)
Definition boolean_text (s : string) : option bool :=
  let t := ToLower (trim_with (map bytes [[9]; [10]; [11]; [12]; [13]; [32]]%N) s) in
  if bool_decide (t ∈ ["t"; "tr"; "tru"; "true"; "y"; "ye"; "yes"; "on"; "1"]%string) then Some true
  else if bool_decide (t ∈ ["f"; "fa"; "fal"; "fals"; "false"; "n"; "no"; "of"; "off"; "0"]%string) then Some false
  else None.

(** [COALESCE((d.capabilities->>'providerBusy')::boolean,false)]; [None] is a cast error. *)
Definition provider_busy (d : DeviceRow) : option bool :=
  match get_text (d_capabilities d) "providerBusy" with Some s => boolean_text s | None => Some false end.

(** [recent.appium_session_ended_at >= clock_timestamp()-interval '30 seconds']. *)
Definition recent_cleanup (now : Z) (deviceID : string) (db : DB) : bool :=
  existsb (fun s => String.eqb (s_DeviceID s) deviceID
                    && match f_AppiumEndedAt (s_Fence s) with Some ended => now - 30 * Second <=? ended | None => false end)
    (rows (device_sessions db)).

Record bindingRecord : Type := mkBinding {
  b_Session : SessionRecord; b_Reservation : ReservationRecord; b_Device : DeviceRow; b_Host : HostRow;
  b_ProviderBusy : bool; b_RecentCleanup : bool; b_SnapshotHostID : string; b_AppiumEndpoint : string; b_AppiumUDID : string }.

(** The joins of both queries, for a session. *)
Definition binding_of (now : Z) (db : DB) (s : SessionRecord) : Tx (option bindingRecord) :=
  match device_reservations db !! s_ReservationID s, devices db !! s_DeviceID s with
  | Some r, Some d =>
    match device_hosts db !! d_host_id d with
    | Some h =>
      busy ← or_cast_error (provider_busy d);
      let metadata key := default ""%string (get_text (s_ConnectionMetadata s) key) in
      mret (Some (mkBinding s r d h busy (recent_cleanup now (d_id d) db) (metadata "host_id"%string) (metadata "appium_endpoint"%string)
                    (metadata "appium_udid"%string)))
    | None => mret None
    end
  | _, _ => mret None
  end.

Definition with_grant (hash : string) (s : SessionRecord) : bool := bool_decide (f_GrantHash (s_Fence s) = Some hash).

(** [lockBindingByGrant] and [getBindingByGrant]. *)
Definition getBindingByGrant (hash : string) : Tx bindingRecord :=
  now ← ClockNow;
  db ← get_db;
  match first_where (with_grant hash) (rows (device_sessions db)) with
  | None => throw SesErrNotFound
  | Some s => b ← binding_of now db s; expect_row b SesErrNotFound
  end.

Definition after_now (now : Z) (t : option Z) : bool := match t with Some t => now <? t | None => false end.

(** [bindingRecord.available] is [nil]. *)
Definition available (b : bindingRecord) (now : Z) : bool :=
  String.eqb (d_platform (b_Device b)) "ios" && status_is ReservationActive (b_Reservation b)
  && after_now now (r_ExpiresAt (b_Reservation b)) && lifecycle_is DeviceBusy (b_Device b) && healthy (b_Device b)
  && bool_decide (h_status (b_Host b) = HostOnline) && negb (blank (b_AppiumEndpoint b)) && negb (blank (b_AppiumUDID b)).

(** ** Writing a session *)

(** [uq_device_sessions_grant_hash] and [uq_device_sessions_active_appium_device]. *)
Definition open_appium (s : SessionRecord) : bool :=
  bool_decide (is_Some (f_AppiumSessionID (s_Fence s))) && bool_decide (f_AppiumEndedAt (s_Fence s) = None)
  && bool_decide (s_Status s ∈ [SessionStarting; SessionActive; SessionClosing]).

Definition fence_conflict (s x : SessionRecord) : option string :=
  if negb (bool_decide (f_GrantHash (s_Fence s) = None)) && bool_decide (f_GrantHash (s_Fence x) = f_GrantHash (s_Fence s))
  then Some "uq_device_sessions_grant_hash"%string
  else if open_appium s && open_appium x && String.eqb (s_DeviceID x) (s_DeviceID s) then Some "uq_device_sessions_active_appium_device"%string
  else None.

(** [ck_device_sessions_appium_binding]: a session does not end before it started. *)
Definition fence_order (f : FenceColumns) : bool :=
  match f_AppiumStartedAt f, f_AppiumEndedAt f with Some a, Some b => a <=? b | _, _ => true end.

(** [UPDATE device_sessions SET ... WHERE id=$1 AND guard]: the rows affected. *)
Definition update_fence (id : string) (guard : SessionRecord -> bool) (f : FenceColumns -> FenceColumns) (now : Z) : Tx Z :=
  db ← get_db;
  match device_sessions db !! id with
  | Some s =>
    if guard s then
      let s' := s <| s_Fence := f (s_Fence s) |> <| s_UpdatedAt := now |> in
      _ ← guard_or (fence_order (s_Fence s')) (ErrCheckViolation "ck_device_sessions_appium_binding");
      match foldr (fun x acc => if String.eqb (s_ID x) id then acc else match fence_conflict s' x with Some c => Some c | None => acc end)
              None (rows (device_sessions db)) with
      | Some constraint => throw (ErrUniqueViolation constraint)
      | None => _ ← put_db (fun db => db <| device_sessions := <[id := s']> (device_sessions db) |>); mret 1
      end
    else mret 0
  | None => mret 0
  end.

(** ** Audit *)
Definition insertAuditResource (actor : Actor) (action resourceType resourceID requestID : string) (summary : obj) : Tx unit :=
  id ← newID;
  insert_audit id (act_Type actor) (act_ID actor) action resourceType resourceID requestID "" summary.

Definition insertAudit (actor : Actor) (action reservationID requestID : string) (summary : obj) : Tx unit :=
  insertAuditResource actor action "device_reservation" reservationID requestID summary.

Definition agent_actor (hostID : string) : Actor := mkActor ActorAgent hostID ActorAgent.

(** ** Quarantine of a device ([reconcile.go]) *)
Definition quarantineEventThrottleSeconds : Z := 300.

Definition recently_reported (now : Z) (deviceID eventType : string) (db : DB) : bool :=
  existsb (fun e => String.eqb (e_device_id e) deviceID && String.eqb (e_event_type e) eventType
                    && (now - quarantineEventThrottleSeconds * Second <? e_observed_at e))
    (device_health_events db).

Definition drifted_row (a : Domain.Device) (reason : string) (now : Z) (row : DeviceRow) : DeviceRow :=
  row <| d_lifecycle := Lifecycle a |> <| d_health := Health a |> <| d_health_reason := Some reason |>
      <| d_consecutive_failures := d_consecutive_failures row + 1 |> <| d_updated_at := now |>.

Definition report_drift (deviceID reservationID eventType reason : string) (payload : obj) (now : Z) : Tx unit :=
  eventID ← newID;
  _ ← insert_health_event eventID deviceID "session_fence" eventType "critical" reason payload now;
  let actor := mkActor ActorSystem "ios_session_reconciler" ActorSystem in
  let summary := [("device_id", JStr deviceID); ("reason", JStr reason)]%string in
  if String.eqb reservationID ""
  then insertAuditResource actor "quarantine_ios_session_drift" "device" deviceID ("ios_drift_" ++ eventID)%string summary
  else insertAudit actor "quarantine_ios_session_drift" reservationID ("ios_drift_" ++ eventID)%string summary.

Definition quarantine_tx (deviceID reservationID eventType reason : string) (payload : obj) : Tx unit :=
  db ← get_db;
  d ← expect_row (devices db !! deviceID) ErrNoRows;
  if lifecycle_is DeviceQuarantined d then mret tt
  else
    now ← ClockNow;
    aggregate ← lift_result (RestoreDevice deviceID (d_lifecycle d) (d_health d));
    a ← ensure_health aggregate HealthDegraded reason now;
    a ← ensure_lifecycle a DeviceQuarantined reason now;
    _ ← save_device deviceID (fun _ => true) (drifted_row a reason now);
    db ← get_db;
    if recently_reported now deviceID eventType db then mret tt
    else report_drift deviceID reservationID eventType reason payload now.

Definition quarantine (deviceID reservationID eventType reason : string) (payload : obj) : Tx unit :=
  WithinTx (quarantine_tx deviceID reservationID eventType reason payload).

Definition busy_without_session : string := "IOS_PROVIDER_BUSY_WITHOUT_BOUND_SESSION".

(** [errors.Join(err, quarantineErr)] when the quarantine fails as well. *)
Definition quarantine_busy {A} (deviceID reservationID eventType : string) : Tx A :=
  r ← attempt (quarantine deviceID reservationID eventType busy_without_session [("drift_code", JStr busy_without_session)]%string);
  match r with
  | Ok _ => throw SesErrProviderBusy
  | Fail e => throw (ErrJoin SesErrProviderBusy e)
  end.

(** ** Consuming, binding, authorising and closing *)

(** [ErrProviderBusy] with the device to quarantine is the [inr] of a transaction that
    wrote nothing. *)
Definition consume_tx (hash requestID : string) (input : ConsumeInput) : Tx (ConsumeView + bindingRecord) :=
  b ← getBindingByGrant hash;
  now ← ClockNow;
  let fence := s_Fence (b_Session b) in
  _ ← guard_or (String.eqb (d_host_id (b_Device b)) (gc_HostID input) && String.eqb (b_SnapshotHostID b) (gc_HostID input)) SesErrRoutingMismatch;
  _ ← guard_or (bool_decide (f_GrantConsumedAt fence = None)) SesErrGrantConsumed;
  _ ← guard_or (after_now now (f_GrantExpiresAt fence)) SesErrGrantExpired;
  _ ← guard_or (available b now) SesErrConflict;
  if b_ProviderBusy b then
    if b_RecentCleanup b then throw SesErrProviderBusyConverging else mret (inr b)
  else
    pinned ← lift_result (validateAndPinSessionRequest (gc_Request input) (b_AppiumUDID b));
    _ ← update_fence (s_ID (b_Session b)) (fun s => bool_decide (f_GrantConsumedAt (s_Fence s) = None))
          (fun f => f <| f_GrantConsumedAt := Some now |>) now;
    _ ← insertAudit (agent_actor (gc_HostID input)) "consume_ios_session_grant" (r_ID (b_Reservation b)) requestID
          [("device_id", JStr (d_id (b_Device b))); ("host_id", JStr (d_host_id (b_Device b)))]%string;
    mret (inl (mkConsumeView (r_ID (b_Reservation b)) (d_id (b_Device b)) (b_AppiumEndpoint b) pinned)).

Definition Consume (input : ConsumeInput) (requestID : string) : Tx ConsumeView :=
  _ ← guard_or (validIdentifier (gc_HostID input) && validGrant (gc_SessionGrant input) && negb (blank requestID)) SesErrInvalidArgument;
  hash ← hashGrant (gc_SessionGrant input);
  r ← WithinTx (consume_tx hash requestID input);
  match r with
  | inl view => mret view
  | inr b => quarantine_busy (d_id (b_Device b)) (r_ID (b_Reservation b)) "ios_provider_busy_on_consume"
  end.

Definition valid_binding (input : BindingInput) : bool :=
  validIdentifier (bi_HostID input) && validGrant (bi_SessionGrant input) && appiumSessionIDPattern (TrimSpace (bi_AppiumSessionID input)).

Definition bind_tx (hash requestID : string) (input : BindingInput) : Tx unit :=
  b ← getBindingByGrant hash;
  now ← ClockNow;
  let fence := s_Fence (b_Session b) in
  _ ← guard_or (String.eqb (d_host_id (b_Device b)) (bi_HostID input) && String.eqb (b_SnapshotHostID b) (bi_HostID input)
                && bool_decide (is_Some (f_GrantConsumedAt fence))) SesErrRoutingMismatch;
  _ ← guard_or (available b now) SesErrConflict;
  match f_AppiumSessionID fence with
  | Some id => guard_or (String.eqb id (bi_AppiumSessionID input) && bool_decide (f_AppiumEndedAt fence = None)) SesErrConflict
  | None =>
    id ← varchar 128 (bi_AppiumSessionID input);
    _ ← update_fence (s_ID (b_Session b)) (fun s => bool_decide (f_AppiumSessionID (s_Fence s) = None))
          (fun f => f <| f_AppiumSessionID := Some id |> <| f_AppiumStartedAt := Some now |> <| f_AppiumEndedAt := None |>) now;
    insertAudit (agent_actor (bi_HostID input)) "bind_ios_appium_session" (r_ID (b_Reservation b)) requestID
      [("device_id", JStr (d_id (b_Device b))); ("host_id", JStr (d_host_id (b_Device b))); ("appium_session_bound", JBool true)]%string
  end.

Definition Bind (input : BindingInput) (requestID : string) : Tx unit :=
  _ ← guard_or (valid_binding input && negb (blank requestID)) SesErrInvalidArgument;
  hash ← hashGrant (bi_SessionGrant input);
  WithinTx (bind_tx hash requestID input).

(** The upstream endpoint of an authorised request. *)
Definition Authorize (input : BindingInput) : Tx string :=
  _ ← guard_or (valid_binding input) SesErrInvalidArgument;
  hash ← hashGrant (bi_SessionGrant input);
  b ← getBindingByGrant hash;
  let fence := s_Fence (b_Session b) in
  _ ← guard_or (String.eqb (d_host_id (b_Device b)) (bi_HostID input) && String.eqb (b_SnapshotHostID b) (bi_HostID input)
                && bool_decide (is_Some (f_GrantConsumedAt fence)) && bool_decide (f_AppiumSessionID fence = Some (bi_AppiumSessionID input))
                && bool_decide (f_AppiumEndedAt fence = None)) SesErrRoutingMismatch;
  now ← ClockNow;
  _ ← guard_or (available b now) SesErrConflict;
  mret (b_AppiumEndpoint b).

Definition close_tx (hash requestID : string) (input : BindingInput) : Tx unit :=
  b ← getBindingByGrant hash;
  let fence := s_Fence (b_Session b) in
  _ ← guard_or (String.eqb (d_host_id (b_Device b)) (bi_HostID input) && bool_decide (f_AppiumSessionID fence = Some (bi_AppiumSessionID input)))
        SesErrRoutingMismatch;
  if bool_decide (is_Some (f_AppiumEndedAt fence)) then mret tt
  else
    now ← ClockNow;
    _ ← update_fence (s_ID (b_Session b)) (fun s => bool_decide (f_AppiumEndedAt (s_Fence s) = None)) (fun f => f <| f_AppiumEndedAt := Some now |>) now;
    insertAudit (agent_actor (bi_HostID input)) "close_ios_appium_session" (r_ID (b_Reservation b)) requestID
      [("device_id", JStr (d_id (b_Device b))); ("host_id", JStr (d_host_id (b_Device b))); ("appium_session_closed", JBool true)]%string.

Definition Close (input : BindingInput) (requestID : string) : Tx unit :=
  _ ← guard_or (valid_binding input && negb (blank requestID)) SesErrInvalidArgument;
  hash ← hashGrant (bi_SessionGrant input);
  WithinTx (close_tx hash requestID input).

Definition create_failed_reason : string := ("iOS Session Fence " ++ bytes
  [229; 136; 155; 229; 187; 186; 228; 184; 138; 230; 184; 184]%N ++ " Appium Session " ++ bytes [229; 164; 177; 232; 180; 165]%N)%string.

Definition failure_tx (hash requestID errorCode : string) (input : FailureInput) : Tx unit :=
  b ← getBindingByGrant hash;
  _ ← guard_or (String.eqb (d_host_id (b_Device b)) (fi_HostID input)) SesErrRoutingMismatch;
  now ← ClockNow;
  eventID ← newID;
  _ ← insert_health_event eventID (d_id (b_Device b)) "session_fence" "ios_session_create_failed" "warning" create_failed_reason
        [("error_code", JStr errorCode); ("host_id", JStr (d_host_id (b_Device b)))]%string now;
  insertAudit (agent_actor (fi_HostID input)) "fail_ios_appium_session" (r_ID (b_Reservation b)) requestID
    [("device_id", JStr (d_id (b_Device b))); ("host_id", JStr (d_host_id (b_Device b))); ("error_code", JStr errorCode)]%string.

Definition RecordFailure (input : FailureInput) (requestID : string) : Tx unit :=
  let errorCode := TrimSpace (fi_ErrorCode input) in
  _ ← guard_or (validIdentifier (fi_HostID input) && validGrant (fi_SessionGrant input) && failureCodePattern errorCode && negb (blank requestID))
        SesErrInvalidArgument;
  hash ← hashGrant (fi_SessionGrant input);
  WithinTx (failure_tx hash requestID errorCode input).

(** ** Drift ([ReconcileOnce]) *)
Definition iosSessionBindingGraceSeconds : Z := 300.
Definition iosSessionNotBusyReservationGraceSeconds : Z := 30.

Definition active_reservation (deviceID : string) (db : DB) : option ReservationRecord :=
  first_where (fun r => on_device deviceID r && status_is ReservationActive r) (reservations db).

Definition active_session (r : ReservationRecord) (db : DB) : option SessionRecord :=
  first_where (fun s => String.eqb (s_ReservationID s) (r_ID r) && bool_decide (s_Status s = SessionActive)) (rows (device_sessions db)).

(** The columns of the joined session; all null without one. *)
Definition joined_fence (r : option ReservationRecord) (db : DB) : FenceColumns :=
  match r ≫= fun r => active_session r db with Some s => s_Fence s | None => no_fence end.

Definition recently_failed (now : Z) (deviceID : string) (db : DB) : bool :=
  existsb (fun e => String.eqb (e_device_id e) deviceID && String.eqb (e_event_type e) "ios_session_create_failed"
                    && (now - 90 * Second <=? e_observed_at e))
    (device_health_events db).

Definition before (t : option Z) (limit : Z) : bool := match t with Some t => t <? limit | None => false end.

(** The [CASE] of the query, with the reservation of the device. *)
Definition drift_reason (now : Z) (db : DB) (d : DeviceRow) (r : option ReservationRecord) (busy : bool) : option string :=
  let f := joined_fence r db in
  if busy && bool_decide (r = None) && negb (recent_cleanup now (d_id d) db) && negb (recently_failed now (d_id d) db)
  then Some "IOS_PROVIDER_BUSY_WITHOUT_RESERVATION"%string
  else if busy && bool_decide (is_Some r) && bool_decide (f_AppiumSessionID f = None)
          && (bool_decide (f_GrantConsumedAt f = None) || before (f_GrantConsumedAt f) (now - iosSessionBindingGraceSeconds * Second))
  then Some busy_without_session
  else if negb busy && bool_decide (is_Some (f_AppiumSessionID f)) && bool_decide (f_AppiumEndedAt f = None)
          && before (f_AppiumStartedAt f) (now - 15 * Second)
          && match r ≫= r_ExpiresAt with Some e => now + iosSessionNotBusyReservationGraceSeconds * Second <? e | None => false end
  then Some "IOS_BOUND_SESSION_NOT_BUSY"%string
  else None.

(** One row of [candidates]: the device, its reservation or an empty text, the reason. *)
Definition drift_of (now : Z) (db : DB) (d : DeviceRow) : option (option (string * string * string)) :=
  if String.eqb (d_platform d) "ios" && negb (lifecycle_is DeviceQuarantined d || lifecycle_is DeviceDeleted d) then
   (busy <-? provider_busy d ;;
    let r := active_reservation (d_id d) db in
    Some (option_map (fun reason => (d_id d, match r with Some r => r_ID r | None => ""%string end, reason)) (drift_reason now db d r busy)))
  else Some None.

(** The rows by device; [None] is a cast error of one of them. *)
Definition drifts (now : Z) (db : DB) : option (list (string * string * string)) :=
  option_map (omap id) (mapM (drift_of now db) (order_by (fun d => (0, d_id d)) (rows (devices db)))).

Definition ReconcileOnce : Tx unit :=
  now ← ClockNow;
  db ← get_db;
  found ← or_cast_error (drifts now db);
  match found with
  | [] => throw SesErrNothingToReconcile
  | (deviceID, reservationID, reason) :: _ => quarantine deviceID reservationID "ios_session_drift" reason [("drift_code", JStr reason)]%string
  end.

(** One tick of [RunReconcile]: until there is nothing left or an error; [None] means
    that the fuel ran out. *)
Fixpoint RunReconcile (fuel : nat) : Tx (option unit) :=
  match fuel with
  | O => mret None
  | S n => r ← attempt ReconcileOnce; match r with Ok _ => RunReconcile n | Fail _ => mret (Some tt) end
  end.

(** ** Issuing a grant, and closing for the reservation *)

(** What [net/url] finds in an absolute URL. *)
Record URL : Type := mkURL {
  u_Scheme : string; u_User : bool; u_Host : string; u_Hostname : string; u_Path : string; u_RawQuery : string; u_Fragment : string }.
#[export] Instance eta_URL : Eta URL := fun u =>
  mkURL (u_Scheme u) (u_User u) (u_Host u) (u_Hostname u) (u_Path u) (u_RawQuery u) (u_Fragment u).

(** [strings.TrimRight(s, "/")]. *)
Definition trim_slashes (s : string) : string := rev_string (trim_left (String.length s) ["/"%string] (rev_string s)).

Section Fence.
(** [url.Parse], [URL.String] of a URL without a raw path, [url.PathEscape], whether
    [net.ParseIP] finds a loopback address, and the status code of a [DELETE] request to
    the fence with the token and the host in its headers ([None] is a failed call). *)
Context (url_Parse : string -> option URL) (url_String : URL -> string) (url_PathEscape : string -> string).
Context (loopback_ip : string -> bool) (fence_Delete : string -> string -> string -> option Z).

Definition validateFenceEndpoint (raw : string) : result Err string :=
  match url_Parse (TrimSpace raw) with
  | None => Fail SesErrHostUnavailable
  | Some u =>
    if String.eqb (u_Host u) "" || u_User u || nonempty (u_RawQuery u) || nonempty (u_Fragment u)
       || negb (String.eqb (u_Scheme u) "https" || String.eqb (u_Scheme u) "http")
    then Fail SesErrHostUnavailable
    else
      let hostname := ToLower (u_Hostname u) in
      if negb (String.eqb (u_Scheme u) "https") && negb (String.eqb hostname "localhost" || loopback_ip hostname) then Fail SesErrHostUnavailable
      else Ok (trim_slashes (url_String (u <| u_Path := trim_slashes (u_Path u) |>)))
  end.

Definition fence_endpoint (h : HostRow) : string := default ""%string (get_text (h_capabilities h) "session_fence_endpoint").

(** The row that [issue] reads: the session of the reservation with its joins. *)
Definition reservation_binding (reservationID : string) : Tx bindingRecord :=
  now ← ClockNow;
  db ← get_db;
  match session_of db reservationID with
  | None => throw SesErrNotFound
  | Some s => b ← binding_of now db s; expect_row b SesErrNotFound
  end.

(** The binding that a grant may be issued for; the [inr] is the device to quarantine. *)
Definition issue_tx (actor : Actor) (reservationID requestID grant hash ownerType ownerID : string) (ttl : Z) : Tx (GrantView + bindingRecord) :=
  b ← reservation_binding reservationID;
  now ← ClockNow;
  let r := b_Reservation b in
  let s := b_Session b in
  _ ← guard_or (String.eqb (r_ClientID r) (act_ClientID actor) && String.eqb (r_OwnerType r) ownerType && String.eqb (r_OwnerID r) ownerID)
        SesErrForbidden;
  _ ← guard_or (available b now && bool_decide (s_Status s = SessionActive) && String.eqb (b_SnapshotHostID b) (d_host_id (b_Device b)))
        SesErrConflict;
  if b_ProviderBusy b then
    if b_RecentCleanup b then throw SesErrProviderBusyConverging else mret (inr b)
  else
    _ ← guard_or (bool_decide (f_AppiumSessionID (s_Fence s) = None)) SesErrConflict;
    endpoint ← lift_result (validateFenceEndpoint (fence_endpoint (b_Host b)));
    let wanted := now + ttl * Second in
    let expiresAt := match r_ExpiresAt r with Some e => Z.min wanted e | None => wanted end in
    _ ← update_fence (s_ID s) (fun _ => true)
          (fun f => f <| f_GrantHash := Some hash |> <| f_GrantExpiresAt := Some expiresAt |> <| f_GrantConsumedAt := None |>) now;
    _ ← insertAudit actor "issue_ios_session_grant" reservationID requestID
          [("device_id", JStr (d_id (b_Device b))); ("host_id", JStr (d_host_id (b_Device b))); ("expires_at", jint expiresAt)]%string;
    mret (inl (mkGrantView reservationID (d_id (b_Device b)) (d_host_id (b_Device b)) (b_AppiumUDID b) endpoint grant expiresAt)).

(** [newGrant] is the text that the token generator returns. *)
Definition issue (newGrant : result Err string) (actor : Actor) (reservationID requestID : string) (input : GrantInput) : Tx GrantView :=
  let ownerType := TrimSpace (gi_OwnerType input) in
  let ownerID := TrimSpace (gi_OwnerID input) in
  let ttl := if gi_TTLSeconds input =? 0 then 60 else gi_TTLSeconds input in
  _ ← guard_or ((15 <=? ttl) && (ttl <=? 120) && nonempty ownerType && nonempty ownerID) SesErrInvalidArgument;
  grant ← lift_result newGrant;
  _ ← guard_or (validGrant grant) (ErrExternal "the token generator returned an invalid grant");
  hash ← hashGrant grant;
  r ← WithinTx (issue_tx actor reservationID requestID grant hash ownerType ownerID ttl);
  match r with
  | inl view => mret view
  | inr b => quarantine_busy (d_id (b_Device b)) reservationID "ios_provider_busy_on_grant"
  end.

Definition Issue (newGrant : result Err string) (actor : Actor) (reservationID requestID : string) (input : GrantInput) : Tx GrantView :=
  _ ← guard_or (Valid actor && String.eqb (act_Type actor) ActorService && validIdentifier reservationID && negb (blank requestID))
        SesErrInvalidArgument;
  issue newGrant actor reservationID requestID input.

(** The open Appium session of a reservation, as the query of [CloseForReservation]. *)
Definition open_session (reservationID : string) (db : DB) : option (SessionRecord * DeviceRow * HostRow * string) :=
  s <-? session_of db reservationID ;;
  d <-? devices db !! s_DeviceID s ;;
  h <-? device_hosts db !! d_host_id d ;;
  appium <-? f_AppiumSessionID (s_Fence s) ;;
  if String.eqb (d_platform d) "ios" && bool_decide (f_AppiumEndedAt (s_Fence s) = None) then Some (s, d, h, appium) else None.

(** The call to the fence: [None] is success; a missing session counts as closed. *)
Definition close_upstream (agentToken hostID appiumSessionID endpoint : string) : option Err :=
  match validateFenceEndpoint endpoint with
  | Fail e => Some e
  | Ok fence =>
    if String.eqb agentToken "" then Some SesErrHostUnavailable
    else match fence_Delete agentToken hostID (fence ++ "/internal/v1/ios-session-fence/sessions/" ++ url_PathEscape appiumSessionID)%string with
    | Some status => if bool_decide (status ∈ [200; 204; 404]) then None else Some (ErrExternal "unexpected status of the session fence")
    | None => Some (ErrExternal "session fence unreachable")
    end
  end.

Definition cleanup_reason : string := "IOS_SESSION_CLEANUP_FAILED: Host Fence could not close the upstream Appium Session".

Definition closed_tx (reservationID deviceID hostID sessionID appiumSessionID : string) : Tx unit :=
  now ← ClockNow;
  n ← update_fence sessionID
        (fun s => bool_decide (f_AppiumSessionID (s_Fence s) = Some appiumSessionID) && bool_decide (f_AppiumEndedAt (s_Fence s) = None))
        (fun f => f <| f_AppiumEndedAt := Some now |>) now;
  if n =? 0 then mret tt
  else insertAudit (mkActor ActorSystem "ios_session_reaper" ActorSystem) "cleanup_ios_appium_session" reservationID
         ("ios_cleanup_" ++ reservationID)%string
         [("device_id", JStr deviceID); ("host_id", JStr hostID); ("appium_session_closed", JBool true)]%string.

Definition CloseForReservation (agentToken reservationID : string) : Tx unit :=
  _ ← guard_or (validIdentifier reservationID) SesErrInvalidArgument;
  db ← get_db;
  match open_session reservationID db with
  | None => mret tt
  | Some (s, d, h, appiumSessionID) =>
    match close_upstream agentToken (d_host_id d) appiumSessionID (fence_endpoint h) with
    | Some _ =>
      r ← attempt (quarantine (d_id d) reservationID "ios_session_cleanup_failed" cleanup_reason
                     [("host_id", JStr (d_host_id d)); ("cleanup_failed", JBool true)]%string);
      match r with
      | Ok _ => throw SesErrCleanupFailed
      | Fail e => throw (ErrJoin SesErrCleanupFailed e)
      end
    | None => WithinTx (closed_tx reservationID (d_id d) (d_host_id d) (s_ID s) appiumSessionID)
    end
  end.
End Fence.
