(* ===== verification/ManagementStore.v ===== *)
(** * The management store ([internal/management/postgres])

    The statements on images, hosts, pools, their images and their devices: each checks
    the constraints that the migrations put on the tables, and a change is written under
    the status that the caller has read.  Creating an image, a host or a pool is one
    pattern, [createIdempotent]; the class [Resource] says how a kind of row is inserted
    and loaded.

    A foreign key is modelled where a row joins two tables and is reported as
    [MgmtErrNotFound], what [normalize] makes of it; of the lengths of columns only those
    of the names are.  The methods of the service are in [Management]. *)
From Stdlib Require Import Ascii.
From S2P Require Import Prelude GoText Errors Domain Json Sensitive Actor Store.
From S2P Require Import RuntimeProfile ReservationRepo CommandRepo DeviceStore Reconcile DeviceOps ImageCatalog WarmPool.

(** ** Rows as the service sees them *)
Record Idempotency : Type := mkIdempotencyMeta {
  id_ClientID : string; id_Scope : string; id_Key : string; id_RequestHash : string; id_ResourceType : string;
  id_ResourceID : string; id_ResponseStatus : Z }.

(** [management.Pool]: the row, and whether the farm can create devices for it now;
    [None] is not evaluated. *)
Record PoolView : Type := mkPoolView { vp_row : PoolRow; vp_Provisionable : option bool; vp_ProvisionableReason : string }.

Definition host_types : list string := ["docker_emulator"; "usb_android"; "hybrid"; "appium_device_farm_ios"].
Definition arch_char (a : ascii) : bool :=
  let n := N_of_ascii a in in_range 97 122 n || in_range 65 90 n || in_range 48 57 n || bool_decide (n ∈ [95; 46; 45]%N).

(** ** The constraints of the tables *)

Definition nonempty (s : string) : bool := negb (String.eqb s "").

(** [^[0-9]+x[0-9]+$]. *)
Definition resolution_pattern (s : string) : bool :=
  match first_where (starts_at "x" s) (seq 0 (String.length s)) with
  | Some i => let width := String.substring 0 i s in let height := suffix_from s (S i) in
              nonempty width && forall_chars is_digit width && nonempty height && forall_chars is_digit height
  | None => false
  end.

Definition any_hex (a : ascii) : bool := let n := N_of_ascii a in in_range 48 57 n || in_range 97 102 n || in_range 65 70 n.

(** [^sha256:[a-fA-F0-9]{64}$]. *)
Definition digest_pattern (s : string) : bool :=
  match strip_prefix "sha256:" s with Some digest => (len digest =? 64) && forall_chars any_hex digest | None => false end.

Definition reference_char (a : ascii) : bool := arch_char a || bool_decide (N_of_ascii a ∈ [58; 47; 64]%N).

Definition ends_with (p s : string) : bool :=
  (String.length p <=? String.length s)%nat && String.eqb (suffix_from s (String.length s - String.length p)) p.

(** [ck_device_images_runtime_reference]: a digest, or a tag other than latest. *)
Definition reference_pattern (s : string) : bool :=
  nonempty s && forall_chars reference_char s && negb (ends_with ":latest" (ToLower s))
  && ((72 <=? len s) && digest_pattern (suffix_from s (String.length s - 71)) && starts_at "@" s (String.length s - 72)
      || negb (occurs s "@")
         && match LastIndex s ":" with
            | Some colon => let tag := suffix_from s (S colon) in nonempty tag && forall_chars arch_char tag
            | None => false
            end).

(** The checks of [device_images]. *)
Definition image_checks (i : ImageRow) : option string :=
  if negb (digest_pattern (im_docker_digest i)) then Some "ck_device_images_digest"
  else if im_api_level i <? 21 then Some "ck_device_images_api_level"
  else if negb (bool_decide (im_abi i ∈ ["x86_64"; "arm64-v8a"]%string)) then Some "ck_device_images_abi"
  else if negb (resolution_pattern (im_resolution i)) then Some "ck_device_images_resolution"
  else if negb (String.eqb (im_docker_image i) "" || reference_pattern (im_docker_image i)) then Some "ck_device_images_runtime_reference"
  else if negb (validImageStatus (im_status i)) then Some "ck_device_images_status"
  else if String.eqb (im_docker_image i) "" && negb (bool_decide (im_status i ∈ [ImageDraft; ImageFailed; ImageDisabled]))
  then Some "ck_device_images_runnable_reference"
  else None.

Definition host_checks (h : HostRow) : option string :=
  if negb (bool_decide (h_host_type h ∈ host_types)) then Some "ck_device_hosts_type"
  else if negb (validHostStatus (h_status h)) then Some "ck_device_hosts_status"
  else if negb (Bool.eqb (h_draining h) (bool_decide (h_status h = HostDraining))) then Some "ck_device_hosts_draining"
  else if negb (bool_decide (h_host_os h ∈ ["linux"; "macos"; "windows"]%string)) then Some "ck_device_hosts_os"
  else if negb (nonempty (h_host_arch h) && forall_chars arch_char (h_host_arch h) && (len (h_host_arch h) <=? 32)) then Some "ck_device_hosts_arch"
  else if String.eqb (h_host_type h) "appium_device_farm_ios" && negb (String.eqb (h_host_os h) "macos") then Some "ck_device_hosts_ios_macos"
  else None.

Definition pool_checks (p : PoolRow) : option string :=
  if negb (validPoolStatus (p_status p)) then Some "ck_device_pools_status"
  else if negb ((60 <=? p_default_lease_seconds p) && (p_default_lease_seconds p <=? p_max_lease_seconds p)) then Some "ck_device_pools_lease"
  else if negb (0 <? p_max_concurrency p) then Some "ck_device_pools_concurrency"
  else if negb (0 <=? p_total_target p) then Some "ck_device_pools_total_target"
  else if negb ((0 <=? p_min_ready p) && (p_min_ready p <=? p_total_target p)) then Some "ck_device_pools_min_ready"
  else if negb (bool_decide (p_platform p ∈ ["android"; "ios"]%string)) then Some "ck_device_pools_platform"
  else None.

Definition pool_image_checks (p : PoolImageRow) : option string :=
  if (0 <=? pi_min_ready p) && (0 <? pi_max_instances p) && (pi_min_ready p <=? pi_max_instances p) then None
  else Some "ck_device_pool_images_capacity".

Definition enforce (c : option string) : Tx unit := match c with Some constraint => throw (ErrCheckViolation constraint) | None => mret tt end.
(** The kinds of device that each platform and each provider has. *)
Definition device_checks (d : DeviceRow) : option string :=
  let kinds := if String.eqb (d_platform d) "android" then ["emulator"; "physical"] else ["simulator"; "physical"] in
  let kind k := String.eqb (d_device_kind d) k in
  if negb (identifierPattern (d_id d)) then Some "ck_devices_id"
  else if negb (bool_decide (d_platform d ∈ ["android"; "ios"])) then Some "ck_devices_platform"
  else if negb (bool_decide (d_device_kind d ∈ kinds)) then Some "ck_devices_platform_kind"
  else if negb (bool_decide (d_provider_type d ∈
            "mock" :: (if String.eqb (d_platform d) "ios" then ["appium_device_farm_ios"]
                       else if kind "emulator" then ["docker_emulator"] else ["usb_android"])))
  then Some "ck_devices_platform_provider"
  else if negb (Bool.eqb (bool_decide (is_Some (d_image_id d))) (String.eqb (d_platform d) "android" && kind "emulator"))
  then Some "ck_devices_kind_image"
  else if negb (bool_decide (d_lifecycle_mode d ∈ ["rebuild"; "clean"; "factory_reset"])) then Some "ck_devices_lifecycle_mode"
  else None.

Definition unique (free : bool) (constraint : string) : Tx unit := guard_or free (ErrUniqueViolation constraint).

(** The unique index that another row shares with this one. *)
Definition image_conflict (i : ImageRow) (db : DB) : option string :=
  let other p := existsb (fun x => negb (String.eqb (im_id x) (im_id i)) && p x) (rows (device_images db)) in
  if other (fun x => String.eqb (im_name x) (im_name i)) then Some "device_images_name_key"
  else if other (same_image (im_docker_digest i) (im_resource_config i)) then Some "uq_device_images_digest_runtime_profile"
  else None.

Definition host_conflict (h : HostRow) (db : DB) : option string :=
  if existsb (fun x => negb (String.eqb (h_id x) (h_id h)) && String.eqb (h_name x) (h_name h)) (rows (device_hosts db))
  then Some "device_hosts_name_key" else None.

Definition pool_conflict (p : PoolRow) (db : DB) : option string :=
  if existsb (fun x => negb (String.eqb (p_id x) (p_id p)) && String.eqb (p_name x) (p_name p)) (rows (device_pools db))
  then Some "device_pools_name_key" else None.

Definition no_conflict_with (c : DB -> option string) : Tx unit :=
  db ← get_db; match c db with Some constraint => throw (ErrUniqueViolation constraint) | None => mret tt end.

(** The trigger [prevent_pool_platform_mismatch]: a pool that changes its platform has no
    device of another one. *)
Definition platform_conflict (old : PoolRow) (p : PoolRow) (db : DB) : bool :=
  negb (String.eqb (p_platform p) (p_platform old))
  && existsb (fun pd => String.eqb (pd_pool_id pd) (p_id p)
                        && match devices db !! pd_device_id pd with Some d => negb (String.eqb (d_platform d) (p_platform p)) | None => false end)
       (rows (device_pool_devices db)).

(** ** Whether the farm can create devices for a pool *)
Definition emulator_candidate (h : HostRow) : bool :=
  bool_decide (h_status h = HostOnline) && negb (h_draining h) && bool_decide (h_host_type h ∈ ["docker_emulator"; "hybrid"]%string).

(** The host was seen not to hold the image. *)
Definition lacks_image (db : DB) (image : string) (h : HostRow) : bool :=
  match device_host_image_states db !! (h_id h, image) with Some s => negb (hi_available s) | None => false end.

Definition pool_members (db : DB) (poolID : string) : list DeviceRow :=
  omap (fun pd => if String.eqb (pd_pool_id pd) poolID && pd_enabled pd
                  then match devices db !! pd_device_id pd with Some d => if lifecycle_is DeviceDeleted d then None else Some d | None => None end
                  else None)
    (rows (device_pool_devices db)).

Definition on_usable_host (db : DB) (d : DeviceRow) : bool :=
  match device_hosts db !! d_host_id d with Some h => bool_decide (h_status h = HostOnline) && negb (h_draining h) | None => false end.

(** Why no online host can create a device of the pool, [None] when one can. *)
Definition provisionability (db : DB) (p : PoolRow) (image : string) : option string :=
  let candidates := filter (fun h => emulator_candidate h = true) (rows (device_hosts db)) in
  let usable := filter (fun h => lacks_image db image h = false) candidates in
  let members := pool_members db (p_id p) in
  if bool_decide (usable <> []) then None
  else if bool_decide (candidates = []) then Some "没有在线的 Docker 模拟器宿主机，拉不起这个池的设备"
  else if bool_decide (members <> []) && negb (existsb (on_usable_host db) members)
  then Some "这个池的设备都在已掉线的宿主机上，当前没有在线宿主能拉起它"
  else if bool_decide (members = []) then Some "这个池还没有在任何在线宿主上成功建过虚拟机，请先在在线宿主上构建或导入该池的镜像"
  else Some "所有在线宿主上都没有这个池指定的镜像（镜像引用走宿主本地仓库，创建时不拉取）".

Definition fillPoolProvisionability (db : DB) (p : PoolRow) : PoolView :=
  match p_default_image_id p with
  | Some image =>
    if String.eqb (p_platform p) "android"
    then match provisionability db p image with
         | None => mkPoolView p (Some true) ""
         | Some reason => mkPoolView p (Some false) reason
         end
    else mkPoolView p None ""
  | None => mkPoolView p None ""
  end.

(** ** Resources that a client creates once per key *)
Class Resource (T V : Type) : Type := {
  insert_resource : T -> Tx unit;
  load_resource : string -> Tx V }.

Definition record_of (meta : Idempotency) : IdempotencyRow :=
  mkIdempotency (id_RequestHash meta) (id_ResourceType meta) (id_ResourceID meta) (id_ResponseStatus meta).

Section Creation.
Context {T V : Type} `{Resource T V}.

Definition create_resource_tx (meta : Idempotency) (row : T) : Tx V :=
  db ← get_db;
  let key := (id_ClientID meta, id_Scope meta, id_Key meta) in
  match device_idempotency_records db !! key with
  | None =>
    _ ← put_db (fun db => db <| device_idempotency_records := <[key := record_of meta]> (device_idempotency_records db) |>);
    _ ← insert_resource row;
    load_resource (id_ResourceID meta)
  | Some r =>
    _ ← guard_or (String.eqb (i_request_hash r) (id_RequestHash meta) && String.eqb (i_resource_type r) (id_ResourceType meta)) MgmtErrConflict;
    load_resource (i_resource_id r)
  end.

Definition createIdempotent (meta : Idempotency) (row : T) : Tx V := map_err normalize (WithinTx (create_resource_tx meta row)).
End Creation.

(** ** Images in the store *)
Definition put_image (i : ImageRow) : Tx unit := put_db (fun db => db <| device_images := <[im_id i := i]> (device_images db) |>).

Definition insert_image (i : ImageRow) : Tx unit :=
  now ← ClockNow;
  name ← varchar 128 (im_name i);
  let i := i <| im_name := name |> <| im_created_at := now |> <| im_updated_at := now |> in
  _ ← enforce (image_checks i);
  db ← get_db;
  _ ← unique (negb (bool_decide (is_Some (device_images db !! im_id i)))) "device_images_pkey";
  _ ← no_conflict_with (image_conflict i);
  put_image i.

#[export] Instance image_resource : Resource ImageRow ImageRow := { insert_resource := insert_image; load_resource := GetImage }.

Definition with_status (expected : ImageStatus) (i : ImageRow) : bool := bool_decide (im_status i = expected).

(** [Store.UpdateImage]: every column that a client may change, under the old status. *)
Definition update_image (image : ImageRow) (expected : ImageStatus) : Tx ImageRow :=
  now ← ClockNow;
  db ← get_db;
  match device_images db !! im_id image with
  | Some row =>
    if with_status expected row then
      name ← varchar 128 (im_name image);
      let row := image <| im_name := name |> <| im_created_at := im_created_at row |> <| im_updated_at := now |> in
      _ ← enforce (image_checks row);
      _ ← no_conflict_with (image_conflict row);
      _ ← put_image row;
      mret row
    else throw ErrNoRows
  | None => throw ErrNoRows
  end.

Definition UpdateImageRow (image : ImageRow) (expected : ImageStatus) : Tx ImageRow := map_err rowError (update_image image expected).

Definition write_audit (audit : DeviceAudit) (resourceType resourceID : string) (summary : obj) : Tx unit :=
  insert_audit (au_ID audit) (au_ActorType audit) (au_ActorID audit) (au_Action audit) resourceType resourceID (au_RequestID audit)
    (RedactText (au_Reason audit)) summary.

Definition default_references (db : DB) (image : string) : bool :=
  existsb (fun p => bool_decide (p_default_image_id p = Some image)) (rows (device_pools db)).

Definition active_devices (db : DB) (image : string) : bool :=
  existsb (fun d => bool_decide (d_image_id d = Some image) && negb (lifecycle_is DeviceDeleted d)) (rows (devices db)).

Definition disable_links (image : string) (now : Z) (db : DB) : DB :=
  db <| device_pool_images := (fun p => if String.eqb (pi_image_id p) image then p <| pi_enabled := false |> <| pi_updated_at := now |> else p)
                              <$> device_pool_images db |>.

Definition retire_tx (image : ImageRow) (expected : ImageStatus) (audit : DeviceAudit) : Tx ImageRow :=
  db ← get_db;
  now ← ClockNow;
  row ← expect_row (device_images db !! im_id image) MgmtErrNotFound;
  _ ← guard_or (with_status expected row) MgmtErrConflict;
  _ ← guard_or (negb (default_references db (im_id image) || active_devices db (im_id image))) MgmtErrConflict;
  _ ← put_db (disable_links (im_id image) now);
  let row := row <| im_status := im_status image |> <| im_updated_at := now |> in
  _ ← enforce (image_checks row);
  _ ← put_image row;
  _ ← write_audit audit "device_image" (im_id image)
        [("previous_status", JStr (status_string expected)); ("status", JStr (status_string (im_status image)));
         ("pool_links_disabled", JBool true); ("history_preserved", JBool true)]%string;
  mret row.

Definition RetireImageRow (image : ImageRow) (expected : ImageStatus) (audit : DeviceAudit) : Tx ImageRow :=
  map_err normalize (WithinTx (retire_tx image expected audit)).

(** ** Hosts in the store *)
Definition put_host (h : HostRow) : Tx unit := put_db (fun db => db <| device_hosts := <[h_id h := h]> (device_hosts db) |>).

Definition insert_host (h : HostRow) : Tx unit :=
  now ← ClockNow;
  name ← varchar 128 (h_name h);
  let h := h <| h_name := name |> <| h_created_at := now |> <| h_updated_at := now |> in
  _ ← enforce (host_checks h);
  db ← get_db;
  _ ← unique (negb (bool_decide (is_Some (device_hosts db !! h_id h)))) "device_hosts_pkey";
  _ ← no_conflict_with (host_conflict h);
  put_host h.

Definition GetHost (id : string) : Tx HostRow :=
  db ← get_db; match device_hosts db !! id with Some h => mret h | None => throw MgmtErrNotFound end.

#[export] Instance host_resource : Resource HostRow HostRow := { insert_resource := insert_host; load_resource := GetHost }.

(** [Store.UpdateHost]; the time of the last heartbeat stays. *)
Definition update_host (host : HostRow) (expected : HostStatus) : Tx HostRow :=
  now ← ClockNow;
  db ← get_db;
  match device_hosts db !! h_id host with
  | Some row =>
    if bool_decide (h_status row = expected) then
      name ← varchar 128 (h_name host);
      let row := host <| h_name := name |> <| h_last_heartbeat_at := h_last_heartbeat_at row |> <| h_created_at := h_created_at row |>
                      <| h_updated_at := now |> in
      _ ← enforce (host_checks row);
      _ ← no_conflict_with (host_conflict row);
      _ ← put_host row;
      mret row
    else throw ErrNoRows
  | None => throw ErrNoRows
  end.

Definition UpdateHostRow (host : HostRow) (expected : HostStatus) : Tx HostRow := map_err rowError (update_host host expected).

(** ** Pools in the store *)
Definition put_pool (p : PoolRow) : Tx unit := put_db (fun db => db <| device_pools := <[p_id p := p]> (device_pools db) |>).

Definition insert_pool (p : PoolRow) : Tx unit :=
  now ← ClockNow;
  name ← varchar 128 (p_name p);
  let p := p <| p_name := name |> <| p_created_at := now |> <| p_updated_at := now |> in
  _ ← enforce (pool_checks p);
  db ← get_db;
  _ ← unique (negb (bool_decide (is_Some (device_pools db !! p_id p)))) "device_pools_pkey";
  _ ← no_conflict_with (pool_conflict p);
  put_pool p.

Definition GetPool (id : string) : Tx PoolView :=
  db ← get_db; match device_pools db !! id with Some p => mret (fillPoolProvisionability db p) | None => throw MgmtErrNotFound end.

#[export] Instance pool_resource : Resource PoolRow PoolView := { insert_resource := insert_pool; load_resource := GetPool }.

Definition update_pool_tx (pool : PoolRow) (expected : PoolStatus) (audit : DeviceAudit) : Tx PoolRow :=
  now ← ClockNow;
  db ← get_db;
  match device_pools db !! p_id pool with
  | Some row =>
    if bool_decide (p_status row = expected) then
      name ← varchar 128 (p_name pool);
      _ ← guard_or (negb (platform_conflict row pool db)) (ErrCheckViolation "ck_device_pool_devices_platform");
      let value := pool <| p_name := name |> <| p_created_at := p_created_at row |> <| p_updated_at := now |> in
      _ ← enforce (pool_checks value);
      _ ← no_conflict_with (pool_conflict value);
      _ ← put_pool value;
      _ ← write_audit audit "device_pool" (p_id pool)
            ([("total_target", jint (p_total_target pool)); ("min_ready", jint (p_min_ready pool));
              ("max_concurrency", jint (p_max_concurrency pool));
              ("default_image_id", match p_default_image_id pool with Some i => JStr i | None => JNull end)])%string;
      mret value
    else throw ErrNoRows
  | None => throw ErrNoRows
  end.

Definition UpdatePoolRow (pool : PoolRow) (expected : PoolStatus) (audit : DeviceAudit) : Tx PoolRow :=
  map_err normalize (WithinTx (update_pool_tx pool expected audit)).

(** ** The images of a pool *)
Definition GetPoolImage (poolID imageID : string) : Tx PoolImageRow :=
  db ← get_db; match device_pool_images db !! (poolID, imageID) with Some l => mret l | None => throw MgmtErrNotFound end.

(** [INSERT ... ON CONFLICT(pool_id,image_id) DO UPDATE ...]. *)
Definition upsert_pool_image (value : PoolImageRow) : Tx PoolImageRow :=
  now ← ClockNow;
  db ← get_db;
  let key := (pi_pool_id value, pi_image_id value) in
  let created := match device_pool_images db !! key with Some l => pi_created_at l | None => now end in
  let row := value <| pi_created_at := created |> <| pi_updated_at := now |> in
  _ ← enforce (pool_image_checks row);
  _ ← expect_row (device_pools db !! pi_pool_id value) MgmtErrNotFound;
  _ ← expect_row (device_images db !! pi_image_id value) MgmtErrNotFound;
  _ ← put_db (fun db => db <| device_pool_images := <[key := row]> (device_pool_images db) |>);
  mret row.

(** The pool after a change of the image that it may scale with. *)
Definition retarget (image : string) (maxInstances minReady now : Z) (p : PoolRow) : PoolRow :=
  let p' := p <| p_default_image_id := Some (default image (p_default_image_id p)) |> <| p_updated_at := now |> in
  if match p_default_image_id p with None => true | Some i => String.eqb i image end
  then p' <| p_total_target := maxInstances |> <| p_min_ready := minReady |> <| p_max_concurrency := maxInstances |> else p'.

Definition set_pool_image_tx (value : PoolImageRow) (audit : DeviceAudit) : Tx PoolImageRow :=
  db ← get_db;
  now ← ClockNow;
  _ ← guard_or (match device_pool_images db !! (pi_pool_id value, pi_image_id value) with
                | Some current => (pi_max_instances current <=? pi_max_instances value) || au_DestructiveApproved audit
                | None => true
                end) MgmtErrInvalidArgument;
  result ← upsert_pool_image value;
  p ← expect_row (device_pools db !! pi_pool_id value) ErrNoRows;
  let p := retarget (pi_image_id value) (pi_max_instances value) (pi_min_ready value) now p in
  _ ← enforce (pool_checks p);
  _ ← put_pool p;
  _ ← write_audit audit "device_pool_image" (pi_image_id value)
        [("pool_id", JStr (pi_pool_id value)); ("min_ready", jint (pi_min_ready value)); ("max_instances", jint (pi_max_instances value));
         ("enabled", JBool (pi_enabled value)); ("pool_total_target", jint (p_total_target p)); ("host_capacity_policy", JStr "dynamic")]%string;
  mret result.

Definition SetPoolImageRow (value : PoolImageRow) (audit : DeviceAudit) : Tx PoolImageRow :=
  map_err normalize (WithinTx (set_pool_image_tx value audit)).

Definition disable_pool_image (poolID imageID : string) : Tx PoolImageRow :=
  now ← ClockNow;
  db ← get_db;
  l ← expect_row (device_pool_images db !! (poolID, imageID)) ErrNoRows;
  let l := l <| pi_enabled := false |> <| pi_updated_at := now |> in
  _ ← put_db (fun db => db <| device_pool_images := <[(poolID, imageID) := l]> (device_pool_images db) |>);
  mret l.

Definition DisablePoolImageRow (poolID imageID : string) : Tx PoolImageRow := map_err rowError (disable_pool_image poolID imageID).

Definition select_default_tx (poolID imageID : string) (audit : DeviceAudit) : Tx PoolRow :=
  db ← get_db;
  now ← ClockNow;
  p ← expect_row (device_pools db !! poolID) MgmtErrNotFound;
  image ← expect_row (device_images db !! imageID) MgmtErrNotFound;
  _ ← guard_or (bool_decide (im_status image = ImageReady)) MgmtErrImageUnavailable;
  _ ← upsert_pool_image (mkPoolImageRow poolID imageID true (p_total_target p) (p_total_target p) now now);
  let p := p <| p_default_image_id := Some imageID |> <| p_updated_at := now |> in
  _ ← enforce (pool_checks p);
  _ ← put_pool p;
  _ ← write_audit audit "device_pool" poolID
        [("default_image_id", JStr imageID); ("pool_image_enabled", JBool true); ("existing_devices_reimaged", JBool false)]%string;
  mret p.

Definition SelectPoolDefaultImageRow (poolID imageID : string) (audit : DeviceAudit) : Tx PoolRow :=
  map_err normalize (WithinTx (select_default_tx poolID imageID audit)).

(** ** The devices of a pool *)

(** A device that a pool can be scaled after. *)
Definition validTemplate (p : PoolRow) (d : DeviceRow) : bool :=
  String.eqb (p_platform p) (d_platform d)
  && ((String.eqb (p_platform p) "android" && String.eqb (d_device_kind d) "emulator" && String.eqb (d_provider_type d) "docker_emulator")
      || (String.eqb (p_platform p) "ios" && String.eqb (d_device_kind d) "simulator" && String.eqb (d_provider_type d) "appium_device_farm_ios")).

Definition set_base_tx (poolID deviceID : string) (audit : DeviceAudit) : Tx PoolRow :=
  db ← get_db;
  now ← ClockNow;
  pd ← expect_row (device_pool_devices db !! (poolID, deviceID)) ErrNoRows;
  p ← expect_row (device_pools db !! poolID) ErrNoRows;
  d ← expect_row (devices db !! deviceID) ErrNoRows;
  _ ← guard_or (pd_enabled pd && validTemplate p d && lifecycle_is DeviceReady d && healthy d) MgmtErrInvalidArgument;
  let p := p <| p_base_device_id := Some deviceID |> <| p_updated_at := now |> in
  _ ← enforce (pool_checks p);
  _ ← put_pool p;
  _ ← write_audit audit "device_pool" poolID [("base_device_id", JStr deviceID)]%string;
  mret p.

Definition SetPoolBaseDeviceRow (poolID deviceID : string) (audit : DeviceAudit) : Tx PoolRow :=
  map_err normalize (WithinTx (set_base_tx poolID deviceID audit)).

(** The trigger [enforce_device_pool_platform_match] runs before the conflict is seen. *)
Definition add_membership (poolID deviceID : string) : Tx unit :=
  now ← ClockNow;
  db ← get_db;
  _ ← guard_or (bool_decide (option_map p_platform (device_pools db !! poolID) = option_map d_platform (devices db !! deviceID)))
        (ErrCheckViolation "ck_device_pool_devices_platform");
  _ ← expect_row (device_pools db !! poolID) MgmtErrNotFound;
  let row := match device_pool_devices db !! (poolID, deviceID) with
             | Some pd => pd <| pd_enabled := true |> <| pd_updated_at := now |>
             | None => mkPoolDeviceRow poolID deviceID true now now
             end in
  put_db (fun db => db <| device_pool_devices := <[(poolID, deviceID) := row]> (device_pool_devices db) |>).

Definition AddDeviceToPoolRow (poolID deviceID : string) : Tx unit := map_err normalize (add_membership poolID deviceID).

Definition RemoveDeviceFromPoolRow (poolID deviceID : string) : Tx unit :=
  now ← ClockNow;
  db ← get_db;
  match device_pool_devices db !! (poolID, deviceID) with
  | Some pd => if pd_enabled pd
               then put_db (fun db => db <| device_pool_devices := <[(poolID, deviceID) := pd <| pd_enabled := false |> <| pd_updated_at := now |>]>
                                            (device_pool_devices db) |>)
               else throw MgmtErrNotFound
  | None => throw MgmtErrNotFound
  end.

(** ** Devices in the store *)
Definition unnamed : string := "未命名设备".

Definition create_device (d : DeviceRow) : Tx Device :=
  now ← ClockNow;
  let d := d <| d_name := if String.eqb (d_name d) "" then unnamed else d_name d |> <| d_created_at := now |> <| d_updated_at := now |> in
  _ ← enforce (device_checks d);
  _ ← insert_device d;
  load_device (d_id d).

Definition CreateDevice (d : DeviceRow) : Tx Device := map_err rowError (create_device d).

Definition rename_tx (id name : string) (audit : DeviceAudit) : Tx Device :=
  now ← ClockNow;
  db ← get_db;
  _ ← match devices db !! id with
      | Some d => _ ← check_name name;
                  put_db (fun db => db <| devices := <[id := d <| d_name := name |> <| d_updated_at := now |>]> (devices db) |>)
      | None => mret tt
      end;
  value ← load_device id;
  _ ← write_audit audit "device" id [("name", JStr name)]%string;
  mret value.

Definition UpdateDeviceNameRow (id name : string) (audit : DeviceAudit) : Tx Device := map_err rowError (WithinTx (rename_tx id name audit)).

(** ** Lists *)
Definition list_page {R} (page : Page) (k : R -> key) (l : list R) : list R * Z := (window page (order_by k l), Z.of_nat (length l)).

Definition ListImages (page : Page) (status : option ImageStatus) (db : DB) : list ImageRow * Z :=
  list_page page (fun i => (im_created_at i, im_id i))
    (filter (fun i => match status with Some st => with_status st i | None => true end = true) (rows (device_images db))).

Definition ListHosts (page : Page) (db : DB) : list HostRow * Z := list_page page (fun h => (h_created_at h, h_id h)) (rows (device_hosts db)).

Definition ListPools (page : Page) (db : DB) : list PoolView * Z :=
  let '(pools, total) := list_page page (fun p => (p_created_at p, p_id p)) (rows (device_pools db)) in
  (map (fillPoolProvisionability db) pools, total).

Definition ListPoolImages (poolID : string) (page : Page) (db : DB) : list PoolImageRow * Z :=
  list_page page (fun l => (pi_created_at l, pi_image_id l)) (filter (fun l => pi_pool_id l = poolID) (rows (device_pool_images db))).

Record DeviceFilter : Type := mkDeviceFilter {
  df_PoolID : string; df_Platform : string; df_LifecycleStatus : option DeviceLifecycleStatus; df_HealthStatus : option HealthStatus }.

Definition passes (f : DeviceFilter) (db : DB) (d : DeviceRow) : bool :=
  (String.eqb (df_PoolID f) ""
   || match device_pool_devices db !! (df_PoolID f, d_id d) with Some pd => pd_enabled pd | None => false end)
  && (String.eqb (df_Platform f) "" || String.eqb (d_platform d) (df_Platform f))
  && match df_LifecycleStatus f with Some l => lifecycle_is l d | None => negb (lifecycle_is DeviceDeleted d) end
  && match df_HealthStatus f with Some h => bool_decide (d_health d = h) | None => true end.

Definition ListDevices (page : Page) (f : DeviceFilter) (db : DB) : list Device * Z :=
  let '(ds, total) := list_page page (fun d => (d_created_at d, d_id d)) (filter (fun d => passes f db d = true) (rows (devices db))) in
  (map (device_of db) ds, total).

(** [Store.ListSchedulableDevices]. *)
Definition ListSchedulableDevices (poolID : string) (db : DB) : list Device :=
  let schedulable d :=
    match device_pool_devices db !! (poolID, d_id d), device_pools db !! poolID, device_hosts db !! d_host_id d with
    | Some pd, Some p, Some h => pd_enabled pd && bool_decide (p_status p = PoolActive) && bool_decide (h_status h = HostOnline)
                                 && negb (h_draining h) && lifecycle_is DeviceReady d && healthy d
    | _, _, _ => false
    end in
  map (device_of db) (order_by (fun d => (d_created_at d, d_id d)) (filter (fun d => schedulable d = true) (rows (devices db)))).
