(* ===== verification/Management.v ===== *)
(** * Management of images, hosts and pools ([internal/management])

    The methods of the service on images, hosts, pools, their images and their devices,
    over the statements of [ManagementStore]; the operations on single devices are in
    [DeviceOps].  A method validates its input, reads a row, checks the change against the
    aggregate of the row and writes it back under the status that it read. *)
From Stdlib Require Import Ascii.
From S2P Require Import Prelude GoText Errors Domain Json Sensitive Actor Store.
From S2P Require Import RuntimeProfile ReservationRepo DeviceStore Reconcile Providers DeviceOps ManagementStore.

(** ** Inputs

    A map of a request is [None] when the request does not have it: Go's nil map. *)
Record ImageInput : Type := mkImageInput {
  ii_Name : string; ii_DockerImage : string; ii_DockerDigest : string; ii_APILevel : Z; ii_ABI : string; ii_Resolution : string;
  ii_ResourceConfig : option obj; ii_Enabled : option bool }.

Record HostInput : Type := mkHostInput {
  hin_Name : string; hin_HostType : string; hin_HostOS : string; hin_HostArch : string; hin_Address : string;
  hin_Capabilities : option obj; hin_Capacity : option obj }.
#[export] Instance eta_HostInput : Eta HostInput := fun h =>
  mkHostInput (hin_Name h) (hin_HostType h) (hin_HostOS h) (hin_HostArch h) (hin_Address h) (hin_Capabilities h) (hin_Capacity h).

Record PoolInput : Type := mkPoolInput {
  pli_Name : string; pli_Platform : string; pli_DefaultLeaseSeconds : Z; pli_MaxLeaseSeconds : Z; pli_MaxConcurrency : Z;
  pli_TotalTarget : option Z; pli_MinReady : option Z; pli_DefaultImageID : option string; pli_Enabled : option bool;
  pli_FreshVMPerRun : option bool; pli_Reason : string }.
#[export] Instance eta_PoolInput : Eta PoolInput := fun p =>
  mkPoolInput (pli_Name p) (pli_Platform p) (pli_DefaultLeaseSeconds p) (pli_MaxLeaseSeconds p) (pli_MaxConcurrency p)
    (pli_TotalTarget p) (pli_MinReady p) (pli_DefaultImageID p) (pli_Enabled p) (pli_FreshVMPerRun p) (pli_Reason p).

Record PoolImageInput : Type := mkPoolImageInput { pii_MinReady : Z; pii_MaxInstances : Z; pii_Enabled : option bool; pii_Reason : string }.

Record ProvisionMockDeviceInput : Type := mkMockInput {
  mk_ID : string; mk_HostID : string; mk_ImageID : string; mk_Platform : string; mk_DeviceKind : string; mk_ProviderRef : string;
  mk_Capabilities : obj }.

(** ** Checks *)
Definition cloneMap (source : option obj) : obj := default [] source.

Definition normalizedPlatform (value : string) : string :=
  let value := ToLower (TrimSpace value) in
  if bool_decide (value ∈ ["android"; "ios"]%string) then value else "".

Definition canonicalPlatformName (value : string) : string := if String.eqb value "ios" then "iOS" else "Android".

Definition normalizedHostOS (value : string) : string :=
  let value := ToLower (TrimSpace value) in
  if String.eqb value "" then "linux" else if bool_decide (value ∈ ["linux"; "macos"; "windows"]%string) then value else "".

Definition normalizedHostArch (value : string) : string :=
  let value := TrimSpace value in
  if String.eqb value "" then "unknown" else if forall_chars arch_char value && (len value <=? 32) then value else "".

Definition validHostType (value : string) : bool := bool_decide (TrimSpace value ∈ host_types).

Definition validDeviceName (value : string) : bool :=
  negb ((rune_count value <? 2) || (40 <? rune_count value) || Contains value) && forallb (fun r => negb (IsControl r)) (runes value).

Definition validateImageInput (input : ImageInput) : bool :=
  negb (blank (ii_Name input) || negb (HasPrefix (ii_DockerDigest input) "sha256:") || (ii_APILevel input <? 21)
        || blank (ii_ABI input) || blank (ii_Resolution input) || ContainsMap (cloneMap (ii_ResourceConfig input))
        || (negb (blank (ii_DockerImage input)) && negb (ValidRuntimeImageReference (ii_DockerImage input))))
  && match Parse (cloneMap (ii_ResourceConfig input)) with Some _ => true | None => false end.

Definition validatePoolInput (input : PoolInput) (totalTarget minReady : Z) : bool :=
  negb (blank (pli_Name input) || (pli_DefaultLeaseSeconds input <? 60)
        || (pli_MaxLeaseSeconds input <? pli_DefaultLeaseSeconds input) || (pli_MaxConcurrency input <? 1) || (totalTarget <? 0)
        || (minReady <? 0) || (totalTarget <? minReady) || String.eqb (normalizedPlatform (pli_Platform input)) "").

Definition mustRuntimeProfile (values : obj) : Profile := match Parse values with Some p => p | None => Default end.

(** ** The documents that the hashes of the requests are taken of *)
Definition opt_field {A} (key : string) (f : A -> json) (o : option A) : obj := match o with Some a => [(key, f a)] | None => [] end.
Definition map_json (m : option obj) : json := match m with Some kvs => JObj kvs | None => JNull end.
Definition text_field (key value : string) : obj := if String.eqb value "" then [] else [(key, JStr value)].

Definition image_document (i : ImageInput) : json :=
  JObj ([("name", JStr (ii_Name i))]%string ++ text_field "docker_image" (ii_DockerImage i)
        ++ [("docker_digest", JStr (ii_DockerDigest i)); ("api_level", jint (ii_APILevel i)); ("abi", JStr (ii_ABI i));
            ("resolution", JStr (ii_Resolution i)); ("resource_config", map_json (ii_ResourceConfig i))]%string
        ++ opt_field "enabled" JBool (ii_Enabled i)).

Definition host_document (h : HostInput) : json :=
  JObj [("name", JStr (hin_Name h)); ("host_type", JStr (hin_HostType h)); ("host_os", JStr (hin_HostOS h));
        ("host_arch", JStr (hin_HostArch h)); ("address", JStr (hin_Address h)); ("capabilities", map_json (hin_Capabilities h));
        ("capacity", map_json (hin_Capacity h))]%string.

Definition pool_document (p : PoolInput) : json :=
  JObj ([("name", JStr (pli_Name p)); ("platform", JStr (pli_Platform p)); ("default_lease_seconds", jint (pli_DefaultLeaseSeconds p));
         ("max_lease_seconds", jint (pli_MaxLeaseSeconds p)); ("max_concurrency", jint (pli_MaxConcurrency p))]%string
        ++ opt_field "total_target" jint (pli_TotalTarget p) ++ opt_field "min_ready" jint (pli_MinReady p)
        ++ opt_field "default_image_id" JStr (pli_DefaultImageID p) ++ opt_field "enabled" JBool (pli_Enabled p)
        ++ opt_field "fresh_vm_per_run" JBool (pli_FreshVMPerRun p) ++ text_field "reason" (pli_Reason p)).

Definition idempotency (clientID scope key resourceType resourceID : string) (request : json) (status : Z) : Tx Idempotency :=
  _ ← guard_or (negb (blank clientID || (len (TrimSpace key) <? 8))) MgmtErrInvalidArgument;
  hash ← env_gets (fun env _ => env_digest env request);
  mret (mkIdempotencyMeta clientID scope key hash resourceType resourceID status).


(** ** Images *)
Definition reference_required : string := "IMAGE_REFERENCE_REQUIRED".
Definition revalidation_required : string := "IMAGE_REVALIDATION_REQUIRED".

Definition CreateImage (clientID key : string) (input : ImageInput) : Tx ImageRow :=
  _ ← guard_or (validateImageInput input) MgmtErrInvalidArgument;
  id ← newID;
  let status := match ii_Enabled input with Some false => ImageDisabled | _ => ImageDraft end in
  let dockerImage := TrimSpace (ii_DockerImage input) in
  let image := mkImageRow id (ii_APILevel input) (ii_ABI input) (ii_Resolution input) (cloneMap (ii_ResourceConfig input)) status
                 dockerImage (ii_DockerDigest input) (ii_Name input)
                 (if String.eqb dockerImage "" then Some reference_required else None) 0 0 in
  meta ← idempotency clientID "create_device_image" key "device_image" id (image_document input) 201;
  createIdempotent meta image.

Definition RetireImage (id reason : string) (actor : Actor) (requestID : string) : Tx ImageRow :=
  _ ← guard_or (negb (blank id || negb (validReason reason))) MgmtErrInvalidArgument;
  current ← GetImage id;
  _ ← guard_or (negb (bool_decide (im_status current ∈ [ImageDisabled; ImageValidating]))) MgmtErrConflict;
  aggregate ← lift_result (RestoreImage (im_id current) (im_status current));
  now ← ProcessNow;
  a ← apply_call (transition aggregate ImageDisabled "image retired" now);
  event ← deviceAudit actor requestID "retire_device_image" (TrimSpace reason);
  RetireImageRow (current <| im_status := sm_status a |>) (im_status current) (event <| au_DestructiveApproved := true |>).

(** [reflect.DeepEqual(input.ResourceConfig, current.ResourceConfig)]: a nil map differs
    from the empty one. *)
Definition same_config (config : option obj) (current : obj) : bool :=
  match config with Some kvs => json_eqb (JObj kvs) (JObj current) | None => false end.

Definition definition_changed (input : ImageInput) (dockerImage : string) (current : ImageRow) : bool :=
  negb (String.eqb dockerImage (im_docker_image current)) || negb (String.eqb (ii_DockerDigest input) (im_docker_digest current))
  || negb (ii_APILevel input =? im_api_level current) || negb (String.eqb (ii_ABI input) (im_abi current))
  || negb (String.eqb (ii_Resolution input) (im_resolution current))
  || negb (same_config (ii_ResourceConfig input) (im_resource_config current)).

(** The status that an update asks for. *)
Definition update_target (changed : bool) (enabled : option bool) (status : ImageStatus) : ImageStatus :=
  if bool_decide (enabled = Some true) && bool_decide (status = ImageDisabled) then ImageDraft
  else if changed && negb (bool_decide (status ∈ [ImageDraft; ImageDisabled])) then ImageDraft
  else status.

(** What is left to validate after an update. *)
Definition update_validation (changed : bool) (dockerImage : string) (current : option string) : option string :=
  if String.eqb dockerImage "" then Some reference_required
  else if changed then Some revalidation_required
  else if bool_decide (current = Some reference_required) then None else current.

Definition UpdateImage (id : string) (input : ImageInput) : Tx ImageRow :=
  _ ← guard_or (validateImageInput input) MgmtErrInvalidArgument;
  _ ← guard_or (negb (bool_decide (ii_Enabled input = Some false))) MgmtErrInvalidArgument;
  current ← GetImage id;
  let from := im_status current in
  let trimmed := TrimSpace (ii_DockerImage input) in
  let dockerImage := if String.eqb trimmed "" then im_docker_image current else trimmed in
  let changed := definition_changed input dockerImage current in
  let target := update_target changed (ii_Enabled input) from in
  _ ← (if bool_decide (target = from) then mret tt
       else aggregate ← lift_result (RestoreImage (im_id current) from);
            now ← ProcessNow;
            _ ← apply_call (transition aggregate target "management update" now);
            mret tt);
  UpdateImageRow
    (current <| im_name := ii_Name input |> <| im_docker_image := dockerImage |> <| im_docker_digest := ii_DockerDigest input |>
             <| im_api_level := ii_APILevel input |> <| im_abi := ii_ABI input |> <| im_resolution := ii_Resolution input |>
             <| im_resource_config := cloneMap (ii_ResourceConfig input) |> <| im_status := target |>
             <| im_validation_error := update_validation changed dockerImage (im_validation_error current) |>) from.

Definition StartImageValidation (id : string) : Tx ImageRow :=
  current ← GetImage id;
  _ ← guard_or (ValidRuntimeImageReference (im_docker_image current)) MgmtErrImageUnavailable;
  aggregate ← lift_result (RestoreImage (im_id current) (im_status current));
  now ← ProcessNow;
  a ← apply_call (transition aggregate ImageValidating "validation requested" now);
  UpdateImageRow (current <| im_status := sm_status a |> <| im_validation_error := None |>) (im_status current).

(** ** Hosts *)

(** The checks that creating and updating a host share, before and after the system and
    the architecture are known. *)
Definition valid_host_input (input : HostInput) : bool :=
  negb (blank (hin_Name input) || blank (hin_HostType input) || negb (validHostType (hin_HostType input))
        || ContainsMap (cloneMap (hin_Capabilities input)) || ContainsMap (cloneMap (hin_Capacity input))).
Definition valid_host_system (input : HostInput) : bool :=
  negb (String.eqb (hin_HostOS input) "" || String.eqb (hin_HostArch input) ""
        || (String.eqb (hin_HostType input) "appium_device_farm_ios" && negb (String.eqb (hin_HostOS input) "macos"))).

Definition nullif (s : string) : option string := if String.eqb s "" then None else Some s.

Definition CreateHost (clientID key : string) (input : HostInput) : Tx HostRow :=
  let input := input <| hin_HostOS := normalizedHostOS (hin_HostOS input) |> <| hin_HostArch := normalizedHostArch (hin_HostArch input) |> in
  _ ← guard_or (valid_host_input input && valid_host_system input) MgmtErrInvalidArgument;
  id ← newID;
  let host := mkHostRow id (hin_HostType input) (nullif (hin_Address input)) (cloneMap (hin_Capacity input)) [] HostOffline false None 0 0
                (cloneMap (hin_Capabilities input)) (hin_HostOS input) (hin_HostArch input) (hin_Name input) in
  meta ← idempotency clientID "create_device_host" key "device_host" id (host_document input) 201;
  createIdempotent meta host.

Definition UpdateHost (id : string) (input : HostInput) : Tx HostRow :=
  _ ← guard_or (valid_host_input input) MgmtErrInvalidArgument;
  current ← GetHost id;
  let input := input <| hin_HostOS := if blank (hin_HostOS input) then h_host_os current else normalizedHostOS (hin_HostOS input) |>
                     <| hin_HostArch := if blank (hin_HostArch input) then h_host_arch current else normalizedHostArch (hin_HostArch input) |> in
  _ ← guard_or (valid_host_system input) MgmtErrInvalidArgument;
  UpdateHostRow
    (current <| h_name := hin_Name input |> <| h_host_type := hin_HostType input |> <| h_host_os := hin_HostOS input |>
             <| h_host_arch := hin_HostArch input |> <| h_address := nullif (hin_Address input) |>
             <| h_capabilities := cloneMap (hin_Capabilities input) |> <| h_capacity := cloneMap (hin_Capacity input) |>) (h_status current).

Definition SetHostDraining (id : string) (draining : bool) (reason : string) : Tx HostRow :=
  _ ← guard_or (negb (blank reason)) MgmtErrInvalidArgument;
  current ← GetHost id;
  aggregate ← lift_result (RestoreHost (h_id current) (h_status current));
  now ← ProcessNow;
  a ← apply_call (transition aggregate (if draining then HostDraining else HostOnline) reason now);
  UpdateHostRow (current <| h_status := sm_status a |> <| h_draining := draining |>) (h_status current).

(** ** Pools *)
Definition image_is_ready (r : result Err ImageRow) : bool :=
  match r with Ok image => bool_decide (im_status image = ImageReady) | Fail _ => false end.

Definition CreatePool (clientID key : string) (input : PoolInput) : Tx PoolView :=
  let input := input <| pli_Platform := if blank (pli_Platform input) then "android" else normalizedPlatform (pli_Platform input) |> in
  let totalTarget := default (pli_MaxConcurrency input) (pli_TotalTarget input) in
  let minReady := default (pli_MaxConcurrency input) (pli_MinReady input) in
  _ ← guard_or (validatePoolInput input totalTarget minReady) MgmtErrInvalidArgument;
  defaultImageID ← match pli_DefaultImageID input with
                   | Some value =>
                     if blank value then mret None
                     else _ ← guard_or (String.eqb (pli_Platform input) "android") MgmtErrInvalidArgument;
                          image ← attempt (GetImage (TrimSpace value));
                          _ ← guard_or (image_is_ready image) MgmtErrInvalidArgument;
                          mret (Some (TrimSpace value))
                   | None => mret None
                   end;
  id ← newID;
  let status := match pli_Enabled input with Some false => PoolDisabled | _ => PoolActive end in
  let pool := mkPoolRow id (pli_Name input) (pli_Platform input) status (pli_MaxLeaseSeconds input) (pli_MaxConcurrency input)
                (default false (pli_FreshVMPerRun input)) defaultImageID None 0 totalTarget minReady 0 (pli_DefaultLeaseSeconds input) in
  meta ← idempotency clientID "create_device_pool" key "device_pool" id (pool_document input) 201;
  createIdempotent meta pool.

Definition unevaluated (p : PoolRow) : PoolView := mkPoolView p None "".

(** The default image after an update: one that is ready and enabled for the pool. *)
Definition updated_default (id platform : string) (requested current : option string) : Tx (option string) :=
  match requested with
  | None => mret current
  | Some value =>
    _ ← guard_or (String.eqb platform "android") MgmtErrInvalidArgument;
    let imageID := TrimSpace value in
    _ ← guard_or (negb (String.eqb imageID "")) MgmtErrInvalidArgument;
    image ← attempt (GetImage imageID);
    _ ← guard_or (image_is_ready image) MgmtErrInvalidArgument;
    membership ← attempt (GetPoolImage id imageID);
    _ ← guard_or (match membership with Ok l => pi_enabled l | Fail _ => false end) MgmtErrInvalidArgument;
    mret (Some imageID)
  end.

Definition updated_status (enabled : option bool) (current : PoolRow) : Tx PoolStatus :=
  match enabled with
  | None => mret (p_status current)
  | Some on =>
    let target := if on then PoolActive else PoolDisabled in
    if bool_decide (target = p_status current) then mret (p_status current)
    else aggregate ← lift_result (RestorePool (p_id current) (p_status current));
         now ← ProcessNow;
         a ← apply_call (transition aggregate target "management update" now);
         mret (sm_status a)
  end.

Definition UpdatePool (id : string) (input : PoolInput) (actor : Actor) (requestID : string) : Tx PoolView :=
  view ← GetPool id;
  let current := vp_row view in
  let platform := if blank (pli_Platform input) then p_platform current else normalizedPlatform (pli_Platform input) in
  let input := input <| pli_Platform := platform |> in
  let totalTarget := default (p_total_target current) (pli_TotalTarget input) in
  let minReady := default (p_min_ready current) (pli_MinReady input) in
  _ ← guard_or (validatePoolInput input totalTarget minReady) MgmtErrInvalidArgument;
  _ ← guard_or (negb ((totalTarget <? p_total_target current) && negb (validReason (pli_Reason input)))) MgmtErrInvalidArgument;
  defaultImageID ← updated_default id platform (pli_DefaultImageID input) (p_default_image_id current);
  status ← updated_status (pli_Enabled input) current;
  let reason := TrimSpace (pli_Reason input) in
  event ← deviceAudit actor requestID "update_device_pool_capacity"
            (if String.eqb reason "" then "pool capacity configuration updated" else reason);
  row ← UpdatePoolRow
    (current <| p_name := pli_Name input |> <| p_default_lease_seconds := pli_DefaultLeaseSeconds input |> <| p_platform := platform |>
             <| p_max_lease_seconds := pli_MaxLeaseSeconds input |> <| p_max_concurrency := pli_MaxConcurrency input |>
             <| p_total_target := totalTarget |> <| p_min_ready := minReady |> <| p_default_image_id := defaultImageID |>
             <| p_fresh_vm_per_run := default (p_fresh_vm_per_run current) (pli_FreshVMPerRun input) |> <| p_status := status |>)
    (p_status current)
    (event <| au_DestructiveApproved := (p_total_target current <=? totalTarget) || validReason (pli_Reason input) |>);
  mret (unevaluated row).

(** ** The images of a pool *)
Definition SetPoolImage (poolID imageID : string) (input : PoolImageInput) (actor : Actor) (requestID : string) : Tx PoolImageRow :=
  match pii_Enabled input with
  | None => throw MgmtErrInvalidArgument
  | Some enabled =>
    _ ← guard_or (negb (blank poolID || blank imageID || (pii_MinReady input <? 0) || (pii_MaxInstances input <? 1)
                        || negb (pii_MinReady input =? pii_MaxInstances input))) MgmtErrInvalidArgument;
    _ ← GetPool poolID;
    _ ← GetImage imageID;
    current ← optional MgmtErrNotFound (GetPoolImage poolID imageID);
    let reason := TrimSpace (pii_Reason input) in
    _ ← guard_or (match current with
                  | Some l => negb ((pii_MaxInstances input <? pi_max_instances l) && negb (validReason reason))
                  | None => true
                  end) MgmtErrInvalidArgument;
    event ← deviceAudit actor requestID "set_device_pool_target" (if String.eqb reason "" then "fixed emulator target updated" else reason);
    SetPoolImageRow (mkPoolImageRow poolID imageID enabled (pii_MinReady input) (pii_MaxInstances input) 0 0)
      (event <| au_DestructiveApproved := validReason reason |>)
  end.

Definition DisablePoolImage (poolID imageID : string) : Tx PoolImageRow :=
  _ ← guard_or (negb (blank poolID || blank imageID)) MgmtErrInvalidArgument;
  pool ← GetPool poolID;
  _ ← guard_or (negb (bool_decide (p_default_image_id (vp_row pool) = Some imageID))) MgmtErrConflict;
  DisablePoolImageRow poolID imageID.

Definition SelectPoolDefaultImage (poolID imageID reason : string) (actor : Actor) (requestID : string) : Tx PoolView :=
  _ ← guard_or (negb (blank poolID || blank imageID || negb (validReason reason))) MgmtErrInvalidArgument;
  image ← GetImage imageID;
  _ ← guard_or (bool_decide (im_status image = ImageReady) && ValidRuntimeImageReference (im_docker_image image)) MgmtErrImageUnavailable;
  _ ← GetPool poolID;
  event ← deviceAudit actor requestID "select_pool_default_image" (TrimSpace reason);
  row ← SelectPoolDefaultImageRow poolID imageID event;
  mret (unevaluated row).

(** ** The devices of a pool *)
Definition SetPoolBaseDevice (poolID deviceID reason : string) (actor : Actor) (requestID : string) : Tx PoolView :=
  _ ← guard_or (negb (negb (validReason reason) || blank deviceID)) MgmtErrInvalidArgument;
  event ← deviceAudit actor requestID "set_pool_base_device" reason;
  row ← SetPoolBaseDeviceRow poolID (TrimSpace deviceID) event;
  mret (unevaluated row).

Definition AddDeviceToPool (poolID deviceID : string) : Tx unit :=
  pool ← GetPool poolID;
  _ ← guard_or (bool_decide (p_status (vp_row pool) = PoolActive)) MgmtErrConflict;
  device ← GetDevice deviceID;
  _ ← guard_or (String.eqb (p_platform (vp_row pool)) (d_platform (dv_row device))) MgmtErrInvalidArgument;
  AddDeviceToPoolRow poolID deviceID.

Definition RemoveDeviceFromPool (poolID deviceID : string) : Tx unit := RemoveDeviceFromPoolRow poolID deviceID.

(** ** Devices *)
Definition UpdateDeviceName (id name : string) (actor : Actor) (requestID : string) : Tx Device :=
  let name := TrimSpace name in
  _ ← guard_or (validDeviceName name) MgmtErrInvalidArgument;
  current ← GetDevice id;
  event ← deviceAudit actor requestID "update_device_name" "device display name updated";
  UpdateDeviceNameRow (d_id (dv_row current)) name event.

(** The methods of [providers.Provider] that the service calls; an error is its text.
    Of the snapshots they return only the connection is read.  The error of [Delete] is
    ignored. *)
Record Provider : Type := mkProvider {
  pv_Create : CreateRequest -> result string ConnectionInfo;
  pv_Start : string -> result string ConnectionInfo;
  pv_InspectHealth : string -> result string ProviderHealth }.

Definition call_provider {A} (operation ref : string) (r : result string A) : Tx A :=
  _ ← record_call (CallProvider operation ref);
  match r with Ok a => mret a | Fail message => throw (ErrExternal message) end.

(** [if err != nil { _ = provider.Delete(ref); return err }]. *)
Definition or_delete {A} (ref : string) (m : Tx A) : Tx A :=
  r ← attempt m;
  match r with
  | Ok a => mret a
  | Fail e => _ ← record_call (CallProvider "delete" ref); throw e
  end.

(** The platform and the kind that a request without them gets. *)
Definition mock_platform (input : ProvisionMockDeviceInput) : string :=
  if blank (mk_Platform input) then "android" else normalizedPlatform (mk_Platform input).
Definition mock_kind (platform : string) (input : ProvisionMockDeviceInput) : string :=
  if String.eqb (mk_DeviceKind input) "" then (if String.eqb platform "ios" then "simulator" else "emulator") else mk_DeviceKind input.

(** The image of an Android device; an iOS device has none. *)
Definition mock_image (platform kind : string) (input : ProvisionMockDeviceInput) : Tx (option ImageRow) :=
  if String.eqb platform "android" then
    image ← GetImage (mk_ImageID input);
    _ ← guard_or (bool_decide (im_status image = ImageReady)) MgmtErrImageUnavailable;
    mret (Some image)
  else
    _ ← guard_or (String.eqb (mk_ImageID input) "" && bool_decide (kind ∈ ["simulator"; "physical"])) MgmtErrInvalidArgument;
    mret None.

Definition mock_device (input : ProvisionMockDeviceInput) (platform kind : string) (capabilities : obj) (connection : ConnectionInfo)
    : DeviceRow :=
  mkDeviceRow (mk_ID input) (mk_HostID input) (nullif (mk_ImageID input)) platform kind "mock" (mk_ProviderRef input) "rebuild"
    (co_Serial connection) None (stringPointer (co_ADBEndpoint connection)) (stringPointer (co_AppiumEndpoint connection)) capabilities
    DeviceReady HealthHealthy None 0 None 0 0 None None None "idle" None "idle" None "".

Definition ProvisionMockDevice (provider : option Provider) (input : ProvisionMockDeviceInput) : Tx Device :=
  match provider with
  | None => throw MgmtErrProviderUnavailable
  | Some provider =>
    host ← GetHost (mk_HostID input);
    _ ← guard_or (bool_decide (h_status host = HostOnline) && negb (h_draining host)) MgmtErrHostUnavailable;
    let platform := mock_platform input in
    _ ← guard_or (negb (String.eqb platform "")) MgmtErrInvalidArgument;
    let kind := mock_kind platform input in
    image ← mock_image platform kind input;
    let capabilities := assoc_set "platformName" (JStr (canonicalPlatformName platform)) (mk_Capabilities input) in
    let ref := mk_ProviderRef input in
    let request := mkCreateRequest (mk_ID input) (mk_HostID input) (mk_ImageID input) platform kind
                     (match image with Some i => im_docker_image i | None => "" end) ref "" (Some capabilities)
                     (match image with Some i => mustRuntimeProfile (im_resource_config i) | None => zero_profile end) in
    _ ← call_provider "create" ref (pv_Create provider request);
    connection ← or_delete ref (call_provider "start" ref (pv_Start provider ref));
    _ ← or_delete ref (health ← call_provider "inspect_health" ref (pv_InspectHealth provider ref);
                       guard_or (Ready health) MgmtErrConflict);
    or_delete ref (CreateDevice (mock_device input platform kind capabilities connection))
  end.

(** ** Lists *)
Definition paginated {R} (page : Page) (l : list R * Z) : PageResult R := NewResult l.1 page l.2.

Definition list_images (page : Page) (status : option ImageStatus) : Tx (PageResult ImageRow) :=
  db ← get_db; mret (paginated page (ListImages page status db)).
Definition list_hosts (page : Page) : Tx (PageResult HostRow) := db ← get_db; mret (paginated page (ListHosts page db)).
Definition list_pools (page : Page) : Tx (PageResult PoolView) := db ← get_db; mret (paginated page (ListPools page db)).
Definition list_devices (page : Page) (filter : DeviceFilter) : Tx (PageResult Device) :=
  db ← get_db; mret (paginated page (ListDevices page filter db)).
Definition list_pool_images (poolID : string) (page : Page) : Tx (PageResult PoolImageRow) :=
  _ ← GetPool poolID; db ← get_db; mret (paginated page (ListPoolImages poolID page db)).
