(* ===== verification/Heartbeat.v ===== *)
(** * Heartbeats of host agents ([internal/hostcommand/service.go])

    One heartbeat is one transaction: the status, the capacity and the capabilities of
    the host, then every reported device through [observe], then the simulators that a
    complete inventory no longer contains.  [normalize] stands for the parsing and the
    normalisation of the session fence URL ([net/url], [net]); its result is stored. *)
From Stdlib Require Import Ascii SpecFloat.
From S2P Require Import Prelude GoText Errors Domain Json Sensitive Actor Store.
From S2P Require Import Float64 RuntimeProfile ReservationRepo CommandRepo DeviceStore Reconcile HostCommand Completion.

(** ** Input *)
Record DiscoveredDevice : Type := mkDiscovered {
  dd_ProviderRef : string; dd_Serial : string; dd_Platform : string; dd_DeviceKind : string; dd_ProviderType : string;
  dd_LifecycleStatus : DeviceLifecycleStatus; dd_HealthStatus : HealthStatus; dd_Connection : obj; dd_Capabilities : obj;
  dd_Components : list (string * string); dd_RuntimeProfile : obj }.
#[export] Instance eta_DiscoveredDevice : Eta DiscoveredDevice := fun d =>
  mkDiscovered (dd_ProviderRef d) (dd_Serial d) (dd_Platform d) (dd_DeviceKind d) (dd_ProviderType d) (dd_LifecycleStatus d)
    (dd_HealthStatus d) (dd_Connection d) (dd_Capabilities d) (dd_Components d) (dd_RuntimeProfile d).

Record HeartbeatInput : Type := mkHeartbeat {
  hb_AgentTime : Z; hb_Capacity : option obj; hb_Environment : obj; hb_Devices : list DiscoveredDevice }.

Record HeartbeatResult : Type := mkHeartbeatResult {
  hr_HostID : string; hr_Status : HostStatus; hr_ReceivedAt : Z; hr_Devices : Z }.

Definition iosInventoryMissingGrace : Z := 30 * Second.

(** ** Checks *)
Definition validDiscoveredLifecycle (l : DeviceLifecycleStatus) : bool := bool_decide (l ∈ [DeviceBooting; DeviceReady; DeviceStopped]).
Definition validDiscoveredHealth (h : HealthStatus) : bool :=
  bool_decide (h ∈ [HealthUnknown; HealthHealthy; HealthDegraded; HealthUnhealthy]).

Definition probes : list string := ["transport"; "os_ready"; "automation"; "router"; "remote_control"].
Definition probe_statuses : list string := ["passed"; "failed"; "unknown"; "unsupported"].
Definition validComponents (components : list (string * string)) : bool :=
  forallb (fun p => bool_decide (p.1 ∈ probes) && bool_decide (p.2 ∈ probe_statuses)) components.

(** [None] is an error, [Some None] a value that is missing, null or blank. *)
Definition optionalConnectionValue (connection : obj) (key : string) : option (option string) :=
  match assoc key connection with
  | None | Some JNull => Some None
  | Some (JStr text) => Some (if blank text then None else Some (TrimSpace text))
  | Some _ => None
  end.

Record DiscoveredConnection : Type := mkDiscoveredConnection {
  dc_adb : option string; dc_appium : option string; dc_appiumUDID : option string }.

Definition discoveredConnection (connection : obj) : option DiscoveredConnection :=
  adb <-? optionalConnectionValue connection "adb_endpoint" ;;
  appium <-? optionalConnectionValue connection "appium_endpoint" ;;
  udid <-? optionalConnectionValue connection "appium_udid" ;;
  Some (mkDiscoveredConnection adb appium udid).

Definition normalized_device (d : DiscoveredDevice) : DiscoveredDevice :=
  d <| dd_ProviderRef := TrimSpace (dd_ProviderRef d) |> <| dd_Serial := TrimSpace (dd_Serial d) |>
    <| dd_Platform := ToLower (TrimSpace (dd_Platform d)) |> <| dd_DeviceKind := ToLower (TrimSpace (dd_DeviceKind d)) |>
    <| dd_ProviderType := ToLower (TrimSpace (dd_ProviderType d)) |>.

Definition one_of (value : string) (l : list string) : bool := bool_decide (value ∈ l).

Definition valid_device (d : DiscoveredDevice) : bool :=
  nonempty (dd_ProviderRef d) && validDiscoveredLifecycle (dd_LifecycleStatus d) && validDiscoveredHealth (dd_HealthStatus d)
  && negb (bool_decide (dd_LifecycleStatus d = DeviceReady) && negb (bool_decide (dd_HealthStatus d = HealthHealthy)))
  && one_of (dd_Platform d) [""; "android"; "ios"] && one_of (dd_DeviceKind d) [""; "emulator"; "simulator"; "physical"]
  && one_of (dd_ProviderType d) [""; "mock"; "docker_emulator"; "usb_android"; "appium_device_farm_ios"]
  && validComponents (dd_Components d)
  && (nonempty (dd_Serial d) || bool_decide (dd_LifecycleStatus d = DeviceStopped))
  && bool_decide (is_Some (discoveredConnection (dd_Connection d)))
  && (bool_decide (dd_RuntimeProfile d = []) || bool_decide (is_Some (Parse (dd_RuntimeProfile d)))).

(** No provider reference and no serial is reported twice. *)
Definition serials (ds : list DiscoveredDevice) : list string := filter (fun s => s <> ""%string) (map dd_Serial ds).

Definition valid_devices (ds : list DiscoveredDevice) : bool :=
  forallb valid_device ds && bool_decide (NoDup (map dd_ProviderRef ds)) && bool_decide (NoDup (serials ds)).

Definition reportedHostReadiness (environment : obj) : option (option bool) :=
  match assoc "host_readiness" environment with
  | None => Some None
  | Some (JObj readiness) => match assoc "ready" readiness with Some (JBool ready) => Some (Some ready) | _ => None end
  | Some _ => None
  end.

Definition reportedInventoryComplete (environment : obj) : option bool :=
  match assoc "provider_inventory_complete" environment with
  | None => Some false
  | Some (JBool complete) => Some complete
  | Some _ => None
  end.

Definition arch_char (a : ascii) : bool := identifier_char a || (N_of_ascii a =? 46)%N.
Definition hostArchPattern (s : string) : bool := forall_chars arch_char s && (1 <=? len s) && (len s <=? 32).

Definition reported_text (environment : obj) (key : string) (clean : string -> string) (valid : string -> bool)
    : option (option string) :=
  match assoc key environment with
  | None => Some None
  | Some (JStr raw) => let value := clean raw in if valid value then Some (Some value) else None
  | Some _ => None
  end.

Definition reportedHostIdentity (environment : obj) : option (option string * option string) :=
  os <-? reported_text environment "host_os" (fun s => ToLower (TrimSpace s)) (fun s => one_of s ["linux"; "macos"; "windows"]) ;;
  arch <-? reported_text environment "host_arch" TrimSpace hostArchPattern ;;
  Some (os, arch).

Definition reportedSessionFenceEndpoint (normalize : string -> option string) (environment : obj) (hostOS : option string)
    : option (option string) :=
  match assoc "session_fence_endpoint" environment with
  | None => Some None
  | Some (JStr value) =>
    if blank value || negb (bool_decide (hostOS = Some "macos")) then None
    else match normalize (TrimSpace value) with Some normalized => Some (Some normalized) | None => None end
  | Some _ => None
  end.

(** What the environment says, and the environment that is stored. *)
Record Environment : Type := mkEnvironment {
  ev_readiness : option bool; ev_inventoryComplete : bool; ev_hostOS : option string; ev_hostArch : option string; ev_stored : obj }.

Definition read_environment (normalize : string -> option string) (environment : obj) : option Environment :=
  readiness <-? reportedHostReadiness environment ;;
  complete <-? reportedInventoryComplete environment ;;
  identity <-? reportedHostIdentity environment ;;
  endpoint <-? reportedSessionFenceEndpoint normalize environment identity.1 ;;
  Some (mkEnvironment readiness complete identity.1 identity.2
    (match endpoint with Some e => assoc_set "session_fence_endpoint" (JStr e) environment | None => environment end)).

(** ** Used capacity *)
Definition discoveredCountsAsUsed (device : DiscoveredDevice) : bool :=
  if negb (String.eqb (dd_Platform device) "ios") then true
  else match assoc "allowlisted" (dd_Capabilities device) with Some (JBool b) => b | _ => false end.

Record Used : Type := mkUsed { us_slots : Z; us_cpu : float64; us_memory : Z; us_disk : Z }.

Definition add_device (u : Used) (d : DiscoveredDevice) : Used :=
  let slots := if discoveredCountsAsUsed d then us_slots u + 1 else us_slots u in
  match dd_RuntimeProfile d, Parse (dd_RuntimeProfile d) with
  | _ :: _, Some p => mkUsed slots (f_add (us_cpu u) (rp_ContainerCPUCores p)) (wrap64 (us_memory u + rp_ContainerMemoryMB p))
                        (wrap64 (us_disk u + rp_DataDiskMB p))
  | _, _ => mkUsed slots (us_cpu u) (us_memory u) (us_disk u)
  end.

Definition used_of (ds : list DiscoveredDevice) : Used := foldl add_device (mkUsed 0 (S754_zero false) 0 0) ds.

(** A document that [json.Marshal] refuses is an SQL null, which the column refuses. *)
Definition used_json (u : Used) : Tx obj :=
  match f_to_Q (us_cpu u) with
  | Some q => mret [("device_slots", jint (us_slots u)); ("cpu_cores", JNum q); ("memory_mb", jint (us_memory u)); ("data_disk_mb", jint (us_disk u))]
  | None => throw (ErrExternal "null value in column used_capacity")
  end.

(** ** The host *)

(** PostgreSQL's [text::boolean]. *)
Definition boolin (s : string) : option bool :=
  let s := ToLower (trim_with (map bytes [[9]; [10]; [11]; [12]; [13]; [32]]%N) s) in
  if one_of s ["t"; "tr"; "tru"; "true"; "y"; "ye"; "yes"; "on"; "1"] then Some true
  else if one_of s ["f"; "fa"; "fal"; "fals"; "false"; "n"; "no"; "of"; "off"; "0"] then Some false
  else None.

Definition bool_or_false (kvs : obj) (k : string) : option bool :=
  match get_text kvs k with None => Some false | Some s => boolin s end.

Record Readiness : Type := mkReadiness {
  rd_target : HostStatus; rd_autoMaintenance : bool; rd_failureStartedAt : option Z }.

Definition observed_readiness (status : HostStatus) (auto : bool) (startedAt : option Z) (readiness : option bool) (now : Z) : Readiness :=
  let same := mkReadiness status auto startedAt in
  match readiness with
  | Some ready =>
    if bool_decide (status = HostDraining) then same
    else if negb ready then
      let auto := auto || negb (bool_decide (status = HostMaintenance)) in
      mkReadiness HostMaintenance auto (if auto then Some (default now startedAt) else startedAt)
    else if bool_decide (status ∈ [HostOffline; HostOnline]) || (bool_decide (status = HostMaintenance) && auto)
    then mkReadiness HostOnline false None
    else same
  | None => if bool_decide (status = HostOffline) then mkReadiness HostOnline auto startedAt else same
  end.

Definition heartbeat_capacity (stored reported : obj) : obj :=
  if bool_decide (get_text reported "resource_model" = Some "dynamic_v1") then reported
  else obj_merge stored (assoc_delete "device_slots" reported).

Definition heartbeat_capabilities (stored environment : obj) (r : Readiness) : obj :=
  let reported := assoc_delete "host_arch" (assoc_delete "host_os" (assoc_delete "provider" environment)) in
  obj_merge (obj_merge (assoc_delete "host_readiness_failure_started_at" (obj_merge stored reported))
               [("host_readiness_auto_maintenance", JBool (rd_autoMaintenance r))])
    (match rd_failureStartedAt r with Some at_ => [("host_readiness_failure_started_at", jint at_)] | None => [] end).

Definition heartbeat_row (target : HostStatus) (r : Readiness) (capacity environment used : obj) (os arch : option string) (now : Z)
    (h : HostRow) : HostRow :=
  h <| h_status := target |> <| h_draining := bool_decide (target = HostDraining) |>
    <| h_capacity := heartbeat_capacity (h_capacity h) capacity |>
    <| h_capabilities := heartbeat_capabilities (h_capabilities h) environment r |> <| h_used_capacity := used |>
    <| h_host_os := default (h_host_os h) os |> <| h_host_arch := default (h_host_arch h) arch |>
    <| h_last_heartbeat_at := Some now |> <| h_updated_at := now |>.

(** ** Reported devices *)
Definition discovered_in_flight (c : CommandRecord) : bool :=
  (command_type_in ["create"; "rebuild"; "delete"] c
   || (command_type_in ["restart"] c && payload_is "operation_kind" "runtime_profile_update" c)) && in_flight c.

Definition discovered_state (db : DB) (d : DeviceRow) : discoveredDeviceState :=
  mkDiscoveredState (d_id d) (d_lifecycle d) (d_health d) (d_health_reason d)
    (has_command (d_id d) discovered_in_flight db) (assignment_target (d_id d) db).

Definition identity_matches (discovered : DiscoveredDevice) (d : DeviceRow) : bool :=
  let same reported stored := negb (nonempty reported) || String.eqb reported stored in
  same (dd_Platform discovered) (d_platform d) && same (dd_DeviceKind discovered) (d_device_kind d)
  && same (dd_ProviderType discovered) (d_provider_type d).

Definition discovery_capabilities (discovered : DiscoveredDevice) : obj :=
  let caps := RedactMap (dd_Capabilities discovered) in
  match dd_Components discovered with
  | [] => caps
  | cs => assoc_set "componentHealth" (JObj (map (fun p => (p.1, JStr p.2)) cs)) caps
  end.

Definition with_udid (udid : option string) (caps : obj) : obj :=
  match udid with Some u => assoc_set "appiumUdid" (JStr u) caps | None => caps end.

(** [COALESCE]. *)
Definition first_filled (a b : option string) : option string := match a with Some _ => a | None => b end.

Definition observed_row (discovered : DiscoveredDevice) (c : DiscoveredConnection) (a : Device) (reason : option string)
    (reset : bool) (now : Z) (row : DeviceRow) : DeviceRow :=
  row <| d_serial := if nonempty (dd_Serial discovered) then dd_Serial discovered else d_serial row |>
      <| d_adb_endpoint := first_filled (dc_adb c) (d_adb_endpoint row) |>
      <| d_appium_endpoint := first_filled (dc_appium c) (d_appium_endpoint row) |>
      <| d_capabilities := with_udid (dc_appiumUDID c) (obj_merge (d_capabilities row) (discovery_capabilities discovered)) |>
      <| d_lifecycle := Lifecycle a |> <| d_health := Health a |> <| d_health_reason := reason |>
      <| d_consecutive_failures := if reset then 0 else d_consecutive_failures row |>
      <| d_last_seen_at := Some now |> <| d_updated_at := now |>.

(** The first healthy managed simulator of a pool becomes its template. *)
Definition managed_simulator (d : DeviceRow) : bool :=
  String.eqb (d_platform d) "ios" && String.eqb (d_device_kind d) "simulator" && String.eqb (d_provider_type d) "appium_device_farm_ios".

Definition enabled_member (poolID deviceID : string) (db : DB) : bool :=
  existsb (fun pd => String.eqb (pd_pool_id pd) poolID && String.eqb (pd_device_id pd) deviceID && pd_enabled pd)
    (rows (device_pool_devices db)).

Definition adopt_base (deviceID : string) (now : Z) (db : DB) : DB :=
  db <| device_pools := (fun p =>
    if String.eqb (p_platform p) "ios" && bool_decide (p_status p = PoolActive) && bool_decide (p_base_device_id p = None)
       && enabled_member (p_id p) deviceID db
    then p <| p_base_device_id := Some deviceID |> <| p_updated_at := now |> else p) <$> device_pools db |>.

Definition updateDiscoveredDevice (hostID : string) (discovered : DiscoveredDevice) (now : Z) : Tx unit :=
  db ← get_db;
  match first_where (fun d => String.eqb (d_host_id d) hostID && String.eqb (d_provider_ref d) (dd_ProviderRef discovered)) (rows (devices db)) with
  | None => mret tt
  | Some d =>
    _ ← guard_or (identity_matches discovered d) CmdErrDeviceIdentityConflict;
    connection ← (match discoveredConnection (dd_Connection discovered) with Some c => mret c | None => throw CmdErrInvalidArgument end);
    let current := discovered_state db d in
    let seen := mkObservation (dd_LifecycleStatus discovered) (dd_HealthStatus discovered) in
    a ← lift_result (observe current seen now);
    _ ← save_device (d_id d) (fun _ => true)
          (observed_row discovered connection a (observed_reason current seen a) (resets_failures current seen a) now);
    if managed_simulator d && bool_decide (Lifecycle a = DeviceReady) && bool_decide (Health a = HealthHealthy)
    then put_db (adopt_base (d_id d) now) else mret tt
  end.

Fixpoint update_devices (hostID : string) (ds : list DiscoveredDevice) (now : Z) : Tx unit :=
  match ds with
  | [] => mret tt
  | d :: rest => _ ← updateDiscoveredDevice hostID d now; update_devices hostID rest now
  end.

(** ** Simulators that are no longer there *)
Definition missing_candidate (db : DB) (hostID : string) (seenRefs : list string) (now : Z) (d : DeviceRow) : bool :=
  String.eqb (d_host_id d) hostID && managed_simulator d && indexed d
  && negb (has_command (d_id d) (fun c => command_type_in ["create"; "rebuild"; "delete"] c && in_flight c) db)
  && negb (bool_decide (d_provider_ref d ∈ seenRefs))
  && (iosInventoryMissingGrace <=? now - default (d_created_at d) (d_last_seen_at d)).

Definition missing_reason : string :=
  "IOS_PROVIDER_DEVICE_MISSING: complete inventory no longer contains the registered Simulator".

Definition quarantine_missing (hostID : string) (d : DeviceRow) (now : Z) : Tx unit :=
  aggregate ← lift_result (RestoreDevice (d_id d) (d_lifecycle d) (d_health d));
  a ← ensure_health aggregate HealthUnhealthy missing_reason now;
  a ← ensure_lifecycle a DeviceQuarantined missing_reason now;
  _ ← save_device (d_id d) (fun _ => true) (failed_row a missing_reason now);
  eventID ← newID;
  _ ← insert_health_event eventID (d_id d) "agent" "ios_provider_device_missing" "critical" missing_reason
        [("host_id", JStr hostID); ("inventory_complete", JBool true)] now;
  mret tt.

Fixpoint quarantine_all (hostID : string) (ds : list DeviceRow) (now : Z) : Tx unit :=
  match ds with
  | [] => mret tt
  | d :: rest => _ ← quarantine_missing hostID d now; quarantine_all hostID rest now
  end.

Definition quarantineMissingIOSDevices (hostID : string) (seenRefs : list string) (now : Z) : Tx unit :=
  db ← get_db;
  quarantine_all hostID (filter (fun d => missing_candidate db hostID seenRefs now d = true)
    (order_by (fun d => (0, d_id d)) (rows (devices db)))) now.

(** ** The heartbeat *)
Definition heartbeat_tx (hostID : string) (ds : list DiscoveredDevice) (e : Environment) (capacity : obj) : Tx HeartbeatResult :=
  db ← get_db;
  host ← expect_row (device_hosts db !! hostID) ErrNoRows;
  auto ← or_cast_error (bool_or_false (h_capabilities host) "host_readiness_auto_maintenance");
  startedAt ← or_cast_error (instant_or_null (h_capabilities host) "host_readiness_failure_started_at");
  now ← ClockNow;
  let r := observed_readiness (h_status host) auto startedAt (ev_readiness e) now in
  target ← (if bool_decide (rd_target r = h_status host) then mret (h_status host)
            else aggregate ← lift_result (RestoreHost hostID (h_status host));
                 moved ← apply_call (transition aggregate (rd_target r) "agent heartbeat readiness observation" now);
                 mret (sm_status moved));
  used ← used_json (used_of ds);
  _ ← put_db (fun db => db <| device_hosts := <[hostID := heartbeat_row target r (RedactMap capacity) (RedactMap (ev_stored e)) used
          (ev_hostOS e) (ev_hostArch e) now host]> (device_hosts db) |>);
  _ ← update_devices hostID ds now;
  _ ← (if ev_inventoryComplete e then quarantineMissingIOSDevices hostID (map dd_ProviderRef ds) now else mret tt);
  mret (mkHeartbeatResult hostID target now (Z.of_nat (length ds))).

Definition heartbeat_error (e : Err) : Err :=
  match e with ErrNoRows => CmdErrNotFound | ErrUniqueViolation _ => CmdErrDeviceIdentityConflict | _ => e end.

Definition Heartbeat (normalize : string -> option string) (hostID : string) (input : HeartbeatInput) : Tx HeartbeatResult :=
  match hb_Capacity input with
  | None => throw CmdErrInvalidArgument
  | Some capacity =>
    _ ← guard_or (negb ((len hostID <? 16) || IsZero (hb_AgentTime input))) CmdErrInvalidArgument;
    let ds := map normalized_device (hb_Devices input) in
    _ ← guard_or (valid_devices ds) CmdErrInvalidArgument;
    match read_environment normalize (hb_Environment input) with
    | None => throw CmdErrInvalidArgument
    | Some e => map_err heartbeat_error (WithinTx (heartbeat_tx hostID ds e capacity))
    end
  end.
