(* ===== verification/Agent.v ===== *)
(** * The host agent ([internal/agent])

    What the agent of a host does with a command that it has claimed, and what it reports
    in a heartbeat.  The provider is any [DeviceProvider]; the probes, the registration of
    endpoints in STF and the preparer of images are external.  A command runs by itself:
    the lock of the resources and the goroutines of other commands are not modelled.  The
    lease is renewed beside the command; what is left of the renewal is the instant at
    which it fails, which cancels the command. *)
From Stdlib Require Import SpecFloat.
From S2P Require Import Prelude GoText Json Float64 RuntimeProfile Capacity Domain Reconcile DeviceOps HostCommand Completion Heartbeat Providers.

(** ** Configuration and state *)

(** A call of code outside of the repository: its result and the instant at which it
    returns. *)
Definition External (A : Type) : Type := Context -> Z -> result GoError A * Z.

Record Preparer : Type := mkPreparer { pr_SyncCatalog : External obj; pr_Prepare : string -> string -> External obj }.

Record AgentConfig : Type := mkAgentConfig {
  ag_HostID : string; ag_ProviderType : string; ag_HeartbeatInterval : Z; ag_LeaseSeconds : Z; ag_Concurrency : Z;
  ag_CommandTimeout : Z; ag_ImagePrepareTimeout : Z; ag_ShutdownTimeout : Z; ag_EnvironmentProbeInterval : Z;
  ag_EnvironmentProbeTimeout : Z; ag_EnvironmentSnapshotMaxAge : Z; ag_Capacity : option obj; ag_Environment : obj;
  ag_CapacityProbe : option (External (obj * obj)); ag_EnvironmentProbe : option (External obj);
  ag_STFADBRegistrar : option (string -> External unit); ag_ImagePreparer : option Preparer;
  ag_HostOS : string; ag_HostArch : string }.
#[export] Instance eta_AgentConfig : Eta AgentConfig := fun c =>
  mkAgentConfig (ag_HostID c) (ag_ProviderType c) (ag_HeartbeatInterval c) (ag_LeaseSeconds c) (ag_Concurrency c)
    (ag_CommandTimeout c) (ag_ImagePrepareTimeout c) (ag_ShutdownTimeout c) (ag_EnvironmentProbeInterval c)
    (ag_EnvironmentProbeTimeout c) (ag_EnvironmentSnapshotMaxAge c) (ag_Capacity c) (ag_Environment c) (ag_CapacityProbe c)
    (ag_EnvironmentProbe c) (ag_STFADBRegistrar c) (ag_ImagePreparer c) (ag_HostOS c) (ag_HostArch c).

Definition has {A} (o : option A) : bool := match o with Some _ => true | None => false end.
Definition positive_or (value fallback : Z) : Z := if value <=? 0 then fallback else value.

(** [New]: the configuration with its defaults, [None] when it is not valid. *)
Definition NewAgent (config : AgentConfig) : option AgentConfig :=
  let c := config <| ag_ProviderType := ToLower (TrimSpace (ag_ProviderType config)) |>
                  <| ag_ImagePrepareTimeout := positive_or (ag_ImagePrepareTimeout config) (ag_CommandTimeout config) |> in
  let probed := has (ag_EnvironmentProbe c) in
  let c := if probed
           then c <| ag_EnvironmentProbeInterval := positive_or (ag_EnvironmentProbeInterval c) (ag_HeartbeatInterval c) |>
                  <| ag_EnvironmentProbeTimeout := positive_or (ag_EnvironmentProbeTimeout c) (90 * Second) |>
                  <| ag_EnvironmentSnapshotMaxAge := positive_or (ag_EnvironmentSnapshotMaxAge c) (120 * Second) |>
           else c in
  if (len (ag_HostID c) <? 16) || (ag_HeartbeatInterval c <=? 0) || (ag_LeaseSeconds c <? 5) || (300 <? ag_LeaseSeconds c)
     || (ag_Concurrency c <? 1) || (ag_CommandTimeout c <=? 0) || (ag_ImagePrepareTimeout c <=? 0) || (ag_ShutdownTimeout c <=? 0)
     || String.eqb (ag_ProviderType c) ""
     || (probed && ((ag_EnvironmentProbeInterval c <=? 0) || (ag_EnvironmentProbeTimeout c <=? 0) || (ag_EnvironmentSnapshotMaxAge c <=? 0)))
  then None else Some c.

(** The world, the endpoints registered in STF and the last answer of the environment
    probe. *)
Record AgentState (P : Type) : Type := mkAgent {
  as_world : World P; as_registered : list string; as_environment : option obj; as_environmentAt : Z; as_probeErr : option GoError }.
Arguments mkAgent {P}. Arguments as_world {P}. Arguments as_registered {P}. Arguments as_environment {P}.
Arguments as_environmentAt {P}. Arguments as_probeErr {P}.

Definition Outcome : Type := option obj * option GoError.

(** ** Payloads *)
Definition stringValue (values : obj) (key : string) : string := match assoc key values with Some (JStr s) => s | _ => "" end.
Definition map_value (values : obj) (key : string) : option obj := match assoc key values with Some (JObj kvs) => Some kvs | _ => None end.

Definition providerErrorCode (e : GoError) : string := let code := ErrorCode e in if String.eqb code "" then "AGENT_COMMAND_FAILED" else code.
Definition providerErrorRetryable (e : GoError) : bool := match as_provider_error e with Some (_, retryable) => retryable | None => true end.

(** ** Results *)
Definition healthResult (h : ProviderHealth) : obj :=
  ([("online", JBool (ph_Online h)); ("adb_online", JBool (ph_ADBOnline h)); ("boot_completed", JBool (ph_BootCompleted h));
    ("appium_healthy", JBool (ph_AppiumHealthy h))]%string
   ++ match ph_Components h with
      | [] => []
      | l => [("components", JObj (map (fun p => (p.1, JStr p.2)) l))]%string
      end).

Definition snapshotResult (s : Snapshot) : obj :=
  let c := sn_Connection s in
  [("device_id", JStr (sn_DeviceID s)); ("host_id", JStr (sn_HostID s)); ("image_id", JStr (sn_ImageID s));
   ("platform", JStr (sn_Platform s)); ("device_kind", JStr (sn_DeviceKind s)); ("provider_ref", JStr (sn_ProviderRef s));
   ("state", JStr (state_string (sn_State s))); ("generation", jint (sn_Generation s));
   ("capabilities", match sn_Capabilities s with Some kvs => JObj kvs | None => JNull end);
   ("connection", JObj [("serial", JStr (co_Serial c)); ("adb_endpoint", JStr (co_ADBEndpoint c));
                        ("device_udid", JStr (co_DeviceUDID c)); ("provider_id", JStr (co_ProviderID c));
                        ("appium_endpoint", JStr (co_AppiumEndpoint c)); ("appium_udid", JStr (co_AppiumUDID c))]);
   ("health", JObj (healthResult (sn_Health s)))]%string.

Definition providerLifecycle (s : Snapshot) : DeviceLifecycleStatus :=
  if bool_decide (sn_State s = StateRunning) then (if snapshot_ready s then DeviceReady else DeviceBooting) else DeviceStopped.

Definition providerHealth (s : Snapshot) : HealthStatus :=
  if snapshot_ready s then HealthHealthy
  else if bool_decide (sn_State s = StateRunning) then HealthUnhealthy
  else if existsb (fun p => String.eqb p.2 "failed") (ph_Components (sn_Health s)) then HealthDegraded else HealthUnknown.

Definition heartbeatProviderType (providerType : string) : string :=
  let value := ToLower (TrimSpace providerType) in if String.eqb value "docker" then "docker_emulator" else value.

Definition zero_snapshot : Snapshot := mkSnapshot "" "" "" "" "" "" StateCreated 0 None zero_profile no_health no_connection.

Section Agent.
Context {P : Type} `{DeviceProvider P}.

Abbreviation Ag := (M AgentConfig (AgentState P) GoError).

Definition with_world (w : World P) (s : AgentState P) : AgentState P :=
  mkAgent w (as_registered s) (as_environment s) (as_environmentAt s) (as_probeErr s).

Definition provider_call {A} (op : Op P A) : Ag A := fun _ s => let '(r, w) := op tt (as_world s) in (r, with_world w s).

Definition external {A} (ctx : Context) (f : External A) : Ag A := fun _ s =>
  let w := as_world s in
  let '(r, t) := f ctx (w_now w) in (r, with_world (mkWorld (Z.max (w_now w) t) (w_provider w)) s).

Definition agent_now : Ag Z := gets (fun s => w_now (as_world s)).

Definition sleep_in (ctx : Context) (duration : Z) : Ag (option GoError) := fun _ s =>
  let w := as_world s in
  let '(err, t) := sleep ctx duration (w_now w) in (Ok err, with_world (mkWorld t (w_provider w)) s).

(** ** Waiting for a device *)
Definition poll_interval : Z := 250 * 1000000.

Definition boot_timeout (lastErr : option GoError) (ctx : Context) : GoError :=
  let appium := match lastErr with Some e => String.eqb (ErrorCode e) "APPIUM_UNHEALTHY" | None => false end in
  ProviderErr "inspect_health" (if appium then "APPIUM_UNHEALTHY" else "DEVICE_BOOT_TIMEOUT") true
    (errors_join lastErr (Some (ctx_error ctx))).

(** [None] is the end of the fuel. *)
Fixpoint wait_ready (fuel : nat) (ctx : Context) (s : Snapshot) : Ag (option Snapshot) :=
  match fuel with
  | O => mret None
  | S n =>
    health ← attempt (provider_call (provider_inspect ctx (sn_ProviderRef s)));
    match health with
    | Ok h =>
      if Ready h then
        connection ← provider_call (provider_connection ctx (sn_ProviderRef s));
        mret (Some (s <| sn_Health := h |> <| sn_Connection := connection |>))
      else
        done_ ← sleep_in ctx poll_interval;
        match done_ with Some _ => fail (boot_timeout None ctx) | None => wait_ready n ctx s end
    | Fail e =>
      done_ ← sleep_in ctx poll_interval;
      match done_ with Some _ => fail (boot_timeout (Some e) ctx) | None => wait_ready n ctx s end
    end
  end.

(** The polls until the deadline of the context. *)
Definition polls (ctx : Context) (now : Z) : nat :=
  match cx_Deadline ctx with Some d => S (Z.to_nat ((d - now) / poll_interval)) | None => O end.

Definition waitReady (ctx : Context) (s : Snapshot) : Ag Snapshot :=
  now ← agent_now;
  ready ← wait_ready (polls ctx now) ctx s;
  match ready with Some s => mret s | None => fail (PlainErr "out of fuel") end.

(** ** Checks before a device is created *)
Definition parse_error : GoError := PlainErr "invalid runtime profile".

Definition profileFromPayload (payload : obj) : Ag Profile :=
  match Parse (default [] (map_value payload "runtime_profile")) with Some p => mret p | None => fail parse_error end.

Definition verifyRuntimeImage (ctx : Context) (payload : obj) : Ag unit :=
  config ← ask;
  let runtimeImage := stringValue payload "docker_image" in
  let digest := stringValue payload "docker_digest" in
  if negb (String.eqb (ag_ProviderType config) "docker") && String.eqb runtimeImage "" && String.eqb digest "" then mret tt
  else
    _ ← guard_or (ValidRuntimeImageReference runtimeImage) (ProviderErr "validate_image" "INVALID_IMAGE_REFERENCE" false None);
    _ ← guard_or (negb (String.eqb digest "")) (ProviderErr "validate_image" "INVALID_IMAGE_DIGEST" false None);
    match provider_verify with
    | Some verify => provider_call (verify ctx runtimeImage digest)
    | None => fail (ProviderErr "validate_image" "IMAGE_VALIDATION_UNSUPPORTED" false None)
    end.

Definition insufficient (operation : string) (retryable : bool) : GoError := ProviderErr operation "INSUFFICIENT_HOST_RESOURCES" retryable None.

Definition add_allocation (with_disk : bool) (a : Allocation) (s : Snapshot) : Allocation :=
  let p := sn_RuntimeProfile s in
  mkAllocation (f_add (al_CPUCores a) (rp_ContainerCPUCores p)) (wrap64 (al_MemoryMB a + rp_ContainerMemoryMB p))
    (if with_disk then wrap64 (al_DiskMB a + rp_DataDiskMB p) else al_DiskMB a) (if with_disk then al_Slots a + 1 else al_Slots a).

(** The report of a host that measures its resources. *)
Definition measured_host (ctx : Context) : Ag (option Capacity.Host) :=
  config ← ask;
  match ag_CapacityProbe config with
  | None => mret None
  | Some probe => values ← external ctx probe; mret (HostFromMap values.1)
  end.

Definition discover (ctx : Context) : Ag (list Snapshot) :=
  config ← ask;
  found ← provider_call (provider_discover ctx (ag_HostID config));
  match found.2 with Some e => fail e | None => mret found.1 end.

Definition preflightCreate (ctx : Context) (profile : Profile) (imageID : string) : Ag unit :=
  host ← measured_host ctx;
  match host with
  | None => mret tt
  | Some host =>
    snapshots ← discover ctx;
    let existing := foldl (add_allocation false) (mkAllocation (S754_zero false) 0 0 (Z.of_nat (length snapshots))) snapshots in
    guard_or (cr_Fits (Evaluate host existing no_allocation profile (negb (String.eqb imageID "")))) (insufficient "create" true)
  end.

(** The host as if the current device were gone. *)
Definition without_current (current : Profile) (host : Capacity.Host) : Capacity.Host :=
  if is_zero_profile current then host
  else host <| ch_MemoryAvailableMB := Z.min (ch_MemoryTotalMB host) (wrap64 (ch_MemoryAvailableMB host + rp_ContainerMemoryMB current)) |>
            <| ch_DiskAvailableMB := Z.min (ch_DiskTotalMB host) (wrap64 (ch_DiskAvailableMB host + rp_DataDiskMB current)) |>.

Definition preflightReplacement (ctx : Context) (providerRef : string) (requested : Profile) : Ag unit :=
  host ← measured_host ctx;
  match host with
  | None => mret tt
  | Some host =>
    snapshots ← discover ctx;
    let others := filter (fun s => sn_ProviderRef s <> providerRef) snapshots in
    let current := match last (filter (fun s => sn_ProviderRef s = providerRef) snapshots) with
                   | Some s => sn_RuntimeProfile s
                   | None => zero_profile
                   end in
    let existing := foldl (add_allocation true) no_allocation others in
    guard_or (cr_Fits (Evaluate (without_current current host) existing no_allocation requested false)) (insufficient "rebuild" false)
  end.

(** ** Steps of the commands *)
Definition register (ctx : Context) (registrar : string -> External unit) (endpoint : string) : Ag unit :=
  _ ← external ctx (registrar endpoint);
  modify (fun s => mkAgent (as_world s) (endpoint :: as_registered s) (as_environment s) (as_environmentAt s) (as_probeErr s)).

Definition registerSTF (ctx : Context) (s : Snapshot) : Ag unit :=
  config ← ask;
  match ag_STFADBRegistrar config with
  | None => mret tt
  | Some registrar =>
    if String.eqb (sn_Platform s) "ios" then mret tt
    else
      r ← attempt (register ctx registrar (co_ADBEndpoint (sn_Connection s)));
      match r with Ok _ => mret tt | Fail e => fail (ProviderErr "get_connection_info" "STF_ADB_CONNECT_FAILED" true (Some e)) end
  end.

Definition cleanup_timeout : Z := 30 * Second.

Definition cleanupProvider (providerRef : string) : Ag unit :=
  now ← agent_now;
  let ctx := WithTimeout Background now cleanup_timeout in
  provider_call (match provider_cleanup with Some cleanup => cleanup ctx providerRef | None => provider_delete ctx providerRef end).

Definition not_found (e : GoError) : bool := String.eqb (ErrorCode e) "PROVIDER_DEVICE_NOT_FOUND".

(** The error of a command whose cleanup failed as well. *)
Definition joined_cleanup (prefix : string) (e cleanupErr : GoError) : GoError := JoinedErr e (WrappedErr prefix cleanupErr).

Definition recreate_request (config : AgentConfig) (payload : obj) (profile : Profile) : CreateRequest :=
  mkCreateRequest (stringValue payload "device_id") (ag_HostID config) (stringValue payload "image_id") "" ""
    (stringValue payload "docker_image") (stringValue payload "provider_ref") "" (map_value payload "capabilities") profile.

Definition start_and_wait (ctx : Context) (providerRef : string) : Ag Snapshot :=
  s ← provider_call (provider_start ctx providerRef);
  waitReady ctx s.

(** The start of a device that was created: it is removed again when it does not become
    ready. *)
Definition started_or_removed (ctx : Context) (providerRef : string) : Ag Snapshot :=
  ready ← attempt (start_and_wait ctx providerRef);
  match ready with
  | Ok s => mret s
  | Fail e =>
    removed ← attempt (cleanupProvider providerRef);
    match removed with
    | Fail c => if not_found c then fail e else fail (joined_cleanup "重建失败后的模拟器清理也失败" e c)
    | Ok _ => fail e
    end
  end.

Definition recreate (ctx : Context) (payload : obj) : Ag Snapshot :=
  let providerRef := stringValue payload "provider_ref" in
  config ← ask;
  _ ← verifyRuntimeImage ctx payload;
  profile ← profileFromPayload payload;
  deleted ← attempt (provider_call (provider_delete ctx providerRef));
  _ ← match deleted with Ok _ => mret tt | Fail e => if not_found e then mret tt else fail e end;
  _ ← provider_call (provider_create ctx (recreate_request config payload profile));
  started_or_removed ctx providerRef.

(** [validateImage]: a device is created, started, registered and removed again. *)
Definition validation_result (config : AgentConfig) (payload : obj) (s : Snapshot) : obj :=
  [("provider_ref", JStr (stringValue payload "provider_ref")); ("image_id", JStr (stringValue payload "image_id"));
   ("digest_verified", JBool true); ("ready", JBool true); ("stf_registered", JBool (has (ag_STFADBRegistrar config)));
   ("adb_endpoint", JStr (co_ADBEndpoint (sn_Connection s))); ("appium_endpoint", JStr (co_AppiumEndpoint (sn_Connection s)))]%string.

Definition delete_created (providerRef : string) : Ag unit :=
  now ← agent_now;
  provider_call (provider_delete (WithTimeout Background now cleanup_timeout) providerRef).

Definition validateImage (ctx : Context) (payload : obj) : Ag obj :=
  config ← ask;
  let providerRef := stringValue payload "provider_ref" in
  _ ← verifyRuntimeImage ctx payload;
  profile ← profileFromPayload payload;
  _ ← preflightCreate ctx profile (stringValue payload "image_id");
  _ ← provider_call (provider_create ctx (recreate_request config payload profile));
  tried ← attempt (s ← start_and_wait ctx providerRef; _ ← registerSTF ctx s; mret s);
  removed ← attempt (delete_created providerRef);
  match tried, removed with
  | Fail e, _ => fail e
  | Ok _, Fail e => fail e
  | Ok s, Ok _ => mret (validation_result config payload s)
  end.

(** ** Replacing a device *)
Definition with_outcome (m : Ag obj) : Ag Outcome :=
  r ← attempt m;
  mret (match r with Ok result => (Some result, None) | Fail e => (None, Some e) end).

Definition deliver (ctx : Context) (m : Ag Snapshot) : Ag obj := s ← m; _ ← registerSTF ctx s; mret (snapshotResult s).

(** A window of its own for restoring, that the end of the command does not cut. *)
Definition rollback_context : Ag Context :=
  config ← ask;
  now ← agent_now;
  mret (WithTimeout Background now (ag_CommandTimeout config)).

Definition option_json (o : option obj) : json := match o with Some kvs => JObj kvs | None => JNull end.

(** The payload of the restoration. *)
Definition rollback_payload (payload rollback : obj) : obj :=
  let r := assoc_set "device_id" (JStr (stringValue payload "device_id")) rollback in
  let r := assoc_set "host_id" (JStr (stringValue payload "host_id")) r in
  let r := assoc_set "provider_ref" (JStr (stringValue payload "provider_ref")) r in
  match map_value r "capabilities" with
  | Some _ => r
  | None => assoc_set "capabilities" (option_json (map_value payload "capabilities")) r
  end.

(** What is reported of a replacement. *)
Definition applied (key : string) (result : obj) : obj := assoc_set key (JBool true) result.
Definition restored_result (key : string) (targetErr : GoError) (result : obj) : obj :=
  assoc_set "target_error_code" (JStr (providerErrorCode targetErr))
    (assoc_set "rollback_restored" (JBool true) (assoc_set key (JBool false) result)).
Definition lost_result (key : string) (targetErr : GoError) (rollbackErr : option GoError) : obj :=
  [(key, JBool false); ("rollback_restored", JBool false); ("target_error_code", JStr (providerErrorCode targetErr))]%string
  ++ match rollbackErr with Some e => [("rollback_error_code", JStr (providerErrorCode e))]%string | None => [] end.

Definition reimage (ctx : Context) (payload : obj) : Ag Outcome :=
  checked ← attempt (profile ← profileFromPayload payload; preflightReplacement ctx (stringValue payload "provider_ref") profile);
  match checked with
  | Fail e => mret (None, Some e)
  | Ok _ =>
    target ← attempt (deliver ctx (recreate ctx payload));
    match target with
    | Ok result => mret (Some (applied "reimage_applied" result), None)
    | Fail targetErr =>
      match map_value payload "rollback" with
      | None => mret (Some (lost_result "reimage_applied" targetErr None),
                      Some (ProviderErr "rebuild" "REIMAGE_ROLLBACK_FAILED" false (errors_join (Some targetErr) None)))
      | Some rollback =>
        rollbackContext ← rollback_context;
        restored ← attempt (deliver rollbackContext (recreate rollbackContext (rollback_payload payload rollback)));
        mret (match restored with
              | Ok result => (Some (restored_result "reimage_applied" targetErr result),
                              Some (ProviderErr "rebuild" "REIMAGE_TARGET_FAILED" false (Some targetErr)))
              | Fail e => (Some (lost_result "reimage_applied" targetErr (Some e)),
                           Some (ProviderErr "rebuild" "REIMAGE_ROLLBACK_FAILED" false (errors_join (Some targetErr) (Some e))))
              end)
      end
    end
  end.

Definition rollback_started : string := "RUNTIME_PROFILE_TARGET_CREATE_FAILED_ROLLBACK_STARTED".

(** Wait for a device that has been restarted and register it. *)
Definition ready_again (ctx : Context) (s : Snapshot) : Ag obj := deliver ctx (waitReady ctx s).

(** The error of [RestartWithProfile] and the snapshot that comes with it. *)
Definition restart_with (f : Context -> string -> Profile -> Op P (Snapshot * option GoError)) (ctx : Context) (providerRef : string)
    (profile : Profile) : Ag (result GoError Snapshot * option Snapshot) :=
  r ← attempt (provider_call (f ctx providerRef profile));
  mret (match r with
        | Ok (s, None) => (Ok s, None)
        | Ok (s, Some e) => (Fail e, Some s)
        | Fail e => (Fail e, None)
        end).

Definition restore_profile (f : Context -> string -> Profile -> Op P (Snapshot * option GoError)) (ctx : Context) (providerRef : string)
    (rollbackProfile : Profile) (started : option Snapshot) : Ag obj :=
  s ← match started with
      | Some s => mret s
      | None => r ← restart_with f ctx providerRef rollbackProfile; lift_result r.1
      end;
  ready_again ctx s.

Definition updateRuntimeProfile (ctx : Context) (payload : obj) : Ag Outcome :=
  let key := "runtime_profile_update_applied"%string in
  let providerRef := stringValue payload "provider_ref" in
  checked ← attempt (
    targetProfile ← profileFromPayload payload;
    rollbackProfile ← match Parse (default [] (map_value (default [] (map_value payload "rollback")) "runtime_profile")) with
                      | Some p => mret p
                      | None => fail parse_error
                      end;
    f ← match provider_restart_with with
        | Some f => mret f
        | None => fail (ProviderErr "restart" "RUNTIME_PROFILE_UPDATE_UNSUPPORTED" false None)
        end;
    _ ← preflightReplacement ctx providerRef targetProfile;
    mret (targetProfile, rollbackProfile, f));
  match checked with
  | Fail e => mret (None, Some e)
  | Ok (targetProfile, rollbackProfile, f) =>
    restarted ← restart_with f ctx providerRef targetProfile;
    target ← attempt (s ← lift_result restarted.1; ready_again ctx s);
    match target with
    | Ok result => mret (Some (applied key result), None)
    | Fail targetErr =>
      let started := match restarted.1 with Fail e => if String.eqb (ErrorCode e) rollback_started then Some (default zero_snapshot restarted.2) else None
                     | Ok _ => None end in
      rollbackContext ← rollback_context;
      restored ← attempt (restore_profile f rollbackContext providerRef rollbackProfile started);
      mret (match restored with
            | Ok result => (Some (restored_result key targetErr result),
                            Some (ProviderErr "restart" "RUNTIME_PROFILE_TARGET_FAILED" false (Some targetErr)))
            | Fail e => (Some (lost_result key targetErr (Some e)),
                         Some (ProviderErr "restart" "RUNTIME_PROFILE_ROLLBACK_FAILED" false (errors_join (Some targetErr) (Some e))))
            end)
    end
  end.

(** ** Commands *)
Definition create_platform (payload : obj) : string :=
  let platform := ToLower (stringValue payload "platform") in if String.eqb platform "" then "android" else platform.
Definition create_kind (platform : string) (payload : obj) : string :=
  let kind := stringValue payload "device_kind" in
  if String.eqb kind "" && String.eqb platform "android" then "emulator" else kind.

Definition create_request (config : AgentConfig) (payload : obj) (profile : Profile) : CreateRequest :=
  let platform := create_platform payload in
  mkCreateRequest (stringValue payload "device_id") (ag_HostID config) (stringValue payload "image_id") platform
    (create_kind platform payload) (stringValue payload "docker_image") (stringValue payload "provider_ref")
    (stringValue payload "serial") (map_value payload "capabilities") profile.

(** The checks, and the device in the state after its creation. *)
Definition checked_create (ctx : Context) (payload : obj) : Ag Snapshot :=
  config ← ask;
  let platform := create_platform payload in
  let android := String.eqb platform "android" in
  profile ← (if android then p ← profileFromPayload payload; _ ← verifyRuntimeImage ctx payload; mret p
             else _ ← guard_or (String.eqb platform "ios" && String.eqb (create_kind platform payload) "simulator")
                        (ProviderErr "create" "INVALID_ARGUMENT" false None);
                  mret zero_profile);
  _ ← (if android then preflightCreate ctx profile (stringValue payload "image_id") else mret tt);
  provider_call (provider_create ctx (create_request config payload profile)).

(** The end of [create] for a device that has been created: it is removed again when it
    does not become ready, and it stays when only its registration fails. *)
Definition settle_create (ctx : Context) (payload : obj) (s : Snapshot) : Ag Outcome :=
  let providerRef := if String.eqb (sn_ProviderRef s) "" then stringValue payload "provider_ref" else sn_ProviderRef s in
  ready ← attempt (start_and_wait ctx providerRef);
  match ready with
  | Ok s => with_outcome (deliver ctx (mret s))
  | Fail e =>
    removed ← attempt (cleanupProvider providerRef);
    mret (None, Some (match removed with Ok _ => e | Fail c => joined_cleanup "创建失败后的模拟器清理也失败" e c end))
  end.

Definition run_create (ctx : Context) (payload : obj) : Ag Outcome :=
  created ← attempt (checked_create ctx payload);
  match created with
  | Fail e => mret (None, Some e)
  | Ok s => settle_create ctx payload s
  end.

Definition run_restart (ctx : Context) (payload : obj) : Ag Outcome :=
  let providerRef := stringValue payload "provider_ref" in
  if String.eqb (stringValue payload "operation_kind") "runtime_profile_update" then updateRuntimeProfile ctx payload
  else with_outcome (
    s ← match map_value payload "runtime_profile" with
        | Some (entry :: rest) =>
          profile ← match Parse (entry :: rest) with Some p => mret p | None => fail parse_error end;
          match provider_restart_with with
          | Some f => r ← restart_with f ctx providerRef profile; lift_result r.1
          | None => provider_call (provider_restart ctx providerRef)
          end
        | _ => provider_call (provider_restart ctx providerRef)
        end;
    ready_again ctx s).

Definition run_rebuild (ctx : Context) (payload : obj) : Ag Outcome :=
  if String.eqb (stringValue payload "operation_kind") "reimage" then reimage ctx payload
  else if negb (String.eqb (stringValue payload "device_id") "") && negb (String.eqb (stringValue payload "image_id") "")
  then with_outcome (deliver ctx (recreate ctx payload))
  else with_outcome (s ← provider_call (provider_rebuild ctx (stringValue payload "provider_ref")); ready_again ctx s).

Definition prepared (f : Preparer -> Ag obj) : Ag Outcome :=
  config ← ask;
  with_outcome (match ag_ImagePreparer config with Some p => f p | None => fail (PlainErr "当前宿主机代理未启用镜像准备功能") end).

Definition run_command (ctx : Context) (command : Command) : Ag Outcome :=
  let payload := cv_Payload command in
  let providerRef := stringValue payload "provider_ref" in
  let kind := String.eqb (cv_CommandType command) in
  if kind "create" then run_create ctx payload
  else if kind "start" then with_outcome (s ← provider_call (provider_start ctx providerRef); mret (snapshotResult s))
  else if kind "stop" then with_outcome (s ← provider_call (provider_stop ctx providerRef); mret (snapshotResult s))
  else if kind "restart" then run_restart ctx payload
  else if kind "rebuild" then run_rebuild ctx payload
  else if kind "delete" then
    with_outcome (_ ← provider_call (provider_delete ctx providerRef);
                mret [("provider_ref", JStr providerRef); ("deleted", JBool true)]%string)
  else if kind "inspect" then
    with_outcome (h ← provider_call (provider_inspect ctx providerRef); mret (assoc_set "provider_ref" (JStr providerRef) (healthResult h)))
  else if kind "validate_image" then with_outcome (validateImage ctx payload)
  else if kind "sync_android_catalog" then prepared (fun p => external ctx (pr_SyncCatalog p))
  else if kind "prepare_android_image" then
    prepared (fun p => external ctx (pr_Prepare p (stringValue payload "package_name") (stringValue payload "revision")))
  else mret (None, Some (PlainErr "不支持的宿主机命令类型")).

(** What happens beside the command: the agent is stopped; the renewal of the lease fails. *)
Record Fate : Type := mkFate { ft_Shutdown : option Z; ft_LeaseLost : option (Z * GoError) }.

Definition has_lease (command : Command) : bool :=
  match cv_LeaseToken command with Some token => negb (String.eqb token "") | None => false end.

(** The failure of [startLeaseRenewal], when it comes before the end of the command and
    before the agent is stopped. *)
Definition renewal_error (fate : Fate) (command : Command) (finished : Z) : option GoError :=
  if has_lease command then
    match ft_LeaseLost fate with
    | Some (t, e) => if (t <=? finished) && match ft_Shutdown fate with Some stop => t <? stop | None => true end
                     then Some (WrappedErr "续订宿主机命令租约失败" e) else None
    | None => None
    end
  else None.

Definition command_context (config : AgentConfig) (fate : Fate) (command : Command) (now : Z) : Context :=
  let timeout := if String.eqb (cv_CommandType command) "sync_android_catalog" || String.eqb (cv_CommandType command) "prepare_android_image"
                 then ag_ImagePrepareTimeout config else ag_CommandTimeout config in
  let lost := if has_lease command then option_map fst (ft_LeaseLost fate) else None in
  WithTimeout (mkContext None (earlier (ft_Shutdown fate) lost)) now timeout.

Definition completion_of (command : Command) (result : option obj) (err : option GoError) : CompletionInput :=
  mkCompletion (default "" (cv_LeaseToken command)) (cv_Attempt command)
    (match err with None => CommandSucceeded | Some _ => CommandFailed end) (default [] result)
    (option_map (fun e => mkCompletionError (providerErrorCode e) (providerErrorRetryable e)) err).

(** [execute], up to the call that reports the completion, which is its result. *)
Definition execute (fate : Fate) (command : Command) : Ag CompletionInput :=
  config ← ask;
  started ← agent_now;
  outcome ← run_command (command_context config fate command started) command;
  finished ← agent_now;
  let err := match outcome.2 with Some e => Some e | None => renewal_error fate command finished end in
  mret (completion_of command outcome.1 err).

(** ** Heartbeats *)
Definition refreshEnvironmentSnapshot (probe : External obj) (ctx : Context) : Ag unit :=
  config ← ask;
  now ← agent_now;
  r ← attempt (external (WithTimeout ctx now (ag_EnvironmentProbeTimeout config)) probe);
  at_ ← agent_now;
  let answer := match r with
                | Fail e => Fail e
                | Ok values =>
                  match map_value values "host_readiness" with
                  | Some readiness => match assoc "ready" readiness with Some (JBool _) => Ok values | _ => Fail (PlainErr "宿主机环境探测结果缺少就绪状态") end
                  | None => Fail (PlainErr "宿主机环境探测结果缺少就绪状态")
                  end
                end in
  modify (fun s => match answer with
                   | Ok values => mkAgent (as_world s) (as_registered s) (Some values) at_ None
                   | Fail e => mkAgent (as_world s) (as_registered s) (as_environment s) (as_environmentAt s) (Some e)
                   end).

Definition not_ready (reason : string) : json := JObj [("ready", JBool false); ("reasons", JArr [JStr reason])]%string.

Definition currentEnvironmentSnapshot (config : AgentConfig) (s : AgentState P) (now : Z) : obj :=
  match as_environment s with
  | Some values =>
    if now - as_environmentAt s <=? ag_EnvironmentSnapshotMaxAge config then values
    else assoc_set "host_readiness"
           (not_ready (if has (as_probeErr s) then "environment_probe_failed"
                       else if IsZero (as_environmentAt s) then "environment_probe_pending" else "environment_probe_stale")) values
  | None =>
    [("host_readiness", not_ready (if has (as_probeErr s) then "environment_probe_failed"
                                   else if IsZero (as_environmentAt s) then "environment_probe_pending" else "environment_probe_stale"))]%string
  end.

Definition discovered (config : AgentConfig) (s : Snapshot) : DiscoveredDevice :=
  let c := sn_Connection s in
  mkDiscovered (sn_ProviderRef s) (co_Serial c) (sn_Platform s) (sn_DeviceKind s) (heartbeatProviderType (ag_ProviderType config))
    (providerLifecycle s) (providerHealth s)
    ([("appium_endpoint", JStr (co_AppiumEndpoint c)); ("appium_udid", JStr (co_AppiumUDID c))]%string
     ++ if String.eqb (co_ADBEndpoint c) "" then [] else [("adb_endpoint", JStr (co_ADBEndpoint c))]%string)
    (default [] (sn_Capabilities s)) (ph_Components (sn_Health s))
    (if is_zero_profile (sn_RuntimeProfile s) then [] else Map (sn_RuntimeProfile s)).

(** The endpoint of a device, ready or not; errors are logged. *)
Definition register_discovered (ctx : Context) (s : Snapshot) : Ag unit :=
  config ← ask;
  match ag_STFADBRegistrar config with
  | Some registrar =>
    if String.eqb (sn_Platform s) "android" && negb (blank (co_ADBEndpoint (sn_Connection s)))
    then _ ← attempt (register ctx registrar (co_ADBEndpoint (sn_Connection s))); mret tt
    else mret tt
  | None => mret tt
  end.

Fixpoint register_all (ctx : Context) (l : list Snapshot) : Ag unit :=
  match l with [] => mret tt | s :: rest => _ ← register_discovered ctx s; register_all ctx rest end.

(** The keys of the second document over those of the first. *)
Definition overlay (a b : obj) : obj := foldl (fun acc p => assoc_set p.1 p.2 acc) a b.

(** [sendHeartbeat], up to the call that sends it. *)
Definition sendHeartbeat (ctx : Context) : Ag HeartbeatInput :=
  config ← ask;
  r ← attempt (provider_call (provider_discover ctx (ag_HostID config)));
  let '(snapshots, err) := match r with Ok found => found | Fail e => ([], Some e) end in
  _ ← match err with Some e => if has (ag_EnvironmentProbe config) then mret tt else fail e | None => mret tt end;
  _ ← register_all ctx snapshots;
  let environment := overlay [("provider", JStr (ag_ProviderType config));
                              ("host_os", JStr (if String.eqb (ag_HostOS config) "darwin" then "macos" else ag_HostOS config));
                              ("host_arch", JStr (ag_HostArch config)); ("provider_inventory_complete", JBool (negb (has err)))]%string
                       (ag_Environment config) in
  let environment := if has (ag_ImagePreparer config) then assoc_set "image_build_agent" (JBool true) environment else environment in
  measured ← match ag_CapacityProbe config with
             | Some probe => m ← external ctx probe; mret (Some m.1, overlay environment m.2)
             | None => mret (ag_Capacity config, environment)
             end;
  now ← agent_now;
  s ← gets id;
  let environment := if has (ag_EnvironmentProbe config) then overlay measured.2 (currentEnvironmentSnapshot config s now) else measured.2 in
  let environment := if has err then assoc_set "host_readiness" (not_ready "provider_inventory_failed") environment else environment in
  mret (mkHeartbeat now measured.1 environment (map (discovered config) snapshots)).
End Agent.
