(* ===== verification/FarmSystem.v ===== *)
(** * The farm as a transition system

    The transactions of the scheduler, the reservation service and the reaper interleave
    with each other and with the rest of the control plane (heartbeats, the reconciler,
    management).  A farm state is the program state and the time of its last step; the
    database clock does not go back.  [operation] lists the transactions with the
    conditions their callers have checked, [run] runs one, and [interference] is what
    the rest of the control plane may do between two of them.

    [alloc_step] is the abstract specification: the moves of the allocation protocol on
    the rows of devices and reservations.  The transactions refine it
    ([run_refines]), and the safety invariants are proved on it. *)
From S2P Require Import Prelude GoText Errors Domain DomainSpec Json Sensitive Actor.
From S2P Require Import Store ReservationRepo TxFacts PoolSelector ReservationService Scheduler ServiceFacts.

(** ** Operations *)
Inductive operation : Type :=
  | OpCreate (params : CreateReservationParams)
  | OpCreateTargeted (actorID deviceID : string) (params : CreateReservationParams)
  | OpReserve
  | OpActivate (selected : claimCandidate) (sessionID : string)
  | OpCompensate (selected : claimCandidate) (code : string) (terminal : bool)
  | OpExtend (op : OperationParams) (id : string) (additionalSeconds : Z)
  | OpKeepAlive (id ownerID deviceID : string) (lease : Z)
  | OpRelease (op : OperationParams) (actor : Actor) (id requestID reason : string) (force : bool)
  | OpReap (grace : Z) (id requestID : string)
  | OpReapStale (timeout grace : Z) (id requestID : string)
  | OpReapOrphan (grace : Z) (id requestID : string)
  | OpRemoteSession (op : OperationParams) (clientID id deviceID : string) (input : RemoteSessionInput) (encoded : json)
  | OpClearRemote (id remoteID : string)
  | OpAudit (current : ReservationRecord) (actor : Actor) (requestID action reason : string).

Definition ignore {A} (m : Tx A) : Tx unit := _ ← m; mret tt.

Definition run (op : operation) : Tx unit :=
  WithinTx (match op with
  | OpCreate p => ignore (CreatePending p)
  | OpCreateTargeted a d p => ignore (create_targeted_tx a d p)
  | OpReserve => ignore reserve_tx
  | OpActivate sel sid => ignore (activate_tx sel sid)
  | OpCompensate sel code t => compensate_tx sel code t
  | OpExtend o id secs => ignore (extend_tx o id secs)
  | OpKeepAlive id o d l => ignore (KeepAliveTargeted id o d l)
  | OpRelease o a id req reason force => ignore (release_tx o a id req reason force)
  | OpReap g id req => ignore (reap_tx g id req)
  | OpReapStale t g id req => ignore (reap_stale_tx t g id req)
  | OpReapOrphan g id req => ignore (reap_orphan_tx g id req)
  | OpRemoteSession o c id d i e => ignore (remote_session_tx o c id d i e)
  | OpClearRemote id rid => ClearRemoteSession id rid
  | OpAudit r a req act reason => record_stf_failure_tx r a req act reason
  end).

(** What the callers check before the transaction: [validateCreate], [Extend] and
    [KeepAliveForDevice] all require at least a minute. *)
Definition checked (op : operation) : Prop :=
  match op with
  | OpCreate p | OpCreateTargeted _ _ p => 60 <= cp_LeaseSeconds p
  | OpExtend _ _ secs => 60 <= secs
  | OpKeepAlive _ _ _ lease => Minute <= lease
  | _ => True
  end.

(** The schema's constraint [ck_device_pools_lease]. *)
Definition pools_ok (db : DB) : Prop := forall k p, device_pools db !! k = Some p -> 60 <= p_max_lease_seconds p.

(** ** The allocation protocol *)
Inductive alloc_step (now : Z) (db db' : DB) : Prop :=
  | step_other :
      devices db' = devices db -> device_reservations db' = device_reservations db -> alloc_step now db db'
  | step_create p :
      60 <= cp_LeaseSeconds p -> device_reservations db !! cp_ID p = None ->
      devices db' = devices db ->
      device_reservations db' = <[cp_ID p := pending_row p now]> (device_reservations db) -> alloc_step now db db'
  | step_reserve rid did r d :
      device_reservations db !! rid = Some r -> r_Status r = ReservationPending -> r_DeviceID r = None ->
      devices db !! did = Some d -> d_lifecycle d = DeviceReady -> d_health d = HealthHealthy ->
      devices db' = <[did := d <| d_lifecycle := DeviceReserved |> <| d_updated_at := now |>]> (devices db) ->
      device_reservations db' = <[rid := r <| r_DeviceID := Some did |> <| r_FailureCode := None |> <| r_UpdatedAt := now |>]>
        (device_reservations db) -> alloc_step now db db'
  | step_activate rid did r d :
      device_reservations db !! rid = Some r -> r_Status r = ReservationPending -> r_DeviceID r = Some did ->
      devices db !! did = Some d -> d_lifecycle d = DeviceReserved ->
      active_conflict db rid (activated did now r) = false ->
      devices db' = <[did := d <| d_lifecycle := DeviceBusy |> <| d_updated_at := now |>]> (devices db) ->
      device_reservations db' = <[rid := activated did now r]> (device_reservations db) -> alloc_step now db db'
  | step_unclaim rid did r d st l code :
      device_reservations db !! rid = Some r -> r_Status r = ReservationPending -> r_DeviceID r = Some did ->
      devices db !! did = Some d -> d_lifecycle d = DeviceReserved ->
      st = ReservationPending \/ st = ReservationFailed ->
      l = (if healthy d then DeviceReady else DeviceQuarantined) ->
      devices db' = <[did := d <| d_lifecycle := l |> <| d_updated_at := now |>]> (devices db) ->
      device_reservations db' = <[rid := r <| r_DeviceID := None |> <| r_Status := st |> <| r_FailureCode := Some code |>
        <| r_UpdatedAt := now |>]> (device_reservations db) -> alloc_step now db db'
  | step_fail rid r code :
      device_reservations db !! rid = Some r -> r_Status r = ReservationPending -> r_DeviceID r = None ->
      devices db' = devices db ->
      device_reservations db' = <[rid := r <| r_Status := ReservationFailed |> <| r_FailureCode := Some code |>
        <| r_UpdatedAt := now |>]> (device_reservations db) -> alloc_step now db db'
  | step_extend rid r e e' :
      device_reservations db !! rid = Some r -> r_Status r = ReservationActive -> r_ExpiresAt r = Some e ->
      now < e -> now < e' ->
      active_conflict db rid (r <| r_ExpiresAt := Some e' |> <| r_UpdatedAt := now |>) = false ->
      devices db' = devices db ->
      device_reservations db' = <[rid := r <| r_ExpiresAt := Some e' |> <| r_UpdatedAt := now |>]> (device_reservations db) ->
      alloc_step now db db'
  | step_close rid did r d terminal recycle target :
      device_reservations db !! rid = Some r -> r_Status r = ReservationActive -> r_DeviceID r = Some did ->
      isClosedStatus terminal = true -> terminal <> ReservationFailed ->
      devices db !! did = Some d -> closable d = true ->
      devices db' = <[did := released_device recycle target now d]> (devices db) ->
      device_reservations db' = <[rid := closed_row terminal now r]> (device_reservations db) -> alloc_step now db db'.

Lemma closing_status st : has_edge reservationTransitions ReservationActive st = true ->
  isClosedStatus st = true /\ st <> ReservationFailed.
Proof. by destruct st. Qed.

(** ** The transactions refine the protocol *)
Section Refinement.
Context (env : Env).

Lemma BeginOperation_frame o s b s' :
  BeginOperation o env s = (Ok b, s') ->
  devices (st_db s') = devices (st_db s) /\ device_reservations (st_db s') = device_reservations (st_db s)
  /\ device_sessions (st_db s') = device_sessions (st_db s) /\ device_pools (st_db s') = device_pools (st_db s)
  /\ (b = true -> s' = s).
Proof.
  unfold BeginOperation, get_db, mbind, Tx_bind, M_bind, gets.
  destruct (_ !! operation_key o) as [row|].
  - destruct (same_operation o row); [|done]. by intros [= <- <-].
  - by intros [= <- <-].
Qed.

Lemma create_refines p s r s' :
  60 <= cp_LeaseSeconds p ->
  CreatePending p env s = (Ok r, s') -> alloc_step (env_clock env) (st_db s) (st_db s').
Proof.
  intros Hl [_ [(k & _ & -> & _)|(Hnone & -> & _ & ->)]]%CreatePending_ok; [by apply step_other|].
  by eapply (step_create _ _ _ p).
Qed.

Lemma close_refines s current terminal actor action requestID reason r' s' rid row :
  rid = r_ID current -> device_reservations (st_db s) !! rid = Some row -> current = row ->
  r_Status current = ReservationActive ->
  closeActiveLocked current terminal actor action requestID reason env s = (Ok r', s') ->
  alloc_step (env_clock env) (st_db s) (st_db s').
Proof.
  intros -> Hrow -> Hact
    (did & d & r & x & y & policy & Hdid & Hd & Hcl & _ & Hedge & _ & Hr & Hst & -> & ->)%closeActiveLocked_ok.
  rewrite Hact in Hedge. apply closing_status in Hedge as [? ?]. simplify_eq.
  by eapply (step_close _ _ _ _ did _ d terminal).
Qed.

(** Opening a transaction with the recording of its operation does not move the rows. *)
Lemma step_after_frame now db db1 db' :
  devices db1 = devices db -> device_reservations db1 = device_reservations db ->
  alloc_step now db1 db' -> alloc_step now db db'.
Proof.
  intros Hd Hr Hs.
  assert (forall i r, active_conflict db1 i r = active_conflict db i r) as Hc.
  { intros i r. unfold active_conflict. by rewrite Hr. }
  destruct Hs; rewrite ?Hd, ?Hr, ?Hc in *.
  - by apply step_other.
  - by eapply step_create.
  - by eapply step_reserve.
  - by eapply step_activate.
  - by eapply step_unclaim.
  - by eapply step_fail.
  - by eapply step_extend.
  - by eapply step_close.
Qed.

Lemma create_targeted_refines a d p s r s' :
  60 <= cp_LeaseSeconds p ->
  create_targeted_tx a d p env s = (Ok r, s') -> alloc_step (env_clock env) (st_db s) (st_db s').
Proof.
  intros Hl H. unfold create_targeted_tx in H. tx H. ro_states.
  match goal with H : match ?o with _ => _ end _ _ = _ |- _ => destruct o as [x|] end.
  - match goal with H : (if ?b then _ else _) _ _ = _ |- _ => destruct b; [|done] end.
    tx H. by apply step_other.
  - by eapply create_refines.
Qed.

Lemma reserve_refines s c s' :
  reserve_tx env s = (Ok c, s') -> alloc_step (env_clock env) (st_db s) (st_db s').
Proof.
  intros (r & m & policy & d & row & _ & _ & _ & _ & _ & _ & Hd & Hl & Hh & Hr & Hp & Hn & _ & ->)%reserve_tx_ok.
  by eapply (step_reserve _ _ _ (r_ID r) (d_id (m_device m)) row d).
Qed.

Lemma activate_refines sel sid s a s' :
  keyed (st_db s) ->
  activate_tx sel sid env s = (Ok a, s') -> alloc_step (env_clock env) (st_db s) (st_db s').
Proof.
  intros Hk H. apply activate_tx_ok in H as
    (row & d & policy & Hr & Hp & Hdev & _ & _ & Hd & Hl & -> & Hc & _ & ->); [|done].
  by eapply (step_activate _ _ _ _ _ row d).
Qed.

Lemma compensate_refines sel code terminal s u s' :
  compensate_tx sel code terminal env s = (Ok u, s') -> alloc_step (env_clock env) (st_db s) (st_db s').
Proof.
  intros (d & r & Hd & Hl & Hh & Hr & Hp & Hdev & ->)%compensate_tx_ok.
  eapply (step_unclaim _ _ _ _ _ r d (if terminal then ReservationFailed else ReservationPending)); try done.
  - destruct terminal; [by right|by left].
  - cbn. rewrite (proj2 (healthy_spec d) Hh). done.
Qed.

Lemma next_expiry_future now e add max :
  now < e -> 60 <= add -> add <= max -> now < next_expiry now e add max <= now + max * Second.
Proof. intros. unfold next_expiry, Second. destruct (Z.ltb_spec (now + max * 1000000000) (e + add * 1000000000)); lia. Qed.

Lemma extend_refines o id secs s r s' :
  60 <= secs ->
  extend_tx o id secs env s = (Ok r, s') -> alloc_step (env_clock env) (st_db s) (st_db s').
Proof.
  intros Hsecs H. unfold extend_tx in H. apply bindT_ok in H as (b & s1 & Eb & H).
  apply BeginOperation_frame in Eb as (Hfd & Hfr & _ & _ & Hb).
  destruct b; [rewrite (Hb eq_refl) in *; apply Get_ok in H as [_ ->]; by apply step_other|].
  apply (step_after_frame _ _ (st_db s1)); [done|done|].
  apply bindT_ok in H as (cur & s2 & E & H). apply LockByID_ok in E as [Hcur ->].
  destruct (r_Status cur) eqn:Hst; try done. destruct (r_StartsAt cur) eqn:Hs; [|done].
  destruct (r_ExpiresAt cur) as [e|] eqn:He; [|done].
  tx H. ro_states.
  match goal with H : ReservationRepo.Extend _ _ _ _ = _ |- _ =>
    apply Extend_ok in H as (r0 & Hr0 & Hact & Hc & -> & ->) end.
  simplify_eq.
  match goal with E : (secs <=? ?max) = true |- _ => destruct (next_expiry_future (env_clock env) e secs max); [lia..|] end.
  by eapply (step_extend _ _ _ id _ e); [done|done|done|lia| |done|done|done].
Qed.

Lemma keepalive_refines id oid did lease s r s' :
  pools_ok (st_db s) -> Minute <= lease ->
  KeepAliveTargeted id oid did lease env s = (Ok r, s') -> alloc_step (env_clock env) (st_db s) (st_db s').
Proof.
  intros Hp Hl (r0 & p & e & Hr & Hpool & Hact & He & Hlt & -> & Hc & ->)%KeepAliveTargeted_ok.
  apply Hp in Hpool.
  assert (60 <= duration_seconds lease) by (unfold duration_seconds, Minute, Second in *; apply Z.quot_le_lower_bound; lia).
  eapply (step_extend _ _ _ id r0 e
    (env_clock env + Z.min (duration_seconds lease) (p_max_lease_seconds p) * Second)); try done.
  unfold Second. lia.
Qed.

(** A step followed by changes to other tables is still that step. *)
Lemma step_before_frame now db db1 db' :
  devices db' = devices db1 -> device_reservations db' = device_reservations db1 ->
  alloc_step now db db1 -> alloc_step now db db'.
Proof.
  intros Hd Hr Hs. destruct Hs; rewrite <-?Hd, <-?Hr in *.
  - by apply step_other.
  - by eapply step_create.
  - by eapply step_reserve.
  - by eapply step_activate.
  - by eapply step_unclaim.
  - by eapply step_fail.
  - by eapply step_extend.
  - by eapply step_close.
Qed.

(** [newID], then [InsertAudit]: only the audit table grows. *)
Lemma audit_rows (i a b c d e f : string) s u s' :
  InsertAudit i a b c d e f env s = (Ok u, s') ->
  devices (st_db s') = devices (st_db s) /\ device_reservations (st_db s') = device_reservations (st_db s).
Proof. by intros [= _ <-]. Qed.

Lemma cancel_refines current actor requestID reason s r s' :
  cancel_pending current actor requestID reason env s = (Ok r, s') ->
  alloc_step (env_clock env) (st_db s) (st_db s').
Proof.
  unfold cancel_pending. intros H.
  apply bindT_ok in H as ([] & s1 & E & H). pose proof (read_only _ _ _ _ E) as ->. clear E.
  apply bindT_ok in H as (now & s1 & E & H). injection E as <- <-.
  apply bindT_ok in H as (m & s1 & E & H). pose proof (read_only _ _ _ _ E) as ->. clear E.
  apply bindT_ok in H as (x & s1 & E & H). apply CancelPending_ok in E as (row & Hr & Hp & Hn & ->).
  apply bindT_ok in H as (i & s2 & E & H). pose proof (keeps_db _ _ _ _ E) as Hdb. clear E.
  apply bindT_ok in H as ([] & s3 & E & H). apply audit_rows in E as [Ed Er]. injection H as _ <-.
  rewrite Hdb in Ed, Er. eapply (step_fail _ _ _ (r_ID current) row "RESERVATION_CANCELED"); try done.
Qed.

Lemma release_refines o actor id requestID reason force s r s' :
  keyed (st_db s) ->
  release_tx o actor id requestID reason force env s = (Ok r, s') -> alloc_step (env_clock env) (st_db s) (st_db s').
Proof.
  intros Hk H. unfold release_tx in H. apply bindT_ok in H as (b & s1 & Eb & H).
  apply BeginOperation_frame in Eb as (Hfd & Hfr & _ & _ & Hb).
  destruct b; [rewrite (Hb eq_refl) in *; apply Get_ok in H as [_ ->]; by apply step_other|].
  apply (step_after_frame _ _ (st_db s1)); [done|done|].
  apply bindT_ok in H as (cur & s2 & E & H). apply LockByID_ok in E as [Hcur ->].
  destruct (status_is ReservationPending cur); [by eapply cancel_refines|].
  destruct (status_is ReservationActive cur) eqn:Hact; cbn [negb] in H.
  - apply status_is_spec in Hact. eapply close_refines; [done| |done|done|done].
    rewrite (keyed_reservation (st_db s1) (keyed_frame _ _ Hfd Hfr Hk) _ _ Hcur). done.
  - destruct (isClosedStatus _); [|done]. injection H as _ <-. by apply step_other.
Qed.

Lemma reap_refines grace id requestID s r s' :
  keyed (st_db s) ->
  reap_tx grace id requestID env s = (Ok r, s') -> alloc_step (env_clock env) (st_db s) (st_db s').
Proof.
  intros Hk H. unfold reap_tx in H. apply bindT_ok in H as (cur & s1 & E & H). apply LockByID_ok in E as [Hcur ->].
  destruct (r_Status cur) eqn:Hst; try done. destruct (r_ExpiresAt cur); [|done].
  apply bindT_ok in H as (now & s1 & E & H). injection E as <- <-.
  apply bindT_ok in H as ([] & s1 & E & H). apply guardT_ok in E as [_ ->].
  eapply close_refines; [done| |done|done|done]. by rewrite (keyed_reservation _ Hk _ _ Hcur).
Qed.

Lemma reap_stale_refines timeout grace id requestID s r s' :
  reap_stale_tx timeout grace id requestID env s = (Ok r, s') -> alloc_step (env_clock env) (st_db s) (st_db s').
Proof.
  unfold reap_stale_tx. intros H. apply bindT_ok in H as (cur & s1 & E & H). apply LockByID_ok in E as [Hcur ->].
  apply bindT_ok in H as ([] & s1 & E & H). apply guardT_ok in E as [_ ->].
  apply bindT_ok in H as (now & s1 & E & H). injection E as <- <-.
  apply bindT_ok in H as ([] & s1 & E & H). apply guardT_ok in E as [_ ->].
  apply bindT_ok in H as ([] & s1 & E & H). apply FailPendingReservation_ok in E as (row & Hr & Hp & Hn & ->).
  apply bindT_ok in H as (i & s2 & E & H). pose proof (keeps_db _ _ _ _ E) as Hdb. clear E.
  apply bindT_ok in H as ([] & s3 & E & H). apply audit_rows in E as [Ed Er].
  apply Get_ok in H as [_ ->]. rewrite Hdb in Ed, Er. by eapply (step_fail _ _ _ (r_ID cur) row "PENDING_TIMEOUT").
Qed.

Lemma reap_orphan_refines grace id requestID s r s' :
  reap_orphan_tx grace id requestID env s = (Ok r, s') -> alloc_step (env_clock env) (st_db s) (st_db s').
Proof.
  unfold reap_orphan_tx. intros H. apply bindT_ok in H as (cur & s1 & E & H). apply LockByID_ok in E as [Hcur ->].
  destruct (r_Status cur); try done. destruct (r_DeviceID cur) as [did|]; [|done].
  apply bindT_ok in H as (now & s1 & E & H). injection E as <- <-.
  apply bindT_ok in H as ([] & s1 & E & H). apply guardT_ok in E as [_ ->].
  apply bindT_ok in H as ([] & s1 & E & H). apply FailPendingClaim_ok in E as (d & row & Hd & Hl & Hr & Hp & Hn & ->).
  apply bindT_ok in H as (i & s2 & E & H). pose proof (keeps_db _ _ _ _ E) as Hdb. clear E.
  apply bindT_ok in H as ([] & s3 & E & H). apply audit_rows in E as [Ed Er].
  apply Get_ok in H as [_ ->]. rewrite Hdb in Ed, Er.
  eapply (step_unclaim _ _ _ (r_ID cur) did row d ReservationFailed _ "CLAIM_ABANDONED"); try done. by right.
Qed.

Lemma remote_refines o c id d input encoded s m s' :
  remote_session_tx o c id d input encoded env s = (Ok m, s') -> alloc_step (env_clock env) (st_db s) (st_db s').
Proof.
  unfold remote_session_tx. intros H. apply bindT_ok in H as (cur & s1 & E & H). apply LockByID_ok in E as [Hcur ->].
  apply bindT_ok in H as ([] & s1 & E & H). apply guardT_ok in E as [_ ->].
  apply bindT_ok in H as (b & s1 & Eb & H). apply BeginOperation_frame in Eb as (Hfd & Hfr & _).
  apply (step_after_frame _ _ (st_db s1)); [done|done|].
  destruct b; apply bindT_ok in H as (x & s2 & E & H); apply lift_ok in H as [_ ->].
  - pose proof (read_only _ _ _ _ E) as ->. by apply step_other.
  - apply SetRemoteSession_frame in E as [y ->]. by apply step_other.
Qed.

Lemma audit_refines current actor requestID action reason s u s' :
  record_stf_failure_tx current actor requestID action reason env s = (Ok u, s') ->
  alloc_step (env_clock env) (st_db s) (st_db s').
Proof.
  unfold record_stf_failure_tx. intros H. apply bindT_ok in H as (i & s1 & E & H).
  pose proof (keeps_db _ _ _ _ E) as Hdb. apply audit_rows in H as [Ed Er]. rewrite Hdb in *. by apply step_other.
Qed.

(** Each transaction is one step of the protocol; a failed one moves nothing. *)
Lemma run_step op s r s' :
  keyed (st_db s) -> pools_ok (st_db s) -> checked op ->
  run op env s = (r, s') -> alloc_step (env_clock env) (st_db s) (st_db s').
Proof.
  intros Hk Hp Hc [(u & _ & H)|(e & _ & Hdb)]%WithinTx_result; [|rewrite Hdb; by apply step_other].
  destruct op; cbn in Hc; cbv iota in H; try (progress unfold ignore in H; apply bindT_ok in H as (x & s1 & H & [= _ <-])).
  - by eapply create_refines.
  - by eapply create_targeted_refines.
  - by eapply reserve_refines.
  - by eapply activate_refines.
  - by eapply compensate_refines.
  - by eapply extend_refines.
  - by eapply keepalive_refines.
  - by eapply release_refines.
  - by eapply reap_refines.
  - by eapply reap_stale_refines.
  - by eapply reap_orphan_refines.
  - by eapply remote_refines.
  - apply ClearRemoteSession_frame in H as [y ->]. by apply step_other.
  - by eapply audit_refines.
Qed.
End Refinement.

(** No transaction changes the pools. *)
Lemma run_pools op env s r s' : run op env s = (r, s') -> device_pools (st_db s') = device_pools (st_db s).
Proof.
  enough (Keeps device_pools (run op)) as K by apply K.
  unfold run. apply WithinTx_keeps.
  destruct op; cbv iota; unfold ignore, CreatePending, write_reservation, create_targeted_tx, reserve_tx, ReserveForClaim,
    activate_tx, ActivateClaimed, compensate_tx, CompensateClaim, extend_tx, BeginOperation, ReservationRepo.Extend,
    KeepAliveTargeted, release_tx, cancel_pending, CancelPending, closeActiveLocked, CloseActive, InsertAudit, reap_tx,
    reap_stale_tx, FailPendingReservation, reap_orphan_tx, FailPendingClaim, remote_session_tx, SetRemoteSession,
    ClearRemoteSession, record_stf_failure_tx; solve_keeps.
Qed.

(** ** Reachable states *)
Record farm : Type := mkFarm { f_state : St; f_time : Z }.
Definition f_db (f : farm) : DB := st_db (f_state f).

(** What the rest of the control plane never does: write reservations, or store rows
    that the schema refuses. *)
Definition interference (db db' : DB) : Prop :=
  device_reservations db' = device_reservations db /\ keyed db' /\ pools_ok db'.

(** Without reservations no device is assigned. *)
Definition idle (db : DB) : Prop := forall k d, devices db !! k = Some d ->
  d_lifecycle d <> DeviceReserved /\ d_lifecycle d <> DeviceBusy.

Section System.
Context (rely : DB -> DB -> Prop).

Inductive farm_step : farm -> farm -> Prop :=
  | farm_run op env s r s' t :
      checked op -> t <= env_clock env -> run op env s = (r, s') ->
      farm_step (mkFarm s t) (mkFarm s' (env_clock env))
  | farm_other s s' t t' :
      t <= t' -> interference (st_db s) (st_db s') -> rely (st_db s) (st_db s') ->
      farm_step (mkFarm s t) (mkFarm s' t').

Inductive farm_init : farm -> Prop :=
  | init_intro s t : device_reservations (st_db s) = ∅ -> idle (st_db s) -> keyed (st_db s) -> pools_ok (st_db s) ->
      farm_init (mkFarm s t).

Inductive reachable : farm -> Prop :=
  | reach_init f : farm_init f -> reachable f
  | reach_step f f' : reachable f -> farm_step f f' -> reachable f'.
End System.
