(* ===== verification/Samples.v ===== *)
(** * A small concrete farm, on which the properties are exercised *)
From S2P Require Import Prelude GoText Errors Domain Json Sensitive Actor Store.
From S2P Require Import ReservationRepo TxFacts PoolSelector ReservationService Scheduler ServiceFacts FarmSystem.

Definition at_second (n : Z) : Z := n * Second.

Definition sample_pool (id name : string) (max : Z) (fresh : bool) : PoolRow :=
  mkPoolRow id name "android" PoolActive 3600 max fresh None None (at_second 1) 2 0 (at_second 1) 600.

Definition sample_host (id address : string) : HostRow :=
  mkHostRow id "docker_emulator" (Some address) [] [] HostOnline false (Some (at_second 90)) (at_second 1) (at_second 90)
    [] "linux" "amd64" id.

Definition sample_row (id host : string) (level created : Z) : DeviceRow :=
  mkDeviceRow id host None "android" "emulator" "mock" id "clean" ("serial-" ++ id)%string None None None
    [("apiLevel", jint level); ("model", JStr "Pixel")] DeviceReady HealthHealthy None 0 None
    (at_second created) (at_second created) None None None "idle" None "idle" None id.

Definition host_a : string := "host-aaaaaaaaaaaa".
Definition host_b : string := "host-bbbbbbbbbbbb".
Definition pool_a : string := "pool-aaaaaaaaaaaa".
Definition pool_b : string := "pool-bbbbbbbbbbbb".
Definition device_1 : string := "device-11111111111".
Definition device_2 : string := "device-22222222222".
Definition device_3 : string := "device-33333333333".

(** Host A has two devices and a pool that allows one reservation at a time; host B has
    one device and a pool of its own. *)
Definition sample_db : DB :=
  empty_db
    <| devices := <[device_1 := sample_row device_1 host_a 30 2]> (<[device_2 := sample_row device_2 host_a 34 3]>
         (<[device_3 := sample_row device_3 host_b 34 4]> ∅)) |>
    <| device_hosts := <[host_a := sample_host host_a "10.0.0.1"]> (<[host_b := sample_host host_b "10.0.0.2"]> ∅) |>
    <| device_pools := <[pool_a := sample_pool pool_a "android-10.0.0.1" 1 false]>
         (<[pool_b := sample_pool pool_b "android-10.0.0.2" 4 false]> ∅) |>
    <| device_pool_devices := <[(pool_a, device_1) := mkPoolDeviceRow pool_a device_1 true (at_second 5) (at_second 5)]>
         (<[(pool_a, device_2) := mkPoolDeviceRow pool_a device_2 true (at_second 5) (at_second 5)]>
         (<[(pool_b, device_3) := mkPoolDeviceRow pool_b device_3 true (at_second 5) (at_second 5)]> ∅)) |>.

Definition sample_ids : list string :=
  ["reservation-0001"; "session-00000001"; "audit-0000000001"; "reservation-0002"; "session-00000002"; "audit-0000000002";
   "reservation-0003"; "session-00000003"; "audit-0000000003"].

Definition sample_state : St := mkSt sample_db sample_ids [] ∅.

(** An STF that accepts every call; one that refuses to release. *)
Definition willing_stf : STFController := mkSTF (fun _ _ => None) (fun _ => None) (fun s => Ok ("ws://" ++ s)%string) (fun _ => None).
Definition stuck_stf : STFController := mkSTF (fun _ _ => None) (fun _ => Some "timeout") (fun _ => Fail "timeout") (fun _ => Some "timeout").
Definition refusing_stf : STFController := mkSTF (fun _ _ => Some ("busy", true)) (fun _ => None) (fun _ => Fail "busy") (fun _ => None).

(** A printer in place of the digest. *)
Fixpoint print_json (v : json) : string :=
  (match v with
   | JStr s => s ++ ";"
   | JNum q => Z_text (QArith_base.Qnum q) ++ ";"
   | JBool b => if b then "true;" else "false;"
   | JNull => "null;"
   | JArr l => "[" ++ String.concat "" (map print_json l)
   | JObj l => "{" ++ String.concat "" (map (fun p => p.1 ++ ":" ++ print_json p.2) l)
   end)%string.

Definition env_at (now : Z) (stf : option STFController) : Env :=
  mkEnv (at_second now) (at_second now) ∅ ∅ ∅ ∅ print_json stf None.

Definition sample_actor : Actor := Service "alcor-worker".
Definition sample_input (caps : obj) : CreateInput :=
  mkCreateInput pool_a "" "test_run" "test-run-00000001" caps 600 true.

(** Run a computation and keep its state. *)
Definition after {A} (m : Tx A) (env : Env) (s : St) : St := (m env s).2.
Definition outcome {A} (m : Tx A) (env : Env) (s : St) : result Err A := (m env s).1.

Definition created : St := after (Create sample_actor "create-key-1" (sample_input [("model", JStr "Pixel")])) (env_at 100 None) sample_state.
Definition scheduled : St := after RunOnce (env_at 101 (Some willing_stf)) created.

Example sample_schedules :
  match outcome RunOnce (env_at 101 (Some willing_stf)) created with
  | Ok a => (r_ID (as_Reservation a), r_DeviceID (as_Reservation a), r_ExpiresAt (as_Reservation a), st_calls scheduled)
  | Fail _ => ("", None, None, [])
  end = ("reservation-0001", Some device_1, Some (at_second 701),
         [CallClaim ("serial-" ++ device_1)%string (at_second 600)]).
Proof. vm_compute. reflexivity. Qed.

(** ** The sample farm as a reachable state *)
Definition sample_params : CreateReservationParams :=
  mkCreateParams "reservation-0001" "service" pool_a "test_run" "test-run-00000001" [("model", JStr "Pixel")] 600 "create-key-1".

Definition sample_device_1 : DeviceAssignment := assignment (sample_row device_1 host_a 30 2).
Definition sample_candidate : claimCandidate := mkCandidate (pending_row sample_params (at_second 100)) sample_device_1.

Definition farm_created : farm := mkFarm (after (run (OpCreate sample_params)) (env_at 100 None) sample_state) (at_second 100).
Definition farm_reserved : farm := mkFarm (after (run OpReserve) (env_at 101 None) (f_state farm_created)) (at_second 101).
Definition farm_active : farm :=
  mkFarm (after (run (OpActivate sample_candidate "session-00000001")) (env_at 102 None) (f_state farm_reserved)) (at_second 102).

Lemma sample_keyed : keyed sample_db.
Proof.
  split; cbn; intros k x H; [done|].
  repeat (apply lookup_insert_Some in H as [[<- <-]|[_ H]]; [done|]). done.
Qed.

Lemma sample_pools_ok : pools_ok sample_db.
Proof.
  intros k x H. cbn in H. repeat (apply lookup_insert_Some in H as [[<- <-]|[_ H]]; [cbn; lia|]). done.
Qed.

Lemma sample_idle : idle sample_db.
Proof.
  intros k x H. cbn in H. repeat (apply lookup_insert_Some in H as [[<- <-]|[_ H]]; [done|]). done.
Qed.

Lemma run_reachable rely f op env :
  reachable rely f -> checked op -> f_time f <= env_clock env ->
  reachable rely (mkFarm (after (run op) env (f_state f)) (env_clock env)).
Proof.
  intros Hf Hc Ht. eapply reach_step; [exact Hf|]. destruct f as [s t].
  eapply (farm_run _ op env s (run op env s).1); [done|done|]. apply surjective_pairing.
Qed.

Lemma farm_active_reachable rely : reachable rely farm_active.
Proof.
  apply (run_reachable _ _ _ (env_at 102 None)); [|done|done].
  apply (run_reachable _ _ _ (env_at 101 None)); [|done|done].
  apply (run_reachable _ (mkFarm sample_state (at_second 10)) (OpCreate sample_params) (env_at 100 None)); [|cbn; lia|done].
  apply reach_init. by apply init_intro; [|apply sample_idle|apply sample_keyed|apply sample_pools_ok].
Qed.

Definition active_row : ReservationRecord :=
  default (pending_row sample_params 0) (device_reservations (f_db farm_active) !! "reservation-0001").

Lemma active_row_found :
  device_reservations (f_db farm_active) !! "reservation-0001" = Some active_row
  /\ r_Status active_row = ReservationActive /\ r_DeviceID active_row = Some device_1.
Proof. vm_compute. done. Qed.
