(* ===== verification/FarmSafety.v ===== *)
(** * Safety of the farm

    Invariants of every reachable state of [FarmSystem]: no device is shared, no device
    is leaked, and every reservation row satisfies the constraints of the schema. *)
From S2P Require Import Prelude GoText Errors Domain Json Sensitive Actor Store.
From S2P Require Import ReservationRepo TxFacts PoolSelector ReservationService Scheduler ServiceFacts FarmSystem Samples.

Lemma alloc_step_keyed now db db' : alloc_step now db db' -> keyed db -> keyed db'.
Proof.
  intros Hs Hk. pose proof (keyed_reservation _ Hk) as Kr. pose proof (keyed_device _ Hk) as Kd.
  destruct Hs as [Hd Hr|p ? ? Hd Hr|rid did r d Hi ? ? Hj ? ? Hd Hr|rid did r d Hi ? ? Hj ? ? Hd Hr
    |rid did r d st l code Hi ? ? Hj ? ? ? Hd Hr|rid r code Hi ? ? Hd Hr|rid r e e' Hi ? ? ? ? ? Hd Hr
    |rid did r d term rec tgt Hi ? ? ? ? Hj ? Hd Hr];
  (split; [rewrite Hr|rewrite Hd]); try done;
  intros k x Hx; try (by apply Kr in Hx); try (by apply Kd in Hx);
  apply lookup_insert_Some in Hx as [[<- <-]|[_ Hx]]; auto; cbn; auto.
Qed.

(** Rule induction over the reachable states, each transaction seen as its step of the
    allocation protocol. *)
Lemma reachable_invariant rely (Inv : Z -> DB -> Prop) :
  (forall t db, device_reservations db = ∅ -> idle db -> Inv t db) ->
  (forall t t' db db', keyed db -> t <= t' -> Inv t db -> alloc_step t' db db' -> Inv t' db') ->
  (forall t t' db db', t <= t' -> interference db db' -> rely db db' -> Inv t db -> Inv t' db') ->
  forall f, reachable rely f -> keyed (f_db f) /\ pools_ok (f_db f) /\ Inv (f_time f) (f_db f).
Proof.
  intros H0 H1 H2 f Hf. induction Hf as [f [s t Hnil Hidle Hk Hp]|f f' Hf (Hk & Hp & HI) Hstep].
  - split_and!; [done|done|by apply H0].
  - destruct Hstep as [op env s r s' t Hc Ht Hrun|s s' t t' Ht Hi Hr]; unfold f_db in *; cbn in *.
    + pose proof (run_step _ _ _ _ _ Hk Hp Hc Hrun) as Hstep.
      split_and!; [by eapply alloc_step_keyed| |by eapply H1].
      unfold pools_ok. rewrite (run_pools _ _ _ _ _ Hrun). exact Hp.
    + pose proof Hi as (Er & Hk' & Hp'). split_and!; [done|done|by eapply H2].
Qed.

Lemma holds_active_spec d r :
  holds_active d r = true <-> r_Status r = ReservationActive /\ r_DeviceID r = Some d.
Proof. unfold holds_active. by rewrite andb_true_iff, !bool_decide_eq_true. Qed.

(** ** Exclusive holding, and no leaked device *)
Definition open_status (st : ReservationStatus) : bool :=
  match st with ReservationPending | ReservationActive => true | _ => false end.

(** A reservation holds a device from its claim to its release. *)
Definition holds (d : string) (r : ReservationRecord) : Prop :=
  r_DeviceID r = Some d /\ open_status (r_Status r) = true.

Definition held (db : DB) (d : string) (st : ReservationStatus -> Prop) : Prop :=
  exists k r, device_reservations db !! k = Some r /\ holds d r /\ st (r_Status r).

Definition exclusive (db : DB) : Prop := forall d k1 k2 r1 r2,
  device_reservations db !! k1 = Some r1 -> device_reservations db !! k2 = Some r2 ->
  holds d r1 -> holds d r2 -> k1 = k2.

(** The lifecycle of a device agrees with the reservations. *)
Definition coordinated (db : DB) : Prop := forall k d, devices db !! k = Some d ->
  (d_lifecycle d = DeviceReady -> ~ held db k (fun _ => True))
  /\ (d_lifecycle d = DeviceReserved -> held db k (fun st => st = ReservationPending))
  /\ (d_lifecycle d = DeviceBusy -> held db k (fun st => st = ReservationActive)).

(** The rest of the control plane respects assignments: it makes a device ready only
    when nobody holds it, and reserved or busy only as its reservation says. *)
Definition respects_assignments (db db' : DB) : Prop := coordinated db -> coordinated db'.

Section Insert.
Context (db db' : DB) (id : string) (r : ReservationRecord).
Context (Hr : device_reservations db' = <[id := r]> (device_reservations db)).

Lemma held_after k (st : ReservationStatus -> Prop) :
  held db' k st <-> (holds k r /\ st (r_Status r))
    \/ exists j x, j <> id /\ device_reservations db !! j = Some x /\ holds k x /\ st (r_Status x).
Proof.
  unfold held. rewrite Hr. split.
  - intros (j & x & [[<- <-]|[Hne Hx]]%lookup_insert_Some & Hh & Hst); [by left|right]. eexists j, x. done.
  - intros [[Hh Hst]|(j & x & Hne & Hx & Hh & Hst)].
    + exists id, r. by rewrite lookup_insert_eq.
    + exists j, x. by rewrite lookup_insert_ne.
Qed.

(** A write that does not start holding a device, or holds one nobody held. *)
Lemma exclusive_insert :
  exclusive db ->
  (forall k, holds k r -> forall j x, j <> id -> device_reservations db !! j = Some x -> ~ holds k x) -> exclusive db'.
Proof.
  intros He Hn d k1 k2 r1 r2. rewrite Hr.
  intros [[<- <-]|[Hn1 H1]]%lookup_insert_Some [[<- <-]|[Hn2 H2]]%lookup_insert_Some A1 A2; try done.
  - exfalso. by eapply (Hn _ A1 k2).
  - exfalso. by eapply (Hn _ A2 k1).
  - by eapply He.
Qed.

(** The holders of a device other than [k0] are those before the write. *)
Lemma held_other k0 old st k :
  device_reservations db !! id = old -> k <> k0 ->
  (forall k, holds k r -> k = k0) -> (forall x k, old = Some x -> holds k x -> k = k0) ->
  held db' k st <-> held db k st.
Proof.
  intros Hold Hk Hnew Hprev. rewrite held_after. split.
  - intros [[Hh _]|(j & x & _ & ?)]; [by apply Hnew in Hh|]. by exists j, x.
  - intros (j & x & Hx & Hh & Hst). right. exists j, x. split_and!; try done.
    intros ->. rewrite Hold in Hx. by apply Hk, (Hprev x).
Qed.
End Insert.

Definition right_lifecycle (db : DB) (k : string) (d : DeviceRow) : Prop :=
  (d_lifecycle d = DeviceReady -> ~ held db k (fun _ => True))
  /\ (d_lifecycle d = DeviceReserved -> held db k (fun st => st = ReservationPending))
  /\ (d_lifecycle d = DeviceBusy -> held db k (fun st => st = ReservationActive)).

Lemma right_lifecycle_iff db db' k d :
  (forall st, held db' k st <-> held db k st) -> right_lifecycle db k d -> right_lifecycle db' k d.
Proof. intros Hh. unfold right_lifecycle. by rewrite !Hh. Qed.

(** A step on one reservation and its device. *)
Lemma coordinated_update db db' rid did old r' d' :
  coordinated db -> device_reservations db !! rid = Some old ->
  device_reservations db' = <[rid := r']> (device_reservations db) ->
  devices db' = <[did := d']> (devices db) ->
  (forall k, holds k old -> k = did) -> (forall k, holds k r' -> k = did) ->
  right_lifecycle db' did d' -> coordinated db'.
Proof.
  intros Hc Hold Hr Hd Ho Hn Hd' k d. rewrite Hd.
  intros [[<- <-]|[Hne Hk]]%lookup_insert_Some; [exact Hd'|].
  eapply right_lifecycle_iff; [|by apply Hc]. intros st.
  eapply held_other with (k0 := did); [exact Hr|exact Hold|done|done|]. intros x j [= <-]. apply Ho.
Qed.

(** A step that moves no device and leaves the holders as they were. *)
Lemma coordinated_rows db db' :
  coordinated db -> devices db' = devices db -> (forall k st, held db' k st <-> held db k st) -> coordinated db'.
Proof.
  intros Hc Hd Hh k d Hk. rewrite Hd in Hk. eapply right_lifecycle_iff; [intros st; apply Hh|by apply Hc].
Qed.

Lemma held_nobody db db' id r :
  device_reservations db' = <[id := r]> (device_reservations db) -> (forall k, ~ holds k r) ->
  (forall x k, device_reservations db !! id = Some x -> ~ holds k x) ->
  forall k st, held db' k st <-> held db k st.
Proof.
  intros Hr Hn Ho k st. erewrite held_after by exact Hr. split.
  - intros [[Hh _]|(j & x & _ & ?)]; [by apply Hn in Hh|by exists j, x].
  - intros (j & x & Hx & Hh & Hst). right. exists j, x. split_and!; try done. intros ->. by eapply Ho.
Qed.

Lemma not_held_by_others db k0 id old :
  exclusive db -> device_reservations db !! id = Some old -> holds k0 old ->
  forall j x, j <> id -> device_reservations db !! j = Some x -> ~ holds k0 x.
Proof. intros He Ho Hh j x Hne Hx Hhx. by apply Hne, (He k0 j id x old). Qed.

Lemma released_lifecycle_free recycle target now d :
  closable d = true ->
  d_lifecycle (released_device recycle target now d) <> DeviceReserved
  /\ d_lifecycle (released_device recycle target now d) <> DeviceBusy.
Proof.
  intros _. cbn. unfold released_lifecycle. destruct (lifecycle_is DeviceQuarantined d) eqn:E.
  - apply lifecycle_is_spec in E. by rewrite E.
  - destruct recycle; [done|]. by case_bool_decide.
Qed.

Lemma holds_one d k r : r_DeviceID r = Some d -> holds k r -> k = d.
Proof. intros Hd [Hk _]. congruence. Qed.
Lemma holds_none k r : r_DeviceID r = None -> ~ holds k r.
Proof. intros Hd [Hk _]. congruence. Qed.
Lemma holds_closed k r : open_status (r_Status r) = false -> ~ holds k r.
Proof. intros Hs [_ Ho]. congruence. Qed.

(** After the row that held a device lets it go, nobody holds it. *)
Lemma freed db db' id old r did :
  exclusive db -> device_reservations db !! id = Some old -> holds did old ->
  device_reservations db' = <[id := r]> (device_reservations db) -> (forall k, ~ holds k r) ->
  forall st, ~ held db' did st.
Proof.
  intros He Ho Hh Hr Hn st Hheld. erewrite held_after in Hheld by exact Hr.
  destruct Hheld as [[Hh' _]|(j & x & Hne & Hx & Hhx & _)]; [by apply Hn in Hh'|].
  by eapply not_held_by_others.
Qed.

Definition allocation_inv (db : DB) : Prop := exclusive db /\ coordinated db.

(** A write of a row that holds no device, before and after. *)
Lemma quiet_step db db' id r :
  allocation_inv db -> device_reservations db' = <[id := r]> (device_reservations db) -> devices db' = devices db ->
  (forall k, ~ holds k r) -> (forall x k, device_reservations db !! id = Some x -> ~ holds k x) -> allocation_inv db'.
Proof.
  intros [He Hc] Hr Hd Hn Ho. split.
  - eapply exclusive_insert; [exact Hr|done|]. by intros k Hk%Hn.
  - eapply coordinated_rows; [done|done|]. by eapply held_nobody.
Qed.

(** A holder lets its device go. *)
Lemma release_step db db' rid did old r' d' :
  allocation_inv db -> device_reservations db !! rid = Some old -> holds did old ->
  device_reservations db' = <[rid := r']> (device_reservations db) ->
  devices db' = <[did := d']> (devices db) -> (forall k, ~ holds k r') ->
  d_lifecycle d' <> DeviceReserved -> d_lifecycle d' <> DeviceBusy -> allocation_inv db'.
Proof.
  intros [He Hc] Hi Hh Hr Hd Hn Hl1 Hl2. split.
  - eapply exclusive_insert; [exact Hr|done|]. by intros k Hk%Hn.
  - eapply coordinated_update; [done|done|exact Hr|exact Hd| |by intros k Hk%Hn|].
    + intros k. apply holds_one, Hh.
    + split; [|done]. intros _. by eapply freed.
Qed.

Lemma allocation_step now db db' : allocation_inv db -> alloc_step now db db' -> allocation_inv db'.
Proof.
  intros [He Hc] Hs.
  destruct Hs as [Hd Hr|p ? Hnone Hd Hr|rid did r d Hi Hst Hno Hj Hl Hh Hd Hr|rid did r d Hi Hst Hdev Hj Hl ? Hd Hr
    |rid did r d st l code Hi Hst Hdev Hj Hl Hst' -> Hd Hr|rid r code Hi Hst Hno Hd Hr|rid r e e' Hi Hst ? ? ? ? Hd Hr
    |rid did r d term rec tgt Hi Hst Hdev Hcl ? Hj Hclo Hd Hr].
  - split; [intros d k1 k2 r1 r2; rewrite Hr; apply He|]. eapply coordinated_rows; [done|done|].
    intros k st. unfold held. by rewrite Hr.
  - eapply quiet_step; [split; done|exact Hr|done| |].
    + by intros k; apply holds_none.
    + intros x k. by rewrite Hnone.
  - assert (forall k x, device_reservations db !! k = Some x -> ~ holds did x) as Hfree.
    { intros k x Hk Hx. by destruct (proj1 (Hc _ _ Hj) Hl); exists k, x. }
    set (r' := _ : ReservationRecord) in Hr. assert (holds did r') as Hr' by (split; [done|cbn; by rewrite Hst]).
    assert (forall k, holds k r' -> k = did) as Hone by (intros k; by apply holds_one).
    split.
    + eapply exclusive_insert; [exact Hr|done|]. intros k ->%Hone j x _. by apply Hfree.
    + eapply coordinated_update; [done|done|exact Hr|exact Hd|by intros k Hk%holds_none|done|].
      split; [done|split; [|done]]. intros _. rewrite (held_after _ _ _ _ Hr). by left.
  - set (r' := activated did now r) in Hr. assert (holds did r') as Hr' by done.
    assert (holds did r) as Hr0 by (split; [done|by rewrite Hst]).
    split.
    + eapply exclusive_insert; [exact Hr|done|]. intros k ->%(holds_one did); [|done]. by eapply not_held_by_others.
    + eapply coordinated_update; [done|done|exact Hr|exact Hd|by intros k; apply holds_one|by intros k; apply holds_one|].
      split; [done|split; [done|]]. intros _. rewrite (held_after _ _ _ _ Hr). by left.
  - set (r' := _ : ReservationRecord) in Hr. assert (forall k, ~ holds k r') as Hn by (intros k; by apply holds_none).
    assert (holds did r) as Hr0 by (split; [done|by rewrite Hst]).
    eapply release_step; [split; done|exact Hi|exact Hr0|exact Hr|exact Hd|done| |]; cbn; by destruct (healthy d).
  - eapply quiet_step; [split; done|exact Hr|done| |].
    + intros k. by apply holds_none.
    + intros x k. rewrite Hi. intros [= <-]. by apply holds_none.
  - split.
    + eapply exclusive_insert; [exact Hr|done|]. intros k Hk. by eapply not_held_by_others.
    + eapply coordinated_rows; [done|done|]. intros k st. rewrite (held_after _ _ _ _ Hr). cbn. split.
      * intros [[Hh Hs]|(j & x & _ & ?)]; [by exists rid, r|by exists j, x].
      * intros (j & x & Hx & Hh & Hs). destruct (decide (j = rid)) as [->|]; [|right; by exists j, x].
        simplify_eq. by left.
  - assert (holds did r) as Hr0 by (split; [done|by rewrite Hst]).
    destruct (released_lifecycle_free rec tgt now d Hclo) as [? ?].
    eapply release_step; [split; done|exact Hi|exact Hr0|exact Hr|exact Hd| |done|done].
    intros k. apply holds_closed. cbn. by destruct term.
Qed.

(** ** The constraints of the schema on reservation rows *)
Definition is_some {A} (o : option A) : bool := match o with Some _ => true | None => false end.
Definition some_and {A} (o : option A) (p : A -> bool) : bool := match o with Some a => p a | None => false end.
Definition none_or {A} (o : option A) (p : A -> bool) : bool := match o with Some a => p a | None => true end.

Definition ck_device_reservations_status (r : ReservationRecord) : bool := validReservationStatus (r_Status r).
Definition ck_device_reservations_lease (r : ReservationRecord) : bool := 60 <=? r_LeaseSeconds r.
Definition ck_device_reservations_active (r : ReservationRecord) : bool :=
  (status_is ReservationActive r && is_some (r_DeviceID r)
   && some_and (r_StartsAt r) (fun st => some_and (r_ExpiresAt r) (fun e => st <? e)) && negb (is_some (r_ReleasedAt r)))
  || negb (status_is ReservationActive r).
Definition ck_device_reservations_terminal (r : ReservationRecord) : bool :=
  match r_Status r with
  | ReservationReleased | ReservationExpired | ReservationForceReleased => is_some (r_DeviceID r) && is_some (r_ReleasedAt r)
  | ReservationPending | ReservationActive | ReservationFailed => true
  | ReservationOther _ => false
  end.
Definition ck_device_reservations_time (r : ReservationRecord) : bool :=
  (r_CreatedAt r <=? r_UpdatedAt r)
  && none_or (r_ExpiresAt r) (fun e => some_and (r_StartsAt r) (fun st => st <? e))
  && none_or (r_ReleasedAt r) (fun rl => none_or (r_StartsAt r) (fun st => st <=? rl)).

Definition constraints (r : ReservationRecord) : bool :=
  ck_device_reservations_status r && ck_device_reservations_lease r && ck_device_reservations_active r
  && ck_device_reservations_terminal r && ck_device_reservations_time r.

(** What the rows satisfy at time [t]: the constraints, and where the past lies. *)
Definition row_inv (t : Z) (r : ReservationRecord) : Prop :=
  r_CreatedAt r <= r_UpdatedAt r <= t /\ 60 <= r_LeaseSeconds r
  /\ match r_Status r with
     | ReservationPending | ReservationFailed => r_StartsAt r = None /\ r_ExpiresAt r = None /\ r_ReleasedAt r = None
     | ReservationActive => is_some (r_DeviceID r) = true /\ r_ReleasedAt r = None
         /\ exists st e, r_StartsAt r = Some st /\ r_ExpiresAt r = Some e /\ st <= t /\ st < e
     | ReservationOther _ => False
     | _ => is_some (r_DeviceID r) = true
         /\ exists st e rl, r_StartsAt r = Some st /\ r_ExpiresAt r = Some e /\ r_ReleasedAt r = Some rl /\ st < e /\ st <= rl
     end.

Lemma row_inv_constraints t r : row_inv t r -> constraints r = true.
Proof.
  unfold row_inv, constraints, ck_device_reservations_status, ck_device_reservations_lease, ck_device_reservations_active,
    ck_device_reservations_terminal, ck_device_reservations_time, status_is.
  intros (Ht & Hl & Hst). rewrite (proj2 (Z.leb_le _ _) Hl), (proj2 (Z.leb_le (r_CreatedAt r) _)) by lia.
  destruct (r_Status r); try done; cbn.
  - by destruct Hst as (-> & -> & ->).
  - destruct Hst as (-> & -> & st & e & -> & -> & _ & Hlt%Z.ltb_lt). cbn. by rewrite Hlt.
  - destruct Hst as (-> & st & e & rl & -> & -> & -> & Hlt%Z.ltb_lt & Hle%Z.leb_le). cbn. by rewrite Hlt, Hle.
  - by destruct Hst as (-> & -> & ->).
  - destruct Hst as (-> & st & e & rl & -> & -> & -> & Hlt%Z.ltb_lt & Hle%Z.leb_le). cbn. by rewrite Hlt, Hle.
  - destruct Hst as (-> & st & e & rl & -> & -> & -> & Hlt%Z.ltb_lt & Hle%Z.leb_le). cbn. by rewrite Hlt, Hle.
Qed.

Lemma row_inv_later t t' r : t <= t' -> row_inv t r -> row_inv t' r.
Proof.
  unfold row_inv. intros Ht (? & ? & Hst). split; [lia|split; [done|]].
  destruct (r_Status r); try done. destruct Hst as (? & ? & st & e & ? & ? & ? & ?).
  split_and!; try done. exists st, e. split_and!; try done. lia.
Qed.

Definition rows_inv (t : Z) (db : DB) : Prop := forall k r, device_reservations db !! k = Some r -> row_inv t r.

Lemma rows_step t now db db' : t <= now -> rows_inv t db -> alloc_step now db db' -> rows_inv now db'.
Proof.
  intros Ht Hrows Hs k x.
  assert (forall k r, device_reservations db !! k = Some r -> row_inv now r) as Hlater.
  { intros j r Hj. by eapply row_inv_later, Hrows. }
  destruct Hs as [Hd Hr|p Hl Hnone Hd Hr|rid did r d Hi Hst Hno Hj _ Hh Hd Hr|rid did r d Hi Hst Hdev Hj _ ? Hd Hr
    |rid did r d st l code Hi Hst Hdev Hj _ Hst' -> Hd Hr|rid r code Hi Hst Hno Hd Hr|rid r e e' Hi Hst He ? ? ? Hd Hr
    |rid did r d term rec tgt Hi Hst Hdev Hcl Hnf Hj Hclo Hd Hr]; rewrite Hr; [apply Hlater|..];
  (intros [[<- <-]|[_ Hx]]%lookup_insert_Some; [|by eapply Hlater]);
  try (apply Hlater in Hi as (? & ? & Hi); rewrite Hst in Hi); unfold row_inv; cbn.
  - split_and!; try done; lia.
  - split_and!; try lia. by rewrite Hst.
  - destruct Hi as (? & ? & ?). split_and!; try lia; try done. exists now, (now + r_LeaseSeconds r * Second).
    split_and!; try done; unfold Second; lia.
  - split_and!; try lia. by destruct Hst' as [-> | ->].
  - destruct Hi as (? & ? & ?). split_and!; (lia || done).
  - split_and!; try lia. rewrite Hst. destruct Hi as (? & ? & st & e0 & Hs0 & ? & ? & ?).
    split_and!; try done. exists st, e'. split_and!; try done. lia.
  - split_and!; try lia. destruct Hi as (Hdv & _ & st & e & ? & ? & ? & ?).
    destruct term; try done; split; try done; by exists st, e, now.
Qed.

(** ** The theorems *)

Lemma reachable_allocation (f : farm) :
  reachable respects_assignments f -> keyed (f_db f) /\ pools_ok (f_db f) /\ allocation_inv (f_db f).
Proof.
  intros Hf. apply (reachable_invariant _ (fun _ => allocation_inv)) in Hf as (? & ? & ?); [done|..].
  - intros _ db Hr Hidle. split.
    + intros x j1 j2 y1 y2 Hj. by rewrite Hr in Hj.
    + intros k d Hd. destruct (Hidle _ _ Hd). split; [|done].
      intros _ (j & y & Hj & _). by rewrite Hr in Hj.
  - intros _ t db db' _ _. by apply allocation_step.
  - intros _ _ db db' _ (Hr & _) Hrely [He Hc]. split; [|by apply Hrely].
    intros x j1 j2 y1 y2. rewrite Hr. apply He.
Qed.

(** C2: a claim is exclusive and never leaked.  As long as the rest of the control plane
    respects assignments, in every reachable state two open reservations (pending or
    active) never hold the same device, a ready device is held by nobody, and a reserved
    (or busy) device is held by a pending (or active) reservation, which can release it. *)
Theorem exclusive_holding (f : farm) :
  reachable respects_assignments f ->
  (forall d k1 k2 r1 r2,
     device_reservations (f_db f) !! k1 = Some r1 -> device_reservations (f_db f) !! k2 = Some r2 ->
     holds d r1 -> holds d r2 -> k1 = k2)
  /\ forall k d, devices (f_db f) !! k = Some d ->
     (d_lifecycle d = DeviceReady -> ~ held (f_db f) k (fun _ => True))
     /\ (d_lifecycle d = DeviceReserved -> held (f_db f) k (fun st => st = ReservationPending))
     /\ (d_lifecycle d = DeviceBusy -> held (f_db f) k (fun st => st = ReservationActive)).
Proof.
  intros Hf%reachable_allocation. destruct Hf as (_ & _ & He & Hc). by split.
Qed.

Example exclusive_holding_witness : held (f_db farm_active) device_1 (fun st => st = ReservationActive).
Proof.
  refine (proj2 (proj2 (proj2 (exclusive_holding farm_active (farm_active_reachable _)) device_1
    (default (sample_row "" "" 0 0) (devices (f_db farm_active) !! device_1)) _)) _); vm_compute; reflexivity.
Defined.

(** C3: every row of device_reservations satisfies the constraints of the schema
    (status, lease, active, terminal and time) in every reachable state, so that no
    transaction is ever refused by one of them. *)
Theorem reservation_rows_valid rely (f : farm) (k : string) (r : ReservationRecord) :
  reachable rely f -> device_reservations (f_db f) !! k = Some r -> constraints r = true.
Proof.
  intros Hf Hk. apply (reachable_invariant rely rows_inv) in Hf as (_ & _ & Hrows).
  - eapply row_inv_constraints, Hrows, Hk.
  - intros t db Hr _ j y Hj. by rewrite Hr in Hj.
  - intros t t' db db' _ Ht Hi Hs. by eapply rows_step.
  - intros t t' db db' Ht (Hr & _) _ Hi j y Hj. rewrite Hr in Hj. by eapply row_inv_later, Hi.
Qed.

Example reservation_rows_valid_witness : constraints active_row = true.
Proof.
  exact (reservation_rows_valid (fun _ _ => True) farm_active "reservation-0001" active_row
    (farm_active_reachable _) (proj1 active_row_found)).
Defined.

(** C4: the transactions implement the allocation protocol.  On a database whose rows
    carry their own identifiers, every transaction of the scheduler, the service and the
    reaper, whether it commits or rolls back, is one of the protocol's moves on devices
    and reservations, and it leaves the pools alone. *)
Theorem transactions_refine_protocol (op : operation) (env : Env) (s s' : St) (r : result Err unit) :
  keyed (st_db s) -> pools_ok (st_db s) -> checked op -> run op env s = (r, s') ->
  alloc_step (env_clock env) (st_db s) (st_db s') /\ device_pools (st_db s') = device_pools (st_db s).
Proof. intros Hk Hp Hc H. split; [by eapply run_step|by eapply run_pools]. Qed.

Example transactions_refine_protocol_witness :
  alloc_step (at_second 100) sample_db (st_db (after (run (OpCreate sample_params)) (env_at 100 None) sample_state)).
Proof.
  exact (proj1 (transactions_refine_protocol (OpCreate sample_params) (env_at 100 None) sample_state _ _
    sample_keyed sample_pools_ok (ltac:(cbn; lia)) (surjective_pairing _))).
Defined.
