(* ===== verification/IndexSafety.v ===== *)
(** * The unique index is never reached

    [uq_device_reservations_active_device] refuses a second active reservation of a
    device.  The guards of the transactions already exclude one: [Avoids m] says that a
    computation never fails with that refusal, the instances follow the combinators, and
    the three writes of an active row avoid it wherever no two open reservations hold
    the same device. *)
From S2P Require Import Prelude GoText Errors Domain DomainSpec Json Sensitive Actor Store.
From S2P Require Import ReservationRepo TxFacts PoolSelector ReservationService Scheduler ServiceFacts FarmSystem Samples FarmSafety.

Definition index_refusal : Err := ErrUniqueViolation "uq_device_reservations_active_device".

(** ** Computations that never meet the index *)
Class Avoids {A} (m : Tx A) : Prop :=
  avoids : forall env s e s', m env s = (Fail e, s') -> e <> index_refusal.
Class Sound {A} (x : result Err A) : Prop := sound : forall e, x = Fail e -> e <> index_refusal.
Class Other (e : Err) : Prop := other : e <> index_refusal.
#[export] Hint Extern 0 (Other _) => discriminate : typeclass_instances.

#[export] Instance ret_avoids {A} (a : A) : Avoids (mret a).
Proof. by intros env s e s' [=]. Qed.
#[export] Instance throw_avoids {A} e : Other e -> Avoids (@throw A e).
Proof. by intros H env s e' s' [= <- _]. Qed.
#[export] Instance get_db_avoids : Avoids get_db.
Proof. by intros env s e s' [=]. Qed.
#[export] Instance env_gets_avoids {A} (f : Env -> DB -> A) : Avoids (env_gets f).
Proof. by intros env s e s' [=]. Qed.
#[export] Instance ClockNow_avoids : Avoids ClockNow.
Proof. by intros env s e s' [=]. Qed.
#[export] Instance ProcessNow_avoids : Avoids ProcessNow.
Proof. by intros env s e s' [=]. Qed.
#[export] Instance put_db_avoids f : Avoids (put_db f).
Proof. by intros env s e s' [=]. Qed.
#[export] Instance newID_avoids : Avoids newID.
Proof. intros env s e s'. unfold newID. destruct (st_ids s); by intros [= <- _]. Qed.
#[export] Instance lift_result_avoids {A} (x : result Err A) : Sound x -> Avoids (lift_result x).
Proof. intros H env s e s' [= Hx _]. by apply H. Qed.
#[export] Instance apply_call_avoids {A} (c : result Err unit * A) : Sound c.1 -> Avoids (apply_call c).
Proof. intros H env s e s'. destruct c as [[[]|x] y]; cbn; [done|]. intros [= <- _]. by apply H. Qed.
#[export] Instance guard_or_avoids b e : Other e -> Avoids (guard_or b e).
Proof. intros H env s e' s'. destruct b; by intros [= <- _]. Qed.
#[export] Instance expect_row_avoids {A} (o : option A) e : Other e -> Avoids (expect_row o e).
Proof. intros H env s e' s'. destruct o; by intros [= <- _]. Qed.
#[export] Instance expect_one_avoids n e : Other e -> Avoids (expect_one n e).
Proof. intros H env s e' s'. unfold expect_one. destruct (n =? 1); by intros [= <- _]. Qed.
#[export] Instance or_cast_error_avoids {A} (o : option A) : Avoids (or_cast_error o).
Proof. intros env s e s'. destruct o; by intros [= <- _]. Qed.
#[export] Instance bind_avoids {A B} (m : Tx A) (f : A -> Tx B) :
  Avoids m -> (forall a, Avoids (f a)) -> Avoids (m ≫= f).
Proof.
  intros Hm Hf env s e s'. unfold mbind, Tx_bind, M_bind.
  destruct (m env s) as [[a|x] s1] eqn:E; [apply Hf|]. intros [= <- _]. by eapply Hm.
Qed.
#[export] Instance optional_avoids {A} e (m : Tx A) : Avoids m -> Avoids (optional e m).
Proof.
  intros Hm env s e' s'. unfold optional. destruct (m env s) as [[a|x] s1] eqn:E; [done|].
  destruct (errors_is x e); [done|]. intros [= <- _]. by eapply Hm.
Qed.
#[export] Instance as_capacity_avoids {A} e (m : Tx A) : Avoids m -> Avoids (map_err (as_capacity e) m).
Proof.
  intros Hm env s e' s'. unfold map_err. destruct (m env s) as [[a|x] s1] eqn:E; [done|].
  intros [= <- _]. unfold as_capacity. destruct (errors_is x e); [done|]. by eapply Hm.
Qed.

(** ** The aggregates' errors *)
Lemma transition_sound {S} `{EqDecision S} `{Status S} (m : stateMachine S) to reason at_ : Sound (transition m to reason at_).1.
Proof.
  intros e. unfold transition.
  repeat case_match; by intros [= <-].
Qed.
#[export] Hint Resolve transition_sound : typeclass_instances.
Lemma machine_sound {S} `{EqDecision S} `{Status S} a i f (st : S) v t : Sound (newStateMachine a i f st v t).
Proof. intros e. unfold newStateMachine. repeat case_match; by intros [= <-]. Qed.
#[export] Instance RestoreReservation_sound i st : Sound (RestoreReservation i st). Proof. apply machine_sound. Qed.
#[export] Instance RestoreSession_sound i st : Sound (RestoreSession i st). Proof. apply machine_sound. Qed.
#[export] Instance NewSession_sound i : Sound (NewSession i). Proof. apply machine_sound. Qed.
#[export] Instance RestoreDevice_sound i l h : Sound (RestoreDevice i l h).
Proof.
  intros e. unfold RestoreDevice. destruct (newStateMachine _ _ _ _ _ _) as [m|x] eqn:E.
  - case_match; by intros [= <-].
  - intros [= <-]. exact (machine_sound _ _ _ _ _ _ _ E).
Qed.
#[export] Instance Transition_sound d to reason at_ : Sound (Transition d to reason at_).1.
Proof.
  intros e. unfold Transition. destruct (bool_decide _ && _); [by intros [= <-]|].
  pose proof (transition_sound (dv_lifecycle d) to reason at_) as Hs. destruct (transition _ _ _ _) as [x m]. intros Hx. apply (Hs e). exact Hx.
Qed.
#[export] Instance decodeRemoteSession_sound o : Sound (decodeRemoteSession o).
Proof.
  intros e. unfold decodeRemoteSession. cbv zeta. repeat case_match; try done; intros [= <-]; discriminate.
Qed.

(** ** The statements *)
#[export] Instance update_device_avoids id g f : Avoids (update_device id g f).
Proof.
  intros env s e s'. rewrite update_device_rows. destruct (_ !! id) as [d|]; [|done]. by destruct (g d).
Qed.
#[export] Instance update_session_avoids id g f : Avoids (update_session id g f).
Proof.
  intros env s e s'. unfold update_session, get_db, mbind, Tx_bind, M_bind, gets.
  destruct (session_of _ _) as [y|]; [|done]. by destruct (g y).
Qed.

(** A row that is not active is never in the index. *)
Lemma update_reservation_avoids id g f :
  (forall r, g r = true -> status_is ReservationActive (f r) = false) -> Avoids (update_reservation id g f).
Proof.
  intros Hf env s e s'. unfold update_reservation, write_reservation, get_db, mbind, Tx_bind, M_bind, gets.
  destruct (_ !! id) as [r|]; [|done]. destruct (g r) eqn:Hg; [|done]. by rewrite no_conflict by auto.
Qed.

(** ** Relative to the reservations of the database *)
Section At.
Context (R : gmap string ReservationRecord).
Context (Hk : forall k r, R !! k = Some r -> r_ID r = k).
Context (He : forall d k1 k2 r1 r2, R !! k1 = Some r1 -> R !! k2 = Some r2 -> holds d r1 -> holds d r2 -> k1 = k2).

Definition avoids_at {A} (m : Tx A) : Prop := forall env s e s',
  device_reservations (st_db s) = R -> m env s = (Fail e, s') -> e <> index_refusal.

Lemma avoids_anywhere {A} (m : Tx A) : Avoids m -> avoids_at m.
Proof. intros H env s e s' _. apply H. Qed.

(** The reads and the writes of other tables before a write of a reservation. *)
Lemma bind_at {A B} (m : Tx A) (f : A -> Tx B) :
  Avoids m -> Keeps device_reservations m -> (forall a, avoids_at (f a)) -> avoids_at (m ≫= f).
Proof.
  intros Hm Hkeep Hf env s e s' HR. unfold mbind, Tx_bind, M_bind.
  destruct (m env s) as [[a|x] s1] eqn:E.
  - apply Hf. by rewrite (Hkeep _ _ _ _ E).
  - intros [= <- _]. by eapply Hm.
Qed.
Lemma bind_last {A B} (m : Tx A) (f : A -> Tx B) : avoids_at m -> (forall a, Avoids (f a)) -> avoids_at (m ≫= f).
Proof.
  intros Hm Hf env s e s' HR. unfold mbind, Tx_bind, M_bind.
  destruct (m env s) as [[a|x] s1] eqn:E; [apply Hf|]. intros [= <- _]. by eapply Hm.
Qed.

(** A row of the reservation that holds the device conflicts with no other. *)
Lemma holder_no_conflict db id d r r' :
  device_reservations db = R -> R !! id = Some r -> holds d r -> r_DeviceID r' = Some d -> active_conflict db id r' = false.
Proof.
  intros HR Hr Hh Hd. unfold active_conflict. rewrite Hd. apply andb_false_iff. right.
  apply not_true_iff_false. intros (x & Hx & [Hne Ha]%andb_true_iff)%existsb_exists.
  apply list_elem_of_In, elem_of_rows in Hx as [k Hx]. rewrite HR in Hx. apply holds_active_spec in Ha as [Ha Hdx].
  apply negb_true_iff, String.eqb_neq in Hne. apply Hne. rewrite (Hk _ _ Hx).
  eapply He; [exact Hx|exact Hr| |exact Hh]. split; [done|by rewrite Ha].
Qed.

(** An update of an open row that keeps its device, or leaves it without one. *)
Lemma holder_update id g f :
  (forall r, g r = true -> r_DeviceID (f r) = None \/ exists d, holds d r /\ r_DeviceID (f r) = Some d) ->
  avoids_at (update_reservation id g f).
Proof.
  intros Hg env s e s' HR. unfold update_reservation, write_reservation, get_db, mbind, Tx_bind, M_bind, gets.
  destruct (_ !! id) as [r|] eqn:Hr; [|done]. destruct (g r) eqn:Hgr; [|done]. rewrite HR in Hr.
  destruct (Hg _ Hgr) as [Hn|(d & Hh & Hd)].
  - unfold active_conflict. by rewrite Hn.
  - by erewrite holder_no_conflict by done.
Qed.

Lemma active_update id g f :
  (forall r, g r = true -> status_is ReservationActive r = true) -> (forall r, r_DeviceID (f r) = r_DeviceID r) ->
  avoids_at (update_reservation id g f).
Proof.
  intros Hg Hf. apply holder_update. intros r Hr%Hg%status_is_spec. rewrite Hf.
  destruct (r_DeviceID r) as [d|] eqn:Hd; [right|by left]. exists d. split; [|done]. split; [done|by rewrite Hr].
Qed.
End At.

Ltac solve_avoids :=
  repeat first [ apply _
               | progress cbv zeta
               | lazymatch goal with
                 | |- Avoids (update_reservation _ _ _) => apply update_reservation_avoids; intros ? _; reflexivity
                 | |- Avoids (_ ≫= _) => apply bind_avoids; [|intros ?]
                 | |- Avoids (optional _ _) => apply optional_avoids
                 | |- Avoids (map_err _ _) => apply as_capacity_avoids
                 | |- Avoids (match ?x with _ => _ end) => destruct x
                 end ].

Definition index_free (op : operation) : Prop := match op with OpActivate _ _ | OpExtend _ _ _ | OpKeepAlive _ _ _ _ => False | _ => True end.

Lemma CloseActive_avoids r d terminal recycle target now :
  terminal <> ReservationActive -> Avoids (CloseActive r d terminal recycle target now).
Proof.
  intros Ht. unfold CloseActive. solve_avoids. apply update_reservation_avoids. intros x _. by apply bool_decide_eq_false.
Qed.

Lemma closeActiveLocked_avoids c terminal actor action req reason :
  terminal <> ReservationActive -> Avoids (closeActiveLocked c terminal actor action req reason).
Proof.
  intros Ht. unfold closeActiveLocked, reservation_transition, close_session_transitions, release_device_transition,
    LockSession, LockDevice, LoadPoolPolicyForRelease, InsertAudit. solve_avoids. by apply CloseActive_avoids.
Qed.

(** ** The transactions *)
#[export] Instance ignore_avoids {A} (m : Tx A) : Avoids m -> Avoids (ignore m).
Proof. intros H. unfold ignore. solve_avoids. Qed.
#[export] Instance WithinTx_avoids {A} (m : Tx A) : Avoids m -> Avoids (WithinTx m).
Proof.
  intros Hm env s e s'. unfold WithinTx. destruct (m env s) as [[a|x] s1] eqn:E; [done|].
  intros [= <- _]. by eapply Hm.
Qed.
#[export] Instance CreatePending_avoids p : Avoids (CreatePending p).
Proof. unfold CreatePending, write_reservation. solve_avoids. Qed.
#[export] Instance BeginOperation_avoids o : Avoids (BeginOperation o).
Proof. unfold BeginOperation. solve_avoids. Qed.
#[export] Instance LockByID_avoids id : Avoids (LockByID id).
Proof. unfold LockByID. solve_avoids. Qed.
#[export] Instance Get_avoids id : Avoids (ReservationRepo.Get id).
Proof. unfold ReservationRepo.Get. solve_avoids. Qed.
#[export] Instance InsertAudit_avoids a b c d e f g : Avoids (InsertAudit a b c d e f g).
Proof. unfold InsertAudit. solve_avoids. Qed.
#[export] Instance LockPoolPolicyForHost_avoids h d : Avoids (LockPoolPolicyForHost h d).
Proof. unfold LockPoolPolicyForHost. solve_avoids. Qed.

Lemma index_free_avoids op : index_free op -> Avoids (run op).
Proof.
  intros Hop. unfold run. apply WithinTx_avoids. destruct op; try done; cbv iota; try apply ignore_avoids.
  - apply _.
  - unfold create_targeted_tx, LockTargetDevice, FindOpenTargeted. solve_avoids.
  - unfold reserve_tx, next_pending, LockNextAllocatablePending, HasPending, LockMatchingDevice, ReserveForClaim.
    solve_avoids. apply update_reservation_avoids. intros r [Hp%status_is_spec _]%andb_true_iff.
    apply bool_decide_eq_false. cbn. by rewrite Hp.
  - unfold compensate_tx, CompensateClaim. solve_avoids. apply update_reservation_avoids. intros r _. by destruct terminal.
  - unfold release_tx, cancel_pending, reservation_transition, CancelPending. solve_avoids. apply closeActiveLocked_avoids. by destruct force.
  - unfold reap_tx. solve_avoids. by apply closeActiveLocked_avoids.
  - unfold reap_stale_tx, FailPendingReservation. solve_avoids.
  - unfold reap_orphan_tx, FailPendingClaim. solve_avoids.
  - unfold remote_session_tx, LockSession, SetRemoteSession. solve_avoids.
  - unfold ClearRemoteSession. solve_avoids.
  - unfold record_stf_failure_tx. solve_avoids.
Qed.

(** The three writes of an active row, when the reservations are exclusive. *)
Section Active.
Context (R : gmap string ReservationRecord).
Context (Hk : forall k r, R !! k = Some r -> r_ID r = k).
Context (He : forall d k1 k2 r1 r2, R !! k1 = Some r1 -> R !! k2 = Some r2 -> holds d r1 -> holds d r2 -> k1 = k2).

Lemma activate_avoids sel sid : avoids_at R (activate_tx sel sid).
Proof.
  unfold activate_tx, LockDevice. cbv zeta.
  repeat (apply bind_at; [solve [solve_avoids]|solve [solve_keeps]|intros ?]).
  apply bind_last; [|intros ?; solve_avoids]. unfold ActivateClaimed, insert_session.
  repeat (apply bind_at; [solve [solve_avoids]|solve [solve_keeps]|intros ?]).
  apply bind_last; [|intros ?; solve_avoids].
  apply holder_update; [done|done|]. intros r [Hp%status_is_spec Hd%bool_decide_eq_true]%andb_true_iff. right.
  eexists. split; [split; [exact Hd|by rewrite Hp]|done].
Qed.

Lemma extend_avoids o id secs : avoids_at R (extend_tx o id secs).
Proof.
  unfold extend_tx. apply bind_at; [solve_avoids|unfold BeginOperation; solve_keeps|intros b].
  destruct b; [apply avoids_anywhere, _|]. apply bind_at; [solve [solve_avoids]|solve [solve_keeps]|intros cur].
  destruct (r_Status cur), (r_StartsAt cur), (r_ExpiresAt cur); try (apply avoids_anywhere; solve [solve_avoids]).
  unfold GetPoolPolicy.
  repeat (apply bind_at; [solve [solve_avoids]|solve [solve_keeps]|intros ?]).
  apply bind_last; [|intros ?; solve_avoids]. by apply active_update.
Qed.

Lemma keepalive_avoids id o d l : avoids_at R (KeepAliveTargeted id o d l).
Proof.
  unfold KeepAliveTargeted. cbv zeta. repeat (apply bind_at; [solve [solve_avoids]|solve [solve_keeps]|intros ?]).
  apply bind_last; [|intros ?; solve_avoids]. apply active_update; [done|done| |done].
  unfold keepable. intros r. rewrite !andb_true_iff. tauto.
Qed.
End Active.

Lemma run_avoids (op : operation) (env : Env) (s : St) :
  keyed (st_db s) -> exclusive (st_db s) -> forall s', run op env s <> (Fail index_refusal, s').
Proof.
  intros Hk He s' H. pose proof (keyed_reservation _ Hk) as Kr.
  assert (forall m : Tx unit, avoids_at (device_reservations (st_db s)) m -> WithinTx m env s <> (Fail index_refusal, s')) as Hw.
  { intros m Hm. unfold WithinTx. destruct (m env s) as [[a|x] s1] eqn:E; [done|].
    intros [= -> _]. by eapply Hm. }
  assert (forall A (m : Tx A), avoids_at (device_reservations (st_db s)) m -> avoids_at (device_reservations (st_db s)) (ignore m)) as Hi.
  { intros A m Hm. apply bind_last; [done|intros ?; solve_avoids]. }
  destruct op; try (by eapply index_free_avoids in H); eapply Hw, H; apply Hi.
  - by apply activate_avoids.
  - by apply extend_avoids.
  - by apply keepalive_avoids.
Qed.

(** C1: the unique index on active reservations is never reached.  As long as the rest of
    the control plane respects assignments, no transaction of the scheduler, the service
    or the reaper, run in any reachable state, is ever refused by
    uq_device_reservations_active_device: the guards of the transactions alone keep two
    reservations from becoming active on one device. *)
Theorem unique_index_never_reached (f : farm) (op : operation) (env : Env) :
  reachable respects_assignments f ->
  (run op env (f_state f)).1 <> Fail (ErrUniqueViolation "uq_device_reservations_active_device").
Proof.
  intros Hf%reachable_allocation. destruct Hf as (Hk & _ & He & _).
  destruct (run op env (f_state f)) as [r s'] eqn:E. cbn. intros ->.
  by eapply run_avoids.
Qed.

(** A second reservation of the device that is in use is not activated, and it is not
    the index that refuses. *)
Example unique_index_never_reached_witness :
  (run (OpActivate (mkCandidate active_row sample_device_1) "session-00000009") (env_at 103 None) (f_state farm_active)).1
    <> Fail (ErrUniqueViolation "uq_device_reservations_active_device").
Proof.
  apply (unique_index_never_reached farm_active _ (env_at 103 None) (farm_active_reachable _)).
Defined.
