(* ===== verification/ControlStep.v ===== *)
(** * What a transaction of the control plane guarantees to the allocation protocol

    [control_step]: no reservation changes, and the lifecycle of a device changes only to
    one that its reservation allows ([placed]).  [Moves] states the guarantee of a
    computation and follows the binds of a transaction; the lemmas here say what a write
    of a device, a call on an aggregate and a read of the assignment contribute to it. *)
From S2P Require Import Prelude GoText Errors Domain DomainSpec Json Sensitive Actor Store.
From S2P Require Import RuntimeProfile ReservationRepo TxFacts CommandRepo DeviceStore Reconcile DeviceOps ImageCatalog.
From S2P Require Import HostCommand HostSelection Completion WarmPool PoolCycle Heartbeat PoolSelector.
From S2P Require Import ReservationService Scheduler ServiceFacts FarmSystem FarmSafety.


(** ** Lifecycles and reservations *)
Definition held_by_any (db : DB) (k : string) : Prop := held db k (fun _ => True).

(** The lifecycle that the reservations of a device allow: a device that its holder does
    not see through its lifecycle must be quarantined or deleted. *)
Definition placed (db : DB) (k : string) (l : DeviceLifecycleStatus) : Prop :=
  match l with
  | DeviceReserved => held db k (fun st => st = ReservationPending)
  | DeviceBusy => held db k (fun st => st = ReservationActive)
  | DeviceQuarantined | DeviceDeleted | DeviceLifecycleOther _ => True
  | _ => ~ held_by_any db k
  end.

(** The row of a device, if there is one, agrees with the reservations: a missing row is
    held by nobody. *)
Definition placed_row (db : DB) (k : string) (o : option DeviceRow) : Prop :=
  match o with Some d => placed db k (d_lifecycle d) | None => ~ held_by_any db k end.

Definition assigned (db : DB) : Prop := forall k, placed_row db k (devices db !! k).

(** The lifecycles of a device that nobody holds. *)
Definition unheld (l : DeviceLifecycleStatus) : bool :=
  bool_decide (l ∈ [DeviceProvisioning; DeviceBooting; DeviceReady; DeviceStopped; DeviceRecycling]).

Lemma placed_unheld db k l : unheld l = true -> placed db k l <-> ~ held_by_any db k.
Proof. destruct l; intros H; first [done|by vm_compute in H]. Qed.

Lemma placed_anyway db k l : l = DeviceQuarantined \/ l = DeviceDeleted -> placed db k l.
Proof. by intros [-> | ->]. Qed.

Lemma unheld_placed db k l l' : unheld l = true -> unheld l' = true -> placed db k l -> placed db k l'.
Proof. intros H H'. by rewrite !placed_unheld. Qed.

Lemma placed_iff db db' k l : (forall st, held db' k st <-> held db k st) -> placed db k l -> placed db' k l.
Proof. intros H. unfold placed, held_by_any. destruct l; by rewrite ?H. Qed.

Lemma placed_rows db db' k l : device_reservations db' = device_reservations db -> placed db k l <-> placed db' k l.
Proof. intros H. split; apply placed_iff; intros st; unfold held; by rewrite H. Qed.

Lemma placed_row_iff db db' k o : (forall st, held db' k st <-> held db k st) -> placed_row db k o -> placed_row db' k o.
Proof. intros H. destruct o; [by apply placed_iff|]. cbn. unfold held_by_any. by rewrite H. Qed.

Lemma placed_row_rows db db' k o : device_reservations db' = device_reservations db -> placed_row db k o <-> placed_row db' k o.
Proof. intros H. split; apply placed_row_iff; intros st; unfold held; by rewrite H. Qed.

(** ** The guarantee *)

(** Reservations stay; devices are not removed and keep their identifiers, a new one is
    stored under its own; every row stays in agreement with the reservations; a pool keeps
    its longest lease unless it gets one of at least a minute. *)
Record control_step (db db' : DB) : Prop := {
  cs_reservations : device_reservations db' = device_reservations db;
  cs_kept k d : devices db !! k = Some d -> exists d', devices db' !! k = Some d' /\ d_id d' = d_id d;
  cs_fresh k d' : devices db !! k = None -> devices db' !! k = Some d' -> d_id d' = k;
  cs_placed k : placed_row db k (devices db !! k) -> placed_row db k (devices db' !! k);
  cs_pools k p' : device_pools db' !! k = Some p' -> 60 <= p_max_lease_seconds p'
    \/ exists p, device_pools db !! k = Some p /\ p_max_lease_seconds p' = p_max_lease_seconds p }.

Lemma control_step_refl db : control_step db db.
Proof. split; eauto. by intros k d' ->. Qed.

Lemma control_step_trans db1 db2 db3 : control_step db1 db2 -> control_step db2 db3 -> control_step db1 db3.
Proof.
  intros [R1 K1 F1 D1 P1] [R2 K2 F2 D2 P2]. split; [congruence| | | |].
  - intros k d (d2 & H2 & E2)%K1. apply K2 in H2 as (d3 & H3 & E3). exists d3. split; congruence.
  - intros k d3 H1 H3. destruct (devices db2 !! k) as [d2|] eqn:H2; [|by eapply F2].
    pose proof (F1 _ _ H1 H2) as <-. apply K2 in H2 as (d3' & H3' & E3). congruence.
  - intros k Hp%D1. apply (placed_row_rows _ _ _ _ R1). apply D2. by apply (placed_row_rows _ _ _ _ R1).
  - intros k p3 [?|(p2 & H2 & E2)]%P2; [by left|]. apply P1 in H2 as [?|(p1 & H1 & E1)]; [left; lia|].
    right. exists p1. split; [done|congruence].
Qed.

#[export] Instance control_step_preorder : PreOrder control_step.
Proof. split; [exact control_step_refl|exact control_step_trans]. Qed.

(** The tables that the guarantee is about. *)
Definition allocation_tables (db : DB) := (devices db, device_reservations db, device_pools db).

Lemma same_tables_step db db' : allocation_tables db' = allocation_tables db -> control_step db db'.
Proof.
  intros [= Hd Hr Hp]. split; rewrite ?Hd, ?Hp; eauto. by intros k d' ->.
Qed.

Lemma control_step_keyed db db' : keyed db -> control_step db db' -> keyed db'.
Proof.
  intros [Kr Kd] [Hr Hk Hf _ _]. split; [by rewrite Hr|]. intros k d' Hd'.
  destruct (devices db !! k) as [d|] eqn:Hd; [|by apply Hf]. pose proof (Kd _ _ Hd).
  apply Hk in Hd as (x & ? & ?). congruence.
Qed.

(** A computation that gives the guarantee whenever it succeeds. *)
Class Moves {A} (m : Tx A) : Prop :=
  moves : forall env s a s', keyed (st_db s) -> m env s = (Ok a, s') -> control_step (st_db s) (st_db s').

#[export] Instance Moves_keeps {A} (m : Tx A) : Keeps allocation_tables m -> Moves m | 20.
Proof. intros K env s a s' _ H. by apply same_tables_step, (K _ _ _ _ H). Qed.

#[export] Instance Moves_bind {A B} (m : Tx A) (f : A -> Tx B) : Moves m -> (forall a, Moves (f a)) -> Moves (m ≫= f) | 10.
Proof.
  intros Hm Hf env s b s' Hk (a & s1 & E & H)%bindT_ok. apply Hm in E; [|done].
  etrans; [exact E|]. eapply Hf; [by eapply control_step_keyed|done].
Qed.

#[export] Instance Moves_option {A B} (o : option A) (m1 : A -> Tx B) m2 :
  (forall a, Moves (m1 a)) -> Moves m2 -> Moves (match o with Some a => m1 a | None => m2 end) | 15.
Proof. by destruct o. Qed.
#[export] Instance Moves_if {A} (b : bool) (m1 m2 : Tx A) : Moves m1 -> Moves m2 -> Moves (if b then m1 else m2) | 15.
Proof. by destruct b. Qed.

(** ** Writing a device *)
Lemma save_device_ok id g f env s n s' :
  save_device id g f env s = (Ok n, s') ->
  (n = 0 /\ s' = s)
  \/ exists d, n = 1 /\ devices (st_db s) !! id = Some d /\ g d = true /\ device_conflict (st_db s) id (f d) = None
       /\ s' = on_db (put_device id (f d)) s.
Proof.
  unfold save_device, get_db, mbind, Tx_bind, M_bind, gets. destruct (_ !! id) as [d|] eqn:Hd; [|intros [= <- <-]; by left].
  destruct (g d) eqn:Hg; [|intros [= <- <-]; by left].
  destruct (device_conflict _ _ _) eqn:Hc; [done|]. intros [= <- <-]. right. by exists d.
Qed.

Lemma put_device_step db id d d' :
  devices db !! id = Some d -> d_id d' = d_id d -> (placed db id (d_lifecycle d) -> placed db id (d_lifecycle d')) ->
  control_step db (put_device id d' db).
Proof.
  intros Hd Hi Hp. split; [done| | | |]; cbn; [| | |eauto].
  - intros k x Hx. destruct (decide (k = id)) as [->|]; [rewrite lookup_insert_eq; simplify_eq; eauto|].
    rewrite lookup_insert_ne by done. eauto.
  - intros k x Hx. rewrite lookup_insert_ne; [congruence|]. intros ->. congruence.
  - intros k. destruct (decide (k = id)) as [->|]; [by rewrite lookup_insert_eq, Hd|by rewrite lookup_insert_ne].
Qed.

Lemma save_device_step id g f env s n s' :
  save_device id g f env s = (Ok n, s') ->
  (forall d, devices (st_db s) !! id = Some d -> g d = true ->
     d_id (f d) = d_id d /\ (placed (st_db s) id (d_lifecycle d) -> placed (st_db s) id (d_lifecycle (f d)))) ->
  control_step (st_db s) (st_db s').
Proof.
  intros [[_ ->]|(d & _ & Hd & Hg & _ & ->)]%save_device_ok Hf; [done|].
  destruct (Hf d Hd Hg). by eapply put_device_step.
Qed.

(** ** Reading the assignment of a device *)
Lemma latest_reservation_spec st id db r :
  latest_reservation st id db = Some r -> exists k, device_reservations db !! k = Some r /\ r_DeviceID r = Some id /\ r_Status r = st.
Proof.
  unfold latest_reservation, on_device. intros [Hin Hp]%first_where_Some.
  rewrite elem_of_order_by in Hin. apply elem_of_rows in Hin as [k Hk]. guards. eauto.
Qed.

Lemma latest_reservation_none st id db :
  latest_reservation st id db = None -> forall k r, device_reservations db !! k = Some r -> r_DeviceID r = Some id -> r_Status r <> st.
Proof.
  unfold latest_reservation, on_device, status_is. intros H k r Hk Hd Hs. rewrite first_where_None in H.
  specialize (H r). rewrite elem_of_order_by, !bool_decide_eq_true_2 in H by done.
  discriminate H. apply elem_of_rows. eauto.
Qed.

Lemma assignment_placed id db : placed db id (assignment_state (assignment_target id db)).
Proof.
  unfold assignment_target. destruct (latest_reservation ReservationActive id db) as [r|] eqn:Ha.
  - apply latest_reservation_spec in Ha as (k & Hk & Hd & Hs). exists k, r. unfold holds. by rewrite Hs.
  - pose proof (latest_reservation_none _ _ _ Ha) as Hna.
    destruct (latest_reservation ReservationPending id db) as [r|] eqn:Hp; cbn.
    + apply latest_reservation_spec in Hp as (k & Hk & Hd & Hs). exists k, r. unfold holds. by rewrite Hs.
    + pose proof (latest_reservation_none _ _ _ Hp) as Hnp. intros (k & r & Hk & [Hd Ho] & _).
      specialize (Hna k r Hk Hd). specialize (Hnp k r Hk Hd). by destruct (r_Status r).
Qed.

Lemma no_open_reservation id db : has_open_reservation id db = false -> ~ held_by_any db id.
Proof.
  intros H (k & r & Hk & [Hd Ho] & _). apply not_true_iff_false in H. apply H, existsb_exists. exists r. split.
  - apply list_elem_of_In, elem_of_rows. eauto.
  - unfold on_device, status_is. rewrite bool_decide_eq_true_2 by done. by destruct (r_Status r).
Qed.

(** ** Calls on an aggregate *)
Lemma Transition_moves d to reason now d' :
  Transition d to reason now = (Ok tt, d') ->
  Lifecycle d' = to /\ Health d' = Health d /\ has_edge (sm_transitions (dv_lifecycle d)) (Lifecycle d) to = true.
Proof.
  intros E. pose proof (Transition_success d to reason now) as H. rewrite E in H.
  destruct (H eq_refl) as (_ & ? & ? & ?). done.
Qed.

Lemma UpdateHealth_stays d to reason now d' :
  UpdateHealth d to reason now = (Ok tt, d') -> Lifecycle d' = Lifecycle d /\ Health d' = to.
Proof.
  intros E. pose proof (UpdateHealth_success d to reason now) as H. rewrite E in H. by destruct (H eq_refl) as (_ & ? & ?).
Qed.

Lemma ensure_health_ok d to reason now env s d' s' :
  ensure_health d to reason now env s = (Ok d', s') -> s' = s /\ Lifecycle d' = Lifecycle d /\ Health d' = to.
Proof.
  unfold ensure_health. case_bool_decide as Hh; [by intros [= <- <-]|].
  intros [H ->]%apply_call_ok. apply UpdateHealth_stays in H as [? ?]. done.
Qed.

Lemma ensure_lifecycle_ok d to reason now env s d' s' :
  ensure_lifecycle d to reason now env s = (Ok d', s') -> s' = s /\ Lifecycle d' = to.
Proof.
  unfold ensure_lifecycle. case_bool_decide as Hl; [by intros [= <- <-]|].
  intros [H ->]%apply_call_ok. apply Transition_moves in H as (? & _). done.
Qed.

Lemma advance_ok d from to reason now env s d' s' :
  advance d from to reason now env s = (Ok d', s') ->
  s' = s /\ ((Lifecycle d' = to /\ Lifecycle d ∈ from) \/ (Lifecycle d' = Lifecycle d /\ Lifecycle d ∉ from)).
Proof.
  unfold advance. case_bool_decide as Hl; [|intros [= <- <-]; auto].
  intros [H ->]%apply_call_ok. apply Transition_moves in H as (? & _). auto.
Qed.

Lemma RestoreDevice_lifecycle id l h d : RestoreDevice id l h = Ok d -> Lifecycle d = l /\ Health d = h.
Proof.
  unfold RestoreDevice, newStateMachine. destruct (identifierPattern id); [|done]. cbn.
  destruct (validDeviceLifecycleStatus l); [|done]. cbn. destruct (validHealthStatus h); [|done]. by intros [= <-].
Qed.

Lemma transitions_ok targets : forall d reason now env s d' s',
  transitions d targets reason now env s = (Ok d', s') -> s' = s /\ Lifecycle d' = foldl (fun _ t => t) (Lifecycle d) targets.
Proof.
  induction targets as [|t targets IH]; intros d reason now env s d' s' H; cbn [transitions] in H.
  - by injection H as <- <-.
  - apply bindT_ok in H as (d1 & s1 & E & H). apply apply_call_ok in E as [E ->].
    apply Transition_moves in E as (El & _). apply IH in H as [-> Hl]. split; [done|]. cbn. by rewrite Hl, El.
Qed.

Lemma recoverDeviceLifecycle_ok d target reason now env s d' s' :
  recoverDeviceLifecycle d target reason now env s = (Ok d', s') -> s' = s /\ Lifecycle d' = assignment_state target.
Proof.
  unfold recoverDeviceLifecycle. intros H.
  apply bindT_ok in H as (d1 & s1 & E & H). apply transitions_ok in E as [-> E1].
  apply bindT_ok in H as (d2 & s2 & E & H). apply transitions_ok in E as [-> E2].
  apply transitions_ok in H as [-> E3]. split; [done|]. rewrite E3. unfold assignment_state.
  destruct (target =? "busy")%string; [done|]. rewrite E2, orb_false_r. by destruct (target =? "reserved")%string.
Qed.

(** ** What touches none of the three tables *)
#[export] Hint Opaque CommandRepo.Complete CreateCommand ClaimNext ExtendLease RecoverExpiredLease : typeclass_instances.

Section Untouched.
Abbreviation Untouched := (Keeps allocation_tables).
#[export] Instance insert_health_event_untouched a b c d e f p o : Untouched (insert_health_event a b c d e f p o).
Proof. unfold insert_health_event. solve_keeps. Qed.
#[export] Instance insert_audit_untouched a b c d e f g h p : Untouched (insert_audit a b c d e f g h p).
Proof. unfold insert_audit. solve_keeps. Qed.
#[export] Instance put_command_untouched id c : Untouched (put_command id c).
Proof. unfold put_command. solve_keeps. Qed.
#[export] Instance insert_command_untouched p : Untouched (insert_command p).
Proof. unfold insert_command. solve_keeps. Qed.
#[export] Instance CreateCommand_untouched p : Untouched (CreateCommand p).
Proof. unfold CreateCommand. solve_keeps. Qed.
#[export] Instance complete_untouched id token n st r code b : Untouched (CommandRepo.Complete id token n st r code b).
Proof. unfold CommandRepo.Complete, update_leased. solve_keeps. Qed.
#[export] Instance recover_untouched : Untouched RecoverExpiredLease.
Proof. unfold RecoverExpiredLease. solve_keeps. Qed.
#[export] Instance claim_untouched h t l : Untouched (ClaimNext h t l).
Proof. unfold ClaimNext. solve_keeps. Qed.
#[export] Instance extend_untouched i t n l : Untouched (ExtendLease i t n l).
Proof. unfold ExtendLease, update_leased. solve_keeps. Qed.
#[export] Instance record_restart_untouched a b c d e : Untouched (record_restart a b c d e).
Proof. unfold record_restart. solve_keeps. Qed.
#[export] Instance operation_event_untouched r d a b ok reason p now : Untouched (operation_event r d a b ok reason p now).
Proof. unfold operation_event. solve_keeps. Qed.

(** The image catalogue. *)
#[export] Instance record_entries_untouched es : Untouched (record_entries es).
Proof. induction es; cbn [record_entries]; solve_keeps. Qed.
#[export] Instance update_preparation_untouched id f : Untouched (update_preparation id f).
Proof. unfold update_preparation. solve_keeps. Qed.
#[export] Instance marshalled_ro p : ReadOnly (marshalled p).
Proof. unfold marshalled. apply _. Qed.
#[export] Instance reconcileBuild_untouched r job o p : Untouched (reconcileBuild r job o p).
Proof. unfold reconcileBuild, with_image_disk, catalog_entry. solve_keeps. Qed.
#[export] Instance publish_image_untouched job p : Untouched (publish_image job p).
Proof. unfold publish_image, with_image_disk, catalog_entry, upsert_image. solve_keeps. Qed.
#[export] Instance ReconcileCommand_untouched r : Untouched (ReconcileCommand r).
Proof.
  unfold ReconcileCommand, reconcileSync, reconcilePreparation, reconcileValidation, find_preparation, failPreparation.
  solve_keeps.
Qed.
#[export] Instance catalog_command_untouched id h t k p : Untouched (create_catalog_command id h t k p).
Proof. unfold create_catalog_command. solve_keeps. Qed.
#[export] Instance summary_audit_untouched a r x y z p : Untouched (insert_summary_audit a r x y z p).
Proof. unfold insert_summary_audit. solve_keeps. Qed.
#[export] Instance sync_untouched c a r k : Untouched (sync_tx c a r k).
Proof. unfold sync_tx, find_build_agent. solve_keeps. Qed.
#[export] Instance insert_preparation_untouched a b c d e f g p : Untouched (insert_preparation a b c d e f g p).
Proof. unfold insert_preparation. solve_keeps. Qed.
#[export] Instance prepare_untouched p c a r k x y : Untouched (prepare_tx p c a r k x y).
Proof. unfold prepare_tx, find_build_agent. solve_keeps. Qed.
#[export] Instance offline_untouched h t : Untouched (offline_tx h t).
Proof. unfold offline_tx. solve_keeps. Qed.
End Untouched.

(** ** Creating a device, changing a pool *)
#[export] Instance check_name_ro name : ReadOnly (check_name name).
Proof. unfold check_name. apply _. Qed.

Lemma insert_device_ok d env s u s' :
  insert_device d env s = (Ok u, s') -> devices (st_db s) !! d_id d = None /\ s' = on_db (put_device (d_id d) d) s.
Proof.
  intros H. unfold insert_device in H. apply bindT_ok in H as (w & s1 & E & H). apply check_name_ro in E as ->. revert H.
  unfold get_db, mbind, Tx_bind, M_bind, gets, guard_or.
  case_bool_decide as Hd; [done|]. cbn. destruct (device_conflict _ _ _); [done|]. intros [= _ <-].
  split; [|done]. by apply eq_None_not_Some.
Qed.

Lemma insert_device_step d env s u s' :
  unheld (d_lifecycle d) = true -> insert_device d env s = (Ok u, s') -> control_step (st_db s) (st_db s').
Proof.
  intros Hl [Hd ->]%insert_device_ok. split; [done| | | |]; cbn; [| | |eauto].
  - intros k x Hx. rewrite lookup_insert_ne; [eauto|]. congruence.
  - by intros k x Hx [[<- <-]|[_ ?]]%lookup_insert_Some; [|congruence].
  - intros k. destruct (decide (k = d_id d)) as [->|]; [|by rewrite lookup_insert_ne].
    rewrite lookup_insert_eq, Hd. by apply placed_unheld.
Qed.

#[export] Instance new_device_moves id host image platform kind provider ref mode serial caps profile now name :
  Moves (insert_device (new_device id host image platform kind provider ref mode serial caps profile now name)).
Proof. intros env s u s' _. by apply insert_device_step. Qed.

(** A write that keeps the devices and the reservations, and gives every pool the longest
    lease that it had or one of at least a minute. *)
Lemma pools_step db db' :
  devices db' = devices db -> device_reservations db' = device_reservations db ->
  (forall k p', device_pools db' !! k = Some p' -> 60 <= p_max_lease_seconds p'
     \/ exists p, device_pools db !! k = Some p /\ p_max_lease_seconds p' = p_max_lease_seconds p) ->
  control_step db db'.
Proof. intros Hd Hr Hp. split; rewrite ?Hd; eauto. by intros k d' ->. Qed.

Lemma pools_alter_step (f : PoolRow -> PoolRow) k db :
  (forall p, p_max_lease_seconds (f p) = p_max_lease_seconds p) ->
  control_step db (db <| device_pools := alter f k (device_pools db) |>).
Proof.
  intros Hf. apply pools_step; [done|done|]. cbn. intros j p'. destruct (decide (j = k)) as [->|Hne].
  - rewrite lookup_alter_eq. intros (p & Hp & ->)%fmap_Some. eauto.
  - rewrite lookup_alter_ne by done. eauto.
Qed.

Lemma pools_fmap_step (f : PoolRow -> PoolRow) db :
  (forall p, p_max_lease_seconds (f p) = p_max_lease_seconds p) ->
  control_step db (db <| device_pools := f <$> device_pools db |>).
Proof. intros Hf. apply pools_step; [done|done|]. cbn. intros j p' (p & <- & Hp)%lookup_fmap_Some. eauto. Qed.

Lemma put_db_moves f : (forall db, control_step db (f db)) -> Moves (put_db f).
Proof. intros Hf env s u s' _ [= _ <-]. apply Hf. Qed.

Lemma save_moves id g f :
  (forall d, d_id (f d) = d_id d) ->
  (forall db d, g d = true -> placed db id (d_lifecycle d) -> placed db id (d_lifecycle (f d))) -> Moves (save_device id g f).
Proof. intros Hi Hf env s n s' _ H. eapply save_device_step; [exact H|]. intros d _ Hg. split; [done|by apply Hf]. Qed.

(** ** Leaving quarantine

    Three transactions take a device out of quarantine without looking at its
    reservations: the release and the restart by an administrator, and the end of an
    update of the runtime profile.  [freed db db' k]: the device was quarantined and held,
    and has moved to a lifecycle of devices that nobody holds.  [leaving_step] is the
    guarantee with this one way out. *)
Definition freed_device (db db' : DB) (k : string) : Prop :=
  held_by_any db k /\ exists d d', devices db !! k = Some d /\ d_lifecycle d = DeviceQuarantined
    /\ devices db' !! k = Some d' /\ unheld (d_lifecycle d') = true.

Record leaving_step (db db' : DB) : Prop := {
  ls_reservations : device_reservations db' = device_reservations db;
  ls_kept k d : devices db !! k = Some d -> exists d', devices db' !! k = Some d' /\ d_id d' = d_id d;
  ls_fresh k d' : devices db !! k = None -> devices db' !! k = Some d' -> d_id d' = k;
  ls_placed k : placed_row db k (devices db !! k) -> placed_row db k (devices db' !! k) \/ freed_device db db' k;
  ls_pools k p' : device_pools db' !! k = Some p' -> 60 <= p_max_lease_seconds p'
    \/ exists p, device_pools db !! k = Some p /\ p_max_lease_seconds p' = p_max_lease_seconds p }.

Lemma control_leaving db db' : control_step db db' -> leaving_step db db'.
Proof. intros [? ? ? Hp ?]. split; try done. intros k H. left. by apply Hp. Qed.

(** A release in which no held device leaves quarantine gives the guarantee. *)
Lemma leaving_control db db' : leaving_step db db' -> (forall k, ~ freed_device db db' k) -> control_step db db'.
Proof. intros [? ? ? Hp ?] Hn. split; try done. intros k H. by destruct (Hp k H) as [|?%Hn]. Qed.

Lemma leaving_keyed db db' : keyed db -> leaving_step db db' -> keyed db'.
Proof.
  intros [Kr Kd] [Hr Hk Hf _ _]. split; [by rewrite Hr|]. intros k d' Hd'.
  destruct (devices db !! k) as [d|] eqn:Hd; [|by apply Hf]. pose proof (Kd _ _ Hd).
  apply Hk in Hd as (x & ? & ?). congruence.
Qed.

(** Before and after the release, steps that move no device. *)
Lemma leaving_after db db1 db2 :
  allocation_tables db1 = allocation_tables db -> leaving_step db1 db2 -> leaving_step db db2.
Proof.
  intros [= Hd Hr Hp] [R K F P Q]. rewrite Hd, ?Hr, ?Hp in *. split; try done.
  intros k Hk. apply (placed_row_rows _ db1) in Hk; [|done]. destruct (P k Hk) as [Hl|[Hh Hx]].
  - left. by apply (placed_row_rows _ db1).
  - right. split; [|by rewrite Hd in Hx]. unfold held_by_any, held in *. by rewrite Hr in Hh.
Qed.

Lemma leaving_before db db1 db2 :
  devices db2 = devices db1 -> control_step db1 db2 -> leaving_step db db1 -> leaving_step db db2.
Proof.
  intros Hd [R2 _ _ _ Q2] [R K F P Q]. split; rewrite ?Hd; try done; [congruence| |].
  - intros k Hk. destruct (P k Hk) as [|[Hh Hx]]; [by left|right]. split; [done|]. by rewrite Hd.
  - intros k p3 [?|(p2 & H2 & E2)]%Q2; [by left|]. apply Q in H2 as [?|(p1 & H1 & E1)]; [left; lia|].
    right. exists p1. split; [done|congruence].
Qed.

Lemma held_or_not db k : held_by_any db k \/ ~ held_by_any db k.
Proof.
  destruct (has_open_reservation k db) eqn:E; [left|right; by apply no_open_reservation].
  unfold has_open_reservation in E. apply existsb_exists in E as (r & Hin & [Hd Ho]%andb_true_iff).
  apply list_elem_of_In, elem_of_rows in Hin as [j Hj]. exists j, r. split; [done|]. split; [|done].
  unfold on_device in Hd. apply bool_decide_eq_true in Hd. split; [done|].
  unfold status_is in Ho. by apply orb_true_iff in Ho as [->%bool_decide_eq_true| ->%bool_decide_eq_true].
Qed.

(** A write that keeps the place of a device, or takes it out of quarantine. *)
Lemma save_device_leaving id g f env s n s' :
  save_device id g f env s = (Ok n, s') ->
  (forall d, devices (st_db s) !! id = Some d -> g d = true ->
     d_id (f d) = d_id d /\ ((placed (st_db s) id (d_lifecycle d) -> placed (st_db s) id (d_lifecycle (f d)))
       \/ (d_lifecycle d = DeviceQuarantined /\ unheld (d_lifecycle (f d)) = true))) ->
  leaving_step (st_db s) (st_db s').
Proof.
  intros H Hf. pose proof H as [[_ ->]|(d & _ & Hd & Hg & _ & ->)]%save_device_ok; [by apply control_leaving|].
  destruct (Hf d Hd Hg) as [Hi Hcase].
  assert ((placed (st_db s) id (d_lifecycle d) -> placed (st_db s) id (d_lifecycle (f d)))
          \/ (d_lifecycle d = DeviceQuarantined /\ unheld (d_lifecycle (f d)) = true /\ held_by_any (st_db s) id)) as Hc.
  { destruct Hcase as [|[Hq Hu]]; [by left|]. destruct (held_or_not (st_db s) id); [by right|left].
    intros _. by apply placed_unheld. }
  destruct Hc as [Hp|(Hq & Hu & Hh)]; [by apply control_leaving, put_device_step with d|].
  destruct (put_device_step (st_db s) id d (f d <| d_lifecycle := DeviceQuarantined |>)) as [R K F P Q]; [done|done|by rewrite Hq|].
  split; cbn in *; try done.
  - intros k x Hx. destruct (decide (k = id)) as [->|]; [rewrite lookup_insert_eq; simplify_eq; eauto|].
    rewrite lookup_insert_ne by done. eauto.
  - intros k x Hx. rewrite lookup_insert_ne; [congruence|]. intros ->. congruence.
  - intros k. destruct (decide (k = id)) as [->|]; [|rewrite lookup_insert_ne by done; by left].
    intros _. right. split; [done|]. exists d, (f d). cbn. by rewrite lookup_insert_eq.
Qed.

Ltac solve_moves :=
  repeat (cbv zeta; lazymatch goal with
    | |- Moves (match ?x with _ => _ end) => destruct x
    | |- Moves (_ ≫= _) => apply Moves_bind; [|intros ?]
    | |- Moves _ => apply _
    end).
