(* ===== verification/PoolMoves.v ===== *)
(** * The warm pool and the simulators keep to the allocation protocol

    Every transaction of the warm pool controller and of the simulator service gives the
    guarantee of [ControlStep]: new devices are provisioning, devices that leave a pool
    are held by nobody, and devices that come back were recycling, provisioning or
    booting. *)
From S2P Require Import Prelude GoText Errors Domain DomainSpec Json Sensitive Actor Store.
From S2P Require Import RuntimeProfile ReservationRepo TxFacts CommandRepo DeviceStore Reconcile DeviceOps ImageCatalog.
From S2P Require Import HostCommand HostSelection Completion WarmPool PoolCycle PoolScale IOSSimulator Heartbeat PoolSelector.
From S2P Require Import ReservationService Scheduler ServiceFacts FarmSystem FarmSafety ControlStep.

(** ** What touches none of the three tables *)
Section Untouched.
Abbreviation Untouched := (Keeps allocation_tables).
#[export] Instance membership_untouched p d : Untouched (insert_membership p d).
Proof. unfold insert_membership. solve_keeps. Qed.
#[export] Instance short_digest_ro t : ReadOnly (short_digest t).
Proof. unfold short_digest, digest_text. apply _. Qed.
#[export] Instance lock_host_ro i r b : ReadOnly (lockHostCapacity i r b).
Proof. unfold lockHostCapacity. apply _. Qed.
#[export] Instance update_job_untouched id g f : Untouched (update_job id g f).
Proof. unfold update_job. solve_keeps. Qed.
#[export] Instance create_job_untouched j h d i : Untouched (create_job_tx j h d i).
Proof. unfold create_job_tx. solve_keeps. Qed.
#[export] Instance insert_once_untouched p : Untouched (insert_command_once p).
Proof. unfold insert_command_once. solve_keeps. Qed.
#[export] Instance queue_rebuild_untouched d : Untouched (queueRecycleRebuild d).
Proof. unfold queueRecycleRebuild. solve_keeps. Qed.
#[export] Instance delete_event_untouched a b c d e f n : Untouched (delete_event a b c d e f n).
Proof. unfold delete_event. solve_keeps. Qed.
#[export] Instance transition_image_untouched i t e : Untouched (transitionImage i t e).
Proof. unfold transitionImage. solve_keeps. Qed.
#[export] Instance queue_validation_untouched i : Untouched (queue_validation i).
Proof. unfold queue_validation. solve_keeps. Qed.
#[export] Instance forget_image_preserves h i : Preserves allocation_tables (forget_missing_image h i).
Proof. intros db. unfold forget_missing_image. destruct (_ !! _) as [x|]; [|done]. by destruct (hi_available x). Qed.
#[export] Instance validation_untouched i : Untouched (image_validation_tx i).
Proof. unfold image_validation_tx. solve_keeps. Qed.
#[export] Instance outcomes_untouched l : forall w, Untouched (upsert_outcomes w l).
Proof. induction l; intros w; cbn [upsert_outcomes]; solve_keeps. Qed.
#[export] Instance record_outcomes_untouched : Untouched recordHostImageOutcomes.
Proof. unfold recordHostImageOutcomes. solve_keeps. Qed.
#[export] Instance queue_cleanup_untouched p d : Untouched (queue_cleanup p d).
Proof. unfold queue_cleanup. solve_keeps. Qed.
#[export] Instance backoff_ro p : ReadOnly (creationBackoff p).
Proof. unfold creationBackoff. apply _. Qed.
#[export] Instance fail_jobs_preserves id now : Preserves allocation_tables (fail_jobs id now).
Proof. intros db. reflexivity. Qed.
#[export] Instance memberships_untouched id now : Untouched (put_db (disable_memberships id now)).
Proof. apply _. Qed.
End Untouched.

#[export] Hint Opaque insert_device insert_membership insert_command insert_command_once short_digest lockHostCapacity
  update_job marshalled insert_health_event insert_audit save_device : typeclass_instances.

(** ** Creating devices *)
#[export] Instance create_device_moves a b c d h caps p k : Moves (createDeviceCommand a b c d h caps p k).
Proof. unfold createDeviceCommand. solve_moves. Qed.

#[export] Instance provision_moves input phone : Moves (provision_tx input phone).
Proof.
  unfold provision_tx. solve_moves. apply put_db_moves. intros db.
  apply pools_alter_step. by intros p.
Qed.

#[export] Instance create_for_demand_moves caps : Moves (create_for_demand caps).
Proof. unfold create_for_demand. solve_moves. Qed.
#[export] Instance fill_group_moves caps n : Moves (fill_group caps n).
Proof. induction n; cbn [fill_group]; solve_moves. Qed.
#[export] Instance fill_groups_moves gs : Moves (fill_groups gs).
Proof. induction gs; cbn [fill_groups]; solve_moves. Qed.
#[export] Instance demand_moves order : Moves (demand_tx order).
Proof. unfold demand_tx. solve_moves. Qed.
#[export] Instance create_missing_moves p i c r n : Moves (create_missing p i c r n).
Proof. induction n; cbn [create_missing]; solve_moves. Qed.

(** ** Devices that come back or leave *)
Lemma restored_ok d env s a s' : restored d env s = (Ok a, s') -> s' = s /\ Lifecycle a = d_lifecycle d.
Proof. unfold restored. intros [[H _]%RestoreDevice_lifecycle ->]%lift_ok. done. Qed.

#[export] Instance restored_ro d : ReadOnly (restored d).
Proof. unfold restored. apply _. Qed.

(** The device goes to quarantine, whatever it was. *)
Lemma quarantined_save_moves id g (a : Domain.Device) reason now :
  Lifecycle a = DeviceQuarantined -> Moves (save_device id g (failing_row a reason now)).
Proof. intros Hl. apply save_moves; [done|]. intros db d _ _. cbn. by rewrite Hl. Qed.

(** A bind whose result satisfies [P] on the same state. *)
Lemma Moves_result {A B} (m : Tx A) (P : A -> Prop) (f : A -> Tx B) :
  ReadOnly m -> (forall env s a s', m env s = (Ok a, s') -> P a) -> (forall a, P a -> Moves (f a)) -> Moves (m ≫= f).
Proof.
  intros Hro HP Hf env s b s' Hk (a & s1 & E & H)%bindT_ok. pose proof (HP _ _ _ _ E) as Ha.
  apply Hro in E as ->. by eapply Hf.
Qed.

Lemma Moves_call {B} d to reason now (f : Domain.Device -> Tx B) :
  (forall a, Lifecycle a = to -> Moves (f a)) -> Moves (apply_call (Transition d to reason now) ≫= f).
Proof. apply Moves_result; [apply _|]. by intros env s a s' [(? & _)%Transition_moves _]%apply_call_ok. Qed.

Lemma Moves_health {B} d to reason now (f : Domain.Device -> Tx B) :
  (forall a, Lifecycle a = Lifecycle d -> Moves (f a)) -> Moves (apply_call (UpdateHealth d to reason now) ≫= f).
Proof. apply Moves_result; [apply _|]. by intros env s a s' [[? _]%UpdateHealth_stays _]%apply_call_ok. Qed.

Lemma Moves_ensure {B} d to reason now (f : Domain.Device -> Tx B) :
  (forall a, Lifecycle a = to -> Moves (f a)) -> Moves (ensure_lifecycle d to reason now ≫= f).
Proof.
  apply Moves_result; [unfold ensure_lifecycle; apply _|]. by intros env s a s' [_ ?]%ensure_lifecycle_ok.
Qed.

#[export] Instance complete_recycle_moves current v : Moves (completeRecycle current v).
Proof.
  unfold completeRecycle. cbv zeta. apply Moves_bind; [apply _|]. intros now. apply Moves_bind; [apply _|]. intros a0.
  apply Moves_bind; [unfold ensure_health; apply _|]. intros a1. apply Moves_call. intros a2 E2. apply Moves_health. intros a3 E3.
  apply Moves_bind; [|intros n; apply _]. apply save_moves; [done|].
  intros db d Hl%lifecycle_is_spec. rewrite Hl. cbn. by rewrite E3, E2.
Qed.

#[export] Instance fail_recycle_moves current code reason : Moves (failRecycle current code reason).
Proof.
  unfold failRecycle. cbv zeta. apply Moves_bind; [apply _|]. intros now. apply Moves_bind; [apply _|]. intros a0.
  apply Moves_bind; [unfold ensure_health; apply _|]. intros a1. apply Moves_call. intros a2 E2.
  apply Moves_bind; [by apply quarantined_save_moves|]. intros n. solve_moves.
Qed.

#[export] Instance lock_recycling_ro id : ReadOnly (lockRecyclingDevice id).
Proof. unfold lockRecyclingDevice. apply bind_ro; [apply _|]. intros db.
  match goal with |- ReadOnly (match ?x with _ => _ end) => destruct x as [[[[d h] i] r]|]; apply _ end.
Qed.

#[export] Instance recycle_moves id : Moves (recycle_tx id).
Proof. unfold recycle_tx. solve_moves. Qed.

#[export] Instance lower_target_moves p now : Moves (lower_target p now).
Proof.
  intros env s u s' _ H. unfold lower_target in H.
  apply bindT_ok in H as (db & s1 & E & H). injection E as <- <-.
  destruct (device_pools (st_db s) !! p) as [row|] eqn:Hp; [|by injection H as _ <-]. cbv zeta in H.
  apply bindT_ok in H as (u1 & s1 & E & H). apply guardT_ok in E as [_ ->]. injection H as _ <-.
  apply pools_step; [done|done|]. cbn. intros k p' [[<- <-]|[_ ?]]%lookup_insert_Some; eauto.
Qed.

#[export] Instance forget_base_moves id now : Moves (put_db (forget_base id now)).
Proof. apply put_db_moves. intros db. apply pools_fmap_step. intros p. by case_bool_decide. Qed.

#[export] Instance settle_deleted_moves d source now : Moves (settle_deleted d source now).
Proof.
  unfold settle_deleted. cbv zeta. apply Moves_bind; [apply _|]. intros a. apply Moves_bind; [apply _|]. intros a1.
  apply Moves_bind; [by apply save_moves|]. intros n. solve_moves.
Qed.

#[export] Instance settle_failed_moves d reason now : Moves (settle_failed d reason now).
Proof.
  unfold settle_failed. apply Moves_bind; [apply _|]. intros a. apply Moves_bind; [unfold ensure_health; apply _|]. intros a1.
  apply Moves_ensure. intros a2 E2. apply Moves_bind; [by apply quarantined_save_moves|]. intros n. apply _.
Qed.

#[export] Instance settle_moves id : Moves (settle_tx id).
Proof. unfold settle_tx. solve_moves. Qed.

(** ** Scaling down *)
Lemma member_device_row poolID db d : keyed db -> d ∈ member_devices poolID db -> devices db !! d_id d = Some d.
Proof.
  intros Hk [_ Hd]%list_elem_of_filter. rewrite elem_of_order_by in Hd. apply elem_of_rows in Hd as [k Hd].
  by rewrite (keyed_device _ Hk _ _ Hd).
Qed.

Lemma removable_free env db p platform target d :
  removable env db p platform target d = true -> operable (d_lifecycle d) = true /\ ~ held_by_any db (d_id d).
Proof. intros H. unfold removable in H. guards. split; [done|]. by apply no_open_reservation. Qed.

Lemma held_step db db' k : control_step db db' -> ~ held_by_any db k -> ~ held_by_any db' k.
Proof. intros S. unfold held_by_any, held. by rewrite (cs_reservations _ _ S). Qed.

Lemma queue_one_step poolID target d env s u s' :
  keyed (st_db s) -> ~ held_by_any (st_db s) (d_id d) -> queue_one poolID target d env s = (Ok u, s') ->
  control_step (st_db s) (st_db s').
Proof.
  intros Hk Hfree H. unfold queue_one in H.
  apply bindT_ok in H as (now & s1 & E & H). injection E as <- <-.
  apply bindT_ok in H as (next & s1 & E & H).
  assert (s1 = s /\ (next = d_lifecycle d \/ next = DeviceStopped)) as [-> Hnext].
  { destruct (lifecycle_is DeviceReady d); [|injection E as <- <-; auto].
    apply bindT_ok in E as (a & s2 & E1 & E). apply restored_ok in E1 as [-> _].
    apply bindT_ok in E as (b & s2 & E1 & E). apply apply_call_ok in E1 as [(El & _)%Transition_moves ->].
    injection E as <- <-. auto. }
  clear E. apply bindT_ok in H as (commandID & s1 & E & H). pose proof (keeps (g := allocation_tables) _ _ _ _ E) as T1. clear E.
  apply bindT_ok in H as (hash & s2 & E & H). apply short_digest_ro in E as ->.
  apply bindT_ok in H as (u1 & s2 & E & H). pose proof (keeps (g := allocation_tables) _ _ _ _ E) as T2. clear E.
  assert (control_step (st_db s) (st_db s2)) as S2 by (apply same_tables_step; congruence). etrans; [exact S2|].
  assert (keyed (st_db s2)) as Hk2 by by eapply control_step_keyed.
  apply (held_step _ _ _ S2) in Hfree. clear T1 T2 S2 Hk s s1 u1.
  assert (Moves (if target =? 0
       then put_db (fun db => db <| device_pools := alter (fun p => if bool_decide (p_base_device_id p = Some (d_id d))
              then p <| p_base_device_id := None |> <| p_updated_at := env_clock env |> else p) poolID (device_pools db) |>)
       else mret tt)) as M.
  { destruct (target =? 0); [|apply _]. apply put_db_moves. intros db. apply pools_alter_step. intros p. by case_bool_decide. }
  apply bindT_ok in H as (u2 & s3 & E & H). apply M in E; [|done]. etrans; [exact E|].
  apply (held_step _ _ _ E) in Hfree. assert (keyed (st_db s3)) as Hk3 by by eapply control_step_keyed. clear M E Hk2.
  apply bindT_ok in H as (n & s4 & E & H). etrans.
  - eapply save_device_step; [exact E|]. intros x _ Hx%lifecycle_is_spec. split; [done|]. cbn. rewrite Hx.
    by destruct Hnext as [-> | ->].
  - apply bindT_ok in H as (auditID & s5 & E5 & H). apply same_tables_step.
    rewrite (keeps (m := insert_audit _ _ _ _ _ _ _ _ _) _ _ _ _ H). apply (keeps (g := allocation_tables) _ _ _ _ E5).
Qed.

#[export] Instance scale_down_moves poolID platform target excess : Moves (queueScaleDown poolID platform target excess).
Proof.
  induction excess as [|n IH]; cbn [queueScaleDown]; [apply _|]. intros env s r s' Hk H.
  apply bindT_ok in H as (found & s1 & E & H). injection E as Hfound <-.
  destruct found as [d|]; [|by injection H as _ <-].
  destruct (device_pools (st_db s) !! poolID) as [p|]; [|done]. cbn in Hfound.
  apply first_where_Some in Hfound as [Hd [_ Hfree]%removable_free].
  apply bindT_ok in H as (u & s1 & E & H). apply queue_one_step in E; [|done|done]. etrans; [exact E|].
  revert H. assert (Moves (queued ← queueScaleDown poolID platform target n; mret (queued + 1))) as M by solve_moves.
  intros H. eapply M; [|exact H]. by eapply control_step_keyed.
Qed.

#[export] Instance ios_scale_down_moves poolID : Moves (ios_scale_down_tx poolID).
Proof. unfold ios_scale_down_tx. solve_moves. Qed.

(** ** One pool *)

(** A device that was provisioning or booting when the transaction read it becomes ready
    or quarantined: nobody held it then, and the transaction changes no reservation. *)
Lemma finished_step db0 db d d' :
  control_step db0 db -> devices db0 !! d_id d = Some d -> creating d = true -> d_id d' = d_id d ->
  unheld (d_lifecycle d') = true \/ d_lifecycle d' = DeviceQuarantined ->
  control_step db0 (put_device (d_id d) d' db).
Proof.
  intros [R K F P L] Hd Hc Hi Hl. split; [done| | | |done]; cbn.
  - intros k x Hx. destruct (decide (k = d_id d)) as [->|]; [rewrite lookup_insert_eq; exists d'; split; congruence|].
    rewrite lookup_insert_ne by done. by apply K.
  - intros k x Hx. rewrite lookup_insert_ne; [by apply F|]. congruence.
  - intros k. destruct (decide (k = d_id d)) as [->|]; [|rewrite lookup_insert_ne by done; apply P].
    rewrite lookup_insert_eq, Hd. cbn. intros Hp. destruct Hl as [Hl| ->]; [|done]. apply placed_unheld; [done|].
    revert Hp. apply placed_unheld. unfold creating in Hc. by apply orb_true_iff in Hc as [->%lifecycle_is_spec| ->%lifecycle_is_spec].
Qed.

Lemma finished_save db0 d g f env s n s' :
  control_step db0 (st_db s) -> devices db0 !! d_id d = Some d -> creating d = true -> (forall x, d_id (f x) = d_id x) ->
  keyed (st_db s) -> (forall x, unheld (d_lifecycle (f x)) = true \/ d_lifecycle (f x) = DeviceQuarantined) ->
  save_device (d_id d) g f env s = (Ok n, s') -> control_step db0 (st_db s').
Proof.
  intros S Hd Hc Hi Hk Hl [[_ ->]|(x & _ & Hx & _ & _ & ->)]%save_device_ok; [done|].
  apply finished_step; try done. rewrite Hi. by apply (keyed_device _ Hk).
Qed.

Section Creations.
Context (db0 : DB) (Hk0 : keyed db0).

(** A device read at the start of the transaction, with the command that created it. *)
Definition to_finish (v : DeviceRow * CommandRecord) : Prop := devices db0 !! d_id v.1 = Some v.1 /\ creating v.1 = true.

Lemma finish_create_step d c v env s u s' :
  to_finish (d, c) -> control_step db0 (st_db s) -> finish_create d v env s = (Ok u, s') -> control_step db0 (st_db s').
Proof.
  intros [Hd Hc] S H. cbn in Hd, Hc. unfold finish_create in H.
  apply bindT_ok in H as (now & s1 & E & H). injection E as <- <-.
  apply bindT_ok in H as (a0 & s1 & E & H). apply restored_ok in E as [-> E0].
  apply bindT_ok in H as (a1 & s1 & E & H). apply ensure_health_ok in E as (-> & _).
  apply bindT_ok in H as (a2 & s1 & E & H). apply advance_ok in E as [-> _].
  apply bindT_ok in H as (a3 & s1 & E & H). apply apply_call_ok in E as [(E3 & _)%Transition_moves ->].
  apply bindT_ok in H as (a4 & s1 & E & H). apply apply_call_ok in E as [[E4 _]%UpdateHealth_stays ->].
  apply bindT_ok in H as (n & s1 & E & H). injection H as _ <-.
  eapply finished_save; [exact S|exact Hd|done| |by eapply control_step_keyed| |exact E]; [done|].
  intros x. left. cbn. by rewrite E4, E3.
Qed.

Lemma quarantine_create_step d c env s u s' :
  to_finish (d, c) -> control_step db0 (st_db s) -> quarantineCreateResult d env s = (Ok u, s') -> control_step db0 (st_db s').
Proof.
  intros [Hd Hc] S H. cbn in Hd, Hc. unfold quarantineCreateResult in H. cbv zeta in H.
  apply bindT_ok in H as (now & s1 & E & H). injection E as <- <-.
  apply bindT_ok in H as (a0 & s1 & E & H). apply restored_ok in E as [-> E0].
  apply bindT_ok in H as (a1 & s1 & E & H). apply ensure_health_ok in E as (-> & _).
  apply bindT_ok in H as (a2 & s1 & E & H). apply apply_call_ok in E as [(E2 & _)%Transition_moves ->].
  apply bindT_ok in H as (n & s1 & E & H). injection H as _ <-.
  eapply finished_save; [exact S|exact Hd|done| |by eapply control_step_keyed| |exact E]; [done|]. by right.
Qed.

Lemma complete_creates_step values : Forall to_finish values -> forall env s r s',
  control_step db0 (st_db s) -> complete_creates values env s = (Ok r, s') -> control_step db0 (st_db s').
Proof.
  induction 1 as [|[d c] rest Hv _ IH]; intros env s r s' S H; cbn [complete_creates] in H; [by injection H as _ <-|].
  destruct (valid_rebuild c) as [v|]; apply bindT_ok in H as (u & s1 & E & H);
    apply bindT_ok in H as (r1 & s2 & E2 & H); injection H as _ <-.
  - eapply IH; [|exact E2]. by eapply finish_create_step.
  - eapply IH; [|exact E2]. by eapply quarantine_create_step.
Qed.
End Creations.

#[export] Instance successful_creates_moves poolID : Moves (completeSuccessfulCreates poolID).
Proof.
  intros env s r s' Hk H. unfold completeSuccessfulCreates in H.
  apply bindT_ok in H as (db & s1 & E & H). injection E as <- <-.
  eapply (complete_creates_step (st_db s)); [done| |done|exact H].
  apply Forall_forall. intros [d c] Hv. unfold created_devices in Hv. apply list_elem_of_omap in Hv as (x & Hx & Hv).
  destruct (creating x && _) eqn:Hc; [|done]. guards. destruct (succeeded_create _ _); [|done]. injection Hv as -> <-.
  split; [by eapply member_device_row|done].
Qed.

#[export] Instance queue_each_moves (f : DeviceRow -> Tx unit) ds : (forall d, Moves (f d)) -> Moves (queue_each f ds).
Proof. intros Hf. induction ds; cbn [queue_each]; solve_moves. Qed.

#[export] Instance quarantined_cleanup_moves poolID : Moves (queueQuarantinedCleanup poolID).
Proof. unfold queueQuarantinedCleanup. solve_moves. Qed.

#[export] Instance clean_failed_moves poolID d : Moves (clean_failed_create poolID d).
Proof.
  unfold clean_failed_create. do 4 (apply Moves_bind; [apply _|intros ?]).
  apply Moves_bind; [by apply save_moves|]. intros n. solve_moves.
Qed.

#[export] Instance failed_cleanup_moves poolID : Moves (cleanupFailedCreates poolID).
Proof. unfold cleanupFailedCreates. solve_moves. Qed.

#[export] Instance scale_pool_moves p i c v : Moves (scale_pool p i c v).
Proof. unfold scale_pool, scale_up. solve_moves. Qed.

#[export] Instance pool_moves poolID imageID : Moves (pool_tx poolID imageID).
Proof. unfold pool_tx. solve_moves. Qed.

(** ** Simulators *)
#[export] Instance replayed_ro c h : ReadOnly (replayed c h).
Proof. unfold replayed. apply _. Qed.

#[export] Instance register_moves d c a k h actor r cat i b : Moves (register_simulator d c a k h actor r cat i b).
Proof.
  unfold register_simulator. solve_moves. apply put_db_moves. intros db. apply pools_alter_step. by intros p.
Qed.

#[export] Instance simulator_moves d c a k h actor r i b : Moves (simulator_tx d c a k h actor r i b).
Proof. unfold simulator_tx, check_target. solve_moves. Qed.
