(* ===== verification/PoolFacts.v ===== *)
(** * The effects of the writes of the warm pool

    What a successful insert of a command, of a membership or of a device leaves behind,
    and what one creation and one queued deletion change: equations on the database. *)
From Stdlib Require Import Btauto.
From S2P Require Import Prelude GoText Errors Domain DomainSpec Json Sensitive Actor Store.
From S2P Require Import RuntimeProfile ReservationRepo TxFacts PoolSelector CommandRepo DeviceStore Reconcile DeviceOps ImageCatalog.
From S2P Require Import HostCommand HostSelection Completion WarmPool PoolCycle PoolScale FarmSystem FarmSafety ControlStep PoolMoves.

Definition with_command (id : string) (c : CommandRecord) (db : DB) : DB :=
  db <| device_host_commands := <[id := c]> (device_host_commands db) |>.
Definition with_member (poolID deviceID : string) (now : Z) (db : DB) : DB :=
  db <| device_pool_devices := <[(poolID, deviceID) := mkPoolDeviceRow poolID deviceID true now now]> (device_pool_devices db) |>.

Lemma put_command_ok id c env s u s' : put_command id c env s = (Ok u, s') -> s' = on_db (with_command id c) s.
Proof. by intros [= _ <-]. Qed.

Lemma insert_command_ok p env s u s' :
  insert_command p env s = (Ok u, s') ->
  first_where (command_key (cc_HostID p) (cc_IdempotencyKey p)) (commands (st_db s)) = None
  /\ device_host_commands (st_db s) !! cc_ID p = None
  /\ s' = on_db (with_command (cc_ID p) (new_command p (env_clock env))) s.
Proof.
  unfold insert_command. intros H. tx H. destruct (first_where _ _) as [c|]; [done|].
  destruct (_ !! _) as [c|]; [done|]. by apply put_command_ok in H as ->.
Qed.

Lemma insert_membership_ok poolID deviceID env s u s' :
  insert_membership poolID deviceID env s = (Ok u, s') ->
  device_pool_devices (st_db s) !! (poolID, deviceID) = None /\ s' = on_db (with_member poolID deviceID (env_clock env)) s.
Proof.
  unfold insert_membership. intros H. tx H. injection H as _ <-. split; [|done].
  match goal with H : negb _ = true |- _ => apply negb_true_iff, bool_decide_eq_false in H; by apply eq_None_not_Some end.
Qed.

(** ** One creation *)
Section Creation.
Context (imageID runtimeImage digest hostID : string) (capabilities : obj) (key : string).
Context (now : Z) (c : CreatedDevice).

(** The row, the command and the database that a creation leaves. *)
Definition created_row (document : obj) : DeviceRow :=
  new_device (cd_DeviceID c) hostID (Some imageID) "android" "emulator" "docker_emulator" ("emulator-" ++ cd_DeviceID c)%string "clean"
    ("pending-" ++ cd_DeviceID c)%string capabilities (Some document) now (warm_name (cd_DeviceID c)).

Definition created_command (document : obj) (k : string) : CommandRecord :=
  new_command (mkCreateCommand (cd_CommandID c) hostID "create"
    (create_payload (cd_DeviceID c) (cd_PoolID c) imageID ("emulator-" ++ cd_DeviceID c)%string runtimeImage digest capabilities document key)
    3 k) now.

Definition created_db (document : obj) (k : string) (db : DB) : DB :=
  with_command (cd_CommandID c) (created_command document k)
    (with_member (cd_PoolID c) (cd_DeviceID c) now (put_device (cd_DeviceID c) (created_row document) db)).

End Creation.

Lemma newID_db e x i x' : newID e x = (Ok i, x') -> st_db x' = st_db x.
Proof. apply (keeps (g := fun db => db)). Qed.

Lemma createDeviceCommand_ok poolID imageID runtimeImage digest hostID capabilities profile key env s c s' :
  createDeviceCommand poolID imageID runtimeImage digest hostID capabilities profile key env s = (Ok c, s') ->
  exists document k, devices (st_db s) !! cd_DeviceID c = None
    /\ device_pool_devices (st_db s) !! (cd_PoolID c, cd_DeviceID c) = None
    /\ device_host_commands (st_db s) !! cd_CommandID c = None
    /\ st_db s' = created_db imageID runtimeImage digest hostID capabilities key (env_clock env) c document k (st_db s).
Proof.
  unfold createDeviceCommand. intros H.
  apply bindT_ok in H as (deviceID & s1 & E1 & H). apply newID_db in E1.
  apply bindT_ok in H as (commandID & s2 & E2 & H). apply newID_db in E2. cbv zeta in H.
  apply bindT_ok in H as (document & s3 & E & H). apply marshalled_ro in E as ->.
  apply bindT_ok in H as (t & s3 & E & H). injection E as <- <-.
  apply bindT_ok in H as (u & s3 & E & H). apply insert_device_ok in E as [Hd E3]. cbn [d_id new_device] in Hd, E3.
  apply bindT_ok in H as (db & s4 & E & H). injection E as _ <-. cbv zeta in H.
  apply bindT_ok in H as (u1 & s4 & E & H). apply insert_membership_ok in E as [Hm E4].
  apply bindT_ok in H as (k & s5 & E & H).
  assert (s5 = s4) as -> by (destruct (nonempty key); apply bindT_ok in E as (h & s6 & E & E'); apply short_digest_ro in E as ->; by injection E').
  clear E. apply bindT_ok in H as (u2 & s6 & E & H). apply insert_command_ok in E as (_ & Hc & ->). injection H as <- <-.
  exists document, k. cbn [cd_DeviceID cd_CommandID cd_PoolID]. rewrite <-E1, <-E2. subst s4 s3.
  split_and!; [done|exact Hm|exact Hc|reflexivity].
Qed.

(** ** One queued deletion *)

Lemma existsb_exists_in {R} (f : R -> bool) l : existsb f l = true <-> exists x, x ∈ l /\ f x = true.
Proof. rewrite existsb_exists. by setoid_rewrite list_elem_of_In. Qed.

Lemma existsb_rows_insert {R} (f : R -> bool) (t : gmap string R) k x :
  t !! k = None -> existsb f (rows (<[k := x]> t)) = f x || existsb f (rows t).
Proof.
  intros Hk. apply eq_bool_prop_intro. rewrite !Is_true_true, orb_true_iff, !existsb_exists_in. setoid_rewrite elem_of_rows. split.
  - intros (y & [j [[<- <-]|[_ Hj]]%lookup_insert_Some] & Hy); eauto.
  - intros [Hx|(y & [j Hj] & Hy)]; [exists x|exists y]; (split; [|done]).
    + exists k. by rewrite lookup_insert_eq.
    + exists j. rewrite lookup_insert_ne; [done|]. congruence.
Qed.

Lemma save_device_here id g f d env s n s' :
  devices (st_db s) !! id = Some d -> g d = true -> save_device id g f env s = (Ok n, s') ->
  n = 1 /\ s' = on_db (put_device id (f d)) s.
Proof.
  unfold save_device, get_db, mbind, Tx_bind, M_bind, gets. intros -> ->.
  destruct (device_conflict _ _ _); [done|]. by intros [= <- <-].
Qed.

(** The row of a device whose deletion is queued: a ready device is stopped. *)
Definition leaving_row (now : Z) (d : DeviceRow) : DeviceRow :=
  d <| d_lifecycle := if lifecycle_is DeviceReady d then DeviceStopped else d_lifecycle d |>
    <| d_health_reason := Some "automatic scale down queued"%string |> <| d_updated_at := now |>.

Definition leaving_command (poolID : string) (target now : Z) (d : DeviceRow) (commandID k : string) : CommandRecord :=
  new_command (mkCreateCommand commandID (d_host_id d) "delete" (scale_down_payload d poolID target) 3 k) now.

(** The pool forgets its base only when it is emptied. *)
Definition drained_pools (poolID deviceID : string) (target now : Z) (pools : gmap string PoolRow) : gmap string PoolRow :=
  if target =? 0 then alter (fun p => if bool_decide (p_base_device_id p = Some deviceID)
    then p <| p_base_device_id := None |> <| p_updated_at := now |> else p) poolID pools else pools.

(** The tables that [queue_one] does not write. *)
Definition left_alone (db : DB) := (device_reservations db, device_sessions db, device_pool_devices db, device_hosts db).

Lemma queue_one_ok poolID target d env s u s' :
  devices (st_db s) !! d_id d = Some d -> queue_one poolID target d env s = (Ok u, s') ->
  exists commandID k, device_host_commands (st_db s) !! commandID = None
    /\ devices (st_db s') = <[d_id d := leaving_row (env_clock env) d]> (devices (st_db s))
    /\ device_host_commands (st_db s') = <[commandID := leaving_command poolID target (env_clock env) d commandID k]> (device_host_commands (st_db s))
    /\ device_pools (st_db s') = drained_pools poolID (d_id d) target (env_clock env) (device_pools (st_db s))
    /\ left_alone (st_db s') = left_alone (st_db s).
Proof.
  intros Hd H. unfold queue_one in H.
  apply bindT_ok in H as (now & s1 & E & H). injection E as <- <-.
  apply bindT_ok in H as (next & s1 & E & H).
  assert (s1 = s /\ next = if lifecycle_is DeviceReady d then DeviceStopped else d_lifecycle d) as [-> ->].
  { destruct (lifecycle_is DeviceReady d); [|by injection E as <- <-].
    apply bindT_ok in E as (a & s2 & E1 & E). apply restored_ok in E1 as [-> _].
    apply bindT_ok in E as (b & s2 & E1 & E). apply apply_call_ok in E1 as [(El & _)%Transition_moves ->].
    by injection E as <- <-. }
  clear E. apply bindT_ok in H as (commandID & s1 & E & H). apply newID_db in E as E1. clear E.
  apply bindT_ok in H as (hash & s2 & E & H). apply short_digest_ro in E as ->.
  apply bindT_ok in H as (u1 & s2 & E & H). apply insert_command_ok in E as (_ & Hc & ->). cbn [cc_ID] in Hc.
  apply bindT_ok in H as (u2 & s3 & E & H).
  assert (st_db s3 = with_command commandID (leaving_command poolID target (env_clock env) d commandID ("scale-down-" ++ hash)%string)
            (st_db s) <| device_pools := drained_pools poolID (d_id d) target (env_clock env) (device_pools (st_db s)) |>) as E3.
  { revert E. unfold drained_pools. rewrite <-E1. destruct (target =? 0); intros [= _ <-]; [done|]. by destruct s1 as [[]]. }
  clear E. apply bindT_ok in H as (n & s4 & E & H).
  apply bindT_ok in H as (auditID & s5 & E5 & H). apply newID_db in E5. injection H as _ <-.
  apply save_device_here with (d := d) in E as [-> ->]; [|by rewrite E3|by apply lifecycle_is_spec].
  exists commandID, ("scale-down-" ++ hash)%string. rewrite E1 in Hc. cbn [st_db set_field]. rewrite E5. cbn. rewrite E3.
  split_and!; done.
Qed.

Lemma leaving_for_device poolID target now d commandID k id :
  for_device id (leaving_command poolID target now d commandID k) = bool_decide (d_id d = id).
Proof. unfold for_device, payload_is. cbn. apply bool_decide_ext. split; [by intros [= ->]|by intros ->]. Qed.

(** A queued deletion takes its own device, and no other, from the candidates. *)
Section AfterOne.
Context (env : Env) (poolID platform : string) (target : Z) (d : DeviceRow) (p : PoolRow) (db db' : DB) (commandID k : string).
Hypothesis Hnew : device_host_commands db !! commandID = None.
Hypothesis Hcommands : device_host_commands db' = <[commandID := leaving_command poolID target (env_clock env) d commandID k]> (device_host_commands db).
Hypothesis Hpools : device_pools db' = drained_pools poolID (d_id d) target (env_clock env) (device_pools db).
Hypothesis Halone : left_alone db' = left_alone db.
Hypothesis Hp : device_pools db !! poolID = Some p.

Lemma drained_pool : exists p', device_pools db' !! poolID = Some p' /\ p_id p' = p_id p /\ (target <> 0 -> p' = p).
Proof.
  rewrite Hpools. unfold drained_pools. destruct (Z.eqb_spec target 0) as [->|]; [|eauto].
  rewrite lookup_alter_eq, Hp. eexists. split; [done|]. split; [by case_bool_decide|done].
Qed.

Lemma removable_after p' x :
  device_pools db' !! poolID = Some p' -> p_id p' = p_id p -> (target <> 0 -> p' = p) ->
  removable env db' p' platform target x = removable env db p platform target x && negb (bool_decide (d_id x = d_id d)).
Proof.
  intros Hp' Hid Hsame. injection Halone as Hres Hses Hmem Hhost. unfold removable.
  assert ((target =? 0) || negb (bool_decide (p_base_device_id p' = Some (d_id x)))
    = (target =? 0) || negb (bool_decide (p_base_device_id p = Some (d_id x)))) as ->.
  { destruct (Z.eqb_spec target 0); [done|]. by rewrite Hsame. }
  assert (has_command (d_id x) in_flight db' = has_command (d_id x) in_flight db || bool_decide (d_id x = d_id d)) as ->.
  { unfold has_command, commands. rewrite Hcommands, existsb_rows_insert, leaving_for_device by done. cbn [in_flight command_is c_Status].
    rewrite orb_comm. f_equal. change (in_flight _) with true. rewrite andb_true_r. by apply bool_decide_ext. }
  unfold has_open_reservation, has_live_session, shared_with_another. rewrite Hres, Hses, Hmem, Hhost, Hid, negb_orb.
  btauto.
Qed.
End AfterOne.

(** ** Scaling down *)

(** A device of the pool that may leave it. *)
Definition candidate (env : Env) (poolID platform : string) (target : Z) (db : DB) (d : DeviceRow) : Prop :=
  d ∈ member_devices poolID db /\ exists p, device_pools db !! poolID = Some p /\ removable env db p platform target d = true.

Lemma elem_of_members poolID db x :
  x ∈ member_devices poolID db <->
  (exists k, devices db !! k = Some x) /\ match device_pool_devices db !! (poolID, d_id x) with Some pd => pd_enabled pd | None => false end = true.
Proof. unfold member_devices. rewrite list_elem_of_filter, elem_of_order_by, elem_of_rows. tauto. Qed.

Lemma candidate_free env poolID platform target db d :
  candidate env poolID platform target db d ->
  operable (d_lifecycle d) = true /\ ~ held_by_any db (d_id d)
  /\ (target <> 0 -> forall p, device_pools db !! poolID = Some p -> p_base_device_id p <> Some (d_id d)).
Proof.
  intros (_ & p & Hp & H). pose proof (removable_free _ _ _ _ _ _ H) as [? ?]. split_and!; [done|done|].
  intros Ht p' Hp' Hb. simplify_eq. unfold removable in H. guards.
  match goal with H : (target =? 0) || _ = true |- _ => apply orb_true_iff in H as [H%Z.eqb_eq|H]; [done|]; by rewrite bool_decide_eq_true_2 in H end.
Qed.

Lemma queue_one_candidates env poolID platform target d s u s' :
  keyed (st_db s) -> candidate env poolID platform target (st_db s) d -> queue_one poolID target d env s = (Ok u, s') ->
  keyed (st_db s')
  /\ forall x, candidate env poolID platform target (st_db s') x <-> candidate env poolID platform target (st_db s) x /\ d_id x <> d_id d.
Proof.
  intros Hk Hd H. pose proof Hd as (Hin & p & Hp & Hr). apply member_device_row in Hin as Hrow; [|done].
  pose proof (queue_one_ok _ _ _ _ _ _ _ Hrow H) as (c & k & Hnew & Hdev & Hcmd & Hpool & Halone).
  assert (control_step (st_db s) (st_db s')) as S by (eapply queue_one_step; [done|by eapply candidate_free|done]).
  split; [by eapply control_step_keyed|]. intros x.
  edestruct drained_pool as (p' & Hp' & Hid & Hsame); [done..|].
  epose proof (removable_after env poolID platform target d p (st_db s) (st_db s') c k) as Hx. specialize (Hx Hnew Hcmd Halone p' x Hp' Hid Hsame).
  assert (d_id x <> d_id d -> x ∈ member_devices poolID (st_db s') <-> x ∈ member_devices poolID (st_db s)) as Hmem.
  { intros Hne. rewrite !elem_of_members. injection Halone as _ _ -> _. rewrite Hdev. f_equiv.
    split; intros [j Hj]; exists j; revert Hj; (destruct (decide (j = d_id d)) as [->|]; [|by rewrite lookup_insert_ne]).
    - rewrite lookup_insert_eq. by intros [= <-].
    - rewrite Hrow. by intros [= <-]. }
  unfold candidate. split.
  - intros (Hxin & q & Hq & Hrem). simplify_eq. rewrite Hx in Hrem. apply andb_true_iff in Hrem as [Hrem Hne%negb_true_iff%bool_decide_eq_false].
    split; [|done]. split; [by apply Hmem|eauto].
  - intros ((Hxin & q & Hq & Hrem) & Hne). simplify_eq. split; [by apply Hmem|]. exists p'. split; [done|].
    by rewrite Hx, Hrem, bool_decide_eq_false_2.
Qed.

Lemma scale_down_ok env poolID platform target excess : forall s n s',
  keyed (st_db s) -> queueScaleDown poolID platform target excess env s = (Ok n, s') ->
  exists ds, n = Z.of_nat (length ds) /\ (length ds <= excess)%nat /\ NoDup (map d_id ds)
    /\ (forall d, d ∈ ds -> candidate env poolID platform target (st_db s) d
          /\ devices (st_db s') !! d_id d = Some (leaving_row (env_clock env) d)
          /\ exists id k, device_host_commands (st_db s') !! id = Some (leaving_command poolID target (env_clock env) d id k))
    /\ (forall k, k ∉ map d_id ds -> devices (st_db s') !! k = devices (st_db s) !! k)
    /\ ((length ds < excess)%nat -> forall d, candidate env poolID platform target (st_db s) d -> d ∈ ds)
    /\ device_host_commands (st_db s) ⊆ device_host_commands (st_db s').
Proof.
  induction excess as [|m IH]; intros s n s' Hk H; cbn [queueScaleDown] in H.
  { injection H as <- <-. exists []. split_and!; try done; [constructor|by intros ? []%elem_of_nil|cbn; lia]. }
  apply bindT_ok in H as (found & s1 & E & H). injection E as Hfound <-.
  destruct found as [d|].
  - destruct (device_pools (st_db s) !! poolID) as [p|] eqn:Hp; [|done]. cbn in Hfound.
    apply first_where_Some in Hfound as [Hin Hrem].
    assert (candidate env poolID platform target (st_db s) d) as Hd by (split; eauto).
    apply bindT_ok in H as (u & s1 & E & H).
    pose proof (queue_one_candidates _ _ _ _ _ _ _ _ Hk Hd E) as [Hk1 Hc].
    apply member_device_row in Hin as Hrow; [|done].
    apply queue_one_ok in E as (c & k & Hnew & Hdev & Hcmd & _); [|done].
    apply bindT_ok in H as (q & s2 & E & H). injection H as <- <-.
    apply IH in E as (ds & -> & Hlen & Hnd & Hds & Hrest & Hall & Hsub); [|done].
    assert (d_id d ∉ map d_id ds) as Hout.
    { intros (x & Hxd & Hx)%list_elem_of_fmap. apply Hds in Hx as (Hx & _). apply Hc in Hx as [_ Hx]. congruence. }
    exists (d :: ds). cbn [length map]. split_and!; [lia|lia|by constructor| | |  |].
    + intros x [->|Hx]%elem_of_cons.
      * split_and!; [done| |].
        -- rewrite Hrest, Hdev by done. by rewrite lookup_insert_eq.
        -- exists c, k. eapply lookup_weaken; [|exact Hsub]. by rewrite Hcmd, lookup_insert_eq.
      * apply Hds in Hx as (Hx & ? & ?). apply Hc in Hx as [? _]. done.
    + intros j [Hj Hj']%not_elem_of_cons. rewrite Hrest, Hdev by done. by rewrite lookup_insert_ne.
    + intros Hlt x Hx. apply elem_of_cons. destruct (decide (d_id x = d_id d)) as [He|Hne].
      * left. destruct Hx as [Hx _]. apply member_device_row in Hx; [|done]. congruence.
      * right. apply Hall; [lia|]. by apply Hc.
    + etrans; [|exact Hsub]. rewrite Hcmd. by apply insert_subseteq.
  - injection H as <- <-. exists []. split_and!; try done; [cbn; lia|constructor|by intros ? []%elem_of_nil|].
    intros _ d (Hin & p & Hp & Hrem). rewrite Hp in Hfound. cbn in Hfound. rewrite first_where_None in Hfound.
    rewrite Hfound in Hrem; done.
Qed.

(** ** Counting rows *)
Lemma count_where_perm {R} (f : R -> bool) l l' : l ≡ₚ l' -> count_where f l = count_where f l'.
Proof. unfold count_where. induction 1; cbn [List.filter]; repeat (match goal with |- context [if ?b then _ else _] => destruct b end); cbn [length] in *; lia. Qed.

Lemma count_where_filter {R} (f : R -> bool) l : Z.of_nat (length (filter (fun x => f x = true) l)) = count_where f l.
Proof.
  unfold count_where. induction l as [|x l IH]; [done|]. rewrite filter_cons. cbn [List.filter].
  destruct (f x); cbn [length decide]; [|done]. case_decide; [|done]. cbn [length]. lia.
Qed.

Lemma count_where_insert {R} (f : R -> bool) (t : gmap string R) k x :
  t !! k = None -> count_where f (rows (<[k := x]> t)) = (if f x then 1 else 0) + count_where f (rows t).
Proof.
  intros Hk. rewrite (count_where_perm f _ (x :: rows t)).
  - unfold count_where. cbn [List.filter]. destruct (f x); cbn [length]; lia.
  - unfold rows. rewrite map_to_list_insert by done. done.
Qed.

(** The load of a host with fixed slots: its devices and the validations queued on it. *)
Definition host_load (hostID : string) (db : DB) : Z :=
  Z.of_nat (length (host_devices hostID db)) + Z.of_nat (length (pending_validations hostID db)).

Definition loads (hostID : string) (d : DeviceRow) : bool := String.eqb (d_host_id d) hostID && occupies_slot d.
Definition validates (hostID : string) (c : CommandRecord) : bool :=
  String.eqb (c_HostID c) hostID && command_type_in ["validate_image"%string] c && in_flight c.

Lemma host_load_count hostID db :
  host_load hostID db = count_where (loads hostID) (rows (devices db)) + count_where (validates hostID) (commands db).
Proof.
  unfold host_load, host_devices, pending_validations. rewrite length_map.
  rewrite (count_where_filter (loads hostID)), (count_where_filter (validates hostID)).
  f_equal. apply count_where_perm, order_by_perm.
Qed.
