(* ===== verification/SessionMoves.v ===== *)
(** * The session service keeps to the allocation protocol

    Its transactions write the fence columns of a session, audit rows and health events;
    only the quarantine of a device writes a table that the allocation reads. *)
From S2P Require Import Prelude GoText Errors Domain DomainSpec Json Sensitive Actor Store.
From S2P Require Import RuntimeProfile ReservationRepo TxFacts CommandRepo DeviceStore Reconcile DeviceOps Completion PoolCycle.
From S2P Require Import IOSSession FarmSystem FarmSafety ControlStep PoolMoves.

Section Sessions.
Abbreviation Untouched := (Keeps allocation_tables).
#[export] Instance update_fence_untouched id g f now : Untouched (update_fence id g f now).
Proof. unfold update_fence. solve_keeps. Qed.
#[export] Instance audit_resource_untouched a b c d e f : Untouched (insertAuditResource a b c d e f).
Proof. unfold insertAuditResource. solve_keeps. Qed.
#[export] Instance session_audit_untouched a b c d e : Untouched (IOSSession.insertAudit a b c d e).
Proof. unfold IOSSession.insertAudit. apply _. Qed.
#[export] Instance or_cast_ro {A} (o : option A) : ReadOnly (or_cast_error o).
Proof. destruct o; unfold or_cast_error; apply _. Qed.
#[export] Instance binding_ro now db x : ReadOnly (binding_of now db x).
Proof.
  unfold binding_of. destruct (device_reservations db !! s_ReservationID x), (devices db !! s_DeviceID x) as [d|]; apply _.
Qed.
#[export] Instance grant_binding_ro hash : ReadOnly (getBindingByGrant hash).
Proof.
  unfold getBindingByGrant. apply bind_ro; [apply _|]. intros now. apply bind_ro; [apply _|]. intros db.
  destruct (first_where _ _); apply _.
Qed.
#[export] Instance reservation_binding_ro id : ReadOnly (reservation_binding id).
Proof.
  unfold reservation_binding. apply bind_ro; [apply _|]. intros now. apply bind_ro; [apply _|]. intros db.
  destruct (session_of _ _); apply _.
Qed.
#[export] Instance varchar_ro n text : ReadOnly (varchar n text).
Proof. unfold varchar. destruct (bool_decide _); apply _. Qed.
#[export] Instance hash_grant_ro grant : ReadOnly (hashGrant grant).
Proof. unfold hashGrant, digest_text. apply _. Qed.
End Sessions.

#[export] Hint Opaque update_fence insertAuditResource IOSSession.insertAudit getBindingByGrant reservation_binding binding_of varchar
  hashGrant : typeclass_instances.

Section SessionTransactions.
Abbreviation Untouched := (Keeps allocation_tables).
#[export] Instance consume_untouched h r i : Untouched (consume_tx h r i).
Proof. unfold consume_tx. solve_keeps. Qed.
#[export] Instance bind_session_untouched h r i : Untouched (bind_tx h r i).
Proof. unfold bind_tx. solve_keeps. Qed.
#[export] Instance close_untouched h r i : Untouched (close_tx h r i).
Proof. unfold close_tx. solve_keeps. Qed.
#[export] Instance failure_untouched h r e i : Untouched (failure_tx h r e i).
Proof. unfold failure_tx. solve_keeps. Qed.
#[export] Instance issue_untouched p s l a r q g h t o n : Untouched (issue_tx p s l a r q g h t o n).
Proof. unfold issue_tx. solve_keeps. Qed.
#[export] Instance closed_untouched r d h s a : Untouched (closed_tx r d h s a).
Proof. unfold closed_tx. solve_keeps. Qed.
#[export] Instance report_drift_untouched d r e x p n : Untouched (report_drift d r e x p n).
Proof. unfold report_drift. solve_keeps. Qed.
End SessionTransactions.

#[export] Instance quarantine_moves d r e reason p : Moves (quarantine_tx d r e reason p).
Proof.
  unfold quarantine_tx. apply Moves_bind; [apply _|]. intros db. apply Moves_bind; [apply _|]. intros row.
  destruct (lifecycle_is DeviceQuarantined row); [apply _|]. apply Moves_bind; [apply _|]. intros now.
  apply Moves_bind; [apply _|]. intros a0. apply Moves_bind; [unfold ensure_health; apply _|]. intros a1.
  apply Moves_ensure. intros a2 E2. apply Moves_bind; [|intros n; solve_moves].
  apply save_moves; [done|]. intros x y _ _. cbn. by rewrite E2.
Qed.
