(* ===== verification/ManagementMoves.v ===== *)
(** * The management store keeps to the allocation protocol

    [management_write] lists the writes of [ManagementStore] and [run_write] runs one.  No
    write touches a reservation; the only device that appears is one that nobody holds,
    and a pool that is created or changed allows leases of at least a minute, which is
    what [pool_checks] asks for. *)
From S2P Require Import Prelude GoText Errors Domain DomainSpec Json Sensitive Actor Store.
From S2P Require Import RuntimeProfile ReservationRepo TxFacts CommandRepo DeviceStore Reconcile DeviceOps Completion WarmPool PoolCycle.
From S2P Require Import ManagementStore FarmSystem FarmSafety ControlStep PoolMoves SessionMoves.

Inductive management_write : Type :=
  | WriteNewImage (meta : Idempotency) (image : ImageRow)
  | WriteImage (image : ImageRow) (expected : ImageStatus)
  | WriteRetirement (image : ImageRow) (expected : ImageStatus) (audit : DeviceAudit)
  | WriteNewHost (meta : Idempotency) (host : HostRow)
  | WriteHost (host : HostRow) (expected : HostStatus)
  | WriteNewPool (meta : Idempotency) (pool : PoolRow)
  | WritePool (pool : PoolRow) (expected : PoolStatus) (audit : DeviceAudit)
  | WritePoolImage (value : PoolImageRow) (audit : DeviceAudit)
  | WriteDisabledImage (poolID imageID : string)
  | WriteDefaultImage (poolID imageID : string) (audit : DeviceAudit)
  | WriteBaseDevice (poolID deviceID : string) (audit : DeviceAudit)
  | WriteMembership (poolID deviceID : string)
  | WriteDeparture (poolID deviceID : string)
  | WriteNewDevice (d : DeviceRow)
  | WriteDeviceName (id name : string) (audit : DeviceAudit).

Definition run_write (w : management_write) : Tx unit :=
  match w with
  | WriteNewImage meta image => ignore (create_resource_tx meta image)
  | WriteImage image expected => ignore (update_image image expected)
  | WriteRetirement image expected audit => ignore (retire_tx image expected audit)
  | WriteNewHost meta host => ignore (create_resource_tx meta host)
  | WriteHost host expected => ignore (update_host host expected)
  | WriteNewPool meta pool => ignore (create_resource_tx meta pool)
  | WritePool pool expected audit => ignore (update_pool_tx pool expected audit)
  | WritePoolImage value audit => ignore (set_pool_image_tx value audit)
  | WriteDisabledImage poolID imageID => ignore (disable_pool_image poolID imageID)
  | WriteDefaultImage poolID imageID audit => ignore (select_default_tx poolID imageID audit)
  | WriteBaseDevice poolID deviceID audit => ignore (set_base_tx poolID deviceID audit)
  | WriteMembership poolID deviceID => ignore (add_membership poolID deviceID)
  | WriteDeparture poolID deviceID => ignore (RemoveDeviceFromPoolRow poolID deviceID)
  | WriteNewDevice d => ignore (create_device d)
  | WriteDeviceName id name audit => ignore (rename_tx id name audit)
  end.

(** What the methods of the service ask of the store: a device that nobody holds. *)
Definition lawful_write (w : management_write) : Prop :=
  match w with WriteNewDevice d => unheld (d_lifecycle d) = true | _ => True end.

(** ** Constraints *)
#[export] Instance enforce_ro c : ReadOnly (enforce c).
Proof. destruct c; unfold enforce; apply _. Qed.
#[export] Instance unique_ro b c : ReadOnly (unique b c).
Proof. unfold unique. apply _. Qed.
#[export] Instance no_conflict_ro c : ReadOnly (no_conflict_with c).
Proof. unfold no_conflict_with. apply bind_ro; [apply _|]. intros db. destruct (c db); apply _. Qed.
#[export] Instance get_host_ro id : ReadOnly (GetHost id).
Proof. unfold GetHost. apply bind_ro; [apply _|]. intros db. destruct (_ !! id); apply _. Qed.
#[export] Instance get_pool_ro id : ReadOnly (GetPool id).
Proof. unfold GetPool. apply bind_ro; [apply _|]. intros db. destruct (_ !! id); apply _. Qed.
#[export] Instance get_pool_image_ro p i : ReadOnly (GetPoolImage p i).
Proof. unfold GetPoolImage. apply bind_ro; [apply _|]. intros db. destruct (_ !! _); apply _. Qed.
#[export] Instance get_stored_image_ro id : ReadOnly (GetImage id).
Proof. unfold GetImage. apply bind_ro; [apply _|]. intros db. destruct (_ !! id); apply _. Qed.

Lemma enforce_ok c env s u s' : enforce c env s = (Ok u, s') -> c = None /\ s' = s.
Proof. destruct c; [done|]. by intros [= _ <-]. Qed.

Lemma no_conflict_ok c env s u s' : no_conflict_with c env s = (Ok u, s') -> c (st_db s) = None /\ s' = s.
Proof. unfold no_conflict_with, get_db, mbind, Tx_bind, M_bind, gets. destruct (c (st_db s)); [done|]. by intros [= _ <-]. Qed.

Lemma varchar_same n text env s r s' : varchar n text env s = (r, s') -> s' = s.
Proof. apply varchar_ro. Qed.

(** ** Writes outside the tables of the allocation *)
Section Untouched.
Abbreviation Untouched := (Keeps allocation_tables).
#[export] Instance put_image_untouched i : Untouched (put_image i).
Proof. unfold put_image. solve_keeps. Qed.
#[export] Instance put_host_untouched h : Untouched (put_host h).
Proof. unfold put_host. solve_keeps. Qed.
#[export] Instance insert_image_untouched i : Untouched (insert_image i).
Proof. unfold insert_image. solve_keeps. Qed.
#[export] Instance insert_host_untouched h : Untouched (insert_host h).
Proof. unfold insert_host. solve_keeps. Qed.
#[export] Instance update_image_untouched i e : Untouched (update_image i e).
Proof. unfold update_image. solve_keeps. Qed.
#[export] Instance update_host_untouched h e : Untouched (update_host h e).
Proof. unfold update_host. solve_keeps. Qed.
#[export] Instance write_audit_untouched a t i x : Untouched (write_audit a t i x).
Proof. unfold write_audit. apply _. Qed.
#[export] Instance retire_untouched i e a : Untouched (retire_tx i e a).
Proof. unfold retire_tx. solve_keeps. Qed.
#[export] Instance upsert_pool_image_untouched v : Untouched (upsert_pool_image v).
Proof. unfold upsert_pool_image. solve_keeps. Qed.
#[export] Instance disable_image_untouched p i : Untouched (disable_pool_image p i).
Proof. unfold disable_pool_image. solve_keeps. Qed.
#[export] Instance membership_untouched p d : Untouched (add_membership p d).
Proof. unfold add_membership. solve_keeps. Qed.
#[export] Instance departure_untouched p d : Untouched (RemoveDeviceFromPoolRow p d).
Proof. unfold RemoveDeviceFromPoolRow. solve_keeps. Qed.
End Untouched.

#[export] Hint Opaque enforce unique no_conflict_with put_image put_host put_pool insert_image insert_host insert_pool write_audit
  upsert_pool_image GetHost GetPool GetPoolImage : typeclass_instances.

(** ** Pools *)
Lemma pool_checks_lease p : pool_checks p = None -> 60 <= p_max_lease_seconds p.
Proof.
  unfold pool_checks. destruct (validPoolStatus _); [|done]. cbn.
  destruct (Z.leb_spec 60 (p_default_lease_seconds p)); [|done]. cbn.
  destruct (Z.leb_spec (p_default_lease_seconds p) (p_max_lease_seconds p)); [|done]. lia.
Qed.

Lemma Moves_checked {B} p (f : unit -> Tx B) : (60 <= p_max_lease_seconds p -> Moves (f tt)) -> Moves (enforce (pool_checks p) ≫= f).
Proof.
  intros Hf env s b s' Hk (u & s1 & [E ->]%enforce_ok & H)%bindT_ok. destruct u. by eapply Hf; [apply pool_checks_lease|..].
Qed.

Lemma put_pool_moves p : 60 <= p_max_lease_seconds p -> Moves (put_pool p).
Proof.
  intros Hp. apply put_db_moves. intros db. apply pools_step; [done|done|]. cbn.
  intros k p' [[<- <-]|[_ ?]]%lookup_insert_Some; eauto.
Qed.

(** Follow a transaction that stores pools. *)
Ltac pool_moves :=
  repeat (cbv zeta beta; lazymatch goal with
    | |- Moves (enforce (pool_checks _) ≫= _) => apply Moves_checked; intros ?
    | |- Moves (put_pool _) => by apply put_pool_moves
    | |- Moves (match ?x with _ => _ end) => destruct x
    | |- Moves (_ ≫= _) => apply Moves_bind; [|intros ?]
    | |- Moves _ => apply _
    end).

#[export] Instance insert_pool_moves p : Moves (insert_pool p).
Proof. unfold insert_pool. pool_moves. Qed.
#[export] Instance update_pool_moves p e a : Moves (update_pool_tx p e a).
Proof. unfold update_pool_tx. pool_moves. Qed.
#[export] Instance set_pool_image_moves v a : Moves (set_pool_image_tx v a).
Proof. unfold set_pool_image_tx. pool_moves. Qed.
#[export] Instance select_default_moves p i a : Moves (select_default_tx p i a).
Proof. unfold select_default_tx. pool_moves. Qed.
#[export] Instance set_base_moves p d a : Moves (set_base_tx p d a).
Proof. unfold set_base_tx. pool_moves. Qed.

(** ** Resources and devices *)
#[export] Instance put_record_untouched key row : Keeps allocation_tables
  (put_db (fun db => db <| device_idempotency_records := <[key := row]> (device_idempotency_records db) |>)).
Proof. solve_keeps. Qed.

Lemma create_resource_moves {T V} `{Resource T V} meta row :
  Moves (insert_resource row) -> (forall id, ReadOnly (load_resource id)) -> Moves (create_resource_tx meta row).
Proof.
  intros Hi Hl. unfold create_resource_tx. apply Moves_bind; [apply _|]. intros db. cbv zeta.
  destruct (_ !! _) as [r|]; (apply Moves_bind; [apply _|intros ?]); [apply _|]. apply Moves_bind; [exact Hi|intros ?; apply _].
Qed.

Lemma create_device_moves d : unheld (d_lifecycle d) = true -> Moves (create_device d).
Proof.
  intros Hl. unfold create_device. do 2 (apply Moves_bind; [apply _|intros ?]). apply Moves_bind; [|intros u; apply _].
  intros env s x s' _. by apply insert_device_step.
Qed.

#[export] Instance rename_moves id name audit : Moves (rename_tx id name audit).
Proof.
  intros env s v s' Hk H. unfold rename_tx in H.
  apply bindT_ok in H as (now & s1 & E & H). injection E as <- <-.
  apply bindT_ok in H as (db & s1 & E & H). injection E as <- <-.
  apply bindT_ok in H as (u & s1 & E & H). apply bindT_ok in H as (x & s2 & E2 & H). pose proof (read_only _ _ _ _ E2) as ->.
  apply bindT_ok in H as (y & s2 & E3 & H). injection H as _ <-.
  etrans; [|by apply same_tables_step, (keeps _ _ _ _ E3)].
  destruct (devices (st_db s) !! id) as [d|] eqn:Hd; [|by injection E as _ <-].
  apply bindT_ok in E as (w & s3 & E' & E). apply check_name_ro in E' as ->. injection E as _ <-.
  by eapply (put_device_step _ _ _ _ Hd).
Qed.

(** Every write gives the guarantee of the control plane. *)
Lemma run_write_moves w : lawful_write w -> Moves (run_write w).
Proof.
  intros Hw. destruct w; cbn [run_write]; unfold ignore; (apply Moves_bind; [|intros ?; apply _]);
    try apply _; first [by apply create_device_moves|apply create_resource_moves; apply _].
Qed.
