(* ===== verification/ControlPlane.v ===== *)
(** * The rest of the control plane

    [FarmSystem] runs the transactions of the scheduler, the service and the reaper; this
    file adds the other writers of the device table: the reconciler, the heartbeats, the
    completions and the lease recovery of host commands, the operations of administrators,
    the management of images, hosts and pools, the image catalogue, the warm pool, the
    simulators and the iOS sessions.  [control_operation] lists
    their transactions, [run_control] runs one, and [run_control_step] proves that each
    gives the guarantee of [ControlStep]. *)
From S2P Require Import Prelude GoText Errors Domain DomainSpec Json Sensitive Actor Store.
From S2P Require Import RuntimeProfile ReservationRepo TxFacts CommandRepo DeviceStore Reconcile DeviceOps ImageCatalog.
From S2P Require Import HostCommand HostSelection Completion WarmPool PoolCycle PoolScale IOSSimulator IOSSession Heartbeat PoolSelector.
From S2P Require Import ReservationService Scheduler ServiceFacts FarmSystem FarmSafety ControlStep PoolMoves SessionMoves ManagementMoves.

(** ** Operations *)
Inductive control_operation : Type :=
  | CtlReport (config : Config) (id deviceID : string) (input : EventInput)
  | CtlRestart (deviceID : string) (allowStopped : bool)
  | CtlOffline (hostID : string) (hostTimeout : Z)
  | CtlHeartbeat (hostID : string) (ds : list DiscoveredDevice) (e : Environment) (capacity : obj)
  | CtlComplete (id : string) (input : CompletionInput) (errorCode : option string)
  | CtlRecover
  | CtlCreate (p : CreateCommandParams)
  | CtlClaim (hostID token : string) (lease : Z)
  | CtlExtend (id token : string) (attempt lease : Z)
  | CtlQueue (op : DeviceOperation)
  | CtlUpdateState (d : DeviceRow) (oldLifecycle : DeviceLifecycleStatus) (oldHealth : HealthStatus) (audit : DeviceAudit)
  | CtlSync (commandID : string) (actor : Actor) (requestID key : string)
  | CtlPrepare (preparationID commandID : string) (actor : Actor) (requestID key catalogID : string) (profile : Profile)
  | CtlProvision (input : ProvisionInput) (phone : PhoneProfile)
  | CtlCreateJob (jobID hash : string) (document : obj) (input : CatalogProvisionInput)
  | CtlUpdateJob (id : string) (guard : JobRow -> bool) (f : JobRow -> JobRow)
  | CtlRecycle (deviceID : string)
  | CtlSettle (deviceID : string)
  | CtlScaleDownIOS (poolID : string)
  | CtlValidate (imageID : string)
  | CtlOutcomes
  | CtlDemand (jsonb_order : list (obj * Z) -> list (obj * Z))
  | CtlPool (poolID imageID : string)
  | CtlSimulator (deviceID commandID auditID commandKey requestHash : string) (actor : Actor) (requestID : string)
      (input : IOSSimulator.CreateInput) (increaseTarget : bool)
  | CtlIssue (url_Parse : string -> option URL) (url_String : URL -> string) (loopback_ip : string -> bool) (actor : Actor)
      (reservationID requestID grant hash ownerType ownerID : string) (ttl : Z)
  | CtlConsume (hash requestID : string) (input : ConsumeInput)
  | CtlBind (hash requestID : string) (input : BindingInput)
  | CtlClose (hash requestID : string) (input : BindingInput)
  | CtlFailure (hash requestID errorCode : string) (input : FailureInput)
  | CtlClosed (reservationID deviceID hostID sessionID appiumSessionID : string)
  | CtlQuarantine (deviceID reservationID eventType reason : string) (payload : obj)
  | CtlManage (w : management_write).

Definition run_control (op : control_operation) : Tx unit :=
  WithinTx (match op with
  | CtlReport config id deviceID input => ignore (report_tx config id deviceID input)
  | CtlRestart deviceID allowStopped => ignore (restart_tx deviceID allowStopped)
  | CtlOffline hostID hostTimeout => ignore (offline_tx hostID hostTimeout)
  | CtlHeartbeat hostID ds e capacity => ignore (heartbeat_tx hostID ds e capacity)
  | CtlComplete id input errorCode => ignore (complete_tx id input errorCode)
  | CtlRecover => ignore recover_tx
  | CtlCreate p => ignore (CreateCommand p)
  | CtlClaim hostID token lease => ignore (ClaimNext hostID token lease)
  | CtlExtend id token attempt lease => ignore (ExtendLease id token attempt lease)
  | CtlQueue op => ignore (queue_tx op)
  | CtlUpdateState d l h audit => ignore (update_state_tx d l h audit)
  | CtlSync commandID actor requestID key => ignore (sync_tx commandID actor requestID key)
  | CtlPrepare preparationID commandID actor requestID key catalogID profile =>
      ignore (prepare_tx preparationID commandID actor requestID key catalogID profile)
  | CtlProvision input phone => ignore (provision_tx input phone)
  | CtlCreateJob jobID hash document input => ignore (create_job_tx jobID hash document input)
  | CtlUpdateJob id guard f => ignore (update_job id guard f)
  | CtlRecycle deviceID => ignore (recycle_tx deviceID)
  | CtlSettle deviceID => ignore (settle_tx deviceID)
  | CtlScaleDownIOS poolID => ignore (ios_scale_down_tx poolID)
  | CtlValidate imageID => ignore (image_validation_tx imageID)
  | CtlOutcomes => ignore recordHostImageOutcomes
  | CtlDemand jsonb_order => ignore (demand_tx jsonb_order)
  | CtlPool poolID imageID => ignore (pool_tx poolID imageID)
  | CtlSimulator deviceID commandID auditID key hash actor requestID input increase =>
      ignore (simulator_tx deviceID commandID auditID key hash actor requestID input increase)
  | CtlIssue parse print loopback actor reservationID requestID grant hash ownerType ownerID ttl =>
      ignore (issue_tx parse print loopback actor reservationID requestID grant hash ownerType ownerID ttl)
  | CtlConsume hash requestID input => ignore (consume_tx hash requestID input)
  | CtlBind hash requestID input => ignore (bind_tx hash requestID input)
  | CtlClose hash requestID input => ignore (close_tx hash requestID input)
  | CtlFailure hash requestID errorCode input => ignore (failure_tx hash requestID errorCode input)
  | CtlClosed reservationID deviceID hostID sessionID appium => ignore (closed_tx reservationID deviceID hostID sessionID appium)
  | CtlQuarantine deviceID reservationID eventType reason payload => ignore (quarantine_tx deviceID reservationID eventType reason payload)
  | CtlManage w => run_write w
  end).

(** ** The reconciler *)
Lemma reported_ok config device input now env s out s' :
  reported config device input now env s = (Ok out, s') ->
  s' = s /\ (Lifecycle out.1 = st_Lifecycle device \/ Lifecycle out.1 = DeviceQuarantined
             \/ Lifecycle out.1 = assignment_state (st_AssignmentTarget device)).
Proof.
  unfold reported. intros H.
  apply bindT_ok in H as (d0 & s1 & E & H). apply lift_ok in E as [[El _]%RestoreDevice_lifecycle ->].
  destruct (healthOutcome device input) as [target failures].
  apply bindT_ok in H as (d1 & s1 & E & H). apply ensure_health_ok in E as (-> & E1 & _).
  apply bindT_ok in H as (d2 & s2 & E & H).
  assert (s2 = s /\ (Lifecycle d2 = st_Lifecycle device \/ Lifecycle d2 = assignment_state (st_AssignmentTarget device))) as [-> E2].
  { destruct (recovers device input target d1).
    - apply recoverDeviceLifecycle_ok in E as [-> E]. auto.
    - injection E as <- <-. rewrite E1, El. auto. }
  clear E. apply bindT_ok in H as (d3 & s3 & E & H). injection H as <- <-.
  destruct (quarantines config input failures d2).
  - apply apply_call_ok in E as [(E & _)%Transition_moves ->]. auto.
  - injection E as <- <-. cbn. destruct E2; auto.
Qed.

#[export] Instance report_moves config id deviceID input : Moves (report_tx config id deviceID input).
Proof.
  intros env s ev s' Hk H. unfold report_tx, lockDevice in H.
  apply bindT_ok in H as (o & s1 & E & H). apply bindT_ok in E as (db & s2 & E' & E). injection E' as <- <-. injection E as <- <-.
  apply bindT_ok in H as (dev & s1 & E & H). apply expect_row_ok in E as [Hf ->].
  destruct (devices (st_db s) !! deviceID) as [row|] eqn:Hrow; [|done].
  destruct (device_hosts (st_db s) !! d_host_id row) as [h|]; [|done]. injection Hf as <-.
  apply bindT_ok in H as (now & s1 & E & H). injection E as <- <-.
  apply bindT_ok in H as ([d failures] & s1 & E & H). apply reported_ok in E as [-> Hl]. cbn in Hl.
  apply bindT_ok in H as (n & s1 & E & H). pose proof (keyed_device _ Hk _ _ Hrow) as Hid.
  etrans.
  - eapply save_device_step; [exact E|]. cbn [device_state st_ID]. rewrite Hid. intros x Hx _.
    simplify_eq. split; [done|]. cbn. intros Hp.
    destruct Hl as [-> | [-> | ->]]; [done|done|apply assignment_placed].
  - apply bindT_ok in H as (t & s2 & E2 & H). injection H as _ <-. by apply same_tables_step, (keeps _ _ _ _ E2).
Qed.

#[export] Instance restart_moves deviceID allowStopped : Moves (restart_tx deviceID allowStopped).
Proof.
  intros env s b s' Hk H. unfold restart_tx, find_restartable in H.
  apply bindT_ok in H as (o & s1 & E & H). apply bindT_ok in E as (db & s2 & E' & E). injection E' as <- <-. injection E as <- <-.
  destruct (devices (st_db s) !! deviceID) as [row|] eqn:Hrow; [|by injection H as _ <-].
  destruct (device_hosts (st_db s) !! d_host_id row) as [h|]; [|by injection H as _ <-].
  destruct (restartable allowStopped (st_db s) row h) eqn:Hr; [|by injection H as _ <-].
  assert (~ held_by_any (st_db s) deviceID) as Hfree.
  { rewrite <-(keyed_device _ Hk _ _ Hrow). apply no_open_reservation. unfold restartable in Hr. guards. done. }
  apply bindT_ok in H as (db & s1 & E & H). injection E as <- <-.
  destruct (negb (may_restart _ _ _)); [by injection H as _ <-|].
  apply bindT_ok in H as (now & s1 & E & H). injection E as <- <-.
  apply bindT_ok in H as (d0 & s1 & E & H). apply lift_ok in E as [_ ->]. cbv zeta in H.
  apply bindT_ok in H as (d1 & s1 & E & H). apply ensure_health_ok in E as (-> & _).
  apply bindT_ok in H as (d2 & s1 & E & H). apply apply_call_ok in E as [(El & _)%Transition_moves ->].
  apply bindT_ok in H as (commandID & s1 & E & H). pose proof (keeps (g := allocation_tables) _ _ _ _ E) as T1. clear E.
  apply bindT_ok in H as (u & s2 & E & H). pose proof (keeps (g := allocation_tables) _ _ _ _ E) as T2. clear E.
  apply bindT_ok in H as (n & s3 & E & H).
  assert (control_step (st_db s) (st_db s2)) as S2 by (apply same_tables_step; congruence).
  assert (control_step (st_db s2) (st_db s3)) as S3.
  { eapply save_device_step; [exact E|]. intros x _ _. split; [done|]. intros _. cbn. rewrite El.
    apply placed_unheld; [by destruct (lifecycle_is _ _)|].
    eapply held_step; [exact S2|exact Hfree]. }
  etrans; [exact S2|]. etrans; [exact S3|]. by apply same_tables_step, (keeps (m := record_restart _ _ _ _ _) _ _ _ _ H).
Qed.

(** ** Heartbeats *)
Lemma and_then_ok {A} (r : result Err A) f b : and_then r f = Ok b -> exists a, r = Ok a /\ f a = Ok b.
Proof. destruct r; [|done]. eauto. Qed.

Lemma step_ok {A} (c : result Err unit * A) a : step c = Ok a -> c = (Ok tt, a).
Proof. destruct c as [[[]|e] x]; [|done]. by intros [= ->]. Qed.

Lemma step_transition d to reason now d' : step (Transition d to reason now) = Ok d' -> Lifecycle d' = to.
Proof. by intros (? & _)%step_ok%Transition_moves. Qed.

Lemma step_update_health d to reason now d' : step (UpdateHealth d to reason now) = Ok d' -> Lifecycle d' = Lifecycle d.
Proof. by intros (? & _)%step_ok%UpdateHealth_stays. Qed.

Lemma recoverFromHostOutage_ok d target now d' :
  recoverFromHostOutage d target now = Ok d' -> Lifecycle d' = assignment_state target.
Proof.
  unfold recoverFromHostOutage. intros (d5 & H5 & H)%and_then_ok. apply and_then_ok in H5 as (d4 & H4 & H5).
  apply and_then_ok in H4 as (d3 & H3 & H4). apply step_transition in H4. unfold assignment_state.
  destruct (target =? "busy")%string; [by apply step_transition in H|]. injection H as <-. rewrite orb_false_r in H5.
  destruct (target =? "reserved")%string; [by apply step_transition in H5|]. injection H5 as <-. done.
Qed.

(** A report moves a device only among the lifecycles of devices that nobody holds. *)
Definition moves_free (l l' : DeviceLifecycleStatus) : Prop := l' = l \/ (unheld l = true /\ unheld l' = true).

Lemma moves_free_placed db k l l' : moves_free l l' -> placed db k l -> placed db k l'.
Proof. intros [->|[H H']]; [done|]. by apply unheld_placed. Qed.

Lemma lifecycle_test d l : bool_decide (Lifecycle d = l) = true -> Lifecycle d = l.
Proof. apply bool_decide_eq_true. Qed.

Lemma applyDiscoveredLifecycle_ok d incoming now d' :
  applyDiscoveredLifecycle d incoming now = Ok d' -> moves_free (Lifecycle d) (Lifecycle d').
Proof.
  assert (forall a, moves_free (Lifecycle a) (Lifecycle a)) as Hrefl by (by left).
  assert (forall a b to reason, unheld (Lifecycle a) = true -> unheld to = true ->
    step (Transition a to reason now) = Ok b -> moves_free (Lifecycle a) (Lifecycle b)) as Hto.
  { intros a b to reason Ha Hb ->%step_transition. by right. }
  assert (forall a l1 l2, bool_decide (Lifecycle a = l1) || bool_decide (Lifecycle a = l2) = true ->
    unheld l1 = true -> unheld l2 = true -> unheld (Lifecycle a) = true) as Hor.
  { intros a l1 l2 [->%lifecycle_test| ->%lifecycle_test]%orb_true_iff; auto. }
  unfold applyDiscoveredLifecycle. destruct (bool_decide (Lifecycle d = incoming)); [intros [= <-]; done|].
  destruct incoming; try (intros [= <-]; done).
  - destruct (_ || _) eqn:E; [|intros [= <-]; done]. eapply Hto; [by eapply Hor|done].
  - intros (d1 & H1 & H)%and_then_ok.
    assert (moves_free (Lifecycle d) (Lifecycle d1)) as M1.
    { destruct (_ || _) eqn:E; [|by injection H1 as <-]. eapply Hto; [by eapply Hor| |exact H1]. done. }
    destruct (bool_decide (Lifecycle d1 = DeviceBooting)) eqn:E; [|by injection H as <-].
    apply lifecycle_test in E. apply step_transition in H. rewrite H. rewrite E in M1.
    destruct M1 as [<-|[? _]]; by right.
  - destruct (_ || _) eqn:E; [|intros [= <-]; done]. eapply Hto; [by eapply Hor|done].
Qed.

Lemma observe_placed db k current seen now a :
  observe current seen now = Ok a -> ds_assignmentTarget current = assignment_target k db ->
  placed db k (ds_lifecycle current) -> placed db k (Lifecycle a).
Proof.
  unfold observe. destruct (RestoreDevice _ _ _) as [d0|] eqn:E0; [|done]. apply RestoreDevice_lifecycle in E0 as [E0 _].
  intros (d1 & H1 & H)%and_then_ok Ht Hp.
  assert (placed db k (Lifecycle d1)) as P1.
  { destruct (recoveredAutomatically current seen); [|injection H1 as <-; by rewrite E0].
    apply recoverFromHostOutage_ok in H1 as ->. rewrite Ht. apply assignment_placed. }
  destruct (applies current seen); [|by injection H as <-].
  apply and_then_ok in H as (d2 & H2 & H).
  assert (Lifecycle d2 = Lifecycle d1) as E2.
  { destruct (_ && _); [by apply step_update_health in H2|by injection H2 as <-]. }
  rewrite <-E2 in P1. destruct (_ || _ || _); [by injection H as <-|].
  apply applyDiscoveredLifecycle_ok in H. by eapply moves_free_placed.
Qed.

Lemma adopt_base_step id now db : control_step db (adopt_base id now db).
Proof. apply pools_fmap_step. intros p. by destruct (_ && _). Qed.

#[export] Instance discovered_moves hostID discovered now : Moves (updateDiscoveredDevice hostID discovered now).
Proof.
  intros env s u s' Hk H. unfold updateDiscoveredDevice in H.
  apply bindT_ok in H as (db & s1 & E & H). injection E as <- <-.
  destruct (first_where _ _) as [row|] eqn:Hf; [|by injection H as _ <-].
  apply first_where_Some in Hf as [(k & Hrow)%elem_of_rows _]. pose proof (keyed_device _ Hk _ _ Hrow) as Hid.
  apply bindT_ok in H as (u1 & s1 & E & H). apply guardT_ok in E as [_ ->].
  apply bindT_ok in H as (c & s1 & E & H). destruct (discoveredConnection _) as [c'|]; [|done]. injection E as <- <-. cbv zeta in H.
  apply bindT_ok in H as (a & s1 & E & H). apply lift_ok in E as [Ho ->].
  apply bindT_ok in H as (n & s1 & E & H).
  assert (control_step (st_db s) (st_db s1)) as S1.
  { eapply save_device_step; [exact E|]. rewrite Hid. intros x Hx _. simplify_eq. split; [done|].
    exact (observe_placed _ _ _ _ _ _ Ho eq_refl). }
  etrans; [exact S1|]. destruct (_ && _ && _); [|by injection H as _ <-]. injection H as _ <-. apply adopt_base_step.
Qed.

#[export] Instance update_devices_moves hostID ds now : Moves (update_devices hostID ds now).
Proof. induction ds; cbn [update_devices]; apply _. Qed.

Lemma quarantined_step id g f env s n s' (a : Domain.Device) :
  save_device id g f env s = (Ok n, s') -> Lifecycle a = DeviceQuarantined ->
  (forall d, d_id (f d) = d_id d /\ d_lifecycle (f d) = Lifecycle a) -> control_step (st_db s) (st_db s').
Proof.
  intros H Ha Hf. eapply save_device_step; [exact H|]. intros d _ _. destruct (Hf d) as [-> ->]. split; [done|]. by rewrite Ha.
Qed.

#[export] Instance missing_moves hostID d now : Moves (quarantine_missing hostID d now).
Proof.
  intros env s u s' Hk H. unfold quarantine_missing in H.
  apply bindT_ok in H as (d0 & s1 & E & H). apply lift_ok in E as [_ ->].
  apply bindT_ok in H as (d1 & s1 & E & H). apply ensure_health_ok in E as (-> & _).
  apply bindT_ok in H as (d2 & s1 & E & H). apply ensure_lifecycle_ok in E as [-> El].
  apply bindT_ok in H as (n & s1 & E & H). etrans; [by eapply quarantined_step|].
  apply bindT_ok in H as (i & s2 & E2 & H). apply bindT_ok in H as (t & s3 & E3 & H). injection H as _ <-.
  apply same_tables_step. rewrite (keeps _ _ _ _ E3). apply (keeps _ _ _ _ E2).
Qed.

#[export] Instance quarantine_all_moves hostID ds now : Moves (quarantine_all hostID ds now).
Proof. induction ds; cbn [quarantine_all]; apply _. Qed.

#[export] Instance used_json_untouched u : Keeps allocation_tables (used_json u).
Proof. unfold used_json. solve_keeps. Qed.

#[export] Instance heartbeat_moves hostID ds e capacity : Moves (heartbeat_tx hostID ds e capacity).
Proof. unfold heartbeat_tx, quarantineMissingIOSDevices. repeat (apply Moves_bind; [apply _|intros ?]). apply _. Qed.

(** ** Completions *)
Lemma save_at_step id l l' f env s n s' :
  save_device id (lifecycle_is l) f env s = (Ok n, s') ->
  (forall d, d_id (f d) = d_id d /\ d_lifecycle (f d) = l') -> (placed (st_db s) id l -> placed (st_db s) id l') ->
  control_step (st_db s) (st_db s').
Proof.
  intros H Hf Hp. eapply save_device_step; [exact H|]. intros d _ Hl%lifecycle_is_spec.
  destruct (Hf d) as [-> ->]. by rewrite Hl.
Qed.

Lemma save_at_leaving id l' f env s n s' :
  save_device id (lifecycle_is DeviceQuarantined) f env s = (Ok n, s') -> unheld l' = true ->
  (forall d, d_id (f d) = d_id d /\ d_lifecycle (f d) = l') -> leaving_step (st_db s) (st_db s').
Proof.
  intros H Hu Hf. eapply save_device_leaving; [exact H|]. intros d _ Hl%lifecycle_is_spec.
  destruct (Hf d) as [-> ->]. auto.
Qed.

Section Completions.
Context (env : Env) (s s' : St) (deviceID : string) (now : Z).

Definition keeps_place (f : DeviceRow -> DeviceRow) : Prop := forall d, d_id (f d) = d_id d /\ d_lifecycle (f d) = d_lifecycle d.

Lemma quarantine_failed_step a stays reason f u :
  keeps_place f -> quarantine_failed deviceID a stays reason now f env s = (Ok u, s') -> control_step (st_db s) (st_db s').
Proof.
  intros Hf H. unfold quarantine_failed in H.
  apply bindT_ok in H as (a1 & s1 & E & H). apply ensure_health_ok in E as (-> & _).
  apply bindT_ok in H as (a2 & s1 & E & H).
  assert (s1 = s /\ Lifecycle a2 = DeviceQuarantined) as [-> El].
  { destruct stays; [by apply ensure_lifecycle_ok in E|]. apply apply_call_ok in E as [(? & _)%Transition_moves ->]. done. }
  clear E. apply bindT_ok in H as (n & s1 & E & H). injection H as _ <-.
  eapply save_at_step; [exact E| |by intros _; apply placed_anyway; left].
  intros d. destruct (Hf (failed_row a2 reason now d)) as [-> ->]. done.
Qed.

Lemma profile_ready_ok a reason o :
  profile_ready a reason now env s = (Ok (Some o), s') ->
  s' = s /\ Lifecycle o = DeviceReady /\ (Lifecycle a = DeviceQuarantined \/ unheld (Lifecycle a) = true).
Proof.
  unfold profile_ready. intros H.
  apply bindT_ok in H as (a1 & s1 & E & H). apply ensure_health_ok in E as (-> & E1 & _).
  apply bindT_ok in H as (a2 & s1 & E & H). apply advance_ok in E as [-> E2].
  apply bindT_ok in H as (a3 & s1 & E & H). apply advance_ok in E as [-> E3].
  apply bindT_ok in H as (a4 & s1 & E & H). apply advance_ok in E as [-> E4].
  case_bool_decide as Hr; [|done].
  apply bindT_ok in H as (a5 & s1 & E & H). apply apply_call_ok in E as [[E5 _]%UpdateHealth_stays ->].
  injection H as <- <-. split; [done|]. split; [congruence|]. rewrite <-E1.
  destruct E2 as [[_ E2]|[E2 _]]; [left; by apply list_elem_of_singleton in E2|right]. rewrite <-E2.
  destruct E3 as [[_ E3]|[E3 _]]; [by apply list_elem_of_singleton in E3 as ->|]. rewrite <-E3.
  destruct E4 as [[_ E4]|[E4 _]]; [by apply list_elem_of_singleton in E4 as ->|]. by rewrite <-E4, Hr.
Qed.

Lemma reimage_ready_ok a reason o :
  reimage_ready a reason now env s = (Ok (Some o), s') -> s' = s /\ Lifecycle o = DeviceReady /\ unheld (Lifecycle a) = true.
Proof.
  unfold reimage_ready. intros H.
  apply bindT_ok in H as (a1 & s1 & E & H). apply ensure_health_ok in E as (-> & E1 & _).
  apply bindT_ok in H as (a2 & s1 & E & H). apply advance_ok in E as [-> E2].
  case_bool_decide as Hr; [|done].
  apply bindT_ok in H as (a3 & s1 & E & H). apply apply_call_ok in E as [(E3 & _)%Transition_moves ->].
  apply bindT_ok in H as (a4 & s1 & E & H). apply apply_call_ok in E as [[E4 _]%UpdateHealth_stays ->].
  injection H as <- <-. split; [done|]. split; [congruence|]. rewrite <-E1.
  destruct E2 as [[_ E2]|[E2 _]]; [by apply list_elem_of_singleton in E2 as ->|]. by rewrite <-E2, Hr.
Qed.

Lemma ready_placed db l : ~ held_by_any db deviceID -> placed db deviceID l -> placed db deviceID DeviceReady.
Proof. done. Qed.

Lemma unheld_ready db l : unheld l = true -> placed db deviceID l -> placed db deviceID DeviceReady.
Proof. intros H. by apply unheld_placed. Qed.
End Completions.

Lemma event_step record id a b ok reason p now env s u s' :
  operation_event record id a b ok reason p now env s = (Ok u, s') -> control_step (st_db s) (st_db s').
Proof. intros H. by apply same_tables_step, (keeps _ _ _ _ H). Qed.

(** The event of an operation, which moves no device, after its save. *)
Lemma leaving_after_event record id a b ok reason p now env s0 s u s' :
  leaving_step (st_db s0) (st_db s) ->
  operation_event record id a b ok reason p now env s = (Ok u, s') -> leaving_step (st_db s0) (st_db s').
Proof.
  intros Hs H. pose proof (keeps (g := allocation_tables) (m := operation_event _ _ _ _ _ _ _ _) _ _ _ _ H) as T.
  eapply leaving_before; [|by apply same_tables_step|exact Hs]. by injection T.
Qed.

Section Operations.
Context (env : Env) (s s' : St) (u : unit) (record : CommandRecord) (deviceID : string) (a : Domain.Device) (now : Z).

Lemma delete_step : reconcileManagementDelete record deviceID a now env s = (Ok u, s') -> control_step (st_db s) (st_db s').
Proof.
  intros H. unfold reconcileManagementDelete in H.
  apply bindT_ok in H as (u1 & s1 & E & H). etrans; [|by eapply event_step].
  destruct (_ && _); [|by eapply (quarantine_failed_step _ _ _ _ _ _ _ _ (fun row => row))].
  apply bindT_ok in E as (a1 & s2 & E1 & E). apply apply_call_ok in E1 as [(El & _)%Transition_moves ->].
  apply bindT_ok in E as (n & s2 & E1 & E). injection E as _ <-.
  eapply save_at_step; [exact E1|intros d; split; [done|exact El]|intros _; apply placed_anyway; by right].
Qed.

Lemma profile_row_place applied payload reason : keeps_place (profile_row applied payload reason).
Proof. by destruct applied. Qed.
Lemma reimage_row_place applied payload reason : keeps_place (reimage_row applied payload reason).
Proof. by destruct applied. Qed.

Lemma profile_step :
  reconcileManagementRuntimeProfileUpdate record deviceID a now env s = (Ok u, s') -> leaving_step (st_db s) (st_db s').
Proof.
  intros H. unfold reconcileManagementRuntimeProfileUpdate in H. cbv zeta in H.
  destruct (rollback_outcome _ _) as [[r applied]|] eqn:Ho.
  - apply bindT_ok in H as (o & s1 & E & H). destruct o as [a1|].
    + apply profile_ready_ok in E as (-> & El & Hl). apply bindT_ok in H as (n & s1 & E & H).
      eapply leaving_after_event; [|exact H].
      assert (forall d, d_id (profile_row applied (c_Payload record)
          (rollback_reason (Some (r, applied)) (rollback_code record (was_applied (Some (r, applied))) "RUNTIME_PROFILE_UPDATE_FAILED")
             "management runtime profile update applied" "runtime profile" "runtime profile")
          (stabilizing_row a1 (mo_Connection r) now d)) = d_id d /\ d_lifecycle (profile_row applied (c_Payload record)
          (rollback_reason (Some (r, applied)) (rollback_code record (was_applied (Some (r, applied))) "RUNTIME_PROFILE_UPDATE_FAILED")
             "management runtime profile update applied" "runtime profile" "runtime profile")
          (stabilizing_row a1 (mo_Connection r) now d)) = Lifecycle a1) as Hrow.
      { intros d. by destruct (profile_row_place applied (c_Payload record) (rollback_reason (Some (r, applied))
          (rollback_code record (was_applied (Some (r, applied))) "RUNTIME_PROFILE_UPDATE_FAILED")
          "management runtime profile update applied" "runtime profile" "runtime profile")
          (stabilizing_row a1 (mo_Connection r) now d)) as [-> ->]. }
      destruct Hl as [Hl|Hl].
      * rewrite Hl in E. eapply save_at_leaving; [exact E| |exact Hrow]. by rewrite El.
      * apply control_leaving. eapply save_at_step; [exact E|exact Hrow|]. rewrite El. by apply unheld_ready.
    + injection H as _ <-. unfold profile_ready in E. rewrite (read_only _ _ _ _ E). by apply control_leaving.
  - apply bindT_ok in H as (u1 & s1 & E & H). apply control_leaving. etrans; [|by eapply event_step].
    by eapply quarantine_failed_step; [apply profile_row_place|].
Qed.

Lemma reimage_step :
  reconcileManagementReimage record deviceID a now env s = (Ok u, s') -> control_step (st_db s) (st_db s').
Proof.
  intros H. unfold reconcileManagementReimage in H. cbv zeta in H.
  destruct (rollback_outcome _ _) as [[r applied]|] eqn:Ho.
  - apply bindT_ok in H as (o & s1 & E & H). destruct o as [a1|].
    + apply reimage_ready_ok in E as (-> & El & Hl). apply bindT_ok in H as (n & s1 & E & H).
      etrans; [|by eapply event_step]. eapply (save_at_step _ _ DeviceReady); [exact E| |by apply unheld_ready].
      intros d. destruct applied; done.
    + injection H as _ <-. unfold reimage_ready in E. by rewrite (read_only _ _ _ _ E).
  - apply bindT_ok in H as (u1 & s1 & E & H). etrans; [|by eapply event_step].
    by eapply quarantine_failed_step; [apply reimage_row_place|].
Qed.

Lemma stop_step : reconcileManagementStop record deviceID a now env s = (Ok u, s') -> control_step (st_db s) (st_db s').
Proof.
  intros H. unfold reconcileManagementStop in H. cbv zeta in H. destruct (stopped_result record).
  - apply bindT_ok in H as (a1 & s1 & E & H). apply ensure_health_ok in E as (-> & _).
    destruct (negb _); [by injection H as _ <-|].
    apply bindT_ok in H as (n & s1 & E & H). etrans; [|by eapply event_step].
    eapply save_device_step; [exact E|]. done.
  - apply bindT_ok in H as (u1 & s1 & E & H). etrans; [|by eapply event_step].
    by eapply (quarantine_failed_step _ _ _ _ _ _ _ _ (fun row => row)).
Qed.

Lemma restart_done_step :
  reconcileManagementRestart record deviceID a now env s = (Ok u, s') -> control_step (st_db s) (st_db s').
Proof.
  intros H. unfold reconcileManagementRestart in H. cbv zeta in H.
  destruct (if command_is CommandSucceeded record then valid_result record else None) as [r|].
  - apply bindT_ok in H as (a1 & s1 & E & H). apply ensure_health_ok in E as (-> & E1 & _).
    apply bindT_ok in H as (a2 & s1 & E & H). apply advance_ok in E as [-> E2].
    destruct (bool_decide (Lifecycle a2 = DeviceBooting)) eqn:Hb; [|by injection H as _ <-]. apply lifecycle_test in Hb.
    apply bindT_ok in H as (a3 & s1 & E & H). apply apply_call_ok in E as [(E3 & _)%Transition_moves ->].
    apply bindT_ok in H as (a4 & s1 & E & H).
    assert (s1 = s /\ Lifecycle a4 = DeviceReady) as [-> El].
    { destruct (waits_for_stf record r); [|by injection E as <- <-].
      apply apply_call_ok in E as [[E4 _]%UpdateHealth_stays ->]. split; congruence. }
    clear E. apply bindT_ok in H as (n & s1 & E & H). etrans; [|by eapply event_step].
    eapply (save_at_step _ _ DeviceReady); [exact E| |apply unheld_ready].
    + intros d. unfold connected_row, named_row. destruct (nonempty _); done.
    + rewrite <-E1. destruct E2 as [[_ E2]|[<- _]]; [|by rewrite Hb].
      apply list_elem_of_In in E2. cbn in E2. destruct E2 as [<- | [<- | []]]; done.
  - apply bindT_ok in H as (u1 & s1 & E & H). etrans; [|by eapply event_step].
    by eapply (quarantine_failed_step _ _ _ _ _ _ _ _ (fun row => row)).
Qed.
End Operations.

(** ** Dispatch of a completed command *)

Lemma addressed_device_ok db record id ref d : addressed_device db record id ref = Some d -> devices db !! id = Some d.
Proof. unfold addressed_device. destruct (_ !! id); [|done]. by destruct (_ && _). Qed.

Lemma device_operation_step record id kind row env s u s' :
  reconcile_device_operation record id kind row env s = (Ok u, s') -> leaving_step (st_db s) (st_db s').
Proof.
  unfold reconcile_device_operation. intros H.
  apply bindT_ok in H as (now & s1 & E & H). injection E as <- <-.
  apply bindT_ok in H as (a & s1 & E & H). apply lift_ok in E as [_ ->].
  destruct (command_type_in ["delete"] record); [by apply control_leaving; eapply delete_step|].
  destruct (kind =? "reimage")%string; [by apply control_leaving; eapply reimage_step|].
  destruct (kind =? "runtime_profile_update")%string; [by eapply profile_step|]. apply control_leaving.
  destruct (command_type_in ["stop"] record); [by eapply stop_step|by eapply restart_done_step].
Qed.

Lemma management_operation_step record env s u s' :
  reconcileManagementOperation record env s = (Ok u, s') -> leaving_step (st_db s) (st_db s').
Proof.
  unfold reconcileManagementOperation. intros H. apply bindT_ok in H as (u1 & s1 & E & H).
  pose proof (keeps _ _ _ _ E) as T1. eapply leaving_after; [exact T1|]. clear E T1. cbv zeta in H.
  destruct (_ || _); [injection H as _ <-; by apply control_leaving|].
  apply bindT_ok in H as (u2 & s2 & E & H). apply guardT_ok in E as [_ ->].
  apply bindT_ok in H as (db & s2 & E & H). injection E as <- <-.
  destruct (addressed_device _ _ _ _) as [row|]; [|injection H as _ <-; by apply control_leaving].
  destruct (operation_current _ _ _ _); [|injection H as _ <-; by apply control_leaving].
  by eapply device_operation_step.
Qed.

(** ** Operations of administrators *)

(** What the methods of the service prepare: the lifecycle stays, or the device goes to
    quarantine, or from a lifecycle without a holder (or under the check of the
    reservations) to another one. *)
Definition lawful_operation (op : DeviceOperation) : Prop :=
  d_lifecycle (op_Device op) = op_ExpectedLifecycle op
  \/ (unheld (d_lifecycle (op_Device op)) = true
      /\ (op_RequireNoActiveReservation op = true \/ unheld (op_ExpectedLifecycle op) = true
          \/ op_ExpectedLifecycle op = DeviceQuarantined)).

Definition lawful_state (d : DeviceRow) (old : DeviceLifecycleStatus) : Prop :=
  d_lifecycle d = DeviceQuarantined
  \/ (d_lifecycle d = DeviceProvisioning /\ has_edge deviceTransitions old DeviceProvisioning = true).

Lemma in_statuses_lifecycle l h row : in_statuses l h row = true -> d_lifecycle row = l.
Proof. unfold in_statuses. intros [H _]%andb_true_iff. by apply lifecycle_is_spec in H. Qed.

#[export] Instance load_device_ro id : ReadOnly (load_device id).
Proof. unfold load_device. apply bind_ro; [apply _|]. intros db. destruct (_ !! id); apply _. Qed.

Lemma update_state_step d old oldHealth audit env s v s' :
  lawful_state d old -> update_state_tx d old oldHealth audit env s = (Ok v, s') -> leaving_step (st_db s) (st_db s').
Proof.
  intros Hlaw H. unfold update_state_tx in H.
  apply bindT_ok in H as (now & s1 & E & H). injection E as <- <-.
  apply bindT_ok in H as (n & s1 & E & H).
  assert (leaving_step (st_db s) (st_db s1)) as S.
  { eapply save_device_leaving; [exact E|]. intros row Hrow Hl%in_statuses_lifecycle. split; [done|]. cbn. rewrite Hl.
    destruct Hlaw as [->|[-> He]]; [by left|]. destruct old; try done; [..|by right]; by left. }
  apply bindT_ok in H as (u1 & s2 & E2 & H). pose proof (read_only _ _ _ _ E2) as ->.
  apply bindT_ok in H as (v1 & s2 & E3 & H). pose proof (read_only _ _ _ _ E3) as ->.
  apply bindT_ok in H as (u2 & s2 & E4 & H). injection H as _ <-. pose proof (keeps (g := allocation_tables) _ _ _ _ E4) as T.
  eapply leaving_before; [|by apply same_tables_step|exact S]. by injection T.
Qed.

#[export] Instance reduce_moves id now : Moves (put_db (reduce_pool_targets id now)).
Proof. apply put_db_moves. intros db. apply pools_fmap_step. intros p. by destruct (member_of _ _ _). Qed.

#[export] Instance finish_moves op record now : Moves (finish_operation op record now).
Proof. unfold finish_operation. repeat (apply Moves_bind; [apply _|intros ?]). apply _. Qed.

#[export] Instance finish_devices op record now : Keeps devices (finish_operation op record now).
Proof. unfold finish_operation, load_device, insert_audit. solve_keeps. Qed.

Lemma queue_step op env s v s' :
  keyed (st_db s) -> lawful_operation op ->
  queue_tx op env s = (Ok v, s') -> leaving_step (st_db s) (st_db s').
Proof.
  intros Hk Hlaw H. unfold queue_tx in H.
  apply bindT_ok in H as (db & s1 & E & H). injection E as <- <-.
  destruct (command_with_key _ _ _) as [c|].
  { destruct (_ && _); [|done]. rewrite (read_only _ _ _ _ H). by apply control_leaving. }
  apply bindT_ok in H as (u1 & s1 & E & H). apply guardT_ok in E as [Hrow ->].
  apply bindT_ok in H as (u2 & s1 & E & H). apply guardT_ok in E as [Hun ->].
  apply bindT_ok in H as (record & s1 & E & H). apply map_err_ok in E.
  pose proof (keeps (g := allocation_tables) (m := CreateCommand _) _ _ _ _ E) as T1. clear E.
  eapply leaving_after; [exact T1|].
  destruct (negb _); [rewrite (read_only _ _ _ _ H); by apply control_leaving|].
  apply bindT_ok in H as (now & s2 & E & H). injection E as <- <-.
  apply bindT_ok in H as (n & s2 & E & H).
  assert (leaving_step (st_db s1) (st_db s2)) as S2.
  { eapply save_device_leaving; [exact E|]. intros row _ Hexp. unfold expected in Hexp.
    apply andb_true_iff in Hexp as [_ Hl%in_statuses_lifecycle]. unfold operated. split.
    { by destruct (op_Reimage op), (op_RuntimeProfileUpdate op). }
    assert (forall r, d_lifecycle (operated op r row) = d_lifecycle (op_Device op)) as El.
    { intros r. unfold operated. by destruct (op_Reimage op), (op_RuntimeProfileUpdate op). }
    fold (operated op (env_clock env) row). rewrite El, Hl.
    destruct Hlaw as [->|[Hu [Hreq|[Hx|Hx]]]]; [by left|left|left|by right]; intros Hp; apply placed_unheld; try done.
    - injection T1 as _ Hr _. unfold held_by_any, held. rewrite Hr. apply no_open_reservation.
      unfold unoccupied in Hun. rewrite Hreq in Hun. guards. done.
    - by apply (placed_unheld _ _ _ Hx). }
  apply bindT_ok in H as (u3 & s3 & E3 & H). pose proof (read_only _ _ _ _ E3) as ->.
  eapply leaving_before; [exact (finish_devices op record _ _ _ _ _ H)| |exact S2].
  eapply (finish_moves op record); [|exact H]. eapply leaving_keyed; [|exact S2].
  eapply control_step_keyed; [exact Hk|by apply same_tables_step].
Qed.

(** ** Every transaction *)
Definition checked_control (op : control_operation) : Prop :=
  match op with
  | CtlQueue op => lawful_operation op
  | CtlUpdateState d old _ _ => lawful_state d old
  | CtlManage w => lawful_write w
  | _ => True
  end.

(** A command settled by its host or by the recovery, and the reconciliation of its
    operation. *)
Lemma settled_step (command : Tx CommandRecord) {K : Keeps allocation_tables command} env s a s' :
  (record ← command; _ ← reconcileManagementOperation record; mret record) env s = (Ok a, s') ->
  leaving_step (st_db s) (st_db s').
Proof.
  intros H. apply bindT_ok in H as (c & s1 & E & H). apply bindT_ok in H as (u & s2 & E2 & H). injection H as _ <-.
  pose proof (K _ _ _ _ E) as T. eapply leaving_after; [exact T|]. by eapply management_operation_step.
Qed.

Lemma complete_step id input code env s c s' :
  complete_tx id input code env s = (Ok c, s') -> leaving_step (st_db s) (st_db s').
Proof. unfold complete_tx. apply settled_step, _. Qed.

Lemma recover_step env s c s' : recover_tx env s = (Ok c, s') -> leaving_step (st_db s) (st_db s').
Proof. unfold recover_tx. apply settled_step, _. Qed.

(** What every other transaction guarantees. *)
Definition leaves_quarantine (op : control_operation) : bool :=
  match op with CtlQueue _ | CtlUpdateState _ _ _ _ | CtlComplete _ _ _ | CtlRecover => true | _ => false end.

Lemma run_control_step op env s r s' :
  keyed (st_db s) -> checked_control op -> run_control op env s = (r, s') ->
  leaving_step (st_db s) (st_db s') /\ (leaves_quarantine op = false -> control_step (st_db s) (st_db s')).
Proof.
  intros Hk Hc H. enough (if leaves_quarantine op then leaving_step (st_db s) (st_db s') else control_step (st_db s) (st_db s')) as Hs.
  { destruct (leaves_quarantine op); [done|]. split; [by apply control_leaving|done]. }
  apply WithinTx_result in H as [(u & _ & H)|(e & _ & Hdb)];
    [|rewrite Hdb; destruct (leaves_quarantine op); [by apply control_leaving|done]].
  destruct op; cbn in Hc; cbv iota in H; unfold ignore in H; try apply bindT_ok in H as (x & s1 & H & [= _ <-]); cbn [leaves_quarantine].
  - by apply report_moves in H.
  - by apply restart_moves in H.
  - by apply (moves (m := offline_tx _ _)) in H.
  - by apply heartbeat_moves in H.
  - by eapply complete_step.
  - by eapply recover_step.
  - by apply (moves (m := CreateCommand _)) in H.
  - by apply (moves (m := ClaimNext _ _ _)) in H.
  - by apply (moves (m := ExtendLease _ _ _ _)) in H.
  - by eapply queue_step.
  - by eapply update_state_step.
  - by apply (moves (m := sync_tx _ _ _ _)) in H.
  - by apply (moves (m := prepare_tx _ _ _ _ _ _ _)) in H.
  - by apply provision_moves in H.
  - by apply (moves (m := create_job_tx _ _ _ _)) in H.
  - by apply (moves (m := update_job _ _ _)) in H.
  - by apply recycle_moves in H.
  - by apply settle_moves in H.
  - by apply ios_scale_down_moves in H.
  - by apply (moves (m := image_validation_tx _)) in H.
  - by apply (moves (m := recordHostImageOutcomes)) in H.
  - by apply demand_moves in H.
  - by apply pool_moves in H.
  - by apply simulator_moves in H.
  - by apply (moves (m := issue_tx _ _ _ _ _ _ _ _ _ _ _)) in H.
  - by apply (moves (m := consume_tx _ _ _)) in H.
  - by apply (moves (m := bind_tx _ _ _)) in H.
  - by apply (moves (m := close_tx _ _ _)) in H.
  - by apply (moves (m := failure_tx _ _ _ _)) in H.
  - by apply (moves (m := closed_tx _ _ _ _ _)) in H.
  - by apply quarantine_moves in H.
  - by apply (run_write_moves w Hc) in H.
Qed.

(** The transactions of the rest of the control plane interfere as [FarmSystem] allows,
    and keep the devices in agreement with the reservations. *)
Lemma control_step_interference db db' : keyed db -> pools_ok db -> control_step db db' -> interference db db'.
Proof.
  intros Hk Hp Hs. pose proof Hs as [Hr _ _ _ Hpools]. split; [done|]. split; [by eapply control_step_keyed|].
  intros k p' [?|(p & Hk' & ->)]%Hpools; [done|by eapply Hp].
Qed.

Lemma control_step_assigned db db' : control_step db db' -> assigned db -> assigned db'.
Proof.
  intros [Hr _ _ Hp _] Ha k. apply (placed_row_rows _ _ _ _ Hr), Hp, Ha.
Qed.

Lemma assigned_coordinated db : assigned db -> coordinated db.
Proof. intros H k d Hk. specialize (H k). rewrite Hk in H. by split_and!; intros E; cbn in H; rewrite E in H. Qed.
