(* ===== verification/SessionsKept.v ===== *)
(** * The sessions under the transactions of the other components

    [FencesKept m]: whatever [m] returns, it adds only sessions without a grant, and
    changes neither the fence columns nor the device of a session, nor opens again one that has
    ended.  Every transaction of the scheduler, the service and the reaper is such a
    computation, and the rest of the control plane, the session service apart, does not
    write the sessions at all. *)
From S2P Require Import Prelude GoText Errors Domain DomainSpec Json Sensitive Actor Store.
From S2P Require Import RuntimeProfile ReservationRepo TxFacts ServiceFacts CommandRepo DeviceStore Reconcile DeviceOps ImageCatalog.
From S2P Require Import HostCommand HostSelection Completion WarmPool PoolCycle PoolScale IOSSimulator IOSSession ManagementStore Heartbeat.
From S2P Require Import PoolSelector ReservationService Scheduler FarmSystem ControlStep PoolMoves SessionMoves ManagementMoves ControlPlane.

Abbreviation SameSessions := (Keeps device_sessions).

(** ** The rest of the control plane

    A computation is opened at its head until only statements on other tables and reads
    are left; the loops are taken by induction. *)
Ltac head_of t := lazymatch t with ?f _ => head_of f | _ => t end.
Ltac keep_table :=
  cbv zeta;
  lazymatch goal with
  | |- Keeps _ (_ ≫= _) => apply bind_keeps; [keep_table|intros ?; keep_table]
  | |- Keeps _ (match ?x with _ => _ end) => destruct x; keep_table
  | |- Keeps _ (map_err _ _) => apply map_err_keeps; keep_table
  | |- Keeps _ (attempt _) => apply attempt_keeps; keep_table
  | |- Keeps _ (WithinTx _) => apply WithinTx_keeps; keep_table
  | |- Keeps _ (ignore _) => unfold ignore; keep_table
  | |- Keeps _ ?m => first [ solve [apply _] | let h := head_of m in progress unfold h; keep_table ]
  end.

#[export] Instance save_device_sessions id g f : SameSessions (save_device id g f).
Proof. keep_table. Qed.
#[export] Instance transitions_sessions targets : forall d reason now, SameSessions (transitions d targets reason now).
Proof. induction targets; intros; cbn [transitions]; keep_table. Qed.
#[export] Instance update_devices_sessions hostID ds now : SameSessions (update_devices hostID ds now).
Proof. induction ds; cbn [update_devices]; keep_table. Qed.
#[export] Instance quarantine_all_sessions hostID ds now : SameSessions (quarantine_all hostID ds now).
Proof. induction ds; cbn [quarantine_all]; keep_table. Qed.
#[export] Instance record_entries_sessions es : SameSessions (record_entries es).
Proof. induction es; cbn [record_entries]; keep_table. Qed.
#[export] Instance upsert_outcomes_sessions l : forall w, SameSessions (upsert_outcomes w l).
Proof. induction l; intros w; cbn [upsert_outcomes]; keep_table. Qed.
#[export] Instance queue_each_sessions f ds : (forall d, SameSessions (f d)) -> SameSessions (queue_each f ds).
Proof. intros Hf. induction ds; cbn [queue_each]; keep_table. Qed.
#[export] Instance queue_cleanup_sessions p d : SameSessions (queue_cleanup p d).
Proof. keep_table. Qed.
#[export] Instance clean_failed_sessions p d : SameSessions (clean_failed_create p d).
Proof. keep_table. Qed.
#[export] Instance scale_down_sessions p platform t n : SameSessions (queueScaleDown p platform t n).
Proof. induction n; cbn [queueScaleDown]; keep_table. Qed.
#[export] Instance complete_creates_sessions l : SameSessions (complete_creates l).
Proof. induction l as [|[d c] l IH]; cbn [complete_creates]; keep_table. Qed.
#[export] Instance create_device_sessions a b c d e f g h : SameSessions (createDeviceCommand a b c d e f g h).
Proof. keep_table. Qed.
#[export] Instance fill_group_sessions caps n : SameSessions (fill_group caps n).
Proof. induction n; cbn [fill_group]; keep_table. Qed.
#[export] Instance fill_groups_sessions gs : SameSessions (fill_groups gs).
Proof. induction gs; cbn [fill_groups]; keep_table. Qed.
#[export] Instance create_missing_sessions p i caps profile n : SameSessions (create_missing p i caps profile n).
Proof. induction n; cbn [create_missing]; keep_table. Qed.

(** The transactions of the session service. *)
Definition of_sessions (op : control_operation) : bool :=
  match op with
  | CtlIssue _ _ _ _ _ _ _ _ _ _ _ | CtlConsume _ _ _ | CtlBind _ _ _ | CtlClose _ _ _ | CtlFailure _ _ _ _
  | CtlClosed _ _ _ _ _ | CtlQuarantine _ _ _ _ _ => true
  | _ => false
  end.

#[export] Instance operation_event_sessions r d a b ok reason p now : SameSessions (operation_event r d a b ok reason p now).
Proof. keep_table. Qed.
#[export] Instance management_operation_sessions record : SameSessions (reconcileManagementOperation record).
Proof. keep_table. Qed.
#[export] Instance report_sessions config id deviceID input : SameSessions (report_tx config id deviceID input).
Proof. keep_table. Qed.
#[export] Instance write_sessions w : SameSessions (run_write w).
Proof.
  assert (forall T V (R : Resource T V) meta (row : T),
    SameSessions (insert_resource row) -> (forall id, SameSessions (load_resource id)) -> SameSessions (create_resource_tx meta row)) as Hc.
  { intros T V R meta row Hi Hl. unfold create_resource_tx. keep_table. }
  destruct w; cbn [run_write]; try keep_table; unfold ignore.
  all: apply bind_keeps; [apply Hc; cbn; intros; keep_table|intros ?; keep_table].
Qed.
#[export] Instance forget_image_sessions h i : Preserves device_sessions (forget_missing_image h i).
Proof. intros db. unfold forget_missing_image. destruct (_ !! _) as [x|]; [|done]. by destruct (hi_available x). Qed.
#[export] Instance pool_sessions p i : SameSessions (pool_tx p i).
Proof. keep_table. Qed.

Lemma control_sessions op : of_sessions op = false -> SameSessions (run_control op).
Proof. intros Hop. unfold run_control. apply WithinTx_keeps. destruct op; try done; cbv iota; keep_table. Qed.

(** ** The scheduler, the service and the reaper *)
Definition sessions_keyed (db : DB) : Prop := forall k x, device_sessions db !! k = Some x -> s_ID x = k.

(** What a transaction other than those of the session service does to the sessions. *)
Record fences_kept (db db' : DB) : Prop := {
  fk_keyed : sessions_keyed db -> sessions_keyed db';
  fk_rows k x' : sessions_keyed db -> device_sessions db' !! k = Some x' ->
    s_Fence x' = no_fence
    \/ exists x, device_sessions db !! k = Some x /\ s_Fence x' = s_Fence x /\ s_DeviceID x' = s_DeviceID x
         /\ (open_appium x' = true -> open_appium x = true) }.

Lemma fences_kept_same db db' : device_sessions db' = device_sessions db -> fences_kept db db'.
Proof. intros E. split; unfold sessions_keyed; rewrite E; [done|]. intros k x' _ H. right. by exists x'. Qed.

Lemma fences_kept_trans db1 db2 db3 : fences_kept db1 db2 -> fences_kept db2 db3 -> fences_kept db1 db3.
Proof.
  intros [K1 R1] [K2 R2]. split; [auto|]. intros k x3 Hk H. apply R2 in H as [|(x2 & H2 & E2 & D2 & O2)]; [by left| |auto].
  apply R1 in H2 as [E1|(x1 & H1 & E1 & D1 & O1)]; [left; congruence| |done]. right. exists x1. split_and!; [done|congruence|congruence|auto].
Qed.

Class FencesKept {A} (m : Tx A) : Prop :=
  fences : forall env s r s', m env s = (r, s') -> fences_kept (st_db s) (st_db s').

#[export] Instance same_sessions_kept {A} (m : Tx A) : SameSessions m -> FencesKept m | 20.
Proof. intros K env s r s' H. apply fences_kept_same, (K _ _ _ _ H). Qed.

#[export] Instance bind_kept {A B} (m : Tx A) (f : A -> Tx B) : FencesKept m -> (forall a, FencesKept (f a)) -> FencesKept (m ≫= f) | 10.
Proof.
  intros Hm Hf env s r s' H. unfold mbind, Tx_bind, M_bind in H. destruct (m env s) as [[a|e] s1] eqn:E; apply Hm in E.
  - eapply fences_kept_trans; [exact E|]. by eapply Hf.
  - by injection H as _ <-.
Qed.

(** A write of a row of a session, found by its reservation. *)
Lemma put_session_kept db x x' :
  s_ID x' = s_ID x -> (sessions_keyed db -> device_sessions db !! s_ID x = Some x) ->
  s_Fence x' = s_Fence x -> s_DeviceID x' = s_DeviceID x -> (open_appium x' = true -> open_appium x = true) ->
  fences_kept db (put_session (s_ID x) x' db).
Proof.
  intros Hi Hx Hf Hd Ho. split; unfold sessions_keyed; cbn.
  - intros Hk k y [[<- <-]|[_ Hy]]%lookup_insert_Some; [done|by apply Hk].
  - intros k y Hk [[<- <-]|[_ Hy]]%lookup_insert_Some; right; [exists x|by exists y]. split_and!; auto.
Qed.

Lemma update_session_kept id guard f :
  (forall x, guard x = true -> s_ID (f x) = s_ID x /\ s_Fence (f x) = s_Fence x /\ s_DeviceID (f x) = s_DeviceID x
     /\ (open_appium (f x) = true -> open_appium x = true)) ->
  FencesKept (update_session id guard f).
Proof.
  intros Hf env s r s' H. unfold update_session, get_db, mbind, Tx_bind, M_bind, gets in H.
  destruct (session_of (st_db s) id) as [x|] eqn:Hx; [|injection H as _ <-; by apply fences_kept_same].
  destruct (guard x) eqn:Hg; [|injection H as _ <-; by apply fences_kept_same]. injection H as _ <-.
  destruct (Hf x Hg) as (? & ? & ? & ?). apply put_session_kept; try done.
  intros Hk. apply session_of_spec in Hx as [_ [k Hx]]. by rewrite (Hk _ _ Hx).
Qed.

Lemma insert_session_kept x : s_Fence x = no_fence -> FencesKept (insert_session x).
Proof.
  intros Hf env s r s' H. unfold insert_session, get_db, mbind, Tx_bind, M_bind, gets in H.
  destruct (_ !! s_ID x) eqn:Hx; [injection H as _ <-; by apply fences_kept_same|].
  destruct (session_of _ _); [injection H as _ <-; by apply fences_kept_same|]. injection H as _ <-.
  split; unfold sessions_keyed; cbn.
  - intros Hk k y [[<- <-]|[_ Hy]]%lookup_insert_Some; [done|by apply Hk].
  - intros k y Hk [[<- <-]|[_ Hy]]%lookup_insert_Some; [by left|right; by exists y].
Qed.

Ltac keep_fences :=
  cbv zeta;
  lazymatch goal with
  | |- FencesKept (_ ≫= _) => apply bind_kept; [keep_fences|intros ?; keep_fences]
  | |- FencesKept (match ?x with _ => _ end) => destruct x; keep_fences
  | |- FencesKept (update_session _ _ _) => apply update_session_kept; intros ? ?; split_and!; [done..|]
  | |- FencesKept (insert_session _) => by apply insert_session_kept
  | |- FencesKept ?m => first [ solve [apply same_sessions_kept; keep_table] | let h := head_of m in progress unfold h; keep_fences ]
  end.

Lemma WithinTx_kept {A} (m : Tx A) : FencesKept m -> FencesKept (WithinTx m).
Proof.
  intros Hm env s r s' [(a & -> & E)|(e & -> & E)]%WithinTx_result; [by eapply Hm|rewrite E; by apply fences_kept_same].
Qed.

(** A session that leaves the active status keeps its columns. *)
Lemma closing_closes x now : session_is SessionActive x = true ->
  open_appium (x <| s_Status := SessionClosing |> <| s_UpdatedAt := now |>) = true -> open_appium x = true.
Proof.
  unfold open_appium, session_is. cbn. rewrite bool_decide_eq_true. intros Hs [H _]%andb_true_iff. by rewrite H, Hs.
Qed.

Lemma closed_closes x now :
  open_appium (x <| s_Status := SessionClosed |> <| s_EndedAt := Some now |> <| s_UpdatedAt := now |>) = true -> open_appium x = true.
Proof. unfold open_appium. cbn. by rewrite andb_false_r. Qed.

Lemma farm_fences op : FencesKept (run op).
Proof.
  unfold run. apply WithinTx_kept.
  destruct op; cbv iota; unfold ignore; keep_fences; first [by apply closing_closes|by apply closed_closes|by unfold open_appium].
Qed.
