(* ===== verification/ControlSafety.v ===== *)
(** * Safety of the whole control plane

    [FarmSafety] proves exclusive holding for any rest of the control plane that respects
    assignments.  Here the rest is [ControlPlane]'s transactions: [whole_reachable] runs
    them with the transactions of the scheduler, the service and the reaper, and every
    device keeps a lifecycle that its reservations allow ([assigned]).

    The one condition is on what a step did, not on its arguments: no device that was in
    quarantine and held by a reservation has left for a lifecycle of devices that nobody
    holds ([freed_device]).  The code excludes it everywhere except in the release and the
    restart by an administrator and the end of an update of the runtime profile. *)
From S2P Require Import Prelude GoText Errors Domain DomainSpec Json Sensitive Actor Store.
From S2P Require Import RuntimeProfile ReservationRepo TxFacts CommandRepo DeviceStore Reconcile DeviceOps ImageCatalog.
From S2P Require Import HostCommand Completion Heartbeat PoolSelector ReservationService Scheduler ServiceFacts FarmSystem Samples FarmSafety.
From S2P Require Import ControlStep ControlPlane.

(** ** Assignments under the allocation protocol *)
Lemma assigned_rows db db' :
  assigned db -> devices db' = devices db -> (forall k st, held db' k st <-> held db k st) -> assigned db'.
Proof. intros Ha Hd Hh k. rewrite Hd. eapply placed_row_iff; [intros st; apply Hh|apply Ha]. Qed.

(** A step on one reservation and its device. *)
Lemma assigned_update db db' rid did old r' d' :
  assigned db -> device_reservations db !! rid = Some old ->
  device_reservations db' = <[rid := r']> (device_reservations db) ->
  devices db' = <[did := d']> (devices db) ->
  (forall k, holds k old -> k = did) -> (forall k, holds k r' -> k = did) ->
  placed db' did (d_lifecycle d') -> assigned db'.
Proof.
  intros Hc Hold Hr Hd Ho Hn Hd' k. rewrite Hd.
  destruct (decide (k = did)) as [->|Hne]; [by rewrite lookup_insert_eq|]. rewrite lookup_insert_ne by done.
  eapply placed_row_iff; [|apply Hc]. intros st.
  eapply held_other with (k0 := did); [exact Hr|exact Hold|done|done|]. intros x j [= <-]. apply Ho.
Qed.

(** Nobody holds the device, and it is neither reserved nor busy. *)
Lemma placed_free db k l : ~ held_by_any db k -> l <> DeviceReserved -> l <> DeviceBusy -> placed db k l.
Proof. intros Hn H1 H2. by destruct l. Qed.

Lemma assigned_release db db' rid did old r' d' :
  exclusive db -> assigned db -> device_reservations db !! rid = Some old -> holds did old ->
  device_reservations db' = <[rid := r']> (device_reservations db) ->
  devices db' = <[did := d']> (devices db) -> (forall k, ~ holds k r') ->
  d_lifecycle d' <> DeviceReserved -> d_lifecycle d' <> DeviceBusy -> assigned db'.
Proof.
  intros He Ha Hi Hh Hr Hd Hn Hl1 Hl2.
  eapply assigned_update; [done|exact Hi|exact Hr|exact Hd| |by intros k Hk%Hn|].
  - intros k. apply holds_one, Hh.
  - apply placed_free; [|done|done]. by eapply freed.
Qed.

Lemma assigned_step now db db' : exclusive db -> assigned db -> alloc_step now db db' -> assigned db'.
Proof.
  intros He Ha Hs.
  destruct Hs as [Hd Hr|p ? Hnone Hd Hr|rid did r d Hi Hst Hno Hj Hl Hh Hd Hr|rid did r d Hi Hst Hdev Hj Hl ? Hd Hr
    |rid did r d st l code Hi Hst Hdev Hj Hl Hst' -> Hd Hr|rid r code Hi Hst Hno Hd Hr|rid r e e' Hi Hst ? ? ? ? Hd Hr
    |rid did r d term rec tgt Hi Hst Hdev Hcl ? Hj Hclo Hd Hr].
  - eapply assigned_rows; [done|done|]. intros k st. unfold held. by rewrite Hr.
  - eapply assigned_rows; [done|done|]. eapply held_nobody; [exact Hr| |].
    + by intros k; apply holds_none.
    + intros x k. by rewrite Hnone.
  - set (r' := _ : ReservationRecord) in Hr. assert (holds did r') as Hr' by (split; [done|cbn; by rewrite Hst]).
    eapply assigned_update; [done|exact Hi|exact Hr|exact Hd|by intros k Hk%holds_none|by intros k; apply holds_one|].
    apply (held_after _ _ _ _ Hr). by left.
  - eapply assigned_update; [done|exact Hi|exact Hr|exact Hd|by intros k; apply holds_one|by intros k; apply holds_one|].
    apply (held_after _ _ _ _ Hr). by left.
  - eapply (assigned_release _ _ rid did r); [done|done|exact Hi|by split; [done|rewrite Hst]|exact Hr|exact Hd| | |].
    + intros k. by apply holds_none.
    + cbn. by destruct (healthy d).
    + cbn. by destruct (healthy d).
  - eapply assigned_rows; [done|done|]. eapply held_nobody; [exact Hr| |].
    + intros k. by apply holds_none.
    + intros x k. rewrite Hi. intros [= <-]. by apply holds_none.
  - eapply assigned_rows; [done|done|]. intros k st. rewrite (held_after _ _ _ _ Hr). cbn. split.
    + intros [[Hh Hs]|(j & x & _ & ?)]; [by exists rid, r|by exists j, x].
    + intros (j & x & Hx & Hh & Hs). destruct (decide (j = rid)) as [->|]; [|right; by exists j, x]. simplify_eq. by left.
  - destruct (released_lifecycle_free rec tgt now d Hclo).
    eapply (assigned_release _ _ rid did r); [done|done|exact Hi|by split; [done|rewrite Hst]|exact Hr|exact Hd| |done|done].
    intros k. apply holds_closed. cbn. by destruct term.
Qed.

(** The guarantee excludes the one way out of quarantine. *)
Lemma control_step_not_freed db db' k : assigned db -> control_step db db' -> ~ freed_device db db' k.
Proof.
  intros Ha Hs (Hh & d & d' & _ & _ & Hd' & Hu). pose proof (control_step_assigned _ _ Hs Ha k) as Hp.
  rewrite Hd' in Hp. cbn in Hp. apply (placed_unheld _ _ _ Hu) in Hp. apply Hp. destruct Hs as [Hr _ _ _ _].
  unfold held_by_any, held in *. by rewrite Hr.
Qed.

(** ** The whole system *)
Inductive whole_step : farm -> farm -> Prop :=
  | whole_alloc op env s r s' t :
      checked op -> t <= env_clock env -> run op env s = (r, s') -> whole_step (mkFarm s t) (mkFarm s' (env_clock env))
  | whole_control op env s r s' t :
      checked_control op -> t <= env_clock env -> run_control op env s = (r, s') ->
      (forall k, ~ freed_device (st_db s) (st_db s') k) ->
      whole_step (mkFarm s t) (mkFarm s' (env_clock env)).

Inductive whole_reachable : farm -> Prop :=
  | whole_init f : farm_init f -> whole_reachable f
  | whole_next f f' : whole_reachable f -> whole_step f f' -> whole_reachable f'.

Definition whole_inv (f : farm) : Prop :=
  reachable respects_assignments f /\ keyed (f_db f) /\ pools_ok (f_db f) /\ exclusive (f_db f) /\ assigned (f_db f).

Lemma whole_invariant f : whole_reachable f -> whole_inv f.
Proof.
  induction 1 as [f [s t Hnil Hidle Hk Hp]|f f' _ (Hf & Hk & Hp & He & Ha) Hstep].
  - split_and!; [by apply reach_init, init_intro|done|done| |].
    + intros d k1 k2 r1 r2. unfold f_db. cbn. by rewrite Hnil.
    + intros k. assert (~ held_by_any s.(st_db) k) as Hno by (intros (j & r & Hj & _); by rewrite Hnil in Hj).
      unfold f_db; cbn. destruct (devices (st_db s) !! k) as [d|] eqn:Hd; [|done].
      destruct (Hidle _ _ Hd). by apply placed_free.
  - destruct Hstep as [op env s r s' t Hc Ht Hrun|op env s r s' t Hc Ht Hrun Hfree]; unfold f_db in *; cbn in *.
    + pose proof (run_step _ _ _ _ _ Hk Hp Hc Hrun) as Hstep. split_and!.
      * eapply reach_step; [exact Hf|by eapply farm_run].
      * by eapply alloc_step_keyed.
      * unfold f_db, pools_ok. cbn. rewrite (run_pools _ _ _ _ _ Hrun). exact Hp.
      * eapply (proj1 (allocation_step _ _ _ (conj He (assigned_coordinated _ Ha)) Hstep)).
      * by eapply assigned_step.
    + pose proof (leaving_control _ _ (proj1 (run_control_step _ _ _ _ _ Hk Hc Hrun)) Hfree) as Hstep.
      destruct (control_step_interference _ _ Hk Hp Hstep) as (Hr & Hk' & Hp').
      assert (assigned (st_db s')) as Ha' by by eapply control_step_assigned.
      split_and!; try done.
      * eapply reach_step; [exact Hf|]. eapply farm_other; [done|done|]. intros _. by apply assigned_coordinated.
      * intros d k1 k2 r1 r2. unfold f_db. cbn. rewrite Hr. apply He.
Qed.

(** ** A run of the whole control plane *)

(** The sample farm with a pool that allows two reservations at a time. *)
Definition roomy_db : DB :=
  sample_db <| device_pools := <[pool_a := sample_pool pool_a "android-10.0.0.1" 2 false]> (device_pools sample_db) |>.
Definition roomy_ids : list string := map (fun n => ("identifier-00000" ++ Z_text n)%string) [1; 2; 3; 4; 5; 6; 7; 8; 9].
Definition roomy_state : St := mkSt roomy_db roomy_ids [] ∅.

Definition request_for (id key : string) : CreateReservationParams :=
  mkCreateParams id "service" pool_a "test_run" "test-run-00000001" [("apiLevel", jint 30)] 600 key.
Definition first_request : CreateReservationParams := request_for "reservation-0001" "create-key-1".
Definition second_request : CreateReservationParams := request_for "reservation-0002" "create-key-2".

Definition activation : operation :=
  OpActivate (mkCandidate (pending_row first_request (at_second 100)) sample_device_1) "session-00000001".

(** Device 1 is held by an active reservation. *)
Definition first_created : St := after (run (OpCreate first_request)) (env_at 100 None) roomy_state.
Definition first_reserved : St := after (run OpReserve) (env_at 101 None) first_created.
Definition first_held : St := after (run activation) (env_at 102 None) first_reserved.

Lemma run_whole op env s t :
  whole_reachable (mkFarm s t) -> checked op -> t <= env_clock env -> whole_reachable (mkFarm (after (run op) env s) (env_clock env)).
Proof. intros Hf Hc Ht. eapply whole_next; [exact Hf|]. eapply (whole_alloc op env s (run op env s).1); [done|done|]. apply surjective_pairing. Qed.

Lemma run_whole_control op env s t :
  whole_reachable (mkFarm s t) -> checked_control op -> leaves_quarantine op = false -> t <= env_clock env ->
  whole_reachable (mkFarm (after (run_control op) env s) (env_clock env)).
Proof.
  intros Hf Hc Hop Ht. eapply whole_next; [exact Hf|].
  eapply (whole_control op env s (run_control op env s).1); [done|done|apply surjective_pairing|].
  pose proof (whole_invariant _ Hf) as (_ & Hk & _ & _ & Ha). intros k.
  eapply control_step_not_freed; [exact Ha|].
  by apply (run_control_step op env s (run_control op env s).1 _ Hk Hc (surjective_pairing _)).
Qed.

Lemma roomy_init : farm_init (mkFarm roomy_state (at_second 10)).
Proof.
  apply init_intro; [done|apply sample_idle| |].
  { split; [apply (keyed_reservation _ sample_keyed)|apply (keyed_device _ sample_keyed)]. }
  intros k x H. cbn in H. repeat (apply lookup_insert_Some in H as [[<- <-]|[_ H]]; [cbn; lia|]). done.
Qed.

Lemma first_held_reachable : whole_reachable (mkFarm first_held (at_second 102)).
Proof.
  apply (run_whole _ (env_at 102 None) _ (at_second 101)); [|done|done].
  apply (run_whole _ (env_at 101 None) _ (at_second 100)); [|done|done].
  apply (run_whole _ (env_at 100 None) _ (at_second 10)); [|cbn; lia|done].
  apply whole_init, roomy_init.
Qed.

(** The provider of device 1 disappears: the reconciler quarantines the held device. *)
Definition missing_event : EventInput :=
  mkEventInput "reconciler" "provider_device_missing" "critical" "device not found" (at_second 103) [] true false false.
Definition sample_config : Config := New None None 3 0 0.
Definition missing_report : control_operation := CtlReport sample_config "event-0000000001" device_1 missing_event.
Definition first_missing : St := after (run_control missing_report) (env_at 103 None) first_held.

Lemma first_missing_reachable : whole_reachable (mkFarm first_missing (at_second 103)).
Proof. apply (run_whole_control _ (env_at 103 None) _ (at_second 102)); [apply first_held_reachable|done|done|done]. Qed.

Definition summary (s : St) : option DeviceLifecycleStatus * list (string * ReservationStatus * option string) :=
  (option_map d_lifecycle (devices (st_db s) !! device_1),
   map (fun r => (r_ID r, r_Status r, r_DeviceID r)) (rows (device_reservations (st_db s)))).

Example first_missing_summary :
  summary first_missing = (Some DeviceQuarantined, [("reservation-0001", ReservationActive, Some device_1)]).
Proof. vm_compute. reflexivity. Qed.

(** ** The theorems *)

(** C5: the whole control plane is safe.  Whatever transactions of the scheduler, the
    service, the reaper, the reconciler, the heartbeats, the host commands, the
    administrators, the management of images, hosts and pools, the image catalogue, the
    warm pool, the simulators and the iOS sessions interleave, with arguments as their
    methods prepare them, and as long as no step moves a device that is quarantined and
    held to a lifecycle of devices that nobody holds: two open reservations never hold
    the same device, a device that is held exists, a device that is provisioning, booting,
    ready, stopped or recycling is held by nobody, a reserved device is held by a pending
    reservation and a busy one by an active one. *)
Theorem whole_system_safe (f : farm) :
  whole_reachable f ->
  (forall d k1 k2 r1 r2,
     device_reservations (f_db f) !! k1 = Some r1 -> device_reservations (f_db f) !! k2 = Some r2 ->
     holds d r1 -> holds d r2 -> k1 = k2)
  /\ (forall k, held (f_db f) k (fun _ => True) -> is_Some (devices (f_db f) !! k))
  /\ forall k d, devices (f_db f) !! k = Some d ->
     (unheld (d_lifecycle d) = true -> ~ held (f_db f) k (fun _ => True))
     /\ (d_lifecycle d = DeviceReserved -> held (f_db f) k (fun st => st = ReservationPending))
     /\ (d_lifecycle d = DeviceBusy -> held (f_db f) k (fun st => st = ReservationActive)).
Proof.
  intros (_ & _ & _ & He & Ha)%whole_invariant. split; [exact He|]. split.
  - intros k Hh. specialize (Ha k). destruct (devices (f_db f) !! k); [done|by destruct Ha].
  - intros k d Hk. specialize (Ha k). rewrite Hk in Ha. cbn in Ha.
    split_and!; [|by intros E; rewrite E in Ha..]. intros Hu. by apply (placed_unheld _ _ _ Hu).
Qed.

Example whole_system_safe_witness :
  held (f_db (mkFarm first_held (at_second 102))) device_1 (fun st => st = ReservationActive).
Proof.
  refine (proj2 (proj2 (proj2 (proj2 (whole_system_safe (mkFarm first_held (at_second 102)) first_held_reachable)) device_1
    (default (sample_row "" "" 0 0) (devices (st_db first_held) !! device_1)) _)) _); vm_compute; reflexivity.
Defined.

(** C6: the guarantee of one transaction.  A transaction outside the scheduler, the
    service and the reaper, on rows that carry their own identifiers and with arguments as
    the methods of its service prepare them
    (the transactions that C7 lists), changes no reservation and removes no device; a pool
    keeps its longest lease or gets one of at least a minute; every device stays in a
    lifecycle that its reservations allow, except that the operations of administrators
    and the end of a command may take a device that is quarantined and held to a lifecycle
    of devices that nobody holds; a device that it creates, which nobody holds, starts in
    a lifecycle that its reservations allow; a transaction that fails changes nothing. *)
Theorem control_transaction_guarantee (op : control_operation) (env : Env) (s s' : St) (r : result Err unit) :
  keyed (st_db s) -> checked_control op -> run_control op env s = (r, s') ->
  device_reservations (st_db s') = device_reservations (st_db s)
  /\ (forall k d, devices (st_db s) !! k = Some d -> exists d', devices (st_db s') !! k = Some d' /\ d_id d' = d_id d
        /\ (placed (st_db s) k (d_lifecycle d) ->
             placed (st_db s) k (d_lifecycle d')
             \/ (leaves_quarantine op = true /\ d_lifecycle d = DeviceQuarantined
                 /\ held (st_db s) k (fun _ => True) /\ unheld (d_lifecycle d') = true)))
  /\ (forall k d', devices (st_db s) !! k = None -> devices (st_db s') !! k = Some d' ->
        d_id d' = k /\ (~ held (st_db s) k (fun _ => True) -> placed (st_db s) k (d_lifecycle d')))
  /\ (forall k p', device_pools (st_db s') !! k = Some p' -> 60 <= p_max_lease_seconds p'
        \/ exists p, device_pools (st_db s) !! k = Some p /\ p_max_lease_seconds p' = p_max_lease_seconds p)
  /\ (is_ok r = false -> st_db s' = st_db s).
Proof.
  intros Hk Hc H. destruct (run_control_step _ _ _ _ _ Hk Hc H) as [[Hr Hkept Hfresh Hp Hpools] Hstrict].
  split_and!; [done| | |done|].
  - intros k d Hd. destruct (Hkept _ _ Hd) as (d' & Hd' & Hi). exists d'. split_and!; [done|done|]. intros Hpl.
    destruct (leaves_quarantine op) eqn:Hop.
    + specialize (Hp k). rewrite Hd, Hd' in Hp. destruct (Hp Hpl) as [|(Hh & x & y & Hx & Hq & Hy & Hu)]; [by left|].
      simplify_eq. by right.
    + left. destruct (Hstrict eq_refl) as [_ _ _ Hpk _]. specialize (Hpk k). rewrite Hd, Hd' in Hpk. by apply Hpk.
  - intros k d' Hd Hd'. split; [by eapply Hfresh|]. intros Hn. specialize (Hp k). rewrite Hd, Hd' in Hp.
    destruct (Hp Hn) as [|(Hh & _)]; [done|by apply Hn in Hh].
  - apply WithinTx_result in H as [(u & -> & _)|(e & -> & E)]; [done|by intros _].
Qed.

Example control_transaction_guarantee_witness :
  device_reservations (st_db first_missing) = device_reservations (st_db first_held).
Proof.
  exact (proj1 (control_transaction_guarantee missing_report (env_at 103 None) first_held first_missing _
    (proj1 (proj2 (whole_invariant _ first_held_reachable))) I (surjective_pairing _))).
Defined.

(** ** What the code does not check *)
Definition ready_report : HeartbeatInput :=
  mkHeartbeat (at_second 105) (Some []) []
    [mkDiscovered device_1 ("serial-" ++ device_1) "android" "emulator" "mock" DeviceReady HealthHealthy [] [] [] []].

Definition quarantine_call : Tx Device := QuarantineDeviceAudited device_1 "broken screen" sample_actor "request-00000001".
Definition release_call : Tx Device := UnquarantineDeviceAudited device_1 "screen works" sample_actor "request-00000002".
Definition ready_call : Tx HeartbeatResult := Heartbeat (fun _ => None) host_a ready_report.

Definition released_held : St :=
  after ready_call (env_at 105 None) (after release_call (env_at 104 None) (after quarantine_call (env_at 103 None) first_held)).
Definition shared : St := after (run OpReserve) (env_at 107 None) (after (run (OpCreate second_request)) (env_at 106 None) released_held).

(** the release of a quarantined device ignores its reservations.  From a reachable
    farm in which an active reservation holds a device, an administrator quarantines the
    device and releases it again, the next heartbeat makes it ready, and the scheduler
    gives it to a second reservation: two open reservations hold the same device. *)
Theorem release_shares_held_device :
  whole_reachable (mkFarm first_held (at_second 102))
  /\ summary first_held = (Some DeviceBusy, [("reservation-0001", ReservationActive, Some device_1)])
  /\ summary released_held = (Some DeviceReady, [("reservation-0001", ReservationActive, Some device_1)])
  /\ summary shared = (Some DeviceReserved, [("reservation-0001", ReservationActive, Some device_1);
                                             ("reservation-0002", ReservationPending, Some device_1)]).
Proof. split; [apply first_held_reachable|]. split_and!; vm_compute; reflexivity. Qed.

(** Device 1 unhealthy for a transient reason. *)
Definition outage_row : DeviceRow :=
  sample_row device_1 host_a 30 2 <| d_health := HealthUnhealthy |> <| d_health_reason := Some AgentReportedUnhealthyReason |>.
Definition outage_state : St := mkSt (sample_db <| devices := <[device_1 := outage_row]> (devices sample_db) |>) roomy_ids [] ∅.

(** a heartbeat can undo the quarantine of an administrator.  The quarantine does not
    store its reason with the device, so a device whose last reason was a transient
    outage is restored by the next healthy report. *)
Theorem admin_quarantine_undone :
  (summary (after quarantine_call (env_at 103 None) outage_state)).1 = Some DeviceQuarantined
  /\ (summary (after ready_call (env_at 105 None) (after quarantine_call (env_at 103 None) outage_state))).1 = Some DeviceReady.
Proof. split; vm_compute; reflexivity. Qed.
