(* ===== verification/Drives.v ===== *)
(** * Methods that run nothing but the transactions of [ControlPlane]

    [drives env db db']: [db'] is reached from [db] by transactions of [run_control]
    whose inputs are lawful ([checked_control]).  [Drives m] says it of a method; the
    reads of a method change no database, and its writes are such transactions. *)
From S2P Require Import Prelude GoText Errors Domain DomainSpec Json Sensitive Actor Store.
From S2P Require Import RuntimeProfile ReservationRepo TxFacts CommandRepo DeviceStore Reconcile DeviceOps ImageCatalog.
From S2P Require Import ReservationService Scheduler ServiceFacts FarmSystem FarmSafety ControlStep PoolMoves ManagementMoves ControlPlane.

Inductive drives (env : Env) : DB -> DB -> Prop :=
  | drives_nothing db : drives env db db
  | drives_transaction op s r s' db' :
      checked_control op -> run_control op env s = (r, s') -> drives env (st_db s') db' -> drives env (st_db s) db'.

Lemma drives_one env op s r s' : checked_control op -> run_control op env s = (r, s') -> drives env (st_db s) (st_db s').
Proof. intros Hc H. eapply drives_transaction; [exact Hc|exact H|constructor]. Qed.

Lemma drives_trans env db1 db2 db3 : drives env db1 db2 -> drives env db2 db3 -> drives env db1 db3.
Proof. induction 1 as [|op s r s' db' Hc H _ IH]; [done|]. intros H3. eapply drives_transaction; [exact Hc|exact H|by apply IH]. Qed.

Class Drives {A} (m : Tx A) : Prop :=
  method_drives : forall env s r s', m env s = (r, s') -> drives env (st_db s) (st_db s').

#[export] Instance Drives_keeps {A} (m : Tx A) : KeepsDB m -> Drives m | 20.
Proof. intros K env s r s' H. rewrite (keeps_db _ _ _ _ H). constructor. Qed.

#[export] Instance Drives_bind {A B} (m : Tx A) (f : A -> Tx B) : Drives m -> (forall a, Drives (f a)) -> Drives (m ≫= f) | 10.
Proof.
  intros Hm Hf env s r s' H. unfold mbind, Tx_bind, M_bind in H.
  destruct (m env s) as [[a|e] s1] eqn:E; apply Hm in E.
  - eapply drives_trans; [exact E|]. by eapply Hf.
  - by injection H as _ <-.
Qed.

#[export] Instance Drives_map_err {A} f (m : Tx A) : Drives m -> Drives (map_err f m) | 10.
Proof. intros Hm env s r s' H. unfold map_err in H. destruct (m env s) as [[a|e] s1] eqn:E; injection H as _ <-; by eapply Hm. Qed.
#[export] Instance Drives_attempt {A} (m : Tx A) : Drives m -> Drives (attempt m) | 10.
Proof. intros Hm env s r s' H. unfold attempt in H. destruct (m env s) as [x s1] eqn:E. injection H as _ <-. by eapply Hm. Qed.
#[export] Instance Drives_optional {A} e (m : Tx A) : Drives m -> Drives (optional e m) | 10.
Proof.
  intros Hm env s r s' H. unfold optional in H. destruct (m env s) as [[a|x] s1] eqn:E; [|destruct (errors_is x e)];
    injection H as _ <-; by eapply Hm.
Qed.
#[export] Instance Drives_if {A} (b : bool) (m1 m2 : Tx A) : Drives m1 -> Drives m2 -> Drives (if b then m1 else m2) | 10.
Proof. by destruct b. Qed.
#[export] Instance Drives_option {A B} (o : option A) (m1 : A -> Tx B) m2 :
  (forall a, Drives (m1 a)) -> Drives m2 -> Drives (match o with Some a => m1 a | None => m2 end) | 10.
Proof. by destruct o. Qed.

(** ** Binds that establish what the rest needs *)
Lemma Drives_result {A B} (m : Tx A) (P : A -> Prop) (f : A -> Tx B) :
  KeepsDB m -> (forall env s a s', m env s = (Ok a, s') -> P a) -> (forall a, P a -> Drives (f a)) -> Drives (m ≫= f).
Proof.
  intros K HP Hf env s r s' H. unfold mbind, Tx_bind, M_bind in H.
  destruct (m env s) as [[a|e] s1] eqn:E; pose proof (keeps_db _ _ _ _ E) as Hs.
  - rewrite <-Hs. eapply Hf; [by eapply HP|exact H].
  - injection H as _ <-. rewrite Hs. constructor.
Qed.

Lemma Drives_guard {B} b e (f : unit -> Tx B) : (b = true -> Drives (f tt)) -> Drives (guard_or b e ≫= f).
Proof.
  intros Hf. apply (Drives_result _ (fun _ => b = true)); [apply _|by intros ???? [? _]%guardT_ok|].
  by intros [] H; apply Hf.
Qed.

(** ** Transactions *)
Lemma WithinTx_ignore {A} (m : Tx A) env s r s' :
  WithinTx m env s = (r, s') -> exists r', WithinTx (ignore m) env s = (r', s').
Proof.
  unfold WithinTx, ignore, mbind, Tx_bind, M_bind. destruct (m env s) as [[a|e] s1]; intros [= _ <-]; eauto.
Qed.

(** A transaction of the list. *)
Lemma Drives_transaction {A} (m : Tx A) op : run_control op = WithinTx (ignore m) -> checked_control op -> Drives (WithinTx m).
Proof.
  intros E Hc env s r s' [r' H]%WithinTx_ignore. rewrite <-E in H. by eapply drives_one.
Qed.

(** A statement of the list that runs outside a transaction: when it fails, it has
    changed nothing. *)
Lemma Drives_statement {A} (m : Tx A) op :
  run_control op = WithinTx (ignore m) -> checked_control op ->
  (forall env s e s', m env s = (Fail e, s') -> st_db s' = st_db s) -> Drives m.
Proof.
  intros E Hc Hfail env s r s' H. destruct r as [a|e]; [|rewrite (Hfail _ _ _ _ H); constructor].
  eapply (drives_one env op s (Ok tt)); [done|]. rewrite E. unfold WithinTx, ignore, mbind, Tx_bind, M_bind. by rewrite H.
Qed.
