(* ===== verification/ManagementServices.v ===== *)
(** * The methods of the management service run the writes of [ManagementMoves]

    [management_method] lists the methods of [Management] and [manage] calls one. *)
From S2P Require Import Prelude GoText Errors Domain DomainSpec Json Sensitive Actor Store.
From S2P Require Import RuntimeProfile ReservationRepo TxFacts CommandRepo DeviceStore Reconcile DeviceOps WarmPool.
From S2P Require Import ManagementStore Management FarmSystem FarmSafety ControlStep PoolMoves SessionMoves ManagementMoves ControlPlane Drives.

Inductive management_method : Type :=
  | MCreateImage (clientID key : string) (input : ImageInput)
  | MRetireImage (id reason : string) (actor : Actor) (requestID : string)
  | MUpdateImage (id : string) (input : ImageInput)
  | MStartImageValidation (id : string)
  | MCreateHost (clientID key : string) (input : HostInput)
  | MUpdateHost (id : string) (input : HostInput)
  | MSetHostDraining (id : string) (draining : bool) (reason : string)
  | MCreatePool (clientID key : string) (input : PoolInput)
  | MUpdatePool (id : string) (input : PoolInput) (actor : Actor) (requestID : string)
  | MSetPoolImage (poolID imageID : string) (input : PoolImageInput) (actor : Actor) (requestID : string)
  | MDisablePoolImage (poolID imageID : string)
  | MSelectPoolDefaultImage (poolID imageID reason : string) (actor : Actor) (requestID : string)
  | MSetPoolBaseDevice (poolID deviceID reason : string) (actor : Actor) (requestID : string)
  | MAddDeviceToPool (poolID deviceID : string)
  | MRemoveDeviceFromPool (poolID deviceID : string)
  | MUpdateDeviceName (id name : string) (actor : Actor) (requestID : string)
  | MProvisionMockDevice (provider : option Provider) (input : ProvisionMockDeviceInput).

Definition manage (m : management_method) : Tx unit :=
  match m with
  | MCreateImage clientID key input => ignore (CreateImage clientID key input)
  | MRetireImage id reason actor requestID => ignore (RetireImage id reason actor requestID)
  | MUpdateImage id input => ignore (UpdateImage id input)
  | MStartImageValidation id => ignore (StartImageValidation id)
  | MCreateHost clientID key input => ignore (CreateHost clientID key input)
  | MUpdateHost id input => ignore (UpdateHost id input)
  | MSetHostDraining id draining reason => ignore (SetHostDraining id draining reason)
  | MCreatePool clientID key input => ignore (CreatePool clientID key input)
  | MUpdatePool id input actor requestID => ignore (UpdatePool id input actor requestID)
  | MSetPoolImage poolID imageID input actor requestID => ignore (SetPoolImage poolID imageID input actor requestID)
  | MDisablePoolImage poolID imageID => ignore (DisablePoolImage poolID imageID)
  | MSelectPoolDefaultImage poolID imageID reason actor requestID => ignore (SelectPoolDefaultImage poolID imageID reason actor requestID)
  | MSetPoolBaseDevice poolID deviceID reason actor requestID => ignore (SetPoolBaseDevice poolID deviceID reason actor requestID)
  | MAddDeviceToPool poolID deviceID => AddDeviceToPool poolID deviceID
  | MRemoveDeviceFromPool poolID deviceID => RemoveDeviceFromPool poolID deviceID
  | MUpdateDeviceName id name actor requestID => ignore (UpdateDeviceName id name actor requestID)
  | MProvisionMockDevice provider input => ignore (ProvisionMockDevice provider input)
  end.

#[export] Instance deviceAudit_keeps a r x y : KeepsDB (deviceAudit a r x y).
Proof. unfold deviceAudit. solve_keeps. Qed.
#[export] Instance get_device_ro id : ReadOnly (DeviceOps.GetDevice id).
Proof. unfold DeviceOps.GetDevice. apply _. Qed.
#[export] Instance idempotency_ro c s k t i v n : ReadOnly (idempotency c s k t i v n).
Proof. unfold idempotency. apply _. Qed.

(** ** Single statements

    A statement that fails has changed nothing: its write comes last. *)
Class Atomic {A} (m : Tx A) : Prop := atomic : forall env s e s', m env s = (Fail e, s') -> st_db s' = st_db s.

#[export] Instance Atomic_read {A} (m : Tx A) : KeepsDB m -> Atomic m | 10.
Proof. intros H env s e s' E. by rewrite (H _ _ _ _ E). Qed.
#[export] Instance Atomic_bind {A B} (m : Tx A) (f : A -> Tx B) : KeepsDB m -> (forall a, Atomic (f a)) -> Atomic (m ≫= f) | 20.
Proof.
  intros Hm Hf env s e s' H. unfold mbind, Tx_bind, M_bind in H.
  destruct (m env s) as [[a|x] s1] eqn:E; pose proof (Hm _ _ _ _ E) as Hs; [|by injection H as _ <-].
  rewrite <-Hs. by eapply Hf.
Qed.
#[export] Instance Atomic_map_err {A} f (m : Tx A) : Atomic m -> Atomic (map_err f m) | 15.
Proof.
  intros Hm env s e s'. unfold map_err. destruct (m env s) as [[a|x] s1] eqn:E; [done|]. intros [= _ <-]. by eapply Hm.
Qed.
#[export] Instance Atomic_WithinTx {A} (m : Tx A) : Atomic (WithinTx m) | 15.
Proof. intros env s e s'. apply WithinTx_fail. Qed.
#[export] Instance Atomic_option {A B} (o : option A) (m1 : A -> Tx B) m2 :
  (forall a, Atomic (m1 a)) -> Atomic m2 -> Atomic (match o with Some a => m1 a | None => m2 end) | 15.
Proof. by destruct o. Qed.
#[export] Instance Atomic_if {A} (b : bool) (m1 m2 : Tx A) : Atomic m1 -> Atomic m2 -> Atomic (if b then m1 else m2) | 15.
Proof. by destruct b. Qed.
#[export] Instance Atomic_put f : Atomic (put_db f) | 5.
Proof. by intros env s e s'. Qed.
#[export] Instance Atomic_put_return {A} f (a : A) : Atomic (put_db f ≫= fun _ => mret a) | 5.
Proof. by intros env s e s'. Qed.

#[export] Instance update_image_atomic i e : Atomic (update_image i e).
Proof. unfold update_image, put_image. apply _. Qed.
#[export] Instance update_host_atomic h e : Atomic (update_host h e).
Proof. unfold update_host, put_host. apply _. Qed.
#[export] Instance disable_image_atomic p i : Atomic (disable_pool_image p i).
Proof. unfold disable_pool_image. apply _. Qed.
#[export] Instance membership_atomic p d : Atomic (add_membership p d).
Proof. unfold add_membership. apply _. Qed.
#[export] Instance departure_atomic p d : Atomic (RemoveDeviceFromPoolRow p d).
Proof. unfold RemoveDeviceFromPoolRow. apply _. Qed.
#[export] Instance insert_device_atomic d : Atomic (insert_device d).
Proof. unfold insert_device. apply _. Qed.

Lemma insert_device_loads d env s u s' : insert_device d env s = (Ok u, s') -> is_ok (load_device (d_id d) env s').1.
Proof.
  intros [_ ->]%insert_device_ok. unfold load_device, get_db, mbind, Tx_bind, M_bind, gets. cbn.
  by rewrite lookup_insert_eq.
Qed.

#[export] Instance create_device_atomic d : Atomic (create_device d).
Proof.
  unfold create_device. apply Atomic_bind; [apply _|]. intros now. cbv zeta. apply Atomic_bind; [apply _|]. intros u.
  intros env s e s' H. unfold mbind, Tx_bind, M_bind in H.
  destruct (insert_device _ env s) as [[v|x] s1] eqn:E; [|injection H as _ <-; by eapply insert_device_atomic].
  apply insert_device_loads in E. by rewrite H in E.
Qed.

(** ** The writes that the methods run *)
Lemma Drives_write {A} (m : Tx A) w : run_write w = ignore m -> lawful_write w -> Drives (WithinTx m).
Proof. intros E Hw. apply (Drives_transaction _ (CtlManage w)); [|done]. change (WithinTx (run_write w) = WithinTx (ignore m)). by rewrite E. Qed.

Lemma Drives_plain {A} (m : Tx A) w : Atomic m -> run_write w = ignore m -> lawful_write w -> Drives m.
Proof. intros Ha E Hw. apply (Drives_statement _ (CtlManage w)); [|done|apply Ha]. change (WithinTx (run_write w) = WithinTx (ignore m)). by rewrite E. Qed.

#[export] Hint Opaque GetImage GetHost GetPool GetPoolImage GetDevice update_image update_host disable_pool_image add_membership
  RemoveDeviceFromPoolRow create_device deviceAudit idempotency : typeclass_instances.

Section Writes.
#[export] Instance new_image_drives meta (i : ImageRow) : Drives (createIdempotent meta i).
Proof. apply Drives_map_err. by apply (Drives_write _ (WriteNewImage meta i)). Qed.
#[export] Instance new_host_drives meta (h : HostRow) : Drives (createIdempotent meta h).
Proof. apply Drives_map_err. by apply (Drives_write _ (WriteNewHost meta h)). Qed.
#[export] Instance new_pool_drives meta (p : PoolRow) : Drives (createIdempotent meta p).
Proof. apply Drives_map_err. by apply (Drives_write _ (WriteNewPool meta p)). Qed.
#[export] Instance image_drives i e : Drives (UpdateImageRow i e).
Proof. apply Drives_map_err. by apply (Drives_plain _ (WriteImage i e)); [apply _|..]. Qed.
#[export] Instance host_drives h e : Drives (UpdateHostRow h e).
Proof. apply Drives_map_err. by apply (Drives_plain _ (WriteHost h e)); [apply _|..]. Qed.
#[export] Instance retirement_drives i e a : Drives (RetireImageRow i e a).
Proof. apply Drives_map_err. by apply (Drives_write _ (WriteRetirement i e a)). Qed.
#[export] Instance pool_drives p e a : Drives (UpdatePoolRow p e a).
Proof. apply Drives_map_err. by apply (Drives_write _ (WritePool p e a)). Qed.
#[export] Instance pool_image_drives v a : Drives (SetPoolImageRow v a).
Proof. apply Drives_map_err. by apply (Drives_write _ (WritePoolImage v a)). Qed.
#[export] Instance disabled_image_drives p i : Drives (DisablePoolImageRow p i).
Proof. apply Drives_map_err. by apply (Drives_plain _ (WriteDisabledImage p i)); [apply _|..]. Qed.
#[export] Instance default_image_drives p i a : Drives (SelectPoolDefaultImageRow p i a).
Proof. apply Drives_map_err. by apply (Drives_write _ (WriteDefaultImage p i a)). Qed.
#[export] Instance base_device_drives p d a : Drives (SetPoolBaseDeviceRow p d a).
Proof. apply Drives_map_err. by apply (Drives_write _ (WriteBaseDevice p d a)). Qed.
#[export] Instance membership_drives p d : Drives (AddDeviceToPoolRow p d).
Proof. apply Drives_map_err. by apply (Drives_plain _ (WriteMembership p d)); [apply _|..]. Qed.
#[export] Instance departure_drives p d : Drives (RemoveDeviceFromPoolRow p d).
Proof. by apply (Drives_plain _ (WriteDeparture p d)); [apply _|..]. Qed.
#[export] Instance name_drives id name a : Drives (UpdateDeviceNameRow id name a).
Proof. apply Drives_map_err. by apply (Drives_write _ (WriteDeviceName id name a)). Qed.
Lemma new_device_drives d : unheld (d_lifecycle d) = true -> Drives (CreateDevice d).
Proof. intros Hd. apply Drives_map_err. by apply (Drives_plain _ (WriteNewDevice d)); [apply _|..]. Qed.
End Writes.

#[export] Hint Opaque createIdempotent UpdateImageRow UpdateHostRow RetireImageRow UpdatePoolRow SetPoolImageRow DisablePoolImageRow
  SelectPoolDefaultImageRow SetPoolBaseDeviceRow AddDeviceToPoolRow UpdateDeviceNameRow CreateDevice : typeclass_instances.

(** ** The methods *)
#[export] Instance updated_default_keeps id p r c : KeepsDB (updated_default id p r c).
Proof. destruct r; unfold updated_default; cbv zeta; apply _. Qed.
#[export] Instance updated_status_ro e p : ReadOnly (updated_status e p).
Proof. destruct e; unfold updated_status; cbv zeta; apply _. Qed.
#[export] Instance mock_image_ro p k i : ReadOnly (mock_image p k i).
Proof. unfold mock_image. apply _. Qed.
#[export] Instance call_provider_keeps {A} o r (x : result string A) : KeepsDB (call_provider o r x).
Proof. unfold call_provider. apply bind_keeps; [apply _|]. intros u. destruct x; apply _. Qed.

Lemma or_delete_drives {A} ref (m : Tx A) : Drives m -> Drives (or_delete ref m).
Proof. intros Hm. unfold or_delete. apply Drives_bind; [by apply Drives_attempt|]. intros [a|e]; apply _. Qed.

#[export] Instance or_delete_atomic {A} ref (m : Tx A) : Atomic m -> Atomic (or_delete ref m).
Proof.
  intros Hm env s e s' H. unfold or_delete, attempt, mbind, Tx_bind, M_bind in H.
  destruct (m env s) as [[a|x] s1] eqn:E; [done|]. injection H as _ <-. by apply Hm in E.
Qed.
#[export] Instance or_delete_keeps {A} ref (m : Tx A) : KeepsDB m -> KeepsDB (or_delete ref m).
Proof. intros Hm. unfold or_delete. apply bind_keeps; [apply _|]. intros [a|e]; apply _. Qed.

(** The reads and the checks of a method, then its write. *)
Ltac follow :=
  repeat (cbv zeta beta; lazymatch goal with
    | |- Drives (CreateDevice _) => by apply new_device_drives
    | |- Drives (or_delete _ _) => apply or_delete_drives
    | |- Drives (match ?x with _ => _ end) => destruct x
    | |- Drives (_ ≫= _) => apply Drives_bind; [|intros ?]
    | |- Drives _ => apply _
    end).

Lemma manage_drives m : Drives (manage m).
Proof.
  destruct m; cbn [manage]; unfold ignore, CreateImage, RetireImage, UpdateImage, StartImageValidation, CreateHost, UpdateHost,
    SetHostDraining, CreatePool, UpdatePool, SetPoolImage, DisablePoolImage, SelectPoolDefaultImage, SetPoolBaseDevice, AddDeviceToPool,
    RemoveDeviceFromPool, UpdateDeviceName, ProvisionMockDevice; follow.
Qed.

Lemma Atomic_then_return {A B} (m : Tx A) (g : A -> B) : Atomic m -> Atomic (m ≫= fun a => mret (g a)).
Proof. intros Hm env s e s' H. apply bind_fail in H as [H|(a & s1 & _ & H)]; [by eapply Hm|done]. Qed.

#[export] Instance CreateIdempotent_atomic {T V} `{Resource T V} meta (row : T) : Atomic (createIdempotent meta row).
Proof. unfold createIdempotent. apply _. Qed.
#[export] Hint Extern 5 (Atomic (UpdateImageRow _ _)) => unfold UpdateImageRow : typeclass_instances.
#[export] Hint Extern 5 (Atomic (RetireImageRow _ _ _)) => unfold RetireImageRow : typeclass_instances.
#[export] Hint Extern 5 (Atomic (UpdateHostRow _ _)) => unfold UpdateHostRow : typeclass_instances.
#[export] Hint Extern 5 (Atomic (UpdatePoolRow _ _ _)) => unfold UpdatePoolRow : typeclass_instances.
#[export] Hint Extern 5 (Atomic (SetPoolImageRow _ _)) => unfold SetPoolImageRow : typeclass_instances.
#[export] Hint Extern 5 (Atomic (DisablePoolImageRow _ _)) => unfold DisablePoolImageRow : typeclass_instances.
#[export] Hint Extern 5 (Atomic (SelectPoolDefaultImageRow _ _ _)) => unfold SelectPoolDefaultImageRow : typeclass_instances.
#[export] Hint Extern 5 (Atomic (SetPoolBaseDeviceRow _ _ _)) => unfold SetPoolBaseDeviceRow : typeclass_instances.
#[export] Hint Extern 5 (Atomic (AddDeviceToPoolRow _ _)) => unfold AddDeviceToPoolRow : typeclass_instances.
#[export] Hint Extern 5 (Atomic (UpdateDeviceNameRow _ _ _)) => unfold UpdateDeviceNameRow : typeclass_instances.
#[export] Hint Extern 5 (Atomic (CreateDevice _)) => unfold CreateDevice : typeclass_instances.

(** A method that fails has changed nothing: its write comes last. *)
Ltac write_last :=
  repeat (cbv zeta beta; lazymatch goal with
    | |- Atomic (match ?x with _ => _ end) => destruct x
    | |- Atomic (_ ≫= fun _ => mret _) => apply Atomic_then_return
    | |- Atomic (_ ≫= _) => apply Atomic_bind; [solve_keeps|intros ?]
    | |- Atomic _ => apply _
    end).

Lemma manage_atomic m : Atomic (manage m).
Proof.
  destruct m; cbn [manage]; unfold ignore, CreateImage, RetireImage, UpdateImage, StartImageValidation, CreateHost, UpdateHost,
    SetHostDraining, CreatePool, UpdatePool, SetPoolImage, DisablePoolImage, SelectPoolDefaultImage, SetPoolBaseDevice, AddDeviceToPool,
    RemoveDeviceFromPool, UpdateDeviceName, ProvisionMockDevice; write_last.
Qed.
