(* ===== verification/ControlServices.v ===== *)
(** * The services run nothing but the transactions of [ControlPlane]

    Every method is an instance of [Drives], so the
    interleavings that [ControlSafety] covers are all the interleavings of the methods:
    the operation that an administrator's method queues is lawful whatever happens
    between its reads and its transaction. *)
From S2P Require Import Prelude GoText Errors Domain DomainSpec Json Sensitive Actor Store.
From S2P Require Import RuntimeProfile ReservationRepo TxFacts CommandRepo DeviceStore Reconcile DeviceOps ImageCatalog.
From S2P Require Import HostCommand HostSelection Completion WarmPool PoolCycle PoolScale IOSSimulator IOSSession Heartbeat PoolSelector.
From S2P Require Import ReservationService Scheduler ServiceFacts FarmSystem FarmSafety.
From S2P Require Import ControlStep PoolMoves SessionMoves ManagementMoves ControlPlane Samples ControlSafety Drives ManagementServices.

(** ** Operations of administrators *)
Section Administrators.
#[local] Hint Opaque GetDevice QueueDeviceOperation UpdateDeviceState begin_operation : typeclass_instances.

#[export] Instance command_key_ro a i k : ReadOnly (operationCommandKey a i k).
Proof. unfold operationCommandKey, digest_text. apply _. Qed.
#[export] Instance request_hash_ro a i k : ReadOnly (operationRequestHash a i k).
Proof. unfold operationRequestHash, digest_text. apply _. Qed.
#[export] Instance structured_hash_ro a i v : ReadOnly (operationStructuredRequestHash a i v).
Proof. unfold operationStructuredRequestHash. apply _. Qed.
#[export] Instance pool_base_ro id : ReadOnly (IsDevicePoolBase id).
Proof. unfold IsDevicePoolBase. apply _. Qed.
#[export] Instance replay_ro d h k t r : ReadOnly (ReplayDeviceOperation d h k t r).
Proof. unfold ReplayDeviceOperation. apply _. Qed.
#[export] Instance ensure_health_ro d to reason now : ReadOnly (ensure_health d to reason now).
Proof. unfold ensure_health. apply _. Qed.
#[export] Instance begin_operation_ro row target reason : ReadOnly (begin_operation row target reason).
Proof. unfold begin_operation. apply _. Qed.
#[export] Instance or_invalid_ro {A} (o : option A) : ReadOnly (or_invalid o).
Proof. destruct o; unfold or_invalid; apply _. Qed.
#[export] Instance rebuild_image_ro d : ReadOnly (rebuild_image_payload d).
Proof. unfold rebuild_image_payload. apply _. Qed.
#[export] Instance replacement_capacity_ro d c t i : ReadOnly (CheckDeviceReplacementCapacity d c t i).
Proof. unfold CheckDeviceReplacementCapacity. apply _. Qed.

Lemma begin_operation_ok row target reason env s a s' :
  begin_operation row target reason env s = (Ok a, s') -> Lifecycle a = target.
Proof.
  unfold begin_operation. intros H. apply bindT_ok in H as (d & s1 & _ & H). apply bindT_ok in H as (now & s2 & _ & H).
  apply bindT_ok in H as (d' & s3 & _ & H). by apply apply_call_ok in H as [(? & _)%Transition_moves _].
Qed.

Lemma Drives_begin {B} row target reason (f : Domain.Device -> Tx B) :
  (forall a, Lifecycle a = target -> Drives (f a)) -> Drives (begin_operation row target reason ≫= f).
Proof. apply Drives_result; [apply _|]. intros env s a s'. apply begin_operation_ok. Qed.

Lemma Drives_queue op : lawful_operation op -> Drives (QueueDeviceOperation op).
Proof.
  intros Hlaw. unfold QueueDeviceOperation. apply Drives_bind; [apply _|]. intros _. apply Drives_map_err.
  by apply (Drives_transaction _ (CtlQueue op)).
Qed.

Lemma Drives_update d l h audit : lawful_state d l -> Drives (UpdateDeviceState d l h audit).
Proof. intros Hlaw. apply Drives_map_err. by apply (Drives_transaction _ (CtlUpdateState d l h audit)). Qed.

(** The operations leave a lifecycle without a holder, or a quarantine, for another
    lifecycle without a holder. *)
Lemma lawful_begin op row a target :
  op_Device op = with_state row a -> op_ExpectedLifecycle op = d_lifecycle row -> Lifecycle a = target ->
  operable (d_lifecycle row) = true -> unheld target = true -> lawful_operation op.
Proof.
  intros Hd He Hl Ho Hu. right. rewrite Hd, He. cbn. rewrite Hl. split; [done|].
  unfold operable in Ho. guards. apply list_elem_of_In in Ho. cbn in Ho. destruct Ho as [<- | [<- | [<- | []]]]; auto.
Qed.

Lemma transition_edge id l h d to reason now env s a s' :
  RestoreDevice id l h = Ok d -> apply_call (Transition d to reason now) env s = (Ok a, s') ->
  Lifecycle a = to /\ has_edge deviceTransitions l to = true.
Proof.
  unfold RestoreDevice, newStateMachine. destruct (identifierPattern id); [|done]. cbn.
  destruct (validDeviceLifecycleStatus l); [|done]. cbn. destruct (validHealthStatus h); [|done].
  intros [= <-] [(? & _ & ?)%Transition_moves _]%apply_call_ok. done.
Qed.

Lemma transition_device_drives id target health reason audit :
  target = DeviceQuarantined \/ target = DeviceProvisioning -> Drives (transitionDevice id target health reason audit).
Proof.
  intros Ht. unfold transitionDevice. apply Drives_guard. intros _. apply Drives_bind; [apply _|]. intros current. cbv zeta.
  apply (Drives_result _ (fun d => RestoreDevice (d_id (dv_row current)) (d_lifecycle (dv_row current)) (d_health (dv_row current)) = Ok d));
    [apply _|by intros ???? [? _]%lift_ok|]. intros d Hd.
  apply Drives_bind; [apply _|]. intros now.
  apply (Drives_result _ (fun a => Lifecycle a = target /\ has_edge deviceTransitions (d_lifecycle (dv_row current)) target = true));
    [apply _|intros ????; by eapply transition_edge|]. intros a [Ha He].
  apply (Drives_result _ (fun b => Lifecycle b = target)); [apply _|intros ???? (_ & -> & _)%ensure_health_ok; done|].
  intros b Hb. apply Drives_update. destruct Ht as [-> | ->]; [by left|right; done].
Qed.

#[export] Instance quarantine_drives id reason actor requestID : Drives (QuarantineDeviceAudited id reason actor requestID).
Proof. unfold QuarantineDeviceAudited. apply Drives_bind; [apply _|]. intros event. apply transition_device_drives. by left. Qed.
#[export] Instance unquarantine_drives id reason actor requestID : Drives (UnquarantineDeviceAudited id reason actor requestID).
Proof. unfold UnquarantineDeviceAudited. apply Drives_bind; [apply _|]. intros event. apply transition_device_drives. by right. Qed.
End Administrators.

(** A queued operation: its reads, the check that the device is operable, the first
    lifecycle of the operation, the queueing. *)
Ltac method_reads :=
  repeat lazymatch goal with
    | |- Drives (guard_or _ _ ≫= _) => apply Drives_guard; intros ?
    | |- Drives (begin_operation _ _ _ ≫= _) => apply Drives_begin; intros ? ?
    | |- Drives (QueueDeviceOperation _) => apply Drives_queue
    | |- Drives (match _ with Some _ => _ | None => _ end) => apply Drives_option; [intros ?; apply _|]
    | |- Drives (if _ then _ else _) => apply Drives_if; [apply _|]
    | |- Drives (_ ≫= _) => apply Drives_bind; [apply _|intros ?; cbv zeta beta]
    end.

#[export] Instance start_stop_drives id reason key op event : Drives (iosSimulatorLifecycle id reason key op event).
Proof.
  unfold iosSimulatorLifecycle. method_reads. right. split; [|by left].
  match goal with H : Lifecycle _ = _ |- _ => unfold DeviceOps.operation, with_state; cbn [op_Device d_lifecycle]; rewrite H end. by destruct (op =? "stop")%string.
Qed.

#[export] Instance restart_drives id reason key audit : Drives (restartDevice id reason key audit).
Proof.
  unfold restartDevice. method_reads. eapply lawful_begin; [reflexivity|reflexivity|done|done|].
  by destruct (d_lifecycle _).
Qed.

#[export] Instance rebuild_drives id reason key audit : Drives (rebuildDevice id reason key audit).
Proof. unfold rebuildDevice. method_reads. by eapply lawful_begin. Qed.

#[export] Instance delete_drives id reason key audit : Drives (deleteDevice id reason key audit).
Proof. unfold deleteDevice. method_reads. by left. Qed.

#[export] Instance reimage_drives id input actor requestID key : Drives (ReimageDeviceAudited id input actor requestID key).
Proof. unfold ReimageDeviceAudited. method_reads. by eapply lawful_begin. Qed.

#[export] Instance update_profile_drives id input actor requestID key :
  Drives (UpdateDeviceRuntimeProfileAudited id input actor requestID key).
Proof. unfold UpdateDeviceRuntimeProfileAudited. method_reads. by eapply lawful_begin. Qed.

#[export] Instance start_audited_drives id reason actor requestID key : Drives (StartDeviceAudited id reason actor requestID key).
Proof. unfold StartDeviceAudited. apply Drives_bind; [apply _|]. intros event. apply start_stop_drives. Qed.
#[export] Instance stop_audited_drives id reason actor requestID key : Drives (StopDeviceAudited id reason actor requestID key).
Proof. unfold StopDeviceAudited. apply Drives_bind; [apply _|]. intros event. apply start_stop_drives. Qed.
#[export] Instance restart_audited_drives id reason actor requestID key : Drives (RestartDeviceAudited id reason actor requestID key).
Proof. unfold RestartDeviceAudited. apply Drives_bind; [apply _|]. intros event. apply restart_drives. Qed.
#[export] Instance rebuild_audited_drives id reason actor requestID key : Drives (RebuildDeviceAudited id reason actor requestID key).
Proof. unfold RebuildDeviceAudited. apply Drives_bind; [apply _|]. intros event. apply rebuild_drives. Qed.
#[export] Instance delete_audited_drives id reason actor requestID key : Drives (DeleteDeviceAudited id reason actor requestID key).
Proof. unfold DeleteDeviceAudited. apply Drives_bind; [apply _|]. intros event. apply delete_drives. Qed.

(** ** The other services *)
#[export] Hint Opaque Report queueRestart report_tx restart_tx offline_tx heartbeat_tx complete_tx recover_tx sync_tx prepare_tx
  getDevice listDevices recentlyRecorded : typeclass_instances.

Section Reconciler.
#[export] Instance report_drives config deviceID input : Drives (Report config deviceID input).
Proof.
  unfold Report. apply Drives_guard. intros _. apply Drives_bind; [apply _|]. intros id.
  eapply (Drives_transaction _ (CtlReport config id deviceID _)); [reflexivity|done].
Qed.

#[export] Instance queue_restart_drives deviceID allowStopped : Drives (queueRestart deviceID allowStopped).
Proof. by apply (Drives_transaction _ (CtlRestart deviceID allowStopped)). Qed.
#[export] Instance self_healing_drives deviceID : Drives (queueSelfHealingRestart deviceID).
Proof. apply queue_restart_drives. Qed.
#[export] Instance unexpected_stop_drives deviceID : Drives (queueUnexpectedStoppedRestart deviceID).
Proof. apply queue_restart_drives. Qed.

Lemma Drives_try {A} result (m : Tx A) k : Drives m -> (forall a, Drives (k a)) -> Drives (try_with result m k).
Proof. intros Hm Hk. apply Drives_bind; [by apply Drives_attempt|]. intros [a|e]; [done|apply _]. Qed.

#[export] Instance get_state_ro id : ReadOnly (getDevice id).
Proof. unfold getDevice, lockDevice. apply _. Qed.
#[export] Instance recently_recorded_ro device i : ReadOnly (recentlyRecorded device i).
Proof. unfold recentlyRecorded. apply _. Qed.
#[export] Instance list_devices_ro : ReadOnly listDevices.
Proof. unfold listDevices. apply _. Qed.
#[export] Instance restarted_ro result queued : ReadOnly (restarted result queued).
Proof. unfold restarted. apply _. Qed.

Lemma observation_drives config device result i : Drives (report_observation config device result i).
Proof.
  unfold report_observation. apply Drives_try; [destruct (_ && _); apply _|].
  intros [|]; [apply _|]. apply Drives_try; [apply _|]. intros e. cbv zeta. destruct (bool_decide _); [apply _|].
  apply Drives_try; [|intros d; apply _]. apply Drives_bind; [apply _|]. intros found. apply _.
Qed.

Lemma quarantined_drives config device result : Drives (reconcile_quarantined config device result).
Proof.
  unfold reconcile_quarantined. destruct (_ || _); [apply _|]. destruct (_ && _).
  - apply Drives_bind; [apply _|]. intros now. apply Drives_try; intros; apply _.
  - apply Drives_try; intros; apply _.
Qed.

Lemma device_drives config device result : Drives (reconcile_device config device result).
Proof.
  unfold reconcile_device. destruct (_ || _); [apply _|]. destruct (_ && _ && _); [apply Drives_try; intros; apply _|].
  destruct (bool_decide _); [apply quarantined_drives|]. destruct (_ && _); [apply _|]. destruct (st_DeletionInFlight device); [apply _|].
  cbv zeta. apply Drives_bind; [apply _|]. intros now. destruct (st_OperationInFlight device).
  - apply Drives_try; [apply _|]. intros [|]; [apply _|]. apply Drives_try; intros; apply _.
  - destruct (observation config device now); [apply observation_drives|apply _].
Qed.

Lemma devices_drives config devices : forall result, Drives (reconcile_devices config devices result).
Proof.
  induction devices as [|device rest IH]; intros result; cbn [reconcile_devices]; [apply _|].
  apply Drives_bind; [apply device_drives|]. intros [result' [e|]]; apply _.
Qed.

Lemma offline_drives hostTimeout ids : forall count, Drives (mark_offline ids hostTimeout count).
Proof.
  induction ids as [|id rest IH]; intros count; cbn [mark_offline]; [apply _|].
  apply Drives_bind; [|intros n; apply IH]. by apply (Drives_transaction _ (CtlOffline id hostTimeout)).
Qed.

#[export] Instance cycle_drives config hostTimeout : Drives (Reconcile.RunOnce config hostTimeout).
Proof.
  unfold Reconcile.RunOnce, markStaleHostsOffline. apply Drives_guard. intros _. apply Drives_bind.
  - apply Drives_bind; [apply _|]. intros now. apply Drives_bind; [apply _|]. intros db. apply offline_drives.
  - intros n. apply Drives_bind; [apply _|]. intros ds. apply devices_drives.
Qed.
End Reconciler.

(** ** Host commands and heartbeats *)

(** A payload whose keys are distinct equals itself, as every Go map does. *)
Definition self_equal (payload : obj) : Prop := json_eqb (JObj payload) (JObj payload) = true.

Lemma create_command_fails p env s e s' :
  self_equal (cc_Payload p) -> CreateCommand p env s = (Fail e, s') -> st_db s' = st_db s.
Proof.
  intros Hp. unfold CreateCommand, get_db, put_command, put_db, mbind, Tx_bind, M_bind, gets, ClockNow, env_gets. cbn.
  destruct (first_where _ _) as [c|].
  - intros H. by rewrite (read_only _ _ _ _ H).
  - destruct (_ !! _) as [c|]; [unfold throw; by intros [= _ <-]|].
    assert (same_command (new_command p (env_clock env)) p = true) as Hsame.
    { unfold same_command. cbn -[json_eqb]. by rewrite !String.eqb_refl, Z.eqb_refl, Hp. }
    unfold new_command in *. cbn in *. rewrite Hsame. by intros [=].
Qed.

Lemma claim_next_fails h t l env s e s' : ClaimNext h t l env s = (Fail e, s') -> st_db s' = st_db s.
Proof.
  unfold ClaimNext, put_command, put_db, mbind, Tx_bind, M_bind, ClockNow, env_gets, expect_row. cbn.
  destruct (first_where _ _); by intros [= _ <-].
Qed.

Lemma extend_lease_fails i t n l env s e s' : ExtendLease i t n l env s = (Fail e, s') -> st_db s' = st_db s.
Proof.
  unfold ExtendLease, update_leased, put_command, put_db, get_db, mbind, Tx_bind, M_bind, ClockNow, env_gets, gets. cbn.
  destruct (_ !! i) as [c|]; [destruct (holds_lease _ _ _ _)|]; by intros [= _ <-].
Qed.

Lemma create_statement_drives p : self_equal (cc_Payload p) -> Drives (CreateCommand p).
Proof. intros Hp. apply (Drives_statement _ (CtlCreate p)); [done|done|]. intros env s e s'. by apply create_command_fails. Qed.
#[export] Instance claim_statement_drives h t l : Drives (ClaimNext h t l).
Proof. apply (Drives_statement _ (CtlClaim h t l)); [done|done|apply claim_next_fails]. Qed.
#[export] Instance extend_statement_drives i t n l : Drives (ExtendLease i t n l).
Proof. apply (Drives_statement _ (CtlExtend i t n l)); [done|done|apply extend_lease_fails]. Qed.

Lemma create_drives h t p n k : self_equal (RedactMap p) -> Drives (HostCommand.Create h t p n k).
Proof.
  intros Hp. unfold HostCommand.Create. apply Drives_guard. intros _. apply Drives_bind; [apply _|]. intros id.
  apply Drives_bind; [|intros r; apply _]. apply Drives_map_err. by apply create_statement_drives.
Qed.

Lemma claim_batch_drives h lease room : Drives (claim_batch h lease room).
Proof.
  induction room; cbn [claim_batch]; [apply _|]. apply Drives_bind; [apply _|]. intros token.
  apply Drives_bind; [apply Drives_optional; apply _|]. intros [r|]; [|apply _]. apply Drives_bind; [done|]. intros rest. apply _.
Qed.

#[export] Instance claim_drives h input : Drives (Claim h input).
Proof.
  unfold Claim, claim_turn. apply Drives_guard. intros _. apply Drives_bind; [apply _|]. intros start. cbv zeta.
  apply Drives_bind; [|intros r; apply _]. apply Drives_bind; [apply claim_batch_drives|]. intros cs.
  apply Drives_bind; [apply _|]. intros now. apply Drives_if; apply _.
Qed.

#[export] Instance extend_drives id input : Drives (HostCommand.Extend id input).
Proof. unfold HostCommand.Extend. apply Drives_guard. intros _. apply Drives_bind; [apply Drives_map_err; apply _|intros r; apply _]. Qed.

#[export] Instance complete_drives id input : Drives (Completion.Complete id input).
Proof.
  unfold Completion.Complete. apply Drives_guard. intros _. cbv zeta. apply Drives_bind; [apply _|]. intros state.
  apply Drives_bind; [apply _|]. intros now. apply Drives_bind; [apply _|]. intros c.
  apply Drives_bind; [unfold completion_error_code; apply _|]. intros code. apply Drives_bind; [|intros r; apply _].
  apply Drives_map_err. by apply (Drives_transaction _ (CtlComplete id input code)).
Qed.

#[export] Instance recover_drives : Drives RecoverExpiredOnce.
Proof.
  unfold RecoverExpiredOnce. apply Drives_bind; [|intros r; apply _]. apply Drives_map_err. by apply (Drives_transaction _ CtlRecover).
Qed.

#[export] Instance heartbeat_drives normalize hostID input : Drives (Heartbeat normalize hostID input).
Proof.
  unfold Heartbeat. destruct (hb_Capacity input) as [capacity|]; [|apply _]. apply Drives_guard. intros _. cbv zeta.
  apply Drives_guard. intros _. destruct (read_environment _ _) as [e|]; [|apply _].
  apply Drives_map_err. by eapply (Drives_transaction _ (CtlHeartbeat hostID _ e capacity)).
Qed.

(** ** The image catalogue *)
#[export] Instance sync_drives actor requestID key : Drives (Sync actor requestID key).
Proof.
  unfold Sync. apply Drives_guard. intros _. apply Drives_bind; [apply _|]. intros x. apply Drives_bind; [apply _|]. intros id.
  by apply (Drives_transaction _ (CtlSync id actor requestID key)).
Qed.

#[export] Instance prepare_drives actor requestID key catalogID profile : Drives (Prepare actor requestID key catalogID profile).
Proof.
  unfold Prepare. apply Drives_guard. intros _. destruct (Parse profile) as [p|]; [|apply _]. apply Drives_guard. intros _.
  apply Drives_bind; [apply _|]. intros pid. apply Drives_bind; [apply _|]. intros id.
  by apply (Drives_transaction _ (CtlPrepare pid id actor requestID key catalogID p)).
Qed.

(** ** The warm pool and the simulators *)
#[export] Hint Opaque update_job Provision recycle_tx settle_tx ios_scale_down_tx image_validation_tx recordHostImageOutcomes
  pool_tx simulator_tx provision_tx create_job_tx scaleTemplate : typeclass_instances.

Ltac solve_drives :=
  repeat (cbv zeta; lazymatch goal with
    | |- Drives (match ?x with _ => _ end) => destruct x
    | |- Drives (attempt _) => apply Drives_attempt
    | |- Drives (_ ≫= _) => apply Drives_bind; [|intros ?]
    | |- Drives _ => apply _
    end).

Lemma update_job_fails id g f env s e s' : update_job id g f env s = (Fail e, s') -> st_db s' = st_db s.
Proof.
  unfold update_job, put_db, get_db, mbind, Tx_bind, M_bind, ClockNow, gets. cbn.
  destruct (_ !! id) as [j|]; [destruct (g j)|]; by intros [=].
Qed.

#[export] Instance update_job_drives id g f : Drives (update_job id g f).
Proof. apply (Drives_statement _ (CtlUpdateJob id g f)); [done|done|apply update_job_fails]. Qed.

Section WarmPoolMethods.
#[export] Instance provision_drives input : Drives (Provision input).
Proof.
  unfold Provision. do 2 (apply Drives_guard; intros _). apply Drives_bind; [apply _|]. intros phone.
  by apply (Drives_transaction _ (CtlProvision input phone)).
Qed.

#[export] Instance create_job_drives input : Drives (CreateCatalogProvisioning input).
Proof.
  unfold CreateCatalogProvisioning. do 2 (apply Drives_guard; intros _). apply Drives_bind; [apply _|]. intros document.
  apply Drives_bind; [apply _|]. intros hash. apply Drives_bind; [apply _|]. intros id.
  by apply (Drives_transaction _ (CtlCreateJob id hash document input)).
Qed.

#[export] Instance attach_drives job preparation : Drives (AttachPreparation job preparation).
Proof. unfold AttachPreparation. solve_drives. Qed.
#[export] Instance attach_cached_drives job : Drives (AttachCachedPreparation job).
Proof. unfold AttachCachedPreparation. solve_drives. Qed.
#[export] Instance fail_job_drives job stage code : Drives (FailCatalogProvisioning job stage code).
Proof. unfold FailCatalogProvisioning. solve_drives. Qed.

#[export] Instance reconcile_jobs_drives jobs : Drives (reconcile_jobs jobs).
Proof.
  induction jobs as [|[j p] rest IH]; cbn [reconcile_jobs]; [apply _|]. apply Drives_bind; [|intros ?; exact IH].
  unfold reconcile_job, follow_device, provision_job. solve_drives.
Qed.

Lemma for_each_drives ids m : (forall id, Drives (m id)) -> Drives (for_each ids m).
Proof. intros Hm. induction ids; cbn [for_each]; solve_drives. Qed.

#[export] Instance recycling_drives : Drives reconcileRecyclingDevices.
Proof.
  unfold reconcileRecyclingDevices. apply Drives_bind; [apply _|]. intros db. apply for_each_drives. intros id.
  by apply (Drives_transaction _ (CtlRecycle id)).
Qed.
#[export] Instance deletes_drives : Drives reconcileScaleDownDeletes.
Proof.
  unfold reconcileScaleDownDeletes. do 2 (apply Drives_bind; [apply _|intros ?]). apply for_each_drives. intros id.
  by apply (Drives_transaction _ (CtlSettle id)).
Qed.
#[export] Instance validations_drives : Drives reconcileImageValidations.
Proof.
  unfold reconcileImageValidations. apply Drives_bind; [apply _|]. intros db. apply for_each_drives. intros id.
  by apply (Drives_transaction _ (CtlValidate id)).
Qed.
#[export] Instance jobs_drives : Drives reconcileCatalogProvisioningJobs.
Proof. unfold reconcileCatalogProvisioningJobs. apply Drives_bind; [apply _|]. intros db. apply _. Qed.
#[export] Instance ios_scale_down_drives : Drives reconcileIOSScaleDown.
Proof.
  unfold reconcileIOSScaleDown. apply Drives_bind; [apply _|]. intros db. cbv zeta. apply Drives_bind; [|intros c; apply _].
  apply for_each_drives. intros id. by apply (Drives_transaction _ (CtlScaleDownIOS id)).
Qed.
#[export] Instance outcomes_drives : Drives (WithinTx recordHostImageOutcomes).
Proof. by apply (Drives_transaction _ CtlOutcomes). Qed.
#[export] Instance demand_drives order : Drives (reconcileAndroidDemand order).
Proof. by apply (Drives_transaction _ (CtlDemand order)). Qed.
#[export] Instance pools_drives keys : Drives (reconcile_all keys).
Proof.
  induction keys as [|[pool image] rest IH]; cbn [reconcile_all]; [apply _|]. apply Drives_bind; [|intros c; solve_drives].
  by apply (Drives_transaction _ (CtlPool pool image)).
Qed.

#[export] Instance warm_pool_drives order scaler :
  (forall scale, scaler = Some scale -> Drives scale) -> Drives (PoolScale.RunOnce order scaler).
Proof.
  intros Hs. unfold PoolScale.RunOnce. do 5 (apply Drives_bind; [apply _|intros ?]).
  apply Drives_bind; [destruct scaler; [by apply Hs|apply _]|intros ?].
  do 2 (apply Drives_bind; [apply _|intros ?]). cbv zeta. do 2 (apply Drives_bind; [apply _|intros ?]). apply _.
Qed.

#[export] Instance simulator_drives actor requestID key input increase : Drives (IOSSimulator.create actor requestID key input increase).
Proof.
  unfold IOSSimulator.create. apply Drives_guard. intros _. do 5 (apply Drives_bind; [apply _|intros ?]).
  by eapply (Drives_transaction _ (CtlSimulator _ _ _ _ _ actor requestID input increase)).
Qed.

#[export] Instance template_ro pool : ReadOnly (scaleTemplate pool).
Proof. unfold scaleTemplate. apply bind_ro; [apply _|]. intros db. apply bind_ro; [apply _|]. intros d. apply _. Qed.

#[export] Instance fill_pool_drives fuel pool : Drives (fill_pool fuel pool).
Proof. induction fuel; cbn [fill_pool]; [apply _|]. unfold scale_turn. solve_drives. Qed.
#[export] Instance fill_pools_drives fuel pools : Drives (fill_pools fuel pools).
Proof. induction pools; cbn [fill_pools]; solve_drives. Qed.
#[export] Instance scale_up_drives fuel : Drives (ReconcileScaleUp fuel).
Proof. unfold ReconcileScaleUp. apply Drives_bind; [apply _|]. intros db. apply _. Qed.
End WarmPoolMethods.

(** The scaler of the warm pool, with fuel for its loops. *)
Definition ios_scaler (fuel : nat) : Tx (Z * Z) :=
  r ← ReconcileScaleUp fuel; expect_row r (ErrExternal "the loop over a pool has not ended").

#[export] Instance ios_scaler_drives fuel : Drives (ios_scaler fuel).
Proof. unfold ios_scaler. solve_drives. Qed.

(** ** The session service *)
Section SessionMethods.
#[export] Instance session_quarantine_drives d r e reason p : Drives (quarantine d r e reason p).
Proof. by apply (Drives_transaction _ (CtlQuarantine d r e reason p)). Qed.
#[export] Instance quarantine_busy_drives {A} d r e : Drives (quarantine_busy (A := A) d r e).
Proof. unfold quarantine_busy. apply Drives_bind; [apply _|]. intros [u|x]; apply _. Qed.

#[export] Instance issue_drives parse print loopback grant actor id requestID input :
  Drives (Issue parse print loopback grant actor id requestID input).
Proof.
  unfold Issue. apply Drives_guard. intros _. unfold issue. cbv zeta. apply Drives_guard. intros _.
  apply Drives_bind; [apply _|]. intros text. apply Drives_guard. intros _. apply Drives_bind; [apply _|]. intros hash.
  apply Drives_bind; [|intros [view|b]; apply _].
  by eapply (Drives_transaction _ (CtlIssue parse print loopback actor id requestID text hash _ _ _)).
Qed.
#[export] Instance consume_drives input requestID : Drives (Consume input requestID).
Proof.
  unfold Consume. apply Drives_guard. intros _. apply Drives_bind; [apply _|]. intros hash.
  apply Drives_bind; [by apply (Drives_transaction _ (CtlConsume hash requestID input))|]. intros [view|b]; apply _.
Qed.
#[export] Instance bind_drives input requestID : Drives (IOSSession.Bind input requestID).
Proof.
  unfold IOSSession.Bind. apply Drives_guard. intros _. apply Drives_bind; [apply _|]. intros hash.
  by apply (Drives_transaction _ (CtlBind hash requestID input)).
Qed.
#[export] Instance authorize_drives input : Drives (Authorize input).
Proof. unfold Authorize. cbv zeta. method_reads; apply _. Qed.
#[export] Instance close_drives input requestID : Drives (Close input requestID).
Proof.
  unfold Close. apply Drives_guard. intros _. apply Drives_bind; [apply _|]. intros hash.
  by apply (Drives_transaction _ (CtlClose hash requestID input)).
Qed.
#[export] Instance record_failure_drives input requestID : Drives (RecordFailure input requestID).
Proof.
  unfold RecordFailure. cbv zeta. apply Drives_guard. intros _. apply Drives_bind; [apply _|]. intros hash.
  by apply (Drives_transaction _ (CtlFailure hash requestID (TrimSpace (fi_ErrorCode input)) input)).
Qed.
#[export] Instance close_for_reservation_drives parse print escape loopback call token id :
  Drives (CloseForReservation parse print escape loopback call token id).
Proof.
  unfold CloseForReservation. apply Drives_guard. intros _. apply Drives_bind; [apply _|]. intros db.
  destruct (open_session id db) as [[[[x d] h] appium]|]; [|apply _].
  destruct (close_upstream _ _ _ _ _ _ _ _ _).
  - apply Drives_bind; [apply _|]. intros [u|e']; apply _.
  - by eapply (Drives_transaction _ (CtlClosed id _ _ _ _)).
Qed.
#[export] Instance drift_drives : Drives IOSSession.ReconcileOnce.
Proof.
  unfold IOSSession.ReconcileOnce. do 3 (apply Drives_bind; [apply _|intros ?]).
  match goal with |- Drives (match ?l with _ => _ end) => destruct l as [|[[d r] reason] rest] end; apply _.
Qed.
#[export] Instance drift_tick_drives fuel : Drives (RunReconcile fuel).
Proof.
  induction fuel as [|n IH]; cbn [RunReconcile]; [apply _|]. apply Drives_bind; [apply _|]. intros [u|e]; apply _.
Qed.
End SessionMethods.

(** ** Every method *)
Inductive method : Type :=
  | MReport (config : Config) (deviceID : string) (input : EventInput)
  | MReconcile (config : Config) (hostTimeout : Z)
  | MHeartbeat (normalize : string -> option string) (hostID : string) (input : HeartbeatInput)
  | MCreateCommand (hostID commandType : string) (payload : obj) (maxAttempts : Z) (key : string)
  | MClaim (hostID : string) (input : ClaimInput)
  | MExtendCommand (id : string) (input : LeaseExtensionInput)
  | MComplete (id : string) (input : CompletionInput)
  | MRecover
  | MQuarantine (id reason : string) (actor : Actor) (requestID : string)
  | MUnquarantine (id reason : string) (actor : Actor) (requestID : string)
  | MRestart (id reason : string) (actor : Actor) (requestID key : string)
  | MRebuild (id reason : string) (actor : Actor) (requestID key : string)
  | MDelete (id reason : string) (actor : Actor) (requestID key : string)
  | MStart (id reason : string) (actor : Actor) (requestID key : string)
  | MStop (id reason : string) (actor : Actor) (requestID key : string)
  | MReimage (id : string) (input : DeviceReimageInput) (actor : Actor) (requestID key : string)
  | MUpdateProfile (id : string) (input : DeviceRuntimeProfileUpdateInput) (actor : Actor) (requestID key : string)
  | MSync (actor : Actor) (requestID key : string)
  | MPrepare (actor : Actor) (requestID key catalogID : string) (profile : obj)
  | MProvision (input : ProvisionInput)
  | MCreateJob (input : CatalogProvisionInput)
  | MAttach (jobID preparationID : string)
  | MAttachCached (jobID : string)
  | MFailJob (jobID stage code : string)
  | MWarmPool (jsonb_order : list (obj * Z) -> list (obj * Z)) (ios : option nat)
  | MCreateSimulator (actor : Actor) (requestID key : string) (input : IOSSimulator.CreateInput)
  | MScaleSimulators (fuel : nat)
  | MIssueGrant (url_Parse : string -> option URL) (url_String : URL -> string) (loopback_ip : string -> bool) (newGrant : result Err string)
      (actor : Actor) (reservationID requestID : string) (input : GrantInput)
  | MConsumeGrant (input : ConsumeInput) (requestID : string)
  | MBindSession (input : BindingInput) (requestID : string)
  | MAuthorizeSession (input : BindingInput)
  | MCloseSession (input : BindingInput) (requestID : string)
  | MRecordSessionFailure (input : FailureInput) (requestID : string)
  | MCloseForReservation (url_Parse : string -> option URL) (url_String : URL -> string) (url_PathEscape : string -> string)
      (loopback_ip : string -> bool) (fence_Delete : string -> string -> string -> option Z) (agentToken reservationID : string)
  | MSessionDrift (fuel : nat)
  | MManage (m : management_method).

Definition call (m : method) : Tx unit :=
  match m with
  | MReport config deviceID input => ignore (Report config deviceID input)
  | MReconcile config hostTimeout => ignore (Reconcile.RunOnce config hostTimeout)
  | MHeartbeat normalize hostID input => ignore (Heartbeat normalize hostID input)
  | MCreateCommand h t p n k => ignore (HostCommand.Create h t p n k)
  | MClaim hostID input => ignore (Claim hostID input)
  | MExtendCommand id input => ignore (HostCommand.Extend id input)
  | MComplete id input => ignore (Completion.Complete id input)
  | MRecover => ignore RecoverExpiredOnce
  | MQuarantine id reason actor requestID => ignore (QuarantineDeviceAudited id reason actor requestID)
  | MUnquarantine id reason actor requestID => ignore (UnquarantineDeviceAudited id reason actor requestID)
  | MRestart id reason actor requestID key => ignore (RestartDeviceAudited id reason actor requestID key)
  | MRebuild id reason actor requestID key => ignore (RebuildDeviceAudited id reason actor requestID key)
  | MDelete id reason actor requestID key => ignore (DeleteDeviceAudited id reason actor requestID key)
  | MStart id reason actor requestID key => ignore (StartDeviceAudited id reason actor requestID key)
  | MStop id reason actor requestID key => ignore (StopDeviceAudited id reason actor requestID key)
  | MReimage id input actor requestID key => ignore (ReimageDeviceAudited id input actor requestID key)
  | MUpdateProfile id input actor requestID key => ignore (UpdateDeviceRuntimeProfileAudited id input actor requestID key)
  | MSync actor requestID key => ignore (Sync actor requestID key)
  | MPrepare actor requestID key catalogID profile => ignore (Prepare actor requestID key catalogID profile)
  | MProvision input => ignore (Provision input)
  | MCreateJob input => ignore (CreateCatalogProvisioning input)
  | MAttach jobID preparationID => ignore (AttachPreparation jobID preparationID)
  | MAttachCached jobID => ignore (AttachCachedPreparation jobID)
  | MFailJob jobID stage code => ignore (FailCatalogProvisioning jobID stage code)
  | MWarmPool jsonb_order ios => ignore (PoolScale.RunOnce jsonb_order (option_map ios_scaler ios))
  | MCreateSimulator actor requestID key input => ignore (IOSSimulator.Create actor requestID key input)
  | MScaleSimulators fuel => ignore (ReconcileScaleUp fuel)
  | MIssueGrant parse print loopback grant actor id requestID input => ignore (Issue parse print loopback grant actor id requestID input)
  | MConsumeGrant input requestID => ignore (Consume input requestID)
  | MBindSession input requestID => ignore (IOSSession.Bind input requestID)
  | MAuthorizeSession input => ignore (Authorize input)
  | MCloseSession input requestID => ignore (Close input requestID)
  | MRecordSessionFailure input requestID => ignore (RecordFailure input requestID)
  | MCloseForReservation parse print escape loopback call token id => ignore (CloseForReservation parse print escape loopback call token id)
  | MSessionDrift fuel => ignore (RunReconcile fuel)
  | MManage m => ignore (manage m)
  end.

Definition sound_input (m : method) : Prop :=
  match m with MCreateCommand _ _ payload _ _ => self_equal (RedactMap payload) | _ => True end.

(** C7: the services do nothing else.  A method of the reconciler, the heartbeat and
    command service, the administration of devices, the management of images, hosts and
    pools, the image catalogue, the warm pool, the simulators or the iOS sessions, whether
    it succeeds or fails, changes the database only by a sequence of the transactions of
    the control plane, and the operations that it queues are lawful: they keep the lifecycle, quarantine, or move between lifecycles that nobody
    holds. *)
Theorem methods_run_transactions (m : method) (env : Env) (s s' : St) (r : result Err unit) :
  sound_input m -> call m env s = (r, s') -> drives env (st_db s) (st_db s').
Proof.
  intros Hm. enough (Drives (call m)) as D by apply D. destruct m; cbn [call]; unfold ignore;
    (apply Drives_bind; [|intros ?; apply _]).
  - apply report_drives.
  - apply cycle_drives.
  - apply heartbeat_drives.
  - by apply create_drives.
  - apply claim_drives.
  - apply extend_drives.
  - apply complete_drives.
  - apply recover_drives.
  - apply quarantine_drives.
  - apply unquarantine_drives.
  - apply restart_audited_drives.
  - apply rebuild_audited_drives.
  - apply delete_audited_drives.
  - apply start_audited_drives.
  - apply stop_audited_drives.
  - apply reimage_drives.
  - apply update_profile_drives.
  - apply sync_drives.
  - apply prepare_drives.
  - apply provision_drives.
  - apply create_job_drives.
  - apply attach_drives.
  - apply attach_cached_drives.
  - apply fail_job_drives.
  - apply warm_pool_drives. intros scale. destruct ios; [|done]. intros [= <-]. apply ios_scaler_drives.
  - apply simulator_drives.
  - apply scale_up_drives.
  - apply issue_drives.
  - apply consume_drives.
  - apply bind_drives.
  - apply authorize_drives.
  - apply close_drives.
  - apply record_failure_drives.
  - apply close_for_reservation_drives.
  - apply drift_tick_drives.
  - apply manage_drives.
Qed.

Example methods_run_transactions_witness :
  drives (env_at 105 None) (st_db first_held) (st_db (after (call (MHeartbeat (fun _ => None) host_a ready_report)) (env_at 105 None) first_held)).
Proof.
  exact (methods_run_transactions (MHeartbeat (fun _ => None) host_a ready_report) (env_at 105 None) first_held _ _ I (surjective_pairing _)).
Defined.
