(* ===== verification/SchedulerSpec.v ===== *)
(** * Properties of the scheduler

    Which reservation and which device a cycle chooses, what activation leaves, that a
    failed cycle restores what it reserved, that a tick ends, and two situations in
    which a cycle gives up although a device could serve a reservation. *)
From S2P Require Import Prelude GoText Errors Domain Json Sensitive Actor Store.
From S2P Require Import ReservationRepo TxFacts PoolSelector ReservationService Scheduler ServiceFacts FarmSystem Samples.
From S2P Require Import FarmSafety.

(** ** Choosing *)
Lemma LockNextAllocatablePending_ok env s r s' :
  LockNextAllocatablePending env s = (Ok r, s') ->
  first_sql (allocatable_pending env (st_db s)) (order_by by_created (reservations (st_db s))) = Some (Some r).
Proof.
  unfold LockNextAllocatablePending. intros H. tx H. subst.
  destruct (first_sql _ _) as [o|]; [|done].
  match goal with H : or_cast_error _ _ _ = _ |- _ => by injection H as -> end.
Qed.

Lemma allocatable_spec requested m :
  allocatable requested m = Some true <->
  available m = true /\ capabilities_match requested m = true /\ min_sdk_satisfied requested m = Some true.
Proof.
  unfold allocatable. destruct (available m), (capabilities_match requested m); cbn; naive_solver.
Qed.

Lemma available_spec m :
  available m = true <->
  pd_enabled (m_entry m) = true /\ p_status (m_pool m) = PoolActive /\ p_platform (m_pool m) = d_platform (m_device m)
  /\ h_status (m_host m) = HostOnline /\ h_draining (m_host m) = false
  /\ d_lifecycle (m_device m) = DeviceReady /\ d_health (m_device m) = HealthHealthy.
Proof.
  unfold available. rewrite !andb_true_iff, negb_true_iff, !bool_decide_eq_true, String.eqb_eq,
    lifecycle_is_spec, healthy_spec. tauto.
Qed.

Lemma min_sdk_spec requested m :
  min_sdk_satisfied requested m = Some true ->
  exists lower, coalesce_int requested "androidMinSdkLevel" = Some lower
    /\ (lower = 0 \/ exists level, coalesce_int (d_capabilities (m_device m)) "apiLevel" = Some level /\ lower <= level).
Proof.
  unfold min_sdk_satisfied. destruct (coalesce_int requested _) as [[|p|p]|]; [eauto| | |done];
    (destruct (coalesce_int (d_capabilities _) _) as [level|]; [|done]); intros [= H%Z.leb_le]; eauto 8.
Qed.

Lemma capabilities_match_spec requested m :
  capabilities_match requested m = true ->
  (has_key requested TargetDeviceCapability = true -> get_text requested TargetDeviceCapability = Some (d_id (m_device m)))
  /\ (has_key requested "platformName" = true ->
        exists name, get_text requested "platformName" = Some name /\ ToLower name = p_platform (m_pool m))
  /\ (forall k v, (k, v) ∈ requested -> k ∈ sql_schedulable_keys ->
        exists av, assoc k (d_capabilities (m_device m)) = Some av /\ contains av v = true).
Proof.
  unfold capabilities_match. intros [[Ht Hn]%andb_true_iff Hc]%andb_true_iff. split_and!.
  - intros Hk. rewrite Hk in Ht. by apply bool_decide_eq_true in Ht.
  - intros Hk. rewrite Hk in Hn. apply bool_decide_eq_true in Hn.
    destruct (get_text requested "platformName") as [name|]; [|done]. injection Hn as Hn. by exists name.
  - by apply schedulable_contains_spec.
Qed.

(** C8: an allocation is sound and first come, first served.  When the reserving
    transaction succeeds, the reservation it chose was pending without a device and due,
    and no reservation that could be served at that moment is older; the device it chose
    is ready and healthy, in an enabled membership of an active pool of its platform, on
    an online host that is not draining, and its host was below its concurrency limit.
    The device is the one the request names when it names one, its pool has the requested
    platform up to case, it contains each requested capability of the nine that take part
    in scheduling, and it has at least the requested API level; other capabilities are not
    compared.  The transaction reserves exactly that device for exactly that reservation. *)
Theorem allocation_sound (env : Env) (s s' : St) (c : claimCandidate) :
  reserve_tx env s = (Ok c, s') ->
  exists r m policy d row,
    r ∈ reservations (st_db s) /\ r_ID (cc_reservation c) = r_ID r
    /\ r_Status r = ReservationPending /\ r_DeviceID r = None /\ retry_due (env_clock env) r = true
    /\ (forall r2, r2 ∈ reservations (st_db s) -> allocatable_pending env (st_db s) r2 = Some true ->
          key_le (by_created r) (by_created r2))
    /\ m ∈ memberships (st_db s) /\ cc_device c = assignment (m_device m)
    /\ pd_enabled (m_entry m) = true /\ p_status (m_pool m) = PoolActive /\ p_platform (m_pool m) = d_platform (m_device m)
    /\ h_status (m_host m) = HostOnline /\ h_draining (m_host m) = false
    /\ d_lifecycle (m_device m) = DeviceReady /\ d_health (m_device m) = HealthHealthy
    /\ (has_key (r_RequestedCapabilities r) "_device_farm_target_device_id" = true ->
          get_text (r_RequestedCapabilities r) "_device_farm_target_device_id" = Some (d_id (m_device m)))
    /\ (has_key (r_RequestedCapabilities r) "platformName" = true ->
          exists name, get_text (r_RequestedCapabilities r) "platformName" = Some name /\ ToLower name = p_platform (m_pool m))
    /\ (forall k v, (k, v) ∈ r_RequestedCapabilities r ->
          k ∈ ["platformVersion"; "automationName"; "deviceClass"; "realDevice"; "model";
               "apiLevel"; "abi"; "resolution"; "hardware_profile_id"] ->
          exists av, assoc k (d_capabilities (m_device m)) = Some av /\ contains av v = true)
    /\ (exists lower, coalesce_int (r_RequestedCapabilities r) "androidMinSdkLevel" = Some lower
          /\ (lower = 0 \/ exists level, coalesce_int (d_capabilities (m_device m)) "apiLevel" = Some level /\ lower <= level))
    /\ LockPoolPolicyForHost (d_host_id (m_device m)) (d_id (m_device m)) env s = (Ok policy, s)
    /\ pp_Status policy = PoolActive /\ pp_ActiveReservations policy < pp_MaxConcurrency policy
    /\ devices (st_db s) !! d_id (m_device m) = Some d /\ device_reservations (st_db s) !! r_ID r = Some row
    /\ devices (st_db s') = <[d_id (m_device m) := d <| d_lifecycle := DeviceReserved |> <| d_updated_at := env_clock env |>]>
          (devices (st_db s))
    /\ device_reservations (st_db s') = <[r_ID r := row <| r_DeviceID := Some (d_id (m_device m)) |> <| r_FailureCode := None |>
          <| r_UpdatedAt := env_clock env |>]> (device_reservations (st_db s)).
Proof.
  intros (r & m & policy & d & row & Hnext & Hm & Ha & Hpol & Hact & Hlt & Hd & _ & _ & Hrow & _ & _ & -> & ->)%reserve_tx_ok.
  apply LockNextAllocatablePending_ok, first_sql_minimal in Hnext as (Hin & Hp & Hmin).
  apply allocatable_spec in Ha as ((? & ? & ? & ? & ? & ? & ?)%available_spec & Hcaps & Hsdk).
  apply capabilities_match_spec in Hcaps as (? & ? & ?).
  unfold allocatable_pending in Hp. destruct (unassigned_pending r && retry_due _ r) eqn:Hdue; [|done]. guards.
  exists r, m, policy, d, row. split_and!; try done.
  - intros r2 Hr2 Hs2. apply Hmin; [done|]. by rewrite Hs2.
  - by apply min_sdk_spec.
Qed.

Definition reserved_outcome : result Err claimCandidate * St :=
  reserve_tx (env_at 101 None) created.
Definition reserved_candidate : claimCandidate :=
  match reserved_outcome.1 with Ok c => c | Fail _ => sample_candidate end.

Lemma reserved_outcome_ok : reserve_tx (env_at 101 None) created = (Ok reserved_candidate, reserved_outcome.2).
Proof. vm_compute. reflexivity. Qed.

Example allocation_sound_witness : exists r, r ∈ reservations (st_db created) /\ r_Status r = ReservationPending.
Proof.
  destruct (allocation_sound _ _ _ _ reserved_outcome_ok) as (r & _ & _ & _ & _ & Hin & _ & Hst & _).
  exists r. exact (conj Hin Hst).
Defined.

(** ** Activating *)

(** C27: activation starts exactly the claimed reservation.  When it succeeds, the
    reservation becomes active from the database clock for its lease, its device turns
    from reserved to busy, a first session of the reservation is active on that device,
    and no other reservation or device changes. *)
Theorem activation_effect (env : Env) (s s' : St) (sel : claimCandidate) (sid : string) (a : Assignment) :
  keyed (st_db s) -> activate_tx sel sid env s = (Ok a, s') ->
  let rid := r_ID (cc_reservation sel) in
  let did := da_ID (cc_device sel) in
  let now := env_clock env in
  exists r d,
    device_reservations (st_db s) !! rid = Some r /\ r_Status r = ReservationPending /\ r_DeviceID r = Some did
    /\ devices (st_db s) !! did = Some d /\ d_lifecycle d = DeviceReserved
    /\ session_of (st_db s) rid = None
    /\ device_reservations (st_db s') = <[rid := r <| r_DeviceID := Some did |> <| r_Status := ReservationActive |>
          <| r_StartsAt := Some now |> <| r_ExpiresAt := Some (now + r_LeaseSeconds r * Second) |> <| r_UpdatedAt := now |>]>
          (device_reservations (st_db s))
    /\ devices (st_db s') = <[did := d <| d_lifecycle := DeviceBusy |> <| d_updated_at := now |>]> (devices (st_db s))
    /\ exists x, device_sessions (st_db s') = <[sid := x]> (device_sessions (st_db s))
         /\ s_ReservationID x = rid /\ s_DeviceID x = did /\ s_Status x = SessionActive /\ s_StartedAt x = Some now.
Proof.
  intros Hk H. pose proof (activate_tx_ok _ _ _ _ _ _ Hk H) as
    (r & d & policy & Hr & Hp & Hdev & _ & _ & Hd & Hl & -> & _ & Hso & ->).
  exists r, d. split_and!; try done. eexists. split_and!; try done; cbn.
  - apply (keyed_reservation _ Hk _ _ Hr).
  - apply (keyed_device _ Hk _ _ Hd).
Qed.

Definition activated_assignment : Assignment :=
  match outcome (activate_tx sample_candidate "session-00000001") (env_at 102 None) (f_state farm_reserved) with
  | Ok a => a
  | Fail _ => mkSchedAssignment (pending_row sample_params 0) (mkSession "" "" "" SessionFailed None None [] 0 0 no_fence)
  end.

Lemma sample_activates :
  activate_tx sample_candidate "session-00000001" (env_at 102 None) (f_state farm_reserved)
  = (Ok activated_assignment, after (activate_tx sample_candidate "session-00000001") (env_at 102 None) (f_state farm_reserved)).
Proof. vm_compute. reflexivity. Qed.

Lemma farm_reserved_keyed : keyed (st_db (f_state farm_reserved)).
Proof.
  assert (reachable (fun _ _ => True) farm_reserved) as Hf.
  { apply (run_reachable _ _ _ (env_at 101 None)); [|done|done].
    apply (run_reachable _ (mkFarm sample_state (at_second 10)) (OpCreate sample_params) (env_at 100 None)); [|cbn; lia|done].
    apply reach_init. by apply init_intro; [|apply sample_idle|apply sample_keyed|apply sample_pools_ok]. }
  by apply (reachable_invariant _ (fun _ _ => True)) in Hf as (Hk & _).
Qed.

Example activation_effect_witness :
  exists r d, device_reservations (st_db (f_state farm_reserved)) !! "reservation-0001" = Some r
    /\ devices (st_db (f_state farm_reserved)) !! device_1 = Some d /\ d_lifecycle d = DeviceReserved.
Proof.
  destruct (activation_effect _ _ _ _ _ _ farm_reserved_keyed sample_activates) as (r & d & Hr & _ & _ & Hd & Hl & _).
  exists r, d. exact (conj Hr (conj Hd Hl)).
Defined.

(** ** Compensation *)
Lemma expect_one_1 e env s : expect_one 1 e env s = (Ok tt, s).
Proof. done. Qed.

Lemma lookup_put_device k d s : devices (st_db (on_db (put_device k d) s)) !! k = Some d.
Proof. apply lookup_insert_eq. Qed.

Lemma compensated_guard d t : d_health d = HealthHealthy ->
  (let x := d <| d_lifecycle := DeviceRecycling |> <| d_updated_at := t |> in lifecycle_is DeviceRecycling x && healthy x) = true.
Proof. intros Hh. unfold healthy. cbn. by rewrite Hh. Qed.

Lemma compensate_succeeds sel code terminal env s d r :
  let did := da_ID (cc_device sel) in
  let rid := r_ID (cc_reservation sel) in
  devices (st_db s) !! did = Some d -> d_lifecycle d = DeviceReserved -> d_health d = HealthHealthy ->
  device_reservations (st_db s) !! rid = Some r -> r_Status r = ReservationPending -> r_DeviceID r = Some did ->
  exists s', compensateClaim sel code terminal env s = (Ok tt, s')
    /\ st_db s' = put_reservation rid (r <| r_DeviceID := None |>
                     <| r_Status := if terminal then ReservationFailed else ReservationPending |>
                     <| r_FailureCode := Some code |> <| r_UpdatedAt := env_clock env |>)
                   (put_device did (d <| d_lifecycle := DeviceReady |> <| d_updated_at := env_clock env |>) (st_db s)).
Proof.
  intros did rid Hd Hl Hh Hr Hp Hdev. fold did rid in Hd, Hr, Hdev |- *.
  unfold compensateClaim, WithinTx, compensate_tx, CompensateClaim.
  unfold mbind, Tx_bind, M_bind, ClockNow. fold did rid.
  rewrite update_device_rows, Hd, (proj2 (lifecycle_is_spec _ _) Hl), expect_one_1; cbv beta iota.
  rewrite update_device_rows, lookup_put_device. cbv beta iota.
  rewrite compensated_guard by done. rewrite expect_one_1; cbv beta iota.
  rewrite update_reservation_row by (intros x; by destruct terminal). cbn. rewrite Hr.
  rewrite (proj2 (claims_device_spec did r)) by done. cbn.
  eexists. split; [done|]. cbn. unfold put_reservation, put_device. cbn. by rewrite insert_insert_eq.
Qed.

(** What a failed cycle may leave of a database. *)
Definition restored (db db' : DB) : Prop :=
  (forall k, option_map d_lifecycle (devices db' !! k) = option_map d_lifecycle (devices db !! k))
  /\ (forall k, option_map r_DeviceID (device_reservations db' !! k) = option_map r_DeviceID (device_reservations db !! k))
  /\ (forall k r', device_reservations db' !! k = Some r' -> exists r, device_reservations db !! k = Some r
        /\ (r_Status r' = r_Status r \/ (r_Status r = ReservationPending /\ r_Status r' = ReservationFailed)))
  /\ device_sessions db' = device_sessions db.

Lemma restored_same db : restored db db.
Proof. split_and!; try done. intros k r' H. eauto. Qed.

(** Reserve, then compensate on the same database: everything is back. *)
Lemma reserve_compensate env s c s1 s2 code terminal :
  reserve_tx env s = (Ok c, s1) -> st_db s2 = st_db s1 ->
  exists s3, compensateClaim c code terminal env s2 = (Ok tt, s3) /\ restored (st_db s) (st_db s3).
Proof.
  intros (r & m & policy & d & row & _ & _ & _ & _ & _ & _ & Hd & Hl & Hh & Hr & Hp & Hn & -> & ->)%reserve_tx_ok Hdb.
  edestruct (compensate_succeeds (mkCandidate (r <| r_DeviceID := Some (d_id (m_device m)) |>) (assignment (m_device m)))
    code terminal env s2) as (s3 & Hs3 & Hdb3); [rewrite Hdb; cbn; apply lookup_insert_eq|done|done
    |rewrite Hdb; cbn; apply lookup_insert_eq|done|done|].
  exists s3. split; [done|]. rewrite Hdb3, Hdb. cbn. unfold restored. cbn. rewrite !insert_insert_eq. split_and!.
  - intros k. destruct (decide (k = d_id (m_device m))) as [->|].
    + rewrite lookup_insert_eq, Hd. cbn. by rewrite Hl.
    + by rewrite lookup_insert_ne.
  - intros k. destruct (decide (k = r_ID r)) as [->|].
    + rewrite lookup_insert_eq, Hr. cbn. by rewrite Hn.
    + by rewrite lookup_insert_ne.
  - intros k r' [[<- <-]|[_ Hk]]%lookup_insert_Some; [exists row|exists r']; (split; [done|]); [|by left].
    cbn. destruct terminal; [right|left]; done.
  - done.
Qed.

Lemma claim_device_fail sel env s e s' :
  claim_device sel env s = (Fail e, s') ->
  exists s1 code terminal x, st_db s1 = st_db s /\ compensateClaim sel code terminal env s1 = (x, s').
Proof.
  unfold claim_device, claimer_for, env_gets, mbind, Tx_bind, M_bind, attempt.
  destruct (if String.eqb _ _ then _ else _) as [stf|]; [|done].
  unfold record_call, modify. cbn [stf_Claim].
  destruct (stf_Claim stf _ _) as [[msg retryable]|]; [|done].
  match goal with |- context [compensateClaim ?a ?b ?c ?d ?x] => destruct (compensateClaim a b c d x) as [[u|err] s2] eqn:E end;
    intros [= <- <-]; eexists _, _, _, _; (split; [|exact E]); done.
Qed.

Lemma claim_device_keeps sel env s u s' : claim_device sel env s = (Ok u, s') -> st_db s' = st_db s.
Proof.
  unfold claim_device, claimer_for, env_gets, mbind, Tx_bind, M_bind, attempt.
  destruct (if String.eqb _ _ then _ else _) as [stf|]; [|by intros [= _ <-]].
  unfold record_call, modify. cbn [stf_Claim].
  destruct (stf_Claim stf _ _) as [[msg retryable]|]; [|by intros [= _ <-]].
  match goal with |- context [compensateClaim ?a ?b ?c ?d ?x] => destruct (compensateClaim a b c d x) as [[]] end; done.
Qed.

Lemma releaseAndCompensate_db sel code terminal env s r s' :
  releaseAndCompensate sel code terminal env s = (r, s') ->
  exists s1 x, st_db s1 = st_db s /\ compensateClaim sel code terminal env s1 = (x, s').
Proof.
  unfold releaseAndCompensate, claimer_for, env_gets, mbind, Tx_bind, M_bind, attempt.
  unfold record_call, modify, mret, Tx_ret, M_ret.
  destruct (if String.eqb _ _ then _ else _) as [stf|]; cbv beta iota;
  match goal with |- context [compensateClaim ?a ?b ?c ?d ?x] => destruct (compensateClaim a b c d x) as [y s2] eqn:E end;
    intros [= _ <-]; eexists _, _; (split; [|exact E]); done.
Qed.

(** C25: a failed cycle gives everything back.  Whatever step of a cycle fails (the
    claim in STF, the session identifier, the activation), once the cycle has returned
    its error every device has the lifecycle it had, every reservation is bound to the
    device it was bound to, no session appeared, and the only status that may have
    changed is that of the chosen reservation, from pending to failed. *)
Theorem failed_cycle_restores (env : Env) (s s' : St) (e : Err) :
  RunOnce env s = (Fail e, s') -> restored (st_db s) (st_db s').
Proof.
  unfold RunOnce. unfold mbind at 1, Tx_bind, M_bind.
  destruct (WithinTx reserve_tx env s) as [[c|x] s1] eqn:Hres.
  2: { intros [= _ <-]. apply WithinTx_fail in Hres as ->. apply restored_same. }
  rewrite WithinTx_ok in Hres. unfold mbind at 1. 
  destruct (claim_device c env s1) as [[u|x] s2] eqn:Hclaim.
  2: { intros [= _ <-]. apply claim_device_fail in Hclaim as (s3 & code & term & y & Hdb & Hc).
       destruct (reserve_compensate _ _ _ _ s3 code term Hres Hdb) as (s4 & Hs4 & Hrest).
       rewrite Hs4 in Hc. by injection Hc as _ <-. }
  apply claim_device_keeps in Hclaim. unfold mbind at 1, attempt at 1.
  destruct (newID env s2) as [[sid|x] s3] eqn:Hid; pose proof (keeps_db _ _ _ _ Hid) as Hdb3.
  - unfold mbind at 1, attempt.
    destruct (WithinTx (activate_tx c sid) env s3) as [[a|x] s4] eqn:Hact; [done|].
    apply WithinTx_fail in Hact. unfold mbind.
    destruct (releaseAndCompensate c _ _ env s4) as [y s5] eqn:Hrel.
    apply releaseAndCompensate_db in Hrel as (s6 & z & Hdb6 & Hc).
    destruct (reserve_compensate _ _ _ _ s6 "STF_CLAIM_COMPENSATED" false Hres) as (s7 & Hs7 & Hrest); [congruence|].
    intros H. assert (s5 = s') as -> by (destruct y; by injection H).
    rewrite Hs7 in Hc. by injection Hc as _ <-.
  - unfold mbind.
    destruct (releaseAndCompensate c _ _ env s3) as [y s5] eqn:Hrel.
    apply releaseAndCompensate_db in Hrel as (s6 & z & Hdb6 & Hc).
    destruct (reserve_compensate _ _ _ _ s6 "SESSION_ID_GENERATION_FAILED" true Hres) as (s7 & Hs7 & Hrest); [congruence|].
    intros H. assert (s5 = s') as -> by (destruct y; by injection H).
    rewrite Hs7 in Hc. by injection Hc as _ <-.
Qed.

Lemma refused_cycle :
  RunOnce (env_at 101 (Some refusing_stf)) created
  = (Fail SchedErrSTFClaimFailed, after RunOnce (env_at 101 (Some refusing_stf)) created).
Proof. vm_compute. reflexivity. Qed.

Example failed_cycle_restores_witness :
  restored (st_db created) (st_db (after RunOnce (env_at 101 (Some refusing_stf)) created)).
Proof. exact (failed_cycle_restores _ _ _ _ refused_cycle). Defined.

(** ** A successful cycle, and the end of a tick *)
Lemma RunOnce_ok env s a s' :
  RunOnce env s = (Ok a, s') ->
  exists c sid s1 s2, reserve_tx env s = (Ok c, s1) /\ st_db s2 = st_db s1 /\ activate_tx c sid env s2 = (Ok a, s').
Proof.
  unfold RunOnce. intros (c & s1 & Hr & H)%bindT_ok.
  rewrite WithinTx_ok in Hr. apply bindT_ok in H as (u & s2 & Hc & H). apply claim_device_keeps in Hc.
  unfold mbind at 1, Tx_bind, M_bind, attempt at 1 in H.
  destruct (newID env s2) as [[sid|x] s3] eqn:Hid; pose proof (keeps_db _ _ _ _ Hid) as Hdb3.
  - unfold mbind, attempt in H.
    destruct (WithinTx (activate_tx c sid) env s3) as [[b|x] s4] eqn:Hact.
    + injection H as <- <-. rewrite WithinTx_ok in Hact.
      exists c, sid, s1, s3. split_and!; [done|congruence|done].
    + destruct (releaseAndCompensate c _ _ env s4) as [[] ?]; done.
  - unfold mbind in H. destruct (releaseAndCompensate c _ _ env s3) as [[] ?]; done.
Qed.

Definition is_pending (kr : string * ReservationRecord) : Prop := r_Status kr.2 = ReservationPending.
#[export] Instance is_pending_dec kr : Decision (is_pending kr).
Proof. unfold is_pending. apply _. Defined.

Definition pending_count (s : St) : nat := size (filter is_pending (device_reservations (st_db s))).

Lemma cycle_effect env s a s' :
  keyed (st_db s) -> RunOnce env s = (Ok a, s') ->
  exists rid did row d row' d',
    device_reservations (st_db s) !! rid = Some row /\ r_Status row = ReservationPending
    /\ devices (st_db s) !! did = Some d /\ d_lifecycle d = DeviceReady
    /\ device_reservations (st_db s') = <[rid := row']> (device_reservations (st_db s))
    /\ devices (st_db s') = <[did := d']> (devices (st_db s))
    /\ r_Status row' = ReservationActive /\ d_lifecycle d' = DeviceBusy /\ r_ID row' = rid /\ d_id d' = did.
Proof.
  intros Hk (c & sid & s1 & s2 & Hr & Hdb & Ha)%RunOnce_ok.
  apply reserve_tx_ok in Hr as (r & m & policy & d & row & _ & _ & _ & _ & _ & _ & Hd & Hl & Hh & Hrow & Hp & Hn & -> & ->).
  pose proof (keyed_reservation _ Hk _ _ Hrow) as Er. pose proof (keyed_device _ Hk _ _ Hd) as Ed.
  assert (keyed (st_db s2)) as Hk2.
  { rewrite Hdb. by eapply keyed_write; [done|done| | |exact Hk]. }
  apply (activate_tx_ok _ _ _ _ _ _ Hk2) in Ha as (row2 & d2 & p2 & Hrow2 & Hp2 & _ & _ & _ & Hd2 & Hl2 & -> & _ & _ & ->).
  rewrite Hdb in Hrow2, Hd2. cbn in Hrow2, Hd2. rewrite lookup_insert_eq in Hrow2; rewrite lookup_insert_eq in Hd2. simplify_eq.
  exists (r_ID r), (d_id (m_device m)), row, d. eexists _, _. cbn. rewrite Hdb. cbn. rewrite !insert_insert_eq.
  split_and!; try done.
Qed.

Lemma cycle_decreases env s a s' :
  keyed (st_db s) -> RunOnce env s = (Ok a, s') -> keyed (st_db s') /\ (pending_count s' < pending_count s)%nat.
Proof.
  intros Hk H. destruct (cycle_effect _ _ _ _ Hk H) as
    (rid & did & row & d & row' & d' & Hrow & Hp & Hd & _ & Hr & Hds & Hact & _ & Hid & Hdid).
  split; [by eapply keyed_write|]. unfold pending_count. rewrite Hr.
  eapply count_rows_lt; [done|done|]. unfold is_pending. cbn. congruence.
Qed.

(** C26: a scheduler tick ends, and allocates as long as it can.  From any database
    whose rows carry their own identifiers, the loop of one tick stops with the error of
    its last cycle after at most as many allocations as there are pending reservations. *)
Theorem scheduler_tick_terminates (env : Env) (s : St) (fuel : nat) :
  keyed (st_db s) -> (pending_count s < fuel)%nat ->
  exists e s', run_tick fuel env s = (Ok (Some e), s').
Proof.
  intros Hk Hf. apply (drain_measure RunOnce pending_count (fun s => keyed (st_db s)) env); [|done..].
  intros s1 a s2. apply cycle_decreases.
Qed.

Lemma created_keyed : keyed (st_db created).
Proof.
  apply (keyed_insert sample_db _ "reservation-0001" (pending_row sample_params (at_second 100)));
    [vm_compute; reflexivity..|apply sample_keyed].
Qed.

Example scheduler_tick_terminates_witness :
  exists e s', run_tick 2 (env_at 101 (Some willing_stf)) created = (Ok (Some e), s').
Proof. apply scheduler_tick_terminates; [apply created_keyed|vm_compute; lia]. Defined.

(** ** Two ways in which one reservation holds up the others *)

(** The farm after two more requests, when the only reservation that host A may serve is
    running: host B is idle. *)
Definition queued : St :=
  after (Create sample_actor "create-key-2" (sample_input [])) (env_at 102 None) scheduled.

Definition device_3_membership : Membership :=
  mkMembership (sample_row device_3 host_b 34 4) (mkPoolDeviceRow pool_b device_3 true (at_second 5) (at_second 5))
    (sample_host host_b "10.0.0.2") (sample_pool pool_b "android-10.0.0.2" 4 false).

(** a full host blocks the queue.  The device query looks for the oldest matching
    device without asking whether its host has room, and the cycle gives up when the host
    has none: in the sample farm a pending reservation stays pending although a ready
    device of an idle host matches it and that host is below its limit. *)
Theorem scheduler_blocked_by_full_host (stf : option STFController) :
  outcome RunOnce (env_at 103 stf) queued = Fail SchedErrCapacityUnavailable
  /\ (exists r, outcome LockNextAllocatablePending (env_at 103 stf) queued = Ok r /\ r_Status r = ReservationPending
      /\ device_3_membership ∈ memberships (st_db queued)
      /\ allocatable (r_RequestedCapabilities r) device_3_membership = Some true)
  /\ exists policy, outcome (LockPoolPolicyForHost host_b device_3) (env_at 103 stf) queued = Ok policy
      /\ pp_Status policy = PoolActive /\ pp_ActiveReservations policy = 0 /\ pp_MaxConcurrency policy = 4.
Proof.
  split_and!.
  - destruct stf; vm_compute; reflexivity.
  - eexists. split_and!; [vm_compute; reflexivity|vm_compute; reflexivity| |vm_compute; reflexivity].
    apply list_elem_of_lookup. exists 2%nat. vm_compute. reflexivity.
  - eexists. split_and!; vm_compute; reflexivity.
Qed.

Lemma min_sdk_error requested m :
  coalesce_int requested "androidMinSdkLevel" = None -> min_sdk_satisfied requested m = None.
Proof. unfold min_sdk_satisfied. by intros ->. Qed.

Lemma allocatable_error requested db m :
  coalesce_int requested "androidMinSdkLevel" = None -> m ∈ memberships db ->
  available m = true -> capabilities_match requested m = true ->
  exists_sql (allocatable requested) (memberships db) = None.
Proof.
  intros Hc Hm Ha Hcaps. apply (exists_sql_error _ _ m); [done| |intros y _]; unfold allocatable.
  - rewrite Ha, Hcaps. by apply min_sdk_error.
  - destruct (available y && _); [|done]. by rewrite min_sdk_error.
Qed.

(** one malformed level stops the queue.  A pending reservation whose requested
    androidMinSdkLevel is not an integer, and which a device would otherwise match, makes
    every cycle that reaches it fail with the cast error of the query: nothing behind it
    is allocated, and the database stays as it is. *)
Theorem cast_error_stops_scheduler (env : Env) (s : St) (pre post : list ReservationRecord) (r : ReservationRecord)
    (m : Membership) :
  order_by by_created (reservations (st_db s)) = pre ++ r :: post ->
  (forall x, x ∈ pre -> allocatable_pending env (st_db s) x = Some false) ->
  unassigned_pending r = true -> retry_due (env_clock env) r = true ->
  coalesce_int (r_RequestedCapabilities r) "androidMinSdkLevel" = None ->
  m ∈ memberships (st_db s) -> available m = true -> capabilities_match (r_RequestedCapabilities r) m = true ->
  exists s', RunOnce env s = (Fail ErrInvalidTextRepresentation, s') /\ st_db s' = st_db s.
Proof.
  intros Hl Hpre Hu Hr Hc Hm Ha Hcaps.
  assert (first_sql (allocatable_pending env (st_db s)) (order_by by_created (reservations (st_db s))) = None) as Hf.
  { apply first_sql_error. exists pre, r, post. rewrite Forall_forall. split_and!; [done| |done].
    unfold allocatable_pending. by rewrite Hu, Hr, (allocatable_error _ _ m). }
  assert (next_pending env s = (Fail ErrInvalidTextRepresentation, s)) as Hn.
  { unfold next_pending, LockNextAllocatablePending, env_gets, optional, mbind, Tx_bind, M_bind.
    cbv beta iota. rewrite Hf. done. }
  unfold RunOnce, WithinTx, reserve_tx, mbind, Tx_bind, M_bind. rewrite Hn. eexists. done.
Qed.

Definition malformed : St :=
  after (Create sample_actor "create-key-2" (sample_input []))
    (env_at 101 None) (after (Create sample_actor "create-key-1" (sample_input [("androidMinSdkLevel", JStr "abc")]))
                         (env_at 100 None) sample_state).

Definition malformed_queue : list ReservationRecord := order_by by_created (reservations (st_db malformed)).
Definition malformed_row : ReservationRecord := nth 0 malformed_queue (pending_row sample_params 0).
Definition device_1_membership : Membership :=
  mkMembership (sample_row device_1 host_a 30 2) (mkPoolDeviceRow pool_a device_1 true (at_second 5) (at_second 5))
    (sample_host host_a "10.0.0.1") (sample_pool pool_a "android-10.0.0.1" 1 false).

(** The service accepts both requests, and the second alone is served. *)
Example malformed_accepted :
  map r_RequestedCapabilities malformed_queue = [[("androidMinSdkLevel", JStr "abc")]; []]
  /\ match outcome RunOnce (env_at 102 None)
         (after (Create sample_actor "create-key-2" (sample_input [])) (env_at 101 None) sample_state) with
     | Ok a => r_DeviceID (as_Reservation a) = Some device_1
     | Fail _ => False
     end.
Proof. vm_compute. done. Qed.

Example cast_error_stops_scheduler_witness :
  exists s', RunOnce (env_at 102 None) malformed = (Fail ErrInvalidTextRepresentation, s') /\ st_db s' = st_db malformed.
Proof.
  apply (cast_error_stops_scheduler _ _ [] (drop 1 malformed_queue) malformed_row device_1_membership);
    [|by intros x []%elem_of_nil|..|apply list_elem_of_lookup; exists 0%nat| |]; vm_compute; reflexivity.
Defined.
