(* ===== verification/ReservationSpec.v ===== *)
(** * Properties of the reservation service

    What closing a reservation leaves of its device, that leases stay within the pool's
    bound, that keyed operations take effect once, who may release a reservation, what
    the reaper may close, and two situations in which the service fails a request its
    interface promises to serve. *)
From S2P Require Import Prelude GoText Errors Domain DomainSpec Json Sensitive Actor.
From S2P Require Import Store ReservationRepo TxFacts PoolSelector ReservationService Scheduler Reaper ServiceFacts.
From S2P Require Import FarmSystem Samples FarmSafety SchedulerSpec.

(** ** Closing *)

(** Where a device goes when its reservation ends. *)
Definition closing_lifecycle (fresh : bool) (d : DeviceRow) : DeviceLifecycleStatus :=
  if bool_decide (d_lifecycle d = DeviceQuarantined) then DeviceQuarantined
  else if negb (bool_decide (d_health d = HealthHealthy)) then DeviceQuarantined
  else if fresh && String.eqb (d_platform d) "android" && String.eqb (d_device_kind d) "emulator" then DeviceRecycling
  else DeviceReady.

Definition wants_fresh (policy : option PoolPolicy) : bool :=
  match policy with Some p => pp_FreshVMPerRun p | None => false end.

Lemma recycles_fresh policy d :
  recycles policy (assignment d)
  = wants_fresh policy && String.eqb (d_platform d) "android" && String.eqb (d_device_kind d) "emulator"
    && negb (bool_decide (d_lifecycle d = DeviceQuarantined)) && bool_decide (d_health d = HealthHealthy).
Proof. by destruct policy. Qed.

(** The [CASE] of the update computes the state the aggregate moved to. *)
Lemma released_lifecycle_agrees policy d :
  released_lifecycle (recycles policy (assignment d)) (release_state policy d) d = closing_lifecycle (wants_fresh policy) d
  /\ (d_lifecycle d <> DeviceQuarantined -> closing_lifecycle (wants_fresh policy) d = release_state policy d).
Proof.
  unfold released_lifecycle, release_state, release_target, closing_lifecycle, lifecycle_is. rewrite recycles_fresh.
  destruct (decide (d_lifecycle d = DeviceQuarantined)) as [E|E].
  - rewrite bool_decide_eq_true_2 by done. by split.
  - rewrite !(bool_decide_eq_false_2 (d_lifecycle d = DeviceQuarantined)) by done.
    destruct (decide (d_health d = HealthHealthy)) as [Eh|Eh].
    + rewrite !bool_decide_eq_true_2 by done. cbn. rewrite !andb_true_r.
      destruct (wants_fresh policy && _ && _); by split.
    + rewrite !(bool_decide_eq_false_2 (d_health d = HealthHealthy)) by done. cbn. rewrite !andb_false_r. by split.
Qed.

(** closing a reservation.  When it succeeds, the reservation, which was active,
    ends now in the given terminal status; its device stays in quarantine, or is
    quarantined when it is not healthy, is recycled when the pool wants a fresh emulator
    for each run, and is ready otherwise; that is the state the device aggregate moved
    to by an allowed transition; nothing else changes in either table; and exactly one
    audit event records the action. *)
Theorem closing_effect (env : Env) (s s' : St) (current r' : ReservationRecord) (terminal : ReservationStatus)
    (actor : Actor) (action requestID reason : string) :
  closeActiveLocked current terminal actor action requestID reason env s = (Ok r', s') ->
  exists did d r policy d' auditID,
    r_DeviceID current = Some did /\ devices (st_db s) !! did = Some d
    /\ outcome (optional RepoErrNotFound (LoadPoolPolicyForRelease (d_host_id d) (d_id d))) env s = Ok policy
    /\ has_edge reservationTransitions (r_Status current) terminal = true
    /\ device_reservations (st_db s) !! r_ID current = Some r /\ r_Status r = ReservationActive
    /\ r' = r <| r_Status := terminal |> <| r_ReleasedAt := Some (env_clock env) |> <| r_UpdatedAt := env_clock env |>
    /\ device_reservations (st_db s') = <[r_ID current := r']> (device_reservations (st_db s))
    /\ devices (st_db s') = <[did := d']> (devices (st_db s))
    /\ d_lifecycle d' = closing_lifecycle (wants_fresh policy) d
    /\ (d_lifecycle d' = d_lifecycle d \/ has_edge deviceTransitions (d_lifecycle d) (d_lifecycle d') = true)
    /\ device_audit_events (st_db s') = device_audit_events (st_db s)
         ++ [mkAudit auditID (act_Type actor) (act_ID actor) action "device_reservation" (r_ID current) requestID (RedactText reason) []
             (env_clock env)].
Proof.
  intros (did & d & r & x & auditID & policy & Hdid & Hd & _ & Hpol & Hedge & Hlc & Hr & Ha & -> & Hdb)%closeActiveLocked_ok.
  destruct (released_lifecycle_agrees policy d) as [Hrel Hst].
  exists did, d, r, policy. eexists _, auditID. rewrite Hdb. cbn. split_and!; try done; cbn.
  - unfold outcome. by rewrite Hpol.
  - rewrite Hrel. destruct (decide (d_lifecycle d = DeviceQuarantined)) as [E|E].
    + left. unfold closing_lifecycle. by rewrite bool_decide_eq_true_2.
    + rewrite Hst by done. destruct (decide (d_lifecycle d = release_state policy d)) as [->|E2]; [by left|].
      right. by apply Hlc.
Qed.

Definition active_state : St := f_state farm_active.
Definition close_sample : Tx ReservationRecord :=
  closeActiveLocked active_row ReservationReleased sample_actor "release_device_reservation" "request-0001" "done".
Definition closed_sample : ReservationRecord :=
  match outcome close_sample (env_at 200 None) active_state with Ok r => r | Fail _ => active_row end.

Lemma close_sample_ok :
  close_sample (env_at 200 None) active_state = (Ok closed_sample, after close_sample (env_at 200 None) active_state).
Proof. vm_compute. reflexivity. Qed.

Example closing_effect_witness :
  exists did d', device_reservations (st_db (after close_sample (env_at 200 None) active_state)) =
      <["reservation-0001" := closed_sample]> (device_reservations (st_db active_state))
    /\ devices (st_db (after close_sample (env_at 200 None) active_state)) = <[did := d']> (devices (st_db active_state)).
Proof.
  destruct (closing_effect _ _ _ _ _ _ _ _ _ _ close_sample_ok) as (did & d & r & policy & d' & a & _ & _ & _ & _ & _ & _ & _ & Hr & Hd & _).
  exists did, d'. exact (conj Hr Hd).
Defined.

(** ** Extending a lease *)

Definition put_operation (p : OperationParams) (db : DB) : DB :=
  db <| device_idempotency_records := <[operation_key p := operation_row p]> (device_idempotency_records db) |>.

Lemma BeginOperation_new p env s :
  device_idempotency_records (st_db s) !! operation_key p = None ->
  BeginOperation p env s = (Ok false, on_db (put_operation p) s).
Proof. intros H. unfold BeginOperation, get_db, mbind, Tx_bind, M_bind, gets. by rewrite H. Qed.

Lemma same_operation_refl p : same_operation p (operation_row p) = true.
Proof. unfold same_operation. cbn. by rewrite !String.eqb_refl. Qed.

Lemma BeginOperation_seen p env s :
  device_idempotency_records (st_db s) !! operation_key p = Some (operation_row p) ->
  BeginOperation p env s = (Ok true, s) /\ CheckOperation p env s = (Ok true, s).
Proof.
  intros H. unfold BeginOperation, CheckOperation, get_db, mbind, Tx_bind, M_bind, gets.
  by rewrite H, same_operation_refl.
Qed.

Lemma GetPoolPolicy_ok env s id policy s' :
  GetPoolPolicy id env s = (Ok policy, s') ->
  exists p n, device_pools (st_db s) !! id = Some p /\ policy = policy_of p n /\ s' = s.
Proof. unfold GetPoolPolicy. intros H. tx H. subst. eauto. Qed.

Lemma next_expiry_min now e add max :
  next_expiry now e add max = Z.min (e + add * Second) (now + max * Second).
Proof. unfold next_expiry. destruct (Z.ltb_spec (now + max * Second) (e + add * Second)); lia. Qed.

(** C28: an extension is bounded.  When an extension that is not a replay succeeds, the
    reservation was active and not expired at the database clock, the lease grows by the
    seconds asked for but never beyond the pool's maximum counted from now, it still ends
    in the future, and no other row and no other field but the time stamps changes. *)
Theorem extension_bounded (env : Env) (s s' : St) (operation : OperationParams) (id : string) (additional : Z)
    (r' : ReservationRecord) :
  device_idempotency_records (st_db s) !! operation_key operation = None ->
  60 <= additional ->
  extend_tx operation id additional env s = (Ok r', s') ->
  exists r p expires,
    device_reservations (st_db s) !! id = Some r /\ r_Status r = ReservationActive
    /\ r_ExpiresAt r = Some expires /\ env_clock env < expires
    /\ device_pools (st_db s) !! r_PoolID r = Some p /\ additional <= p_max_lease_seconds p
    /\ let next := Z.min (expires + additional * Second) (env_clock env + p_max_lease_seconds p * Second) in
       env_clock env < next <= env_clock env + p_max_lease_seconds p * Second
       /\ r' = r <| r_ExpiresAt := Some next |> <| r_UpdatedAt := env_clock env |>
       /\ device_reservations (st_db s') = <[id := r']> (device_reservations (st_db s))
       /\ devices (st_db s') = devices (st_db s) /\ device_sessions (st_db s') = device_sessions (st_db s).
Proof.
  intros Hkey Hadd H. unfold extend_tx in H. apply bindT_ok in H as (replay & s1 & Hb & H).
  rewrite BeginOperation_new in Hb by done. injection Hb as <- <-.
  apply bindT_ok in H as (current & s1 & Hl & H). apply LockByID_ok in Hl as [Hr ->].
  destruct (r_Status current) eqn:Hst; try done. destruct (r_StartsAt current); [|done].
  destruct (r_ExpiresAt current) as [expires|] eqn:He; [|done]. tx H.
  match goal with H : GetPoolPolicy _ _ _ = _ |- _ => apply GetPoolPolicy_ok in H as (p & n & Hp & -> & ->) end.
  apply Extend_ok in H as (r & Hr2 & _ & _ & -> & ->). cbn in Hr, Hr2, Hp.
  rewrite Hr2 in Hr. injection Hr as ->.
  cbn [pp_MaxLeaseSeconds policy_of] in *. rewrite next_expiry_min.
  exists current, p, expires. split_and!; try done; unfold Second in *; lia.
Qed.

Definition extend_sample : Tx ReservationRecord :=
  extend_tx (extend_operation "service" "extend-key-1" "reservation-0001" "hash") "reservation-0001" 3500.
Definition extended_sample : ReservationRecord :=
  match outcome extend_sample (env_at 200 None) active_state with Ok r => r | Fail _ => active_row end.

(** The lease of 600 seconds is asked to grow by 3500, but the pool allows one hour from now. *)
Example extension_clamped : r_ExpiresAt active_row = Some (at_second 702) /\ r_ExpiresAt extended_sample = Some (at_second 3800).
Proof. vm_compute. done. Qed.

Lemma extend_fresh : device_idempotency_records (st_db active_state)
  !! operation_key (extend_operation "service" "extend-key-1" "reservation-0001" "hash") = None.
Proof. vm_compute. reflexivity. Qed.

Lemma extend_sample_ok :
  extend_sample (env_at 200 None) active_state = (Ok extended_sample, after extend_sample (env_at 200 None) active_state).
Proof. vm_compute. reflexivity. Qed.

Example extension_bounded_witness : exists r p, r_Status r = ReservationActive /\ 3500 <= p_max_lease_seconds p.
Proof.
  destruct (extension_bounded _ _ _ _ _ 3500 _ extend_fresh ltac:(lia) extend_sample_ok)
    as (r & p & e & _ & Hst & _ & _ & _ & Hmax & _).
  exists r, p. exact (conj Hst Hmax).
Defined.

(** ** Releasing *)
Definition same_digest (env1 env2 : Env) : Prop := env_digest env1 = env_digest env2.

Definition operation_of (env : Env) (actor : Actor) (key id : string) (input : ReleaseInput) : OperationParams :=
  release_operation (act_ClientID actor) key id
    (env_digest env (JObj (release_request id (TrimSpace (ri_Reason input)) (ri_Force input)))).

#[export] Instance releaseSTF_keeps r : KeepsDB (releaseSTF r).
Proof. unfold releaseSTF. solve_keeps. Qed.
#[export] Instance closeIOSSession_keeps r : KeepsDB (closeIOSSession r).
Proof. unfold closeIOSSession. solve_keeps. Qed.

Lemma detach_ok current actor rq reason env s u s' :
  detach current actor rq reason env s = (Ok u, s') -> st_db s' = st_db s.
Proof.
  unfold detach. intros (x & s1 & E1 & H)%bindT_ok. apply (keeps_db _ _ _ _) in E1.
  apply bindT_ok in H as (o & s2 & E2 & H). apply (keeps_db (m := attempt _)) in E2.
  destruct o as [v|e].
  - injection H as _ <-. congruence.
  - apply bindT_ok in H as (a & s3 & _ & H). done.
Qed.

(** A release that succeeds: what was checked, and the transaction it ran. *)
Lemma Release_ok actor key id rq input env s v s' :
  Release actor key id rq input env s = (Ok v, s') ->
  let reason := TrimSpace (ri_Reason input) in
  valid_release actor key id rq reason = true
  /\ exists current s1 r,
    device_reservations (st_db s) !! id = Some current
    /\ owned_by actor current || ri_Force input = true
    /\ (exists b, CheckOperation (operation_of env actor key id input) env s = (Ok b, s))
    /\ st_db s1 = st_db s
    /\ (status_is ReservationActive current = false -> s1 = s)
    /\ release_tx (operation_of env actor key id input) actor id rq reason (ri_Force input) env s1 = (Ok r, s')
    /\ v = toView r.
Proof.
  unfold Release. intros (u & s1 & Hv & H)%bindT_ok. apply guardT_ok in Hv as [Hv ->].
  split; [done|].
  apply bindT_ok in H as (hash & s1 & Hh & H). injection Hh as <- <-.
  apply bindT_ok in H as (b & s1 & Hc & H). apply map_err_ok in Hc. pose proof (read_only _ _ _ _ Hc) as ->.
  apply bindT_ok in H as (current & s1 & Hg & H). apply map_err_ok, Get_ok in Hg as [Hcur ->].
  apply bindT_ok in H as (u2 & s1 & Ho & H). apply guardT_ok in Ho as [Ho ->].
  apply bindT_ok in H as (u3 & s1 & Hd & H).
  apply bindT_ok in H as (r & s2 & Hr & H). apply map_err_ok in Hr. rewrite WithinTx_ok in Hr.
  injection H as <- <-.
  exists current, s1, r. split_and!; try done; [by exists b| |].
  - destruct (status_is _ current); [by apply detach_ok in Hd|by injection Hd as _ <-].
  - intros E. rewrite E in Hd. by injection Hd as _ <-.
Qed.

(** What a release under a fresh key leaves: the reservation it returns, no longer
    active, and the record of the operation. *)
Lemma release_tx_ok p actor id rq reason force env s r s' :
  keyed (st_db s) -> device_idempotency_records (st_db s) !! operation_key p = None ->
  release_tx p actor id rq reason force env s = (Ok r, s') ->
  (exists row, device_reservations (st_db s) !! id = Some row /\ forall a, owned_by a r = owned_by a row)
  /\ device_reservations (st_db s') !! id = Some r /\ status_is ReservationActive r = false
  /\ device_idempotency_records (st_db s') = <[operation_key p := operation_row p]> (device_idempotency_records (st_db s)).
Proof.
  intros Hk Hkey H. unfold release_tx in H. apply bindT_ok in H as (b & s1 & Hb & H).
  rewrite BeginOperation_new in Hb by done. injection Hb as <- <-.
  apply bindT_ok in H as (current & s1 & Hl & H). apply LockByID_ok in Hl as [Hcur ->]. cbn in Hcur.
  pose proof (keyed_reservation _ Hk _ _ Hcur) as <-.
  destruct (status_is ReservationPending current) eqn:Hp; [|destruct (status_is ReservationActive current) eqn:Ha; cbn [negb] in H].
  - unfold cancel_pending in H. tx H. ro_states.
    match goal with H : CancelPending _ _ _ _ _ = _ |- _ => rename H into Hc end.
    unfold CancelPending in Hc. tx Hc. subst. tx_writes.
    match goal with H : newID _ _ = _ |- _ => pose proof (keeps_db _ _ _ _ H) as Hdb end.
    match goal with H : InsertAudit _ _ _ _ _ _ _ _ _ = _ |- _ => injection H as _ <- end.
    cbn. rewrite Hdb. cbn in *. rewrite lookup_insert_eq. split_and!; try done. by eexists.
  - apply closeActiveLocked_ok in H as (did & d & r0 & x & a & policy & _ & _ & _ & _ & _ & _ & Hr & _ & -> & Hdb).
    rewrite Hdb. cbn in *. rewrite lookup_insert_eq. split_and!; try done; [by eexists|].
    unfold status_is. cbn. by destruct force.
  - destruct (isClosedStatus _); [|done]. injection H as <- <-. cbn. split_and!; try done. by eexists.
Qed.

(** The release of a reservation that is not active, under a key already used for it. *)
Lemma release_replay actor key id rq input env s r :
  valid_release actor key id rq (TrimSpace (ri_Reason input)) = true ->
  device_idempotency_records (st_db s) !! operation_key (operation_of env actor key id input)
    = Some (operation_row (operation_of env actor key id input)) ->
  device_reservations (st_db s) !! id = Some r -> owned_by actor r || ri_Force input = true ->
  status_is ReservationActive r = false ->
  Release actor key id rq input env s = (Ok (toView r), s).
Proof.
  intros Hv Hi Hr Ho Ha. destruct (BeginOperation_seen _ env _ Hi) as [Hb Hc].
  assert (ReservationRepo.Get id env s = (Ok r, s)) as Hg.
  { unfold ReservationRepo.Get, get_db, mbind, Tx_bind, M_bind, gets. by rewrite Hr. }
  unfold Release, requestHash, mbind, Tx_bind, M_bind. rewrite Hv. cbn [guard_or]. unfold mret at 1, M_ret.
  unfold operation_of in *. cbv zeta. unfold map_err at 1. rewrite Hc. unfold map_err at 1. rewrite Hg. cbv beta iota.
  rewrite Ho. cbn [guard_or]. unfold mret at 1, M_ret. rewrite Ha. unfold mret at 1, Tx_ret, M_ret.
  unfold map_err, WithinTx, release_tx, mbind, Tx_bind, M_bind. rewrite Hb. cbv beta iota. by rewrite Hg.
Qed.

(** C29: a release takes effect once.  After a release under a fresh key has succeeded,
    sending it again (with any request identifier, at any time, whatever the
    controllers) returns the same view and changes nothing: no row, no identifier is
    consumed, and no controller is called. *)
Theorem release_exactly_once (env env2 : Env) (s s1 : St) (actor : Actor) (key id rq rq2 : string) (input : ReleaseInput)
    (v : View) :
  keyed (st_db s) ->
  device_idempotency_records (st_db s) !! operation_key (operation_of env actor key id input) = None ->
  Release actor key id rq input env s = (Ok v, s1) ->
  same_digest env env2 -> rq2 <> "" ->
  Release actor key id rq2 input env2 s1 = (Ok v, s1).
Proof.
  intros Hk Hkey H Hdig Hrq. destruct (Release_ok _ _ _ _ _ _ _ _ _ H) as (Hvalid & current & sd & r & Hcur & Hown & _ & Hdb & _ & Htx & ->).
  rewrite <-Hdb in Hk, Hkey. apply release_tx_ok in Htx as ((row & Hrow & Hsame) & Hr & Ha & Hi); [|done..].
  assert (operation_of env2 actor key id input = operation_of env actor key id input) as Hop.
  { unfold operation_of. by rewrite Hdig. }
  apply release_replay; rewrite ?Hop, ?Hi, ?lookup_insert_eq; try done.
  - revert Hvalid. unfold valid_release. rewrite !negb_true_iff, !orb_false_iff. intros (? & _). split; [done|].
    by apply String.eqb_neq.
  - rewrite Hsame. rewrite Hdb in Hrow. by simplify_eq.
Qed.


Definition release_input : ReleaseInput := mkRelease "finished" false.
Definition release_sample : Tx View := Release sample_actor "release-key-1" "reservation-0001" "request-0001" release_input.
Definition released_view : View :=
  match outcome release_sample (env_at 200 (Some willing_stf)) active_state with Ok v => v | Fail _ => toView active_row end.

Definition released_state : St := after release_sample (env_at 200 (Some willing_stf)) active_state.

Lemma release_sample_ok :
  Release sample_actor "release-key-1" "reservation-0001" "request-0001" release_input (env_at 200 (Some willing_stf)) active_state
  = (Ok released_view, released_state).
Proof. vm_compute. reflexivity. Qed.

Lemma active_keyed : keyed (st_db active_state).
Proof.
  pose proof (farm_active_reachable (fun _ _ => True)) as Hf.
  by apply (reachable_invariant _ (fun _ _ => True)) in Hf as (Hk & _).
Qed.

Lemma release_fresh : device_idempotency_records (st_db active_state)
  !! operation_key (operation_of (env_at 200 (Some willing_stf)) sample_actor "release-key-1" "reservation-0001" release_input) = None.
Proof. vm_compute. reflexivity. Qed.

Example release_exactly_once_witness :
  Release sample_actor "release-key-1" "reservation-0001" "request-0002" release_input (env_at 500 (Some stuck_stf))
    released_state = (Ok released_view, released_state).
Proof.
  refine (release_exactly_once _ _ _ _ _ _ _ _ _ _ _ active_keyed release_fresh release_sample_ok _ _);
    [reflexivity|discriminate].
Defined.

(** a key names one request.  When a key has been used for a release or an
    extension, using it for the same operation on another reservation, or with other
    parameters (whose digest differs), is refused as a conflict before anything is read
    or written and before any controller is called. *)
Theorem operation_key_conflict (env : Env) (s : St) (actor : Actor) (key id rq : string) (input : ReleaseInput)
    (row : IdempotencyRow) :
  valid_release actor key id rq (TrimSpace (ri_Reason input)) = true ->
  device_idempotency_records (st_db s) !! operation_key (operation_of env actor key id input) = Some row ->
  i_resource_id row <> id
  \/ i_request_hash row <> env_digest env (JObj (release_request id (TrimSpace (ri_Reason input)) (ri_Force input))) ->
  Release actor key id rq input env s = (Fail ResErrConflict, s).
Proof.
  intros Hv Hi Hne. unfold Release, requestHash, mbind, Tx_bind, M_bind. rewrite Hv. cbn [guard_or]. unfold mret at 1, M_ret.
  unfold operation_of in *. cbv zeta. unfold map_err at 1, CheckOperation, get_db, gets, mbind, Tx_bind, M_bind. rewrite Hi.
  replace (same_operation _ row) with false; [done|]. symmetry. unfold same_operation. cbn.
  destruct Hne as [Hne|Hne]; [rewrite andb_false_iff; right|rewrite !andb_false_iff; left; left]; by apply String.eqb_neq.
Qed.

Example operation_key_conflict_witness :
  Release sample_actor "release-key-1" "reservation-0001" "request-0002" (mkRelease "another reason" false) (env_at 500 None)
    released_state = (Fail ResErrConflict, released_state).
Proof.
  apply (operation_key_conflict _ _ _ _ _ _ _
           (operation_row (operation_of (env_at 200 (Some willing_stf)) sample_actor "release-key-1" "reservation-0001" release_input)));
    [vm_compute; reflexivity|vm_compute; reflexivity|right; apply String.eqb_neq; vm_compute; reflexivity].
Defined.

(** releasing needs ownership or force.  A release by an actor that does not own
    the reservation, without force, never succeeds: with valid arguments and an unused
    key it is refused as forbidden, the state is untouched and no controller is called. *)
Theorem release_requires_ownership (env : Env) (s : St) (actor : Actor) (key id rq : string) (input : ReleaseInput)
    (r : ReservationRecord) :
  valid_release actor key id rq (TrimSpace (ri_Reason input)) = true ->
  device_idempotency_records (st_db s) !! operation_key (operation_of env actor key id input) = None ->
  device_reservations (st_db s) !! id = Some r ->
  ri_Force input = false -> r_ClientID r <> act_ClientID actor ->
  (act_Type actor <> ActorConsole \/ r_OwnerType r <> "manual" \/ r_OwnerID r <> act_ID actor) ->
  Release actor key id rq input env s = (Fail ResErrForbidden, s).
Proof.
  intros Hv Hi Hr Hf Hc Ho. unfold Release, requestHash, mbind, Tx_bind, M_bind. rewrite Hv. cbn [guard_or]. unfold mret at 1, M_ret.
  unfold operation_of in *. cbv zeta. unfold map_err at 1, CheckOperation, get_db, gets, mbind, Tx_bind, M_bind. rewrite Hi.
  unfold mret at 1, Tx_ret, M_ret. unfold map_err at 1, ReservationRepo.Get, get_db, gets, mbind, Tx_bind, M_bind. rewrite Hr.
  cbn [expect_row]. unfold mret at 1, Tx_ret, M_ret. rewrite Hf.
  replace (owned_by actor r || false) with false; [done|]. symmetry. unfold owned_by.
  rewrite orb_false_r, orb_false_iff, !andb_false_iff, !String.eqb_neq. split; [done|]. tauto.
Qed.

Example release_requires_ownership_witness :
  Release (Console "somebody") "release-key-1" "reservation-0001" "request-0002" release_input (env_at 500 None) active_state
  = (Fail ResErrForbidden, active_state).
Proof.
  apply (release_requires_ownership _ _ _ _ _ _ _ active_row);
    [vm_compute; reflexivity|vm_compute; reflexivity|vm_compute; reflexivity|done
    |apply String.eqb_neq; vm_compute; reflexivity|right; left; apply String.eqb_neq; vm_compute; reflexivity].
Defined.

(** ** Errors *)

(** A computation whose every error leaves a part of the database as it was. *)
Class FailKeeps {X A} (g : DB -> X) (m : Tx A) : Prop :=
  fail_keeps : forall env s e s', m env s = (Fail e, s') -> g (st_db s') = g (st_db s).

#[export] Instance Keeps_FailKeeps {X A} (g : DB -> X) (m : Tx A) : Keeps g m -> FailKeeps g m | 30.
Proof. intros Hm env s e s' H. by apply Hm in H. Qed.
#[export] Instance WithinTx_fail_keeps {X A} (g : DB -> X) (m : Tx A) : FailKeeps g (WithinTx m) | 1.
Proof. intros env s e s' H. apply WithinTx_fail in H. by rewrite H. Qed.
#[export] Instance map_err_fail_keeps {X A} (g : DB -> X) f (m : Tx A) : FailKeeps g m -> FailKeeps g (map_err f m).
Proof.
  intros Hm env s e s'. unfold map_err. destruct (m env s) as [[a|x] s1] eqn:E; [done|]. intros [= _ <-]. by apply Hm in E.
Qed.
Lemma last_fail_keeps {X A B} (g : DB -> X) (m : Tx A) (f : A -> B) :
  FailKeeps g m -> FailKeeps g (a ← m; mret (f a)).
Proof. intros Hm env s e s' [H|(a & s1 & _ & H)]%bind_fail; [by apply Hm in H|done]. Qed.
Lemma then_fail_keeps {X A B} (g : DB -> X) (m : Tx A) (f : A -> Tx B) :
  Keeps g m -> (forall a, FailKeeps g (f a)) -> FailKeeps g (m ≫= f).
Proof.
  intros Hm Hf env s e s' [H|(a & s1 & H1 & H)]%bind_fail; [by apply Hm in H|].
  rewrite (Hf _ _ _ _ _ H). by apply Hm in H1.
Qed.

(** Everything but the audit log. *)
Definition unaudited (db : DB) : DB := db <| device_audit_events := [] |>.

#[export] Instance recordSTFFailure_keeps r a rq ac re : Keeps unaudited (recordSTFFailure r a rq ac re).
Proof. unfold recordSTFFailure, record_stf_failure_tx, InsertAudit. solve_keeps. Qed.
#[export] Instance KeepsDB_Keeps {X A} (g : DB -> X) (m : Tx A) : KeepsDB m -> Keeps g m | 40.
Proof. intros Hm env s r s' H. apply Hm in H. by rewrite H. Qed.
#[export] Instance detach_keeps r a rq re : Keeps unaudited (detach r a rq re).
Proof.
  unfold detach. apply bind_keeps; [apply _|]. intros _. apply bind_keeps; [apply _|]. intros [u|e]; [apply _|].
  apply bind_keeps; [apply _|]. intros; apply _.
Qed.

(** The requests that close or change an existing reservation. *)
Inductive request : Type :=
  | ReqExtend (actor : Actor) (key id : string) (additionalSeconds : Z)
  | ReqRelease (actor : Actor) (key id requestID : string) (input : ReleaseInput)
  | ReqReap (gracePeriod : Z)
  | ReqReapStale (timeout claimGrace : Z)
  | ReqReapOrphan (grace : Z).

Definition serve (q : request) : Tx View :=
  match q with
  | ReqExtend actor key id additional => ReservationService.Extend actor key id additional
  | ReqRelease actor key id rq input => Release actor key id rq input
  | ReqReap grace => ReapOnce grace
  | ReqReapStale timeout grace => ReapStalePendingOnce timeout grace
  | ReqReapOrphan grace => ReapOrphanedClaimOnce grace
  end.

(** errors are atomic.  When extending, releasing or reaping a reservation returns
    an error, whatever step it comes from (validation, the idempotency record, a
    controller, a state machine, a constraint), no table has changed except the audit
    log, where a failed STF release may have been recorded. *)
Theorem failed_requests_are_atomic (q : request) (env : Env) (s s' : St) (e : Err) :
  serve q env s = (Fail e, s') -> unaudited (st_db s') = unaudited (st_db s).
Proof.
  revert env s e s'. change (FailKeeps unaudited (serve q)). destruct q; cbn [serve];
    unfold ReservationService.Extend, Release, ReapOnce, ReapStalePendingOnce, ReapOrphanedClaimOnce; cbv zeta;
    repeat first [apply last_fail_keeps; apply _ | apply then_fail_keeps; [apply _|intros ?]].
Qed.

Definition stuck_release : Tx View := serve (ReqRelease sample_actor "release-key-1" "reservation-0001" "request-0001" release_input).
Definition stuck_state : St := after stuck_release (env_at 200 (Some stuck_stf)) active_state.

Lemma stuck_release_fails : stuck_release (env_at 200 (Some stuck_stf)) active_state = (Fail ResErrSTFReleaseFailed, stuck_state).
Proof. vm_compute. reflexivity. Qed.

(** The failure is recorded. *)
Example stuck_release_audited : map a_action (device_audit_events (st_db stuck_state)) = ["stf_release_failed"].
Proof. vm_compute. reflexivity. Qed.

Example failed_requests_are_atomic_witness : unaudited (st_db stuck_state) = unaudited (st_db active_state).
Proof. exact (failed_requests_are_atomic _ _ _ _ _ stuck_release_fails). Defined.

(** ** Reaping *)
Lemma ReapOnce_ok grace env s v s' :
  ReapOnce grace env s = (Ok v, s') ->
  0 <= grace /\ exists selected s1 r rq,
    FindNextExpired (duration_seconds grace) env s = (Ok selected, s) /\ st_db s1 = st_db s
    /\ reap_tx grace (r_ID selected) rq env s1 = (Ok r, s') /\ v = toView r.
Proof.
  unfold ReapOnce. intros (u & s1 & Hg & H)%bindT_ok. apply guardT_ok in Hg as [Hg ->]. split; [lia|].
  apply bindT_ok in H as (selected & s1 & Hf & H). apply map_err_ok in Hf. pose proof (read_only _ _ _ _ Hf) as ->.
  apply bindT_ok in H as (u2 & s1 & Hd & H). apply detach_ok in Hd.
  apply bindT_ok in H as (r & s2 & Hr & H). apply map_err_ok in Hr. rewrite WithinTx_ok in Hr. injection H as <- <-.
  exists selected, s1, r. eexists. split_and!; done.
Qed.

Lemma reap_tx_ok grace id rq env s r' s' :
  keyed (st_db s) -> reap_tx grace id rq env s = (Ok r', s') ->
  exists r e did d d', device_reservations (st_db s) !! id = Some r /\ r_Status r = ReservationActive
    /\ r_ExpiresAt r = Some e /\ e + grace <= env_clock env
    /\ r' = closed_row ReservationExpired (env_clock env) r
    /\ device_reservations (st_db s') = <[id := r']> (device_reservations (st_db s))
    /\ r_DeviceID r = Some did /\ devices (st_db s) !! did = Some d
    /\ devices (st_db s') = <[did := d']> (devices (st_db s)) /\ d_id d' = d_id d.
Proof.
  intros Hk H. unfold reap_tx in H. apply bindT_ok in H as (r & s1 & Hl & H). apply LockByID_ok in Hl as [Hr ->].
  pose proof (keyed_reservation _ Hk _ _ Hr) as <-.
  destruct (r_Status r) eqn:Hst; try done. destruct (r_ExpiresAt r) as [e|] eqn:He; [|done].
  apply bindT_ok in H as (now & s1 & Hn & H). injection Hn as <- <-.
  apply bindT_ok in H as (u & s1 & Hg & H). apply guardT_ok in Hg as [Hg ->].
  apply closeActiveLocked_ok in H as (did & d & r0 & x & a & policy & Hdid & Hd & _ & _ & _ & _ & Hr0 & _ & -> & Hdb).
  rewrite Hr0 in Hr. injection Hr as ->. eexists r, e, did, d, _. rewrite Hdb. cbn. split_and!; try done. lia.
Qed.

Lemma reservations_spec db r : keyed db -> r ∈ reservations db <-> device_reservations db !! r_ID r = Some r.
Proof.
  intros Hk. unfold reservations. rewrite elem_of_rows. split; [|eauto].
  intros [k Hr]. by rewrite (keyed_reservation _ Hk _ _ Hr).
Qed.

Lemma duration_seconds_le d : 0 <= d -> duration_seconds d * Second <= d.
Proof.
  intros Hd. unfold duration_seconds. rewrite Z.quot_div_nonneg by (unfold Second; lia).
  pose proof (Z.mul_div_le d Second). unfold Second in *. lia.
Qed.

(** The row [FindNextExpired] returns. *)
Lemma FindNextExpired_ok g env s r s' :
  keyed (st_db s) -> FindNextExpired g env s = (Ok r, s') ->
  device_reservations (st_db s) !! r_ID r = Some r /\ expired_by (env_clock env) g r = true
  /\ forall k x, device_reservations (st_db s) !! k = Some x -> expired_by (env_clock env) g x = true ->
       key_le (by_expiry r) (by_expiry x).
Proof.
  intros Hk H. unfold FindNextExpired in H. tx H. subst.
  match goal with H : first_where _ _ = Some _ |- _ => apply first_where_minimal in H as (Hin & He & Hmin) end.
  split_and!; [by apply reservations_spec|done|]. intros k x Hx. apply Hmin, elem_of_rows. eauto.
Qed.

(** C30: the reaper closes only what has expired, oldest first.  When a sweep closes a
    reservation, it was active, its lease and the grace period had passed at the database
    clock, no other expired lease ended before it, it is now expired, and no other
    reservation has changed. *)
Theorem reaper_closes_expired_only (grace : Z) (env : Env) (s s' : St) (v : View) :
  keyed (st_db s) -> ReapOnce grace env s = (Ok v, s') ->
  exists id r e r',
    device_reservations (st_db s) !! id = Some r /\ r_Status r = ReservationActive
    /\ r_ExpiresAt r = Some e /\ e + grace <= env_clock env
    /\ (forall k x ex, device_reservations (st_db s) !! k = Some x -> r_Status x = ReservationActive ->
          r_ExpiresAt x = Some ex -> ex + grace <= env_clock env -> e <= ex)
    /\ r_Status r' = ReservationExpired /\ r_ReleasedAt r' = Some (env_clock env) /\ v = toView r'
    /\ device_reservations (st_db s') = <[id := r']> (device_reservations (st_db s)).
Proof.
  intros Hk (Hg & selected & s1 & r' & rq & Hf & Hdb & Ht & ->)%ReapOnce_ok. rewrite <-Hdb in Hk.
  apply reap_tx_ok in Ht as (r & e & _ & _ & _ & Hr & Hst & He & Hle & -> & Hrs & _); [|done].
  rewrite Hdb in *. apply FindNextExpired_ok in Hf as (Hsel & _ & Hmin); [|done]. rewrite Hsel in Hr. injection Hr as ->.
  exists (r_ID r), r, e. eexists. split_and!; try done.
  all: try reflexivity.
  intros k x ex Hx Hact Hex Hle2. destruct (Hmin k x Hx) as [Hlt|[Heq _]].
  - unfold expired_by, status_is. rewrite Hact, Hex. cbn. apply Z.leb_le. pose proof (duration_seconds_le _ Hg). lia.
  - unfold by_expiry in Hlt. cbn in Hlt. rewrite He, Hex in Hlt. cbn in Hlt. lia.
  - unfold by_expiry in Heq. cbn in Heq. rewrite He, Hex in Heq. cbn in Heq. lia.
Qed.

Definition reap_sample : Tx View := ReapOnce (30 * Second).
Definition reaped_state : St := after reap_sample (env_at 800 (Some willing_stf)) active_state.
Definition reaped_view : View :=
  match outcome reap_sample (env_at 800 (Some willing_stf)) active_state with Ok v => v | Fail _ => toView active_row end.

Lemma reap_sample_ok : ReapOnce (30 * Second) (env_at 800 (Some willing_stf)) active_state = (Ok reaped_view, reaped_state).
Proof. vm_compute. reflexivity. Qed.

Example reaper_closes_expired_only_witness :
  exists id r e, device_reservations (st_db active_state) !! id = Some r /\ r_ExpiresAt r = Some e.
Proof.
  destruct (reaper_closes_expired_only _ _ _ _ _ active_keyed reap_sample_ok) as (id & r & e & _ & Hr & _ & He & _).
  exists id, r, e. exact (conj Hr He).
Defined.

(** ** The two pending sweeps *)
Definition failed_row (code : string) (now : Z) (r : ReservationRecord) : ReservationRecord :=
  r <| r_DeviceID := None |> <| r_Status := ReservationFailed |> <| r_FailureCode := Some code |> <| r_UpdatedAt := now |>.

(** The end of both transactions: an audit event, and the row read back. *)
Lemma audit_and_get env s s' id rid ac rq reason r :
  (auditID ← newID;
   _ ← InsertAudit auditID (act_Type reaperActor) (act_ID reaperActor) ac rid rq reason;
   ReservationRepo.Get id) env s = (Ok r, s') ->
  device_reservations (st_db s) !! id = Some r
  /\ device_reservations (st_db s') = device_reservations (st_db s) /\ devices (st_db s') = devices (st_db s).
Proof.
  intros (a & s1 & Hi & H)%bindT_ok. apply (keeps_db _ _ _ _) in Hi.
  apply bindT_ok in H as (u & s2 & Ha & H). injection Ha as _ <-. apply Get_ok in H as [Hr ->].
  cbn in *. by rewrite Hi in *.
Qed.

Lemma reap_stale_tx_ok timeout grace id rq env s r' s' :
  keyed (st_db s) -> reap_stale_tx timeout grace id rq env s = (Ok r', s') ->
  exists r, device_reservations (st_db s) !! id = Some r /\ r_Status r = ReservationPending /\ r_DeviceID r = None
    /\ r_CreatedAt r + timeout + grace <= env_clock env
    /\ r' = r <| r_Status := ReservationFailed |> <| r_FailureCode := Some "PENDING_TIMEOUT" |> <| r_UpdatedAt := env_clock env |>
    /\ device_reservations (st_db s') = <[id := r']> (device_reservations (st_db s))
    /\ devices (st_db s') = devices (st_db s).
Proof.
  intros Hk H. unfold reap_stale_tx in H. apply bindT_ok in H as (r & s1 & Hl & H). apply LockByID_ok in Hl as [Hr ->].
  pose proof (keyed_reservation _ Hk _ _ Hr) as <-.
  apply bindT_ok in H as (u & s1 & Hg & H). apply guardT_ok in Hg as [Hg ->]. guards.
  apply bindT_ok in H as (now & s1 & Hn & H). injection Hn as <- <-.
  apply bindT_ok in H as (u2 & s1 & Hg & H). apply guardT_ok in Hg as [Hg ->].
  apply bindT_ok in H as (u3 & s1 & Hf & H). apply FailPendingReservation_ok in Hf as (r0 & Hr0 & _ & _ & ->).
  rewrite Hr0 in Hr. injection Hr as ->. apply audit_and_get in H as (Hr & Hrs & Hds). cbn in *.
  rewrite lookup_insert_eq in Hr. injection Hr as <-. exists r. split_and!; try done. lia.
Qed.

Lemma reap_orphan_tx_ok grace id rq env s r' s' :
  keyed (st_db s) -> reap_orphan_tx grace id rq env s = (Ok r', s') ->
  exists r did d d', device_reservations (st_db s) !! id = Some r /\ r_Status r = ReservationPending
    /\ r_DeviceID r = Some did /\ r_UpdatedAt r + grace <= env_clock env
    /\ devices (st_db s) !! did = Some d /\ d_lifecycle d = DeviceReserved
    /\ d' = d <| d_lifecycle := if healthy d then DeviceReady else DeviceQuarantined |> <| d_updated_at := env_clock env |>
    /\ r' = failed_row "CLAIM_ABANDONED" (env_clock env) r
    /\ device_reservations (st_db s') = <[id := r']> (device_reservations (st_db s))
    /\ devices (st_db s') = <[did := d']> (devices (st_db s)).
Proof.
  intros Hk H. unfold reap_orphan_tx in H. apply bindT_ok in H as (r & s1 & Hl & H). apply LockByID_ok in Hl as [Hr ->].
  pose proof (keyed_reservation _ Hk _ _ Hr) as <-.
  destruct (r_Status r) eqn:Hst; try done. destruct (r_DeviceID r) as [did|] eqn:Hdev; [|done].
  apply bindT_ok in H as (now & s1 & Hn & H). injection Hn as <- <-.
  apply bindT_ok in H as (u2 & s1 & Hg & H). apply guardT_ok in Hg as [Hg ->].
  apply bindT_ok in H as (u3 & s1 & Hf & H). apply FailPendingClaim_ok in Hf as (d & r0 & Hd & Hlc & Hr0 & _ & _ & ->).
  rewrite Hr0 in Hr. injection Hr as ->. apply audit_and_get in H as (Hr & Hrs & Hds). cbn in *.
  rewrite lookup_insert_eq in Hr. injection Hr as <-. eexists r, did, d, _. split_and!; try done. lia.
Qed.

Lemma stale_sweep_ok timeout grace env s v s' :
  ReapStalePendingOnce timeout grace env s = (Ok v, s') ->
  exists id rq r, reap_stale_tx timeout grace id rq env s = (Ok r, s') /\ v = toView r.
Proof.
  unfold ReapStalePendingOnce. intros H. tx H. subst. ro_states.
  match goal with H : WithinTx _ _ _ = _ |- _ => rewrite WithinTx_ok in H end. eauto.
Qed.

Lemma orphan_sweep_ok grace env s v s' :
  ReapOrphanedClaimOnce grace env s = (Ok v, s') ->
  exists id rq r, reap_orphan_tx grace id rq env s = (Ok r, s') /\ v = toView r.
Proof.
  unfold ReapOrphanedClaimOnce. intros H. tx H. subst. ro_states.
  match goal with H : WithinTx _ _ _ = _ |- _ => rewrite WithinTx_ok in H end. eauto.
Qed.

(** the pending sweeps.  A reservation that a sweep fails was pending past its
    limit; one without a device is failed as timed out and no device changes; one whose
    claim was abandoned gives its reserved device back, ready when healthy and in
    quarantine otherwise.  No other reservation or device changes. *)
Theorem pending_sweeps_effect (policy : Policy) (env : Env) (s s' : St) (v : View) :
  keyed (st_db s) ->
  (RunPendingOnce policy env s = (Ok v, s') ->
     exists id r r', device_reservations (st_db s) !! id = Some r /\ r_Status r = ReservationPending /\ r_DeviceID r = None
       /\ 0 < PendingTimeout policy
       /\ r_CreatedAt r + PendingTimeout policy + PendingClaimGrace policy <= env_clock env
       /\ r_Status r' = ReservationFailed /\ r_FailureCode r' = Some "PENDING_TIMEOUT" /\ v = toView r'
       /\ device_reservations (st_db s') = <[id := r']> (device_reservations (st_db s))
       /\ devices (st_db s') = devices (st_db s))
  /\ (RunOrphanedClaimOnce policy env s = (Ok v, s') ->
     exists id r r' did d d', device_reservations (st_db s) !! id = Some r /\ r_Status r = ReservationPending
       /\ r_DeviceID r = Some did /\ r_UpdatedAt r + PendingClaimGrace policy <= env_clock env
       /\ devices (st_db s) !! did = Some d /\ d_lifecycle d = DeviceReserved
       /\ d_lifecycle d' = (if bool_decide (d_health d = HealthHealthy) then DeviceReady else DeviceQuarantined)
       /\ r_Status r' = ReservationFailed /\ r_DeviceID r' = None /\ r_FailureCode r' = Some "CLAIM_ABANDONED" /\ v = toView r'
       /\ device_reservations (st_db s') = <[id := r']> (device_reservations (st_db s))
       /\ devices (st_db s') = <[did := d']> (devices (st_db s))).
Proof.
  intros Hk. unfold RunPendingOnce, RunOrphanedClaimOnce. split; (destruct (Z.leb_spec (PendingTimeout policy) 0); [done|]).
  - intros (id & rq & r' & Ht & ->)%stale_sweep_ok. apply reap_stale_tx_ok in Ht as (r & ? & ? & ? & ? & Hr' & ? & ?); [|done].
    exists id, r, r'. split_and!; try done; by rewrite Hr'.
  - intros (id & rq & r' & Ht & ->)%orphan_sweep_ok.
    apply reap_orphan_tx_ok in Ht as (r & did & d & d' & ? & ? & ? & ? & ? & ? & Hd' & Hr' & ? & ?); [|done].
    exists id, r, r', did, d, d'. split_and!; try done; by rewrite ?Hd', ?Hr'.
Qed.

Definition sample_policy : Policy := mkReaperPolicy (30 * Second) (300 * Second) (60 * Second).
Definition stale_view : View := match outcome (RunPendingOnce sample_policy) (env_at 500 None) created with Ok v => v | Fail _ => toView active_row end.
Definition reserved_farm_state : St := f_state farm_reserved.
Definition orphan_view : View :=
  match outcome (RunOrphanedClaimOnce sample_policy) (env_at 500 None) reserved_farm_state with Ok v => v | Fail _ => toView active_row end.

Lemma stale_sample_ok : RunPendingOnce sample_policy (env_at 500 None) created
  = (Ok stale_view, after (RunPendingOnce sample_policy) (env_at 500 None) created).
Proof. vm_compute. reflexivity. Qed.
Lemma orphan_sample_ok : RunOrphanedClaimOnce sample_policy (env_at 500 None) reserved_farm_state
  = (Ok orphan_view, after (RunOrphanedClaimOnce sample_policy) (env_at 500 None) reserved_farm_state).
Proof. vm_compute. reflexivity. Qed.

Example pending_sweeps_effect_witness :
  (exists id r, device_reservations (st_db created) !! id = Some r /\ r_DeviceID r = None)
  /\ exists did d, devices (st_db reserved_farm_state) !! did = Some d /\ d_lifecycle d = DeviceReserved.
Proof.
  destruct (proj1 (pending_sweeps_effect sample_policy _ _ _ stale_view created_keyed) stale_sample_ok) as (id & r & _ & Hr & _ & Hd & _).
  destruct (proj2 (pending_sweeps_effect sample_policy _ _ _ orphan_view farm_reserved_keyed) orphan_sample_ok)
    as (_ & _ & _ & did & d & _ & _ & _ & _ & _ & Hdev & Hl & _).
  split; [exists id, r; exact (conj Hr Hd)|exists did, d; exact (conj Hdev Hl)].
Defined.

(** ** The sweeps end *)
Definition is_open (kr : string * ReservationRecord) : Prop := open_status (r_Status kr.2) = true.
#[export] Instance is_open_dec kr : Decision (is_open kr).
Proof. unfold is_open. apply _. Defined.
Definition open_count (s : St) : nat := size (filter is_open (device_reservations (st_db s))).

(** A step that closes one open row and rewrites one device. *)
Lemma closing_decreases s s' id r r' :
  device_reservations (st_db s) !! id = Some r -> open_status (r_Status r) = true -> open_status (r_Status r') = false ->
  device_reservations (st_db s') = <[id := r']> (device_reservations (st_db s)) -> (open_count s' < open_count s)%nat.
Proof.
  intros Hr Ho Hc Hrs. unfold open_count. rewrite Hrs. eapply count_rows_lt; [done|done|]. unfold is_open. cbn. congruence.
Qed.

Lemma expired_sweep_decreases grace env s v s' :
  keyed (st_db s) -> ReapOnce grace env s = (Ok v, s') -> keyed (st_db s') /\ (open_count s' < open_count s)%nat.
Proof.
  intros Hk (_ & selected & s1 & r' & rq & _ & Hdb & Ht & _)%ReapOnce_ok. rewrite <-Hdb in Hk.
  apply reap_tx_ok in Ht as (r & e & did & d & d' & Hr & Hst & _ & _ & -> & Hrs & _ & Hd & Hds & Hid); [|done].
  pose proof (keyed_reservation _ Hk _ _ Hr) as Er. pose proof (keyed_device _ Hk _ _ Hd) as Ed.
  split; [eapply keyed_write; [done|done|done|congruence|done]|].
  rewrite Hdb in *. eapply closing_decreases; [exact Hr|by rewrite Hst| |exact Hrs]. reflexivity.
Qed.

Lemma stale_sweep_decreases timeout grace env s v s' :
  keyed (st_db s) -> ReapStalePendingOnce timeout grace env s = (Ok v, s') ->
  keyed (st_db s') /\ (open_count s' < open_count s)%nat.
Proof.
  intros Hk (id & rq & r' & Ht & _)%stale_sweep_ok.
  apply reap_stale_tx_ok in Ht as (r & Hr & Hst & _ & _ & -> & Hrs & Hds); [|done].
  pose proof (keyed_reservation _ Hk _ _ Hr) as Er.
  split; [by eapply keyed_insert|]. eapply closing_decreases; [exact Hr|by rewrite Hst| |exact Hrs]. reflexivity.
Qed.

Lemma orphan_sweep_decreases grace env s v s' :
  keyed (st_db s) -> ReapOrphanedClaimOnce grace env s = (Ok v, s') ->
  keyed (st_db s') /\ (open_count s' < open_count s)%nat.
Proof.
  intros Hk (id & rq & r' & Ht & _)%orphan_sweep_ok.
  apply reap_orphan_tx_ok in Ht as (r & did & d & d' & Hr & Hst & _ & _ & Hd & _ & -> & -> & Hrs & Hds); [|done].
  pose proof (keyed_reservation _ Hk _ _ Hr) as Er. pose proof (keyed_device _ Hk _ _ Hd) as Ed.
  split; [by eapply keyed_write|]. eapply closing_decreases; [exact Hr|by rewrite Hst| |exact Hrs]. reflexivity.
Qed.

(** the sweeps of a reaper tick end.  From any database whose rows carry their own
    identifiers, each of the loops over expired, stale and orphaned reservations stops
    with an error after at most as many steps as there are open reservations. *)
Theorem reaper_sweeps_terminate (policy : Policy) (env : Env) (s : St) (fuel : nat) :
  keyed (st_db s) -> (open_count s < fuel)%nat ->
  (exists e s', drain fuel (ReapExpired policy) env s = (Ok (Some e), s'))
  /\ (exists e s', drain fuel (RunPendingOnce policy) env s = (Ok (Some e), s'))
  /\ (exists e s', drain fuel (RunOrphanedClaimOnce policy) env s = (Ok (Some e), s')).
Proof.
  intros Hk Hf. split_and!; (apply (drain_measure _ open_count (fun s => keyed (st_db s)) env); [|done..]);
    intros s1 v s2 Hk1.
  - by apply expired_sweep_decreases.
  - unfold RunPendingOnce. destruct (_ <=? _); [done|]. by apply stale_sweep_decreases.
  - unfold RunOrphanedClaimOnce. destruct (_ <=? _); [done|]. by apply orphan_sweep_decreases.
Qed.

Example reaper_sweeps_terminate_witness :
  exists e s', drain 2 (ReapExpired sample_policy) (env_at 800 (Some willing_stf)) active_state = (Ok (Some e), s').
Proof. apply (reaper_sweeps_terminate sample_policy); [apply active_keyed|vm_compute; lia]. Defined.

(** ** Creating *)
Definition params_of (actor : Actor) (key id : string) (input : CreateInput) : CreateReservationParams :=
  mkCreateParams id (act_ClientID actor) (ci_PoolID input) (ci_OwnerType input) (ci_OwnerID input)
    (ci_RequestedCapabilities input) (ci_LeaseSeconds input) key.

(** The checks of [create] that read the pool. *)
Definition pool_accepts (db : DB) (input : CreateInput) : Prop :=
  exists p, device_pools db !! ci_PoolID input = Some p /\ p_status p = PoolActive
    /\ platform_mismatch (ci_RequestedCapabilities input) (p_platform p) = false
    /\ ci_LeaseSeconds input <= p_max_lease_seconds p.

Lemma check_policy_spec env s input :
  (exists s', check_policy input env s = (Ok tt, s')) <-> pool_accepts (st_db s) input.
Proof.
  unfold pool_accepts. split.
  - intros [s' H]. unfold check_policy in H. tx H. subst.
    match goal with H : GetPoolPolicy _ _ _ = _ |- _ => apply GetPoolPolicy_ok in H as (p & n & Hp & -> & ->) end.
    guards. exists p. cbn in *. split_and!; try done. lia.
  - intros (p & Hp & Ha & Hm & Hl). exists s.
    unfold check_policy, GetPoolPolicy, get_db, gets, map_err, mbind, Tx_bind, M_bind. rewrite Hp.
    cbn [expect_row]. unfold mret, Tx_ret, M_ret. cbn [pp_Status pp_Platform pp_MaxLeaseSeconds policy_of].
    rewrite bool_decide_eq_true_2, Hm, (proj2 (Z.leb_le _ _) Hl) by done. done.
Qed.

Lemma choose_pool_given input : TrimSpace (ci_PoolID input) <> "" -> choose_pool input = mret input.
Proof. intros H. unfold choose_pool. by rewrite (proj2 (String.eqb_neq _ _) H). Qed.

(** A request for an explicit pool and no particular device: what its success means. *)
Lemma create_untargeted_ok actor key input env s v s' :
  TrimSpace (ci_PoolID input) <> "" ->
  create actor key input "" env s = (Ok v, s') <->
  exists caps id rest r,
    normalizeRequestedCapabilities (ci_RequestedCapabilities input) = Ok caps
    /\ let input := input <| ci_RequestedCapabilities := caps |> in
       validateCreate actor key input = Ok tt /\ pool_accepts (st_db s) input /\ st_ids s = id :: rest
       /\ CreatePending (params_of actor key id input) env (s <| st_ids := rest |>) = (Ok r, s') /\ v = toView r.
Proof.
  intros Hpool. unfold create. split.
  - intros (caps & s1 & Hn & H)%bindT_ok. apply lift_ok in Hn as [Hn ->].
    apply bindT_ok in H as (i1 & s1 & Hc & H). rewrite choose_pool_given in Hc by done. injection Hc as <- <-.
    apply bindT_ok in H as ([] & s1 & Hv & H). apply lift_ok in Hv as [Hv ->].
    apply bindT_ok in H as ([] & s1 & Hp & H). assert (s1 = s) as ->.
    { unfold check_policy in Hp. tx Hp. subst. ro_states. done. }
    assert (pool_accepts (st_db s) (input <| ci_RequestedCapabilities := caps |>)) as Ha by (eapply check_policy_spec; eauto).
    apply bindT_ok in H as (i2 & s1 & Hb & H). injection Hb as <- <-.
    apply bindT_ok in H as (id & s1 & Hi & H). unfold newID in Hi. destruct (st_ids s) as [|i rest] eqn:Hids; [done|].
    injection Hi as -> <-. apply bindT_ok in H as (r & s1 & Hr & H). apply map_err_ok in Hr. injection H as <- <-.
    exists caps, id, rest, r. split_and!; done.
  - intros (caps & id & rest & r & Hn & Hv & [s2 Hp]%(check_policy_spec env) & Hids & Hr & ->).
    assert (s2 = s) as -> by (unfold check_policy in Hp; tx Hp; subst; ro_states; done).
    unfold mbind, Tx_bind, M_bind, lift_result. rewrite Hn. cbv beta iota zeta. rewrite choose_pool_given by done.
    unfold mret at 1, Tx_ret, M_ret. rewrite Hv, Hp. cbv beta iota. unfold bind_target. cbn [String.eqb].
    unfold mret at 1, Tx_ret, M_ret, newID. rewrite Hids. unfold map_err. cbv beta iota.
    unfold params_of in Hr. by rewrite Hr.
Qed.

(** [INSERT ... ON CONFLICT] with the key of an existing row returns that row. *)
Lemma CreatePending_again p p' env env2 s s1 s2 r :
  CreatePending p env s = (Ok r, s1) -> st_db s2 = st_db s1 ->
  cp_ClientID p' = cp_ClientID p -> cp_IdempotencyKey p' = cp_IdempotencyKey p ->
  sameReservationRequest r p' = true ->
  CreatePending p' env2 s2 = (Ok r, s2).
Proof.
  intros H Hdb Hc Hi Hs.
  assert (first_where (same_idempotency_key (cp_ClientID p) (cp_IdempotencyKey p)) (reservations (st_db s1)) = Some r) as Hf.
  { pose proof (CreatePending_ok _ _ _ _ _ H) as [_ [(k & Hk & -> & Hkey)|(Hid & -> & Hnone & ->)]].
    - unfold CreatePending in H. tx H. subst.
      match goal with H : (if ?b then _ else _) _ _ = _ |- _ => destruct b; [|done]; injection H as -> -> end.
      destruct (first_where _ _) as [x|] eqn:Hf; [by match goal with H : mret _ _ _ = _ |- _ => injection H as -> end|].
      rewrite first_where_None in Hf. rewrite (Hf r) in Hkey; [done|]. apply elem_of_rows. eauto.
    - destruct (first_where _ _) as [x|] eqn:Hf.
      + apply first_where_Some in Hf as [Hin Hx]. f_equal.
        apply elem_of_rows in Hin as [k Hk]. cbn in Hk.
        apply lookup_insert_Some in Hk as [[<- <-]|[_ Hk]]; [done|]. by rewrite (Hnone _ _ Hk) in Hx.
      + rewrite first_where_None in Hf. specialize (Hf (pending_row p (env_clock env))).
        unfold same_idempotency_key in Hf. cbn in Hf. rewrite !String.eqb_refl in Hf.
        assert (true = false); [|done]. apply Hf, elem_of_rows. exists (cp_ID p). cbn. by rewrite lookup_insert_eq. }
  unfold CreatePending, get_db, gets, ClockNow, mbind, Tx_bind, M_bind. rewrite Hdb, Hc, Hi, Hf.
  unfold mret at 1, Tx_ret, M_ret. by rewrite Hs.
Qed.

(** creating is idempotent for an explicit pool.  After a request that names its
    pool, and no device, has created a reservation, the same request by the same client
    under the same key returns the same reservation, at any later time at which the
    database is as the first left it, and writes nothing. *)
Theorem create_idempotent (env env2 : Env) (s s1 : St) (actor : Actor) (key : string) (input : CreateInput) (v : View) :
  TrimSpace (ci_PoolID input) <> "" -> TrimSpace (ci_RequestedDeviceID input) = "" ->
  Create actor key input env s = (Ok v, s1) -> st_ids s1 <> [] ->
  exists s2, Create actor key input env2 s1 = (Ok v, s2) /\ st_db s2 = st_db s1.
Proof.
  intros Hpool Hdev H Hids. unfold Create in *. rewrite Hdev in *.
  apply create_untargeted_ok in H as (caps & id & rest & r & Hn & Hv & Ha & _ & Hr & ->); [|done].
  destruct (st_ids s1) as [|id2 rest2] eqn:Hids1; [done|].
  pose proof (CreatePending_ok _ _ _ _ _ Hr) as [Hsame Hcases].
  exists (s1 <| st_ids := rest2 |>). split; [|done].
  apply create_untargeted_ok; [done|]. exists caps, id2, rest2, r. split; [done|]. cbv zeta. split_and!; try done.
  - unfold pool_accepts in *. replace (device_pools (st_db s1)) with (device_pools (st_db s)); [done|].
    by destruct Hcases as [(k & _ & -> & _)|(_ & _ & _ & ->)].
  - by eapply CreatePending_again.
Qed.

Definition created_view : View :=
  match outcome (Create sample_actor "create-key-1" (sample_input [("model", JStr "Pixel")])) (env_at 100 None) sample_state with
  | Ok v => v
  | Fail _ => toView active_row
  end.

Lemma created_ok : Create sample_actor "create-key-1" (sample_input [("model", JStr "Pixel")]) (env_at 100 None) sample_state
  = (Ok created_view, created).
Proof. vm_compute. reflexivity. Qed.

Example create_idempotent_witness : exists s2,
  Create sample_actor "create-key-1" (sample_input [("model", JStr "Pixel")]) (env_at 900 None) created = (Ok created_view, s2)
  /\ st_db s2 = st_db created.
Proof.
  apply (create_idempotent (env_at 100 None) (env_at 900 None) sample_state created); [discriminate|reflexivity|exact created_ok|].
  vm_compute. discriminate.
Defined.

(** A request without a pool, on a farm where both hosts can serve it. *)
Definition anywhere : CreateInput :=
  mkCreateInput "" "" "test_run" "test-run-00000001" [("platformName", JStr "android")] 600 false.
Definition create_anywhere : Tx View := Create sample_actor "create-key-7" anywhere.
Definition anywhere_state : St := after create_anywhere (env_at 100 None) sample_state.

(** a retried request that leaves the pool to the server is refused.  The pool is
    chosen again on every call, by a cursor that has moved on, and the stored request
    then differs from the retried one: in the sample farm, where two pools can serve it,
    the first call creates a reservation, and the same call again, under the same key
    and on the database the first one left, is answered with a conflict although the
    reservation exists and is still pending. *)
Theorem create_retry_conflicts :
  exists v r, outcome create_anywhere (env_at 100 None) sample_state = Ok v
    /\ device_reservations (st_db anywhere_state) !! v_ID v = Some r /\ r_Status r = ReservationPending
    /\ r_IdempotencyKey r = "create-key-7"
    /\ outcome create_anywhere (env_at 101 None) anywhere_state = Fail ResErrConflict
    /\ st_db (after create_anywhere (env_at 101 None) anywhere_state) = st_db anywhere_state.
Proof. eexists _, _. split_and!; vm_compute; reflexivity. Qed.

(** one abandoned claim can stop the recovery of all others.  The sweep always
    takes the oldest abandoned claim, and failing it requires its device to be reserved
    still: when that device is in any other state, every sweep ends with not found,
    changes nothing, and never reaches a newer abandoned claim. *)
Theorem orphan_recovery_blocked (policy : Policy) (env : Env) (s : St) (r : ReservationRecord) (did : string) (d : DeviceRow) :
  keyed (st_db s) -> 0 < PendingTimeout policy -> 0 <= PendingClaimGrace policy ->
  first_where (orphaned_claim (env_clock env) (duration_seconds (PendingClaimGrace policy)))
    (order_by by_updated (reservations (st_db s))) = Some r ->
  r_UpdatedAt r + PendingClaimGrace policy <= env_clock env ->
  r_DeviceID r = Some did -> devices (st_db s) !! did = Some d -> d_lifecycle d <> DeviceReserved ->
  exists s', RunOrphanedClaimOnce policy env s = (Fail ResErrNotFound, s') /\ st_db s' = st_db s.
Proof.
  intros Hk Ht Hg Hf Hu Hdev Hd Hl. pose proof (first_where_Some _ _ _ Hf) as [Hin Ho].
  rewrite elem_of_order_by, reservations_spec in Hin by done.
  unfold orphaned_claim in Ho. guards.
  unfold RunOrphanedClaimOnce, ReapOrphanedClaimOnce, FindNextOrphanedClaim, env_gets, map_err, mbind, Tx_bind, M_bind.
  rewrite (proj2 (Z.leb_gt _ _) Ht), (proj2 (Z.leb_le _ _) Hg). cbn [guard_or]. unfold mret at 1, M_ret. rewrite Hf.
  cbn [expect_row]. unfold mret at 1, Tx_ret, M_ret. cbv beta iota zeta.
  unfold WithinTx, reap_orphan_tx, LockByID, get_db, gets, ClockNow, mbind, Tx_bind, M_bind. rewrite Hin.
  cbn [expect_row]. unfold mret at 1, Tx_ret, M_ret. cbv beta iota.
  match goal with H : r_Status r = _ |- _ => rewrite H, Hdev end. rewrite (proj2 (Z.leb_le _ _) Hu). cbn [guard_or].
  unfold mret at 1, M_ret, FailPendingClaim, mbind, Tx_bind, M_bind. rewrite update_device_rows, Hd.
  unfold lifecycle_is at 1. rewrite bool_decide_eq_false_2 by done. cbn. eexists. split; [done|]. by destruct s.
Qed.

(** The reserved device of the sample farm, put in quarantine while it was claimed. *)
Definition quarantined_row : DeviceRow := sample_row device_1 host_a 30 2 <| d_lifecycle := DeviceQuarantined |>.
Definition orphaned_state : St := on_db (put_device device_1 quarantined_row) reserved_farm_state.
Definition orphaned_row : ReservationRecord :=
  default (pending_row sample_params 0) (device_reservations (st_db orphaned_state) !! "reservation-0001").

Lemma orphaned_keyed : keyed (st_db orphaned_state).
Proof. eapply (keyed_insert_device (st_db reserved_farm_state)); [reflexivity|reflexivity|reflexivity|apply farm_reserved_keyed]. Qed.

Example orphan_recovery_blocked_witness : exists s',
  RunOrphanedClaimOnce sample_policy (env_at 500 None) orphaned_state = (Fail ResErrNotFound, s') /\ st_db s' = st_db orphaned_state.
Proof.
  apply (orphan_recovery_blocked _ _ _ orphaned_row device_1 quarantined_row orphaned_keyed);
    [reflexivity|discriminate|vm_compute; reflexivity|vm_compute; discriminate|vm_compute; reflexivity|vm_compute; reflexivity|discriminate].
Defined.
