(* ===== verification/PoolSelectorSpec.v ===== *)
(** * Properties of automatic pool selection

    The rotation is fair, and the selector and the allocation query agree on which
    device can serve a request whose capabilities both understand. *)
From S2P Require Import Prelude GoText Errors Domain Json Sensitive Actor Store.
From S2P Require Import ReservationRepo TxFacts PoolSelector ReservationService Scheduler ServiceFacts FarmSystem Samples.
From S2P Require Import FarmSafety SchedulerSpec.

#[global] Open Scope Z_scope.

(** ** The rotation *)
Fixpoint selections (n : nat) (stored : Z) (candidates : list selectablePool) : list string :=
  match n with
  | O => []
  | S n' => let '(selected, next) := rotate stored candidates in selected :: selections n' next candidates
  end.

Definition times (id : string) (l : list string) : Z := count_where (String.eqb id) l.

Example rotation_example :
  selections 7 0 [mkSelectable "pool-b" 2; mkSelectable "pool-a" 1] =
  ["pool-a"; "pool-b"; "pool-b"; "pool-a"; "pool-b"; "pool-b"; "pool-a"].
Proof. vm_compute. reflexivity. Qed.

Lemma weight_positive c : 0 < poolSelectionWeight c.
Proof. unfold poolSelectionWeight. destruct (Z.ltb_spec 0 (sp_MaxConcurrency c)); lia. Qed.

Lemma total_cons c l : total_weight (c :: l) = poolSelectionWeight c + total_weight l.
Proof. done. Qed.

Lemma total_nonneg l : 0 <= total_weight l.
Proof. induction l as [|c l IH]; [done|]. rewrite total_cons. pose proof (weight_positive c). lia. Qed.

Lemma total_perm l1 l2 : l1 ≡ₚ l2 -> total_weight l1 = total_weight l2.
Proof. induction 1; rewrite ?total_cons; lia. Qed.

Lemma times_app id l1 l2 : times id (l1 ++ l2) = times id l1 + times id l2.
Proof. unfold times, count_where. rewrite List.filter_app, length_app. lia. Qed.

Lemma times_cons id x l : times id (x :: l) = (if String.eqb id x then 1 else 0) + times id l.
Proof. unfold times, count_where. cbn. destruct (id =? x)%string; cbn [length]; lia. Qed.

Lemma times_constant {A} id x (l : list A) : times id (map (fun _ => x) l) = if String.eqb id x then Z.of_nat (length l) else 0.
Proof.
  induction l as [|y l IH]; [by destruct (id =? x)%string|]. cbn [map length]. rewrite times_cons, IH.
  destruct (id =? x)%string; lia.
Qed.

(** The weight a list of candidates gives to an identifier. *)
Definition weight_of (id : string) (l : list selectablePool) : Z :=
  foldr (fun c acc => (if String.eqb id (sp_ID c) then poolSelectionWeight c else 0) + acc) 0 l.

Lemma weight_of_cons id c l :
  weight_of id (c :: l) = (if String.eqb id (sp_ID c) then poolSelectionWeight c else 0) + weight_of id l.
Proof. done. Qed.

Lemma weight_of_perm id l1 l2 : l1 ≡ₚ l2 -> weight_of id l1 = weight_of id l2.
Proof. induction 1; rewrite ?weight_of_cons; lia. Qed.

Lemma weight_of_absent id l : id ∉ map sp_ID l -> weight_of id l = 0.
Proof.
  induction l as [|c l IH]; [done|]. cbn [map]. rewrite not_elem_of_cons, weight_of_cons. intros [Hne Hl].
  rewrite IH by done. by rewrite (proj2 (String.eqb_neq _ _) Hne).
Qed.

Lemma weight_of_unique c l : NoDup (map sp_ID l) -> c ∈ l -> weight_of (sp_ID c) l = poolSelectionWeight c.
Proof.
  induction l as [|x l IH]; [by intros _ []%elem_of_nil|]. cbn [map]. rewrite NoDup_cons, elem_of_cons, weight_of_cons.
  intros [Hx Hl] [->|Hc].
  - rewrite String.eqb_refl, weight_of_absent by done. lia.
  - rewrite IH by done. assert (sp_ID c <> sp_ID x) as Hne.
    { intros E. apply Hx. rewrite <-E. by apply list_elem_of_fmap_2. }
    by rewrite (proj2 (String.eqb_neq _ _) Hne).
Qed.

(** Over one turn of the cursor, each identifier is picked as often as it weighs. *)
Lemma pick_turn id d l : times id (map (fun i => pick d i l) (seqZ 0 (total_weight l))) = weight_of id l.
Proof.
  revert d. induction l as [|c l IH]; intros d; [done|].
  rewrite total_cons, weight_of_cons, seqZ_app by (pose proof (weight_positive c); pose proof (total_nonneg l); lia).
  rewrite map_app, times_app. f_equal.
  - rewrite (map_ext_in _ (fun _ => sp_ID c)).
    + rewrite times_constant, length_seqZ. destruct (_ =? _)%string; [|done]. pose proof (weight_positive c). lia.
    + intros i Hi%list_elem_of_In%elem_of_seqZ. cbn. destruct (Z.ltb_spec i (poolSelectionWeight c)); [done|lia].
  - rewrite <-(IH d). f_equal. set (w := poolSelectionWeight c).
    assert (seqZ (0 + w) (total_weight l) = Z.add w <$> seqZ 0 (total_weight l)) as -> by (rewrite fmap_add_seqZ; f_equal; lia).
    unfold fmap. rewrite map_map. apply map_ext_in. intros i Hi%list_elem_of_In%elem_of_seqZ. cbn. fold w.
    destruct (Z.ltb_spec (w + i) w); [lia|].
    by assert (w + i - w = i) as -> by lia.
Qed.

(** Any window of one turn counts as the first one. *)
Lemma window_turn id (f : Z -> string) (total stored : Z) : 0 < total -> 0 <= stored ->
  times id (map (fun i => f ((stored + i) mod total)) (seqZ 0 total)) = times id (map f (seqZ 0 total)).
Proof.
  intros Ht. revert stored. apply natlike_ind.
  - f_equal. apply map_ext_in. intros i Hi%list_elem_of_In%elem_of_seqZ. rewrite Z.add_0_l, Z.mod_small by lia. done.
  - intros stored Hs <-. pose (g := fun i => f (i mod total)).
    assert (forall a, map (fun i => f ((a + i) mod total)) (seqZ 0 total) = map g (seqZ a total)) as Hg.
    { intros a. assert (seqZ a total = Z.add a <$> seqZ 0 total) as -> by (rewrite fmap_add_seqZ; f_equal; lia).
      unfold fmap. by rewrite map_map. }
    rewrite !Hg.
    assert (seqZ stored total = stored :: seqZ (Z.succ stored) (Z.pred total)) as -> by (by apply seqZ_cons).
    assert (seqZ (Z.succ stored) total = seqZ (Z.succ stored) (Z.pred total) ++ [stored + total]) as ->.
    { replace total with (Z.pred total + 1) at 1 by lia. rewrite seqZ_app by lia. f_equal.
      rewrite seqZ_cons by lia. cbn. f_equal. lia. }
    assert (g (stored + total) = g stored) as Hper.
    { unfold g. f_equal. rewrite <-(Z_mod_plus_full stored 1 total). f_equal. lia. }
    rewrite map_app, times_app. cbn [map]. rewrite !times_cons, Hper. cbn [times]. change (times id []) with 0. lia.
Qed.

Definition pick_at (sorted : list selectablePool) (cursor : Z) : string :=
  pick (match sorted with [] => "" | first :: _ => sp_ID first end) cursor sorted.

Lemma sorted_nonempty candidates : candidates <> [] -> order_by by_candidate_id candidates <> [].
Proof.
  intros Hne E. apply Hne. pose proof (order_by_perm by_candidate_id candidates) as H. rewrite E in H.
  by apply Permutation_nil_l in H.
Qed.

Lemma total_positive l : l <> [] -> 0 < total_weight l.
Proof. destruct l as [|c l]; [done|]. rewrite total_cons. pose proof (weight_positive c). pose proof (total_nonneg l). lia. Qed.

Lemma rotate_spec stored candidates :
  0 <= stored -> candidates <> [] ->
  let sorted := order_by by_candidate_id candidates in
  rotate stored candidates = (pick_at sorted (stored mod total_weight sorted), (stored + 1) mod total_weight sorted).
Proof.
  intros Hs Hne sorted. pose proof (total_positive _ (sorted_nonempty _ Hne)) as Ht. fold sorted in Ht.
  unfold rotate, pick_at. fold sorted. clearbody sorted. destruct sorted as [|c l]; [done|]. cbv zeta.
  destruct (Z.leb_spec (total_weight (c :: l)) 0); [lia|]. by rewrite !Z.rem_mod_nonneg by lia.
Qed.

Lemma selections_spec n candidates : forall stored, 0 <= stored -> candidates <> [] ->
  let sorted := order_by by_candidate_id candidates in
  selections n stored candidates
  = map (fun i => pick_at sorted ((stored + i) mod total_weight sorted)) (seqZ 0 (Z.of_nat n)).
Proof.
  intros stored Hs Hne sorted. revert stored Hs. induction n as [|n IH]; intros stored Hs; [done|].
  pose proof (total_positive _ (sorted_nonempty _ Hne)) as Ht. fold sorted in Ht.
  cbn [selections]. rewrite rotate_spec by done. fold sorted. rewrite IH by (apply Z.mod_pos_bound; lia).
  rewrite (seqZ_cons 0 (Z.of_nat (S n))) by lia. cbn [map]. f_equal; [f_equal; f_equal; lia|].
  replace (Z.pred (Z.of_nat (S n))) with (Z.of_nat n) by lia.
  assert (seqZ (Z.succ 0) (Z.of_nat n) = Z.add 1 <$> seqZ 0 (Z.of_nat n)) as -> by (rewrite fmap_add_seqZ; f_equal; lia).
  unfold fmap. rewrite map_map. apply map_ext. intros i. f_equal.
  rewrite Z.add_mod_idemp_l by lia. f_equal. lia.
Qed.

(** C31: the rotation is fair.  While the pools that can serve a platform stay the same,
    any run of selections as long as their total weight picks each pool exactly as often
    as its weight (its concurrency limit, or once when it has none), wherever the cursor
    starts. *)
Theorem rotation_fair (candidates : list selectablePool) (stored : Z) (c : selectablePool) :
  0 <= stored -> NoDup (map sp_ID candidates) -> c ∈ candidates ->
  times (sp_ID c) (selections (Z.to_nat (total_weight candidates)) stored candidates) = poolSelectionWeight c.
Proof.
  intros Hs Hnd Hc.
  assert (candidates <> []) as Hne by (intros ->; by apply elem_of_nil in Hc).
  pose proof (order_by_perm by_candidate_id candidates) as Hperm.
  rewrite selections_spec, (total_perm _ _ (symmetry Hperm)) by done. rewrite Z2Nat.id by apply total_nonneg.
  rewrite (window_turn _ (pick_at _)); [|..|done].
  - unfold pick_at. rewrite pick_turn, (weight_of_perm _ _ _ Hperm). by apply weight_of_unique.
  - by apply total_positive, sorted_nonempty.
Qed.

Example rotation_fair_witness :
  times "pool-b" (selections 3 7 [mkSelectable "pool-b" 2; mkSelectable "pool-a" 0]) = 2.
Proof.
  apply (rotation_fair [mkSelectable "pool-b" 2; mkSelectable "pool-a" 0] 7 (mkSelectable "pool-b" 2)); [lia| |].
  - cbn. rewrite !NoDup_cons. split_and!; [|by apply not_elem_of_nil|by constructor]. by rewrite list_elem_of_singleton.
  - apply elem_of_cons. by left.
Defined.

(** ** Agreement with the allocation query *)

(** A request whose keys are distinct, without surrounding blanks and not reserved, and
    whose level, if any, is an integer of the database. *)
Record plain_request (requested : obj) : Prop := {
  plain_keys : NoDup (map fst requested);
  plain_trimmed k : k ∈ map fst requested -> TrimSpace k = k /\ k <> "" /\ HasPrefix k "_" = false;
  plain_level : match assoc androidMinSdkLevelKey requested with
                | None => True
                | Some (JNum q) => exists n, Q_integral q = Some n /\ in_int4 n = true
                | Some _ => False
                end }.

Lemma assoc_set_new k v kvs : k ∉ map fst kvs -> assoc_set k v kvs = kvs ++ [(k, v)].
Proof.
  induction kvs as [|[k' v'] l IH]; [done|]. cbn [map fst]. rewrite not_elem_of_cons. intros [Hne Hl]. cbn.
  rewrite bool_decide_eq_false_2 by done. by rewrite IH.
Qed.

Definition kept_key (p : string * json) : Prop := p.1 <> androidMinSdkLevelKey /\ p.1 ∈ schedulableCapabilityKeys.
#[export] Instance kept_key_dec p : Decision (kept_key p).
Proof. unfold kept_key. apply _. Defined.

Lemma encode_filter requested :
  NoDup (map fst requested) -> (forall k, k ∈ map fst requested -> TrimSpace k = k /\ k <> "" /\ HasPrefix k "_" = false) ->
  encodeRequestedCapabilities requested = filter kept_key requested.
Proof.
  intros Hnd Hk. unfold encodeRequestedCapabilities.
  match goal with |- foldl ?f [] _ = _ => assert (forall acc, (forall k, k ∈ map fst acc -> k ∉ map fst requested) ->
    foldl f acc requested = acc ++ filter kept_key requested) as Hgen end.
  2: { rewrite Hgen; [done|]. by intros k []%elem_of_nil. }
  induction requested as [|[k v] l IH]; intros acc Hacc; [cbn; by rewrite app_nil_r|].
  cbn [foldl map fst] in *. apply NoDup_cons in Hnd as [Hkl Hnd].
  destruct (Hk k) as (Ht & Hne & Hp); [apply elem_of_cons; by left|].
  rewrite Ht, Hp, (bool_decide_eq_false_2 (k = "")) by done. cbn [orb]. rewrite filter_cons.
  assert (forall k0, k0 ∈ map fst l -> TrimSpace k0 = k0 /\ k0 <> "" /\ HasPrefix k0 "_" = false) as Hk'
    by (intros; apply Hk, elem_of_cons; by right).
  assert (forall a : obj, (forall k0, k0 ∈ map fst a -> k0 = k \/ k0 ∈ map fst acc) -> forall k0, k0 ∈ map fst a -> k0 ∉ map fst l) as Hsub.
  { intros a Ha k0 [->|Hin]%Ha; [done|]. intros Hl. apply (Hacc k0); [done|]. apply elem_of_cons. by right. }
  unfold kept_key at 1. cbn [fst].
  destruct (decide (k = androidMinSdkLevelKey)) as [E|E].
  - rewrite (bool_decide_eq_true_2 (k = _)) by done. rewrite decide_False by (intros [? ?]; done). apply IH; [done|done|].
    apply Hsub. by right.
  - rewrite (bool_decide_eq_false_2 (k = _)) by done. destruct (decide (k ∈ schedulableCapabilityKeys)) as [Ek|Ek].
    + rewrite (bool_decide_eq_true_2 (k ∈ _)) by done. cbn [negb]. rewrite decide_True by done.
      rewrite assoc_set_new by (intros Hin; apply (Hacc k Hin), elem_of_cons; by left).
      rewrite IH; [by rewrite <-app_assoc|done|done|]. apply Hsub. intros k0. rewrite map_app, elem_of_app. cbn.
      rewrite list_elem_of_singleton. tauto.
    + rewrite (bool_decide_eq_false_2 (k ∈ _)) by done. cbn [negb]. rewrite decide_False by (intros [? ?]; done). apply IH; [done|done|].
      apply Hsub. by right.
Qed.

(** The stored request and the encoded one have the same schedulable part. *)
Lemma schedulable_encoded requested :
  plain_request requested ->
  device_schedulable_capabilities (encodeRequestedCapabilities requested) = device_schedulable_capabilities requested.
Proof.
  intros [Hnd Hk _]. rewrite encode_filter by done. unfold device_schedulable_capabilities.
  clear. induction requested as [|[k v] l IH]; [done|]. rewrite !filter_cons. unfold kept_key at 1. cbn [fst].
  assert (k ∈ sql_schedulable_keys -> k <> androidMinSdkLevelKey /\ k ∈ schedulableCapabilityKeys) as Hsub.
  { unfold sql_schedulable_keys, schedulableCapabilityKeys. rewrite !elem_of_cons. unfold androidMinSdkLevelKey.
    intros H. destruct_or?; [subst k; split; [discriminate|tauto]..|by apply elem_of_nil in H]. }
  destruct (decide (k ∈ sql_schedulable_keys)) as [Hin|Hin].
  - rewrite decide_True by (by apply Hsub). rewrite filter_cons. cbn [fst]. rewrite decide_True by done. by rewrite IH.
  - destruct (decide (k <> _ /\ _)); [rewrite filter_cons; cbn [fst]; rewrite decide_False by done|]; done.
Qed.

Lemma integral_quot q n : Q_integral q = Some n -> Z.quot (QArith_base.Qnum q) (Zpos (QArith_base.Qden q)) = n.
Proof.
  unfold Q_integral. case_bool_decide as Hd; [|done]. intros [= <-].
  pose proof (QArith.Qreduction.Qred_correct q) as Hq. unfold QArith_base.Qeq in Hq. rewrite Hd in Hq. rewrite Z.mul_1_r in Hq.
  rewrite <-Hq. by rewrite Z.quot_mul.
Qed.

Lemma level_agrees requested :
  plain_request requested -> coalesce_int requested androidMinSdkLevelKey = Some (minSDKLowerBound requested).
Proof.
  intros [_ _ Hl]. unfold coalesce_int, minSDKLowerBound. destruct (assoc _ requested) as [[| |q| | |]|]; try done.
  destruct Hl as (n & Hq & Hn). rewrite Hq. cbn. rewrite Hn. by rewrite (integral_quot _ _ Hq).
Qed.

Lemma has_key_elem kvs k : has_key kvs k = true -> k ∈ map fst kvs.
Proof.
  unfold has_key. induction kvs as [|[k' v] l IH]; [done|]. cbn. rewrite elem_of_cons. case_bool_decide; [by left|].
  intros Hk. right. by apply IH.
Qed.

(** C32: selection and allocation agree.  For a request with ordinary keys and an
    integer level, a device makes its active pool selectable exactly when the allocation
    query would give that device to the request, error cases included; in particular the
    two key lists and the two readings of the level (a Go number in one place, a cast of
    a text in the other) do not disagree. *)
Theorem selector_agrees_with_allocator (requested : obj) (m : Membership) (name : string) :
  plain_request requested ->
  get_text requested "platformName" = Some name -> ToLower name = p_platform (m_pool m) ->
  p_status (m_pool m) = PoolActive -> pd_pool_id (m_entry m) = p_id (m_pool m) ->
  device_at_hand (m_pool m) (encodeRequestedCapabilities requested) (minSDKLowerBound requested) m
  = allocatable requested m.
Proof.
  intros Hplain En Hname Hact Hid. unfold device_at_hand, allocatable, available, capabilities_match, min_sdk_satisfied.
  rewrite schedulable_encoded, level_agrees by done. rewrite Hid, String.eqb_refl, (bool_decide_eq_true_2 (_ = PoolActive)) by done.
  destruct (has_key requested TargetDeviceCapability) eqn:Ht.
  { apply has_key_elem in Ht. by destruct (plain_trimmed _ Hplain _ Ht) as (_ & _ & ?). }
  rewrite En. cbn [option_map].
  rewrite (bool_decide_eq_true_2 (Some (ToLower name) = _)) by (f_equal; done).
  rewrite orb_true_r. cbn [negb orb andb]. rewrite !andb_true_r.
  destruct (pd_enabled _ && _ && _ && _ && _ && _ && _); [|done].
  destruct (minSDKLowerBound requested); [done|..]; cbn [Z.eqb]; by destruct (coalesce_int _ "apiLevel").
Qed.

Definition sample_request : obj :=
  [("platformName", JStr "android"); ("model", JStr "Pixel"); ("androidMinSdkLevel", jint 30)].

Lemma sample_request_plain : plain_request sample_request.
Proof.
  split.
  - cbn. rewrite !NoDup_cons, !not_elem_of_cons. split_and!; try discriminate; try apply not_elem_of_nil. by constructor.
  - intros k. cbn. rewrite !elem_of_cons. intros [->|[->|[->|[]%elem_of_nil]]]; by vm_compute.
  - exists 30. by vm_compute.
Qed.

Example selector_agrees_with_allocator_witness :
  device_at_hand (m_pool device_1_membership) (encodeRequestedCapabilities sample_request) (minSDKLowerBound sample_request)
    device_1_membership = allocatable sample_request device_1_membership
  /\ allocatable sample_request device_1_membership = Some true.
Proof.
  split; [|vm_compute; reflexivity].
  by apply (selector_agrees_with_allocator sample_request device_1_membership "android" sample_request_plain).
Defined.
