(* ===== verification/CommandSpec.v ===== *)
(** * Properties of the host command queue and of heartbeat observations

    Every statement on the queue is one of four moves on one row.  The moves keep the
    constraints of the schema, follow the state machine of commands, hand out each
    attempt once and let it be completed once.  Observations never take a device away
    from its reservation. *)
From S2P Require Import Prelude GoText Errors Domain DomainSpec Json Sensitive Actor.
From S2P Require Import Store ReservationRepo TxFacts PoolSelector ReservationService Scheduler ServiceFacts FarmSystem.
From S2P Require Import Samples CommandRepo HostCommand.

(** ** Moves *)
Inductive queue_op : Type :=
  | QCreate (p : CreateCommandParams)
  | QClaim (hostID token : string) (lease : Z)
  | QExtend (id token : string) (attempt lease : Z)
  | QComplete (id token : string) (attempt : Z) (status : CommandStatus) (result : option obj)
      (code : option string) (retryable : bool)
  | QRecover.

Definition run_queue (op : queue_op) : Tx CommandRecord :=
  match op with
  | QCreate p => CreateCommand p
  | QClaim host token lease => ClaimNext host token lease
  | QExtend id token attempt lease => ExtendLease id token attempt lease
  | QComplete id token attempt status result code retryable => Complete id token attempt status result code retryable
  | QRecover => RecoverExpiredLease
  end.

(** The arguments the service lets through. *)
Definition queue_checked (op : queue_op) : Prop :=
  match op with
  | QCreate p => 1 <= cc_MaxAttempts p
  | QComplete _ _ _ status _ _ _ => status = CommandSucceeded \/ status = CommandFailed \/ status = CommandTimedOut
  | QClaim _ _ _ | QExtend _ _ _ _ | QRecover => True
  end.

Definition final (st : CommandStatus) : Prop := st = CommandSucceeded \/ st = CommandFailed \/ st = CommandTimedOut.

(** What a statement may do to the row of a command at time [now]. *)
Inductive queue_move (now : Z) : option CommandRecord -> CommandRecord -> Prop :=
  | move_create p : 1 <= cc_MaxAttempts p -> queue_move now None (new_command p now)
  | move_claim c host token lease : claimable host c = true -> queue_move now (Some c) (leased token now lease c)
  | move_extend c token attempt expires : holds_lease token attempt now c = true ->
      queue_move now (Some c) (c <| c_LeaseExpiresAt := Some expires |> <| c_UpdatedAt := now |>)
  | move_close c token attempt st result code :
      command_is CommandLeased c = true ->
      (holds_lease token attempt now c = true \/ lease_expired now c = true) ->
      (st = CommandPending /\ c_Attempts c < c_MaxAttempts c \/ final st) ->
      queue_move now (Some c)
        (c <| c_Status := st |> <| c_LeaseToken := None |> <| c_LeaseExpiresAt := None |> <| c_Result := result |>
           <| c_ErrorCode := code |> <| c_CompletedAt := if bool_decide (st = CommandPending) then None else Some now |>
           <| c_UpdatedAt := now |>).

Definition commands_keyed (db : DB) : Prop := forall k c, device_host_commands db !! k = Some c -> c_ID c = k.

(** One statement: no change, or one move. *)
Definition queue_step (now : Z) (db db' : DB) : Prop :=
  device_host_commands db' = device_host_commands db
  \/ exists id c, device_host_commands db' = <[id := c]> (device_host_commands db) /\ c_ID c = id
       /\ queue_move now (device_host_commands db !! id) c.

Lemma update_leased_result id token attempt f env s r s' :
  update_leased id token attempt f env s = (r, s') ->
  (st_db s' = st_db s /\ r = Fail RepoErrLeaseConflict)
  \/ exists c, device_host_commands (st_db s) !! id = Some c /\ holds_lease token attempt (env_clock env) c = true
       /\ r = Ok (f (env_clock env) c)
       /\ device_host_commands (st_db s') = <[id := f (env_clock env) c]> (device_host_commands (st_db s)).
Proof.
  unfold update_leased, ClockNow, get_db, gets, mbind, Tx_bind, M_bind.
  destruct (_ !! id) as [c|] eqn:Hc; [|intros [= <- <-]; by left].
  destruct (holds_lease _ _ _ _) eqn:Hh; [|intros [= <- <-]; by left].
  intros [= <- <-]. right. exists c. done.
Qed.

Lemma holds_lease_leased token attempt now c : holds_lease token attempt now c = true -> command_is CommandLeased c = true.
Proof. unfold holds_lease. by intros [[[? _]%andb_true_iff _]%andb_true_iff _]%andb_true_iff. Qed.

Lemma lease_expired_leased now c : lease_expired now c = true -> command_is CommandLeased c = true.
Proof. unfold lease_expired. by intros [? _]%andb_true_iff. Qed.

(** The candidate of a scan. *)
Lemma candidate_ok (k : CommandRecord -> key) (p : CommandRecord -> bool) env db c :
  commands_keyed db -> first_where (fun c => p c && not_locked env c) (order_by k (commands db)) = Some c ->
  device_host_commands db !! c_ID c = Some c /\ p c = true /\ not_locked env c = true
  /\ forall j x, device_host_commands db !! j = Some x -> p x = true -> not_locked env x = true -> key_le (k c) (k x).
Proof.
  intros Hk (Hin & Hpl & Hmin)%first_where_minimal. apply andb_true_iff in Hpl as [Hp Hl]. split_and!; try done.
  - apply elem_of_rows in Hin as [j Hj]. by rewrite (Hk _ _ Hj).
  - intros j x Hx Hpx Hlx. apply Hmin; [by apply elem_of_rows; exists j|]. by rewrite Hpx, Hlx.
Qed.

Lemma ClaimNext_result host token lease env s r s' :
  commands_keyed (st_db s) -> ClaimNext host token lease env s = (r, s') ->
  (st_db s' = st_db s /\ r = Fail RepoErrNotFound)
  \/ exists c, device_host_commands (st_db s) !! c_ID c = Some c /\ claimable host c = true /\ not_locked env c = true
       /\ (forall j x, device_host_commands (st_db s) !! j = Some x -> claimable host x = true -> not_locked env x = true ->
             key_le (by_command_created c) (by_command_created x))
       /\ r = Ok (leased token (env_clock env) lease c)
       /\ device_host_commands (st_db s') = <[c_ID c := leased token (env_clock env) lease c]> (device_host_commands (st_db s)).
Proof.
  intros Hk. unfold ClaimNext, ClockNow, env_gets, mbind, Tx_bind, M_bind. cbv beta iota.
  destruct (first_where _ _) as [c|] eqn:Hf; [|intros [= <- <-]; by left].
  intros [= <- <-]. right. apply candidate_ok in Hf as (? & ? & ? & ?); [|done]. exists c. done.
Qed.

Lemma RecoverExpiredLease_result env s r s' :
  commands_keyed (st_db s) -> RecoverExpiredLease env s = (r, s') ->
  (st_db s' = st_db s /\ r = Fail RepoErrNotFound)
  \/ exists c, device_host_commands (st_db s) !! c_ID c = Some c /\ lease_expired (env_clock env) c = true
       /\ r = Ok (recovered (env_clock env) c)
       /\ device_host_commands (st_db s') = <[c_ID c := recovered (env_clock env) c]> (device_host_commands (st_db s)).
Proof.
  intros Hk. unfold RecoverExpiredLease, ClockNow, env_gets, mbind, Tx_bind, M_bind. cbv beta iota.
  destruct (first_where _ _) as [c|] eqn:Hf; [|intros [= <- <-]; by left].
  intros [= <- <-]. right. apply candidate_ok in Hf as (? & ? & ? & ?); [|done]. exists c. done.
Qed.

Lemma CreateCommand_result p env s r s' :
  CreateCommand p env s = (r, s') ->
  st_db s' = st_db s
  \/ device_host_commands (st_db s) !! cc_ID p = None
     /\ device_host_commands (st_db s') = <[cc_ID p := new_command p (env_clock env)]> (device_host_commands (st_db s)).
Proof.
  unfold CreateCommand, get_db, gets, ClockNow, mbind, Tx_bind, M_bind, mret, Tx_ret, M_ret. cbv beta iota.
  destruct (first_where _ _) as [c|].
  - cbv beta iota. destruct (same_command c p); intros H; injection H as _ <-; by left.
  - destruct (_ !! cc_ID p) eqn:Hn; [intros H; injection H as _ <-; by left|].
    unfold put_command, put_db, modify. cbv beta iota. intros H. right.
    destruct (same_command _ p); injection H as _ <-; done.
Qed.

Lemma completed_close status result code retryable now c :
  final status ->
  exists st, completed status result code retryable now c =
    c <| c_Status := st |> <| c_LeaseToken := None |> <| c_LeaseExpiresAt := None |> <| c_Result := result |>
      <| c_ErrorCode := code |> <| c_CompletedAt := if bool_decide (st = CommandPending) then None else Some now |>
      <| c_UpdatedAt := now |>
    /\ (st = CommandPending /\ c_Attempts c < c_MaxAttempts c \/ final st).
Proof.
  intros Hf. unfold completed. destruct (retries status retryable c) eqn:Hr.
  - exists CommandPending. split; [done|]. left. split; [done|]. unfold retries in Hr.
    apply andb_true_iff in Hr as [_ ?%Z.ltb_lt]. done.
  - exists status. split; [|by right]. by destruct Hf as [-> | [-> | ->]].
Qed.

Lemma recovered_close now c :
  exists st code, recovered now c =
    c <| c_Status := st |> <| c_LeaseToken := None |> <| c_LeaseExpiresAt := None |> <| c_Result := c_Result c |>
      <| c_ErrorCode := code |> <| c_CompletedAt := if bool_decide (st = CommandPending) then None else Some now |>
      <| c_UpdatedAt := now |>
    /\ (st = CommandPending /\ c_Attempts c < c_MaxAttempts c \/ final st).
Proof.
  unfold recovered. destruct (Z.ltb_spec (c_Attempts c) (c_MaxAttempts c)).
  - exists CommandPending, None. split; [by destruct c|]. by left.
  - exists CommandTimedOut, (Some "COMMAND_ATTEMPTS_EXHAUSTED"). split; [by destruct c|]. right. right. by right.
Qed.

(** Every statement is a step. *)
Lemma run_queue_step op env s r s' :
  commands_keyed (st_db s) -> queue_checked op -> run_queue op env s = (r, s') ->
  queue_step (env_clock env) (st_db s) (st_db s').
Proof.
  intros Hk Hc H. unfold queue_step. destruct op as [p|host token lease|id token attempt lease|id token attempt status result code retryable|]; cbn in H, Hc.
  - apply CreateCommand_result in H as [->|[Hn ->]]; [by left|]. right. exists (cc_ID p). eexists.
    split; [done|]. split; [done|]. rewrite Hn. by constructor.
  - apply ClaimNext_result in H as [[-> _]|(c & Hl & Hcl & _ & _ & _ & ->)]; [by left| |done]. right. exists (c_ID c). eexists.
    split; [done|]. split; [done|]. rewrite Hl. by eapply move_claim.
  - apply update_leased_result in H as [[-> _]|(c & Hl & Hh & _ & ->)]; [by left|]. right. exists id. eexists.
    split; [done|]. split; [by apply (Hk _ _ Hl)|]. rewrite Hl. by eapply move_extend.
  - apply update_leased_result in H as [[-> _]|(c & Hl & Hh & _ & ->)]; [by left|]. right. exists id. eexists.
    split; [done|]. split; [by apply (Hk _ _ Hl)|]. rewrite Hl.
    destruct (completed_close status result code retryable (env_clock env) c Hc) as (st & -> & Hst).
    eapply move_close; [by eapply holds_lease_leased|by left|done].
  - apply RecoverExpiredLease_result in H as [[-> _]|(c & Hl & He & _ & ->)]; [by left| |done]. right. exists (c_ID c). eexists.
    split; [done|]. split; [done|]. rewrite Hl.
    destruct (recovered_close (env_clock env) c) as (st & code & -> & Hst).
    apply (move_close _ c "" 0); [by eapply lease_expired_leased|by right|done].
Qed.

(** ** Reachable queues *)

(** The queue at the time of its last statement.  Any party runs any statement, with any
    controllers, locks and identifiers, as the clock advances. *)
Inductive queue_reachable : Z -> DB -> Prop :=
  | queue_init t db : device_host_commands db = ∅ -> queue_reachable t db
  | queue_next t env s op r s' : queue_reachable t (st_db s) -> queue_checked op -> t <= env_clock env ->
      run_queue op env s = (r, s') -> queue_reachable (env_clock env) (st_db s').

Lemma queue_step_keyed now db db' : commands_keyed db -> queue_step now db db' -> commands_keyed db'.
Proof.
  intros Hk [H|(id & c & H & Hid & _)] k x; rewrite H; [apply Hk|].
  intros [[<- <-]|[_ Hx]]%lookup_insert_Some; [done|by apply Hk].
Qed.

Lemma reachable_keyed t db : queue_reachable t db -> commands_keyed db.
Proof.
  induction 1 as [t db H|t env s op r s' _ IH Hc _ H]; [intros k c; by rewrite H|].
  eapply queue_step_keyed; [exact IH|]. by eapply run_queue_step.
Qed.

(** An invariant of rows that every move keeps holds of every reachable queue. *)
Lemma queue_invariant (I : Z -> CommandRecord -> Prop) :
  (forall t t' c, I t c -> t <= t' -> I t' c) ->
  (forall now o c, (forall x, o = Some x -> I now x) -> queue_move now o c -> I now c) ->
  forall t db, queue_reachable t db -> forall k c, device_host_commands db !! k = Some c -> I t c.
Proof.
  intros Hlater Hmove t db H. induction H as [t db H|t env s op r s' Hr IH Hc Ht H]; intros k c.
  - by rewrite H.
  - assert (forall k x, device_host_commands (st_db s) !! k = Some x -> I (env_clock env) x) as IH'
      by (intros j x Hj; eapply Hlater; [by eapply IH|done]).
    destruct (run_queue_step _ _ _ _ _ (reachable_keyed _ _ Hr) Hc H) as [E|(id & x & E & _ & Hm)]; rewrite E; [apply IH'|].
    intros [[<- <-]|[_ Hk]]%lookup_insert_Some; [|by eapply IH'].
    eapply Hmove; [|exact Hm]. intros y. apply IH'.
Qed.

(** *** The constraints of the schema *)
Definition is_some {A} (o : option A) : bool := match o with Some _ => true | None => false end.

Definition ck_device_host_commands (c : CommandRecord) : bool :=
  validCommandStatus (c_Status c)
  && ((0 <=? c_Attempts c) && (0 <? c_MaxAttempts c) && (c_Attempts c <=? c_MaxAttempts c))
  && (negb (command_is CommandLeased c) || (is_some (c_LeaseToken c) && is_some (c_LeaseExpiresAt c)))
  && match c_Status c with
     | CommandSucceeded | CommandFailed | CommandTimedOut | CommandCanceled => is_some (c_CompletedAt c)
     | CommandPending | CommandLeased => true
     | CommandOther _ => false
     end
  && ((c_CreatedAt c <=? c_UpdatedAt c) && match c_CompletedAt c with Some e => c_CreatedAt c <=? e | None => true end).

Definition command_inv (t : Z) (c : CommandRecord) : Prop :=
  c_CreatedAt c <= c_UpdatedAt c <= t /\ 0 <= c_Attempts c <= c_MaxAttempts c /\ 0 < c_MaxAttempts c
  /\ match c_Status c with
     | CommandPending => c_Attempts c < c_MaxAttempts c /\ c_LeaseToken c = None /\ c_CompletedAt c = None
     | CommandLeased => 1 <= c_Attempts c /\ is_some (c_LeaseToken c) = true /\ is_some (c_LeaseExpiresAt c) = true
         /\ c_CompletedAt c = None
     | CommandSucceeded | CommandFailed | CommandTimedOut =>
         c_LeaseToken c = None /\ exists e, c_CompletedAt c = Some e /\ c_CreatedAt c <= e
     | CommandCanceled | CommandOther _ => False
     end.

Lemma command_inv_later t t' c : command_inv t c -> t <= t' -> command_inv t' c.
Proof. unfold command_inv. intros (? & ? & ? & ?) ?. split_and!; try done; lia. Qed.

Lemma command_is_spec x c : command_is x c = true <-> c_Status c = x.
Proof. apply bool_decide_eq_true. Qed.

Lemma command_inv_move now o c : (forall x, o = Some x -> command_inv now x) -> queue_move now o c -> command_inv now c.
Proof.
  intros Ho Hm. destruct Hm as [p Hp|c host token lease Hc|c token attempt expires Hh|c token attempt st result code Hl _ Hst].
  - unfold command_inv. cbn. split_and!; try done; lia.
  - destruct (Ho c eq_refl) as ([? ?] & [? ?] & ? & Hs). unfold claimable in Hc.
    apply andb_true_iff in Hc as [[_ Hp%command_is_spec]%andb_true_iff Hlt%Z.ltb_lt]. rewrite Hp in Hs.
    unfold command_inv. cbn. destruct Hs as (_ & _ & Hs). split_and!; try done; lia.
  - destruct (Ho c eq_refl) as ([? ?] & [? ?] & ? & Hs). apply holds_lease_leased, command_is_spec in Hh. rewrite Hh in Hs.
    unfold command_inv. cbn. rewrite Hh. destruct Hs as (? & ? & ? & ?). split_and!; try done; lia.
  - destruct (Ho c eq_refl) as ([? ?] & [? ?] & ? & Hs).
    unfold command_inv. cbn. split_and!; try done; try lia.
    destruct Hst as [[-> ?]|[-> | [-> | ->]]]; cbn; [done|..]; (split; [done|]; eexists; split; [done|lia]).
Qed.

Lemma reachable_command_inv t db k c : queue_reachable t db -> device_host_commands db !! k = Some c -> command_inv t c.
Proof.
  intros Hr. revert k c. apply (queue_invariant command_inv); [apply command_inv_later|apply command_inv_move|done].
Qed.

(** *** A sample queue *)
Definition command_id : string := "command-00000001".
Definition sample_command : CreateCommandParams := mkCreateCommand command_id host_a "create" [] 2 "command-key-1".
Definition token_1 : string := "token-0000000001".
Definition token_2 : string := "token-0000000002".

Definition q_created : St := after (run_queue (QCreate sample_command)) (env_at 100 None) sample_state.
Definition claim_1 : queue_op := QClaim host_a token_1 (60 * Second).
Definition q_claimed : St := after (run_queue claim_1) (env_at 101 None) q_created.
Definition failed_attempt : queue_op := QComplete command_id token_1 1 CommandFailed None (Some "BOOT_FAILED") true.
Definition q_failed : St := after (run_queue failed_attempt) (env_at 110 None) q_claimed.

Definition command_of (op : queue_op) (env : Env) (s : St) : CommandRecord :=
  match outcome (run_queue op) env s with Ok c => c | Fail _ => new_command sample_command 0 end.

Lemma run_queue_pair op env s : run_queue op env s = (outcome (run_queue op) env s, after (run_queue op) env s).
Proof. apply surjective_pairing. Qed.

Lemma q_created_reachable : queue_reachable (at_second 100) (st_db q_created).
Proof.
  apply (queue_next (at_second 10) (env_at 100 None) sample_state (QCreate sample_command) (outcome (run_queue (QCreate sample_command)) (env_at 100 None) sample_state) q_created).
  - apply queue_init; reflexivity.
  - vm_compute. discriminate.
  - vm_compute. discriminate.
  - apply run_queue_pair.
Qed.

Lemma q_claimed_reachable : queue_reachable (at_second 101) (st_db q_claimed).
Proof.
  apply (queue_next (at_second 100) (env_at 101 None) q_created claim_1 (outcome (run_queue claim_1) (env_at 101 None) q_created) q_claimed).
  - exact q_created_reachable.
  - exact I.
  - vm_compute. discriminate.
  - apply run_queue_pair.
Qed.

Lemma q_created_keyed : commands_keyed (st_db q_created).
Proof. eapply reachable_keyed, q_created_reachable. Qed.
Lemma q_claimed_keyed : commands_keyed (st_db q_claimed).
Proof. eapply reachable_keyed, q_claimed_reachable. Qed.

(** every row of device_host_commands satisfies the constraints of the schema
    (status, attempts, lease, completion and time) whatever statements the services and
    the agents interleave; in particular no command is attempted more often than it
    allows, and a leased command always carries the token and the end of its lease. *)
Theorem command_rows_valid (t : Z) (db : DB) (k : string) (c : CommandRecord) :
  queue_reachable t db -> device_host_commands db !! k = Some c -> ck_device_host_commands c = true.
Proof.
  intros Hr Hk. destruct (reachable_command_inv _ _ _ _ Hr Hk) as ([Hcu _] & [Ha Ham] & Hm & Hs).
  unfold ck_device_host_commands, command_is.
  rewrite (proj2 (Z.leb_le _ _) Hcu), (proj2 (Z.leb_le _ _) Ha), (proj2 (Z.leb_le _ _) Ham), (proj2 (Z.ltb_lt _ _) Hm).
  destruct (c_Status c) eqn:Est; try done; cbn.
  - by destruct Hs as (_ & _ & ->).
  - by destruct Hs as (_ & -> & -> & ->).
  - destruct Hs as (_ & e & -> & He). cbn. by apply Z.leb_le.
  - destruct Hs as (_ & e & -> & He). cbn. by apply Z.leb_le.
  - destruct Hs as (_ & e & -> & He). cbn. by apply Z.leb_le.
Qed.

Example command_rows_valid_witness : ck_device_host_commands (command_of claim_1 (env_at 101 None) q_created) = true.
Proof.
  apply (command_rows_valid _ _ command_id _ q_claimed_reachable). vm_compute. reflexivity.
Defined.

(** ** The state machine *)
Lemma move_edge now o c : queue_move now (Some o) c ->
  c_Status c = c_Status o \/ has_edge commandTransitions (c_Status o) (c_Status c) = true.
Proof.
  inversion 1 as [| ? host token lease Hc| |? token attempt st result code Hl _ Hst]; subst; cbn.
  - right. unfold claimable in Hc. apply andb_true_iff in Hc as [[_ Hp%command_is_spec]%andb_true_iff _]. by rewrite Hp.
  - by left.
  - right. apply command_is_spec in Hl. rewrite Hl. by destruct Hst as [[-> _]|[-> | [-> | ->]]].
Qed.

Lemma move_from_open now o c : queue_move now (Some o) c -> ~ final (c_Status o).
Proof.
  intros Hm Hf.
  assert (c_Status o = CommandPending \/ c_Status o = CommandLeased) as Ho.
  { inversion Hm as [| ? host token lease Hc|? token attempt expires Hh|? token attempt st result code Hl _ Hst]; subst.
    - unfold claimable in Hc. apply andb_true_iff in Hc as [[_ Hp%command_is_spec]%andb_true_iff _]. by left.
    - right. by apply command_is_spec, holds_lease_leased in Hh || (apply holds_lease_leased, command_is_spec in Hh).
    - right. by apply command_is_spec. }
  destruct Hf as [E|[E|E]]; rewrite E in Ho; by destruct Ho.
Qed.

(** ** Leases *)

(** C34: a lease is a fence.  Completing or extending a command succeeds exactly when the
    command is leased under the token and the attempt that the agent presents and the
    lease has not ended; otherwise it fails with a lease conflict and leaves the database
    as it is, so an agent that lost its lease can no longer change the command. *)
Theorem lease_is_a_fence (env : Env) (s : St) (id token : string) (attempt lease : Z) (status : CommandStatus)
    (result : option obj) (code : option string) (retryable : bool) :
  let holder := exists c, device_host_commands (st_db s) !! id = Some c
    /\ c_Status c = CommandLeased /\ c_LeaseToken c = Some token /\ c_Attempts c = attempt
    /\ exists e, c_LeaseExpiresAt c = Some e /\ env_clock env <= e in
  (holder -> (exists c s', Complete id token attempt status result code retryable env s = (Ok c, s'))
             /\ exists c s', ExtendLease id token attempt lease env s = (Ok c, s'))
  /\ (~ holder -> (exists s', Complete id token attempt status result code retryable env s = (Fail RepoErrLeaseConflict, s')
                     /\ st_db s' = st_db s)
             /\ exists s', ExtendLease id token attempt lease env s = (Fail RepoErrLeaseConflict, s') /\ st_db s' = st_db s).
Proof.
  intros holder.
  assert (holder <-> exists c, device_host_commands (st_db s) !! id = Some c /\ holds_lease token attempt (env_clock env) c = true) as Hspec.
  { subst holder. apply exist_proper. intros c. unfold holds_lease, command_is.
    rewrite !andb_true_iff, !bool_decide_eq_true, Z.eqb_eq. destruct (c_LeaseExpiresAt c) as [e|].
    - rewrite Z.leb_le. split; [intros (? & ? & ? & ? & e' & [= ->] & ?); done|intros (? & ((? & ?) & ?) & ?)].
      split_and!; try done. eauto.
    - split; [intros (? & ? & ? & ? & e' & ? & ?); done|intros (? & _ & ?); done]. }
  assert (forall f, (holder -> exists c s', update_leased id token attempt f env s = (Ok c, s'))
    /\ (~ holder -> exists s', update_leased id token attempt f env s = (Fail RepoErrLeaseConflict, s') /\ st_db s' = st_db s)) as Hgen.
  { intros f. rewrite Hspec. unfold update_leased, ClockNow, get_db, gets, mbind, Tx_bind, M_bind. split.
    - intros (c & -> & ->). eexists _, _. done.
    - intros Hn. destruct (_ !! id) as [c|]; [|eexists; done].
      destruct (holds_lease _ _ _ _) eqn:Hh; [|eexists; done]. destruct Hn. eauto. }
  split; intros Hh; split; by apply Hgen.
Qed.

(** ** Attempts *)

(** Later states of the queue. *)
Inductive queue_later : Z -> DB -> Z -> DB -> Prop :=
  | later_refl t db : queue_later t db t db
  | later_next t0 db0 t env s op r s' : queue_later t0 db0 t (st_db s) -> queue_checked op -> t <= env_clock env ->
      run_queue op env s = (r, s') -> queue_later t0 db0 (env_clock env) (st_db s').

Lemma later_keyed t0 db0 t db : queue_later t0 db0 t db -> commands_keyed db0 -> commands_keyed db.
Proof.
  induction 1 as [|t0 db0 t env s op r s' _ IH Hc _ H]; [done|]. intros Hk.
  eapply queue_step_keyed; [by apply IH|]. by eapply run_queue_step; [apply IH| |].
Qed.

(** A property of one row that every move on it keeps. *)
Lemma later_row (P : CommandRecord -> Prop) id :
  (forall now o c, P o -> queue_move now (Some o) c -> P c) ->
  forall t0 db0 t db, queue_later t0 db0 t db -> commands_keyed db0 ->
    (exists c, device_host_commands db0 !! id = Some c /\ P c) -> exists c, device_host_commands db !! id = Some c /\ P c.
Proof.
  intros HP t0 db0 t db H. induction H as [|t0 db0 t env s op r s' Hl IH Hc _ H]; [done|].
  intros Hk Hrow. destruct (IH Hk Hrow) as (o & Ho & HPo).
  destruct (run_queue_step _ _ _ _ _ (later_keyed _ _ _ _ Hl Hk) Hc H) as [->|(j & c & -> & _ & Hm)]; [eauto|].
  destruct (decide (j = id)) as [->|Hne].
  - rewrite lookup_insert_eq. rewrite Ho in Hm. eauto.
  - rewrite lookup_insert_ne by done. eauto.
Qed.

(** The attempt is over: a later one has begun, or it is no longer leased. *)
Definition spent (n : Z) (c : CommandRecord) : Prop := n < c_Attempts c \/ (n = c_Attempts c /\ c_Status c <> CommandLeased).

Lemma spent_move n now o c : spent n o -> queue_move now (Some o) c -> spent n c.
Proof.
  unfold spent. inversion 2 as [| ? host token lease Hc|? token attempt expires Hh|? token attempt st result code Hl _ Hst]; subst; cbn.
  - left. destruct H as [?|[? _]]; lia.
  - done.
  - destruct H as [?|[-> _]]; [by left|right]. split; [done|]. by destruct Hst as [[-> _]|[-> | [-> | ->]]].
Qed.

Lemma spent_not_held n token now c : spent n c -> holds_lease token n now c = false.
Proof.
  intros Hs. destruct (holds_lease _ _ _ _) eqn:Hh; [|done]. pose proof (holds_lease_leased _ _ _ _ Hh) as Hl%command_is_spec.
  unfold holds_lease in Hh. apply andb_true_iff in Hh as [[_ Ha%Z.eqb_eq]%andb_true_iff _].
  destruct Hs as [?|[_ ?]]; [lia|done].
Qed.

Lemma lease_fails env s id token attempt f c :
  device_host_commands (st_db s) !! id = Some c -> holds_lease token attempt (env_clock env) c = false ->
  exists s', update_leased id token attempt f env s = (Fail RepoErrLeaseConflict, s') /\ st_db s' = st_db s.
Proof.
  intros Hc Hh. unfold update_leased, ClockNow, get_db, gets, mbind, Tx_bind, M_bind. rewrite Hc, Hh. eexists. done.
Qed.

Lemma attempts_move n now o c : n <= c_Attempts o -> queue_move now (Some o) c -> n <= c_Attempts c.
Proof. inversion 2; subst; cbn; lia. Qed.

(** an attempt is completed once.  After an attempt of a command has been completed,
    whatever statements follow, presenting that attempt again (under any token) to
    complete or to extend the command is refused with a lease conflict and changes
    nothing. *)
Theorem attempt_completed_once (env env2 : Env) (s s1 s2 : St) (t2 : Z) (id token token2 : string) (attempt lease : Z)
    (st st2 : CommandStatus) (res res2 : option obj) (code code2 : option string) (rt rt2 : bool) (c : CommandRecord) :
  commands_keyed (st_db s) -> final st ->
  Complete id token attempt st res code rt env s = (Ok c, s1) ->
  queue_later (env_clock env) (st_db s1) t2 (st_db s2) ->
  (exists s3, Complete id token2 attempt st2 res2 code2 rt2 env2 s2 = (Fail RepoErrLeaseConflict, s3) /\ st_db s3 = st_db s2)
  /\ exists s3, ExtendLease id token2 attempt lease env2 s2 = (Fail RepoErrLeaseConflict, s3) /\ st_db s3 = st_db s2.
Proof.
  intros Hk Hf H Hl. unfold Complete in H.
  apply update_leased_result in H as [[_ Hfail]|(o & Ho & Hh & Hc & Hdb)]; [done|].
  assert (commands_keyed (st_db s1)) as Hk1.
  { intros k x. rewrite Hdb. intros [[<- <-]|[_ Hx]]%lookup_insert_Some; [by apply (Hk _ _ Ho)|by apply Hk]. }
  assert (exists x, device_host_commands (st_db s2) !! id = Some x /\ spent attempt x) as (x & Hx & Hs).
  { eapply (later_row (spent attempt)); [apply spent_move|exact Hl|exact Hk1|].
    rewrite Hdb, lookup_insert_eq. eexists. split; [done|]. right.
    unfold holds_lease in Hh. apply andb_true_iff in Hh as [[_ Ha%Z.eqb_eq]%andb_true_iff _].
    destruct (completed_close st res code rt (env_clock env) o Hf) as (st' & -> & Hst). cbn. split; [done|].
    by destruct Hst as [[-> _]|[-> | [-> | ->]]]. }
  split; eapply lease_fails; try exact Hx; by apply spent_not_held.
Qed.

Lemma failed_attempt_ok : Complete command_id token_1 1 CommandFailed None (Some "BOOT_FAILED") true (env_at 110 None) q_claimed
  = (Ok (command_of failed_attempt (env_at 110 None) q_claimed), q_failed).
Proof. vm_compute. reflexivity. Qed.

Example attempt_completed_once_witness :
  exists s3, Complete command_id token_1 1 CommandSucceeded None None false (env_at 111 None) q_failed = (Fail RepoErrLeaseConflict, s3)
    /\ st_db s3 = st_db q_failed.
Proof.
  apply (attempt_completed_once (env_at 110 None) (env_at 111 None) q_claimed q_failed q_failed _ command_id token_1 token_1 1 0
    CommandFailed CommandSucceeded None None (Some "BOOT_FAILED") None true false _ q_claimed_keyed (or_intror (or_introl eq_refl))
    failed_attempt_ok (later_refl _ _)).
Defined.

(** an attempt is handed out once.  Two claims that return the same command, however
    far apart, return different attempts of it, in increasing order, and never more
    attempts than the command allows. *)
Theorem attempt_handed_out_once (env env2 : Env) (s s1 s2 s3 : St) (t2 : Z) (host host2 token token2 : string) (lease lease2 : Z)
    (c c2 : CommandRecord) :
  commands_keyed (st_db s) ->
  ClaimNext host token lease env s = (Ok c, s1) ->
  queue_later (env_clock env) (st_db s1) t2 (st_db s2) ->
  ClaimNext host2 token2 lease2 env2 s2 = (Ok c2, s3) -> c_ID c2 = c_ID c ->
  c_Attempts c < c_Attempts c2 <= c_MaxAttempts c2.
Proof.
  intros Hk H Hl H2 Hid.
  apply ClaimNext_result in H as [[_ ?]|(o & Ho & Hcl & _ & _ & [= ->] & Hdb)]; [done| |done].
  assert (commands_keyed (st_db s1)) as Hk1.
  { intros k x. rewrite Hdb. intros [[<- <-]|[_ Hx]]%lookup_insert_Some; [done|by apply Hk]. }
  assert (exists x, device_host_commands (st_db s2) !! c_ID o = Some x /\ c_Attempts o + 1 <= c_Attempts x) as (x & Hx & Ha).
  { eapply (later_row (fun x => c_Attempts o + 1 <= c_Attempts x)); [intros *; apply attempts_move|exact Hl|exact Hk1|].
    rewrite Hdb, lookup_insert_eq. eexists. split; [done|]. cbn. lia. }
  apply ClaimNext_result in H2 as [[_ ?]|(o2 & Ho2 & Hcl2 & _ & _ & [= ->] & _)]; [done| |by eapply later_keyed].
  cbn in Hid. rewrite Hid, Hx in Ho2. injection Ho2 as <-. cbn.
  unfold claimable in Hcl2. apply andb_true_iff in Hcl2 as [_ ?%Z.ltb_lt]. lia.
Qed.

Definition claim_2 : queue_op := QClaim host_a token_2 (60 * Second).

Lemma Ok_not_Fail {X A} {a : A} {e : X} : Ok a = Fail e -> False.
Proof. discriminate. Qed.

Lemma claim_1_ok : ClaimNext host_a token_1 (60 * Second) (env_at 101 None) q_created
  = (Ok (command_of claim_1 (env_at 101 None) q_created), q_claimed).
Proof. vm_compute. reflexivity. Qed.
Lemma claim_2_ok : ClaimNext host_a token_2 (60 * Second) (env_at 120 None) q_failed
  = (Ok (command_of claim_2 (env_at 120 None) q_failed), after (run_queue claim_2) (env_at 120 None) q_failed).
Proof. vm_compute. reflexivity. Qed.

Lemma q_failed_later : queue_later (at_second 101) (st_db q_claimed) (at_second 110) (st_db q_failed).
Proof.
  apply (later_next (at_second 101) (st_db q_claimed) (at_second 101) (env_at 110 None) q_claimed failed_attempt
    (outcome (run_queue failed_attempt) (env_at 110 None) q_claimed) q_failed).
  - apply later_refl.
  - right. by left.
  - vm_compute. discriminate.
  - apply run_queue_pair.
Qed.

Example attempt_handed_out_once_witness : c_Attempts (command_of claim_1 (env_at 101 None) q_created) < 2.
Proof.
  apply (attempt_handed_out_once (env_at 101 None) (env_at 120 None) q_created q_claimed q_failed _ _ _ _ _ _ _ _ _ _
    q_created_keyed claim_1_ok q_failed_later claim_2_ok). vm_compute. reflexivity.
Defined.

(** ** Claiming *)

(** claiming is first come, first served.  A claim takes the oldest pending command
    of its host that has attempts left and is not held by another transaction, leases it
    under the given token for the given time from the database clock, counts the attempt
    and changes nothing else; when there is no such command it fails and changes
    nothing. *)
Theorem claim_oldest (env : Env) (s s' : St) (host token : string) (lease : Z) (r : result Err CommandRecord) :
  commands_keyed (st_db s) -> ClaimNext host token lease env s = (r, s') ->
  let eligible c := c_HostID c = host /\ c_Status c = CommandPending /\ c_Attempts c < c_MaxAttempts c
    /\ c_ID c ∉ env_locked_commands env in
  (r = Fail RepoErrNotFound /\ st_db s' = st_db s
     /\ forall k c, device_host_commands (st_db s) !! k = Some c -> ~ eligible c)
  \/ exists c c', r = Ok c' /\ device_host_commands (st_db s) !! c_ID c = Some c /\ eligible c
       /\ (forall k x, device_host_commands (st_db s) !! k = Some x -> eligible x ->
             key_le (by_command_created c) (by_command_created x))
       /\ c_ID c' = c_ID c /\ c_Status c' = CommandLeased /\ c_LeaseToken c' = Some token
       /\ c_LeaseExpiresAt c' = Some (env_clock env + whole_milliseconds lease) /\ c_Attempts c' = c_Attempts c + 1
       /\ c_Payload c' = c_Payload c
       /\ device_host_commands (st_db s') = <[c_ID c := c']> (device_host_commands (st_db s)).
Proof.
  intros Hk H eligible.
  assert (forall c, claimable host c && not_locked env c = true <-> eligible c) as Hel.
  { intros c. unfold claimable, not_locked, command_is, eligible.
    rewrite !andb_true_iff, negb_true_iff, bool_decide_eq_true, bool_decide_eq_false, String.eqb_eq, Z.ltb_lt. tauto. }
  destruct (ClaimNext_result _ _ _ _ _ _ _ Hk H) as [[Hdb ->]|(c & Hc & Hcl & Hnl & Hmin & -> & Hdb)].
  - left. split_and!; [done|done|]. intros k c Hc He%Hel.
    unfold ClaimNext, ClockNow, env_gets, mbind, Tx_bind, M_bind in H. cbv beta iota in H.
    destruct (first_where _ _) as [x|] eqn:Hf; [done|]. rewrite first_where_None in Hf.
    specialize (Hf c). cbv beta in Hf. rewrite He in Hf. assert (true = false); [|done].
    apply Hf. apply elem_of_order_by, elem_of_rows. eauto.
  - right. exists c. eexists. split_and!; try done.
    + apply Hel. by rewrite Hcl, Hnl.
    + intros k x Hx [Hx1 Hx2]%Hel%andb_true_iff. by eapply Hmin.
Qed.

Example claim_oldest_witness :
  exists c, device_host_commands (st_db q_created) !! c_ID c = Some c /\ c_Status c = CommandPending.
Proof.
  destruct (claim_oldest (env_at 101 None) q_created q_claimed host_a token_1 (60 * Second) _ q_created_keyed claim_1_ok)
    as [[H _]|(c & c' & _ & Hc & (_ & Hp & _) & _)]; [exact (False_ind _ (Ok_not_Fail H))|].
  exists c. exact (conj Hc Hp).
Defined.

(** ** Creating and recovering *)

(** creating a command is idempotent.  When a command of the host already has the
    key, creating returns it unchanged if the request is the same (type, payload and
    number of attempts), and is refused as a conflict otherwise; either way the database
    stays as it is.  Otherwise, with a fresh identifier, a pending command is added. *)
Theorem create_command_idempotent (env : Env) (s : St) (p : CreateCommandParams) :
  (forall c, first_where (command_key (cc_HostID p) (cc_IdempotencyKey p)) (commands (st_db s)) = Some c ->
     CreateCommand p env s = ((if same_command c p then Ok c else Fail RepoErrIdempotencyConflict), s))
  /\ (first_where (command_key (cc_HostID p) (cc_IdempotencyKey p)) (commands (st_db s)) = None ->
      device_host_commands (st_db s) !! cc_ID p = None ->
      json_eqb (JObj (cc_Payload p)) (JObj (cc_Payload p)) = true ->
      exists s', CreateCommand p env s = (Ok (new_command p (env_clock env)), s')
        /\ device_host_commands (st_db s') = <[cc_ID p := new_command p (env_clock env)]> (device_host_commands (st_db s))
        /\ first_where (command_key (cc_HostID p) (cc_IdempotencyKey p)) (commands (st_db s')) = Some (new_command p (env_clock env))).
Proof.
  unfold CreateCommand, get_db, gets, ClockNow, mbind, Tx_bind, M_bind, mret, Tx_ret, M_ret, put_command, put_db, modify.
  split.
  - intros c ->. cbv beta iota. by destruct (same_command c p).
  - intros Hn -> Hj. rewrite Hn. cbv beta iota.
    assert (same_command (new_command p (env_clock env)) p = true) as ->.
    { unfold same_command. cbn [c_HostID c_CommandType c_MaxAttempts c_IdempotencyKey c_Payload new_command].
      by rewrite !String.eqb_refl, Z.eqb_refl, Hj. }
    eexists. split; [done|]. split; [done|]. rewrite first_where_None in Hn.
    destruct (first_where _ (commands (st_db _))) as [x|] eqn:Hf.
    + apply first_where_Some in Hf as [Hin Hx]. f_equal.
      apply elem_of_rows in Hin as [k Hk]. cbn in Hk.
      apply lookup_insert_Some in Hk as [[<- <-]|[_ Hk]]; [done|].
      rewrite Hn in Hx; [done|]. apply elem_of_rows. eauto.
    + rewrite first_where_None in Hf. specialize (Hf (new_command p (env_clock env))).
      unfold command_key in Hf. cbn [c_HostID c_IdempotencyKey new_command] in Hf. rewrite !String.eqb_refl in Hf.
      assert (true = false); [|done]. apply Hf, elem_of_rows. exists (cc_ID p). cbn. by rewrite lookup_insert_eq.
Qed.

Example create_command_idempotent_witness :
  CreateCommand sample_command (env_at 105 None) q_created
  = (Ok (command_of (QCreate sample_command) (env_at 100 None) sample_state), q_created).
Proof.
  refine (proj1 (create_command_idempotent (env_at 105 None) q_created sample_command)
    (command_of (QCreate sample_command) (env_at 100 None) sample_state) _).
  vm_compute. reflexivity.
Defined.

(** expired leases are recovered.  A recovery takes a command whose lease ended
    before the database clock: it returns to pending when it has attempts left and is
    timed out otherwise, and its former holder is fenced off.  When no lease that is not
    locked has ended it fails and changes nothing. *)
Theorem recovery_effect (env : Env) (s s' : St) (r : result Err CommandRecord) :
  commands_keyed (st_db s) -> RecoverExpiredLease env s = (r, s') ->
  (r = Fail RepoErrNotFound /\ st_db s' = st_db s)
  \/ exists c c' e, r = Ok c' /\ device_host_commands (st_db s) !! c_ID c = Some c
       /\ c_Status c = CommandLeased /\ c_LeaseExpiresAt c = Some e /\ e < env_clock env
       /\ device_host_commands (st_db s') = <[c_ID c := c']> (device_host_commands (st_db s))
       /\ (if c_Attempts c <? c_MaxAttempts c
           then c_Status c' = CommandPending /\ c_ErrorCode c' = None /\ c_CompletedAt c' = None
           else c_Status c' = CommandTimedOut /\ c_ErrorCode c' = Some "COMMAND_ATTEMPTS_EXHAUSTED"
                /\ c_CompletedAt c' = Some (env_clock env))
       /\ c_Attempts c' = c_Attempts c
       /\ forall token attempt env2 status result code retryable,
            exists s2, Complete (c_ID c) token attempt status result code retryable env2 s' = (Fail RepoErrLeaseConflict, s2)
              /\ st_db s2 = st_db s'.
Proof.
  intros Hk H. destruct (RecoverExpiredLease_result _ _ _ _ Hk H) as [[Hdb ->]|(c & Hc & He & -> & Hdb)]; [by left|].
  right. unfold lease_expired in He. apply andb_true_iff in He as [Hl%command_is_spec He].
  destruct (c_LeaseExpiresAt c) as [e|] eqn:Hexp; [|done]. apply Z.ltb_lt in He.
  exists c, (recovered (env_clock env) c), e. split_and!; try done.
  - unfold recovered. by destruct (c_Attempts c <? c_MaxAttempts c).
  - intros. eapply lease_fails; [by rewrite Hdb, lookup_insert_eq|].
    unfold holds_lease, command_is, recovered. cbn. by destruct (c_Attempts c <? c_MaxAttempts c).
Qed.

Lemma recover_ok : RecoverExpiredLease (env_at 200 None) q_claimed
  = (Ok (command_of QRecover (env_at 200 None) q_claimed), after (run_queue QRecover) (env_at 200 None) q_claimed).
Proof. vm_compute. reflexivity. Qed.

Example recovery_effect_witness :
  exists c, device_host_commands (st_db q_claimed) !! c_ID c = Some c /\ c_Status c = CommandLeased.
Proof.
  destruct (recovery_effect (env_at 200 None) q_claimed _ _ q_claimed_keyed recover_ok)
    as [[H _]|(c & c' & e & _ & Hc & Hl & _)]; [exact (False_ind _ (Ok_not_Fail H))|].
  exists c. exact (conj Hc Hl).
Defined.
