(* ===== verification/CommandsKept.v ===== *)
(** * The host commands under every transaction

    [AddsCommands m]: whatever [m] returns, it leaves the commands that are there as they
    are and the commands that it adds are pending.  Every transaction of the scheduler,
    the service, the reaper and the control plane is such a computation, after at most one
    statement that changes one command: a claim, an extension, a completion, a recovery,
    or the mark of the warm pool on a deletion that it has settled. *)
From S2P Require Import Prelude GoText Errors Domain DomainSpec Json Sensitive Actor Store.
From S2P Require Import RuntimeProfile ReservationRepo TxFacts ServiceFacts CommandRepo DeviceStore Reconcile DeviceOps ImageCatalog.
From S2P Require Import HostCommand HostSelection Completion WarmPool PoolCycle PoolScale IOSSimulator IOSSession ManagementStore Heartbeat.
From S2P Require Import PoolSelector ReservationService Scheduler FarmSystem ControlStep PoolMoves PoolFacts SessionMoves ManagementMoves ControlPlane SessionsKept Samples CommandSpec.

Abbreviation SameCommands := (Keeps device_host_commands).

(** ** Adding commands *)
Record commands_added (db db' : DB) : Prop := {
  ca_old k c : device_host_commands db !! k = Some c -> device_host_commands db' !! k = Some c;
  ca_new k c : device_host_commands db !! k = None -> device_host_commands db' !! k = Some c ->
    c_Status c = CommandPending /\ c_Attempts c = 0 /\ c_ID c = k }.

Lemma commands_added_same db db' : device_host_commands db' = device_host_commands db -> commands_added db db'.
Proof. intros E. split; intros k c; rewrite E; [done|congruence]. Qed.

Lemma commands_added_trans db1 db2 db3 : commands_added db1 db2 -> commands_added db2 db3 -> commands_added db1 db3.
Proof.
  intros [O1 N1] [O2 N2]. split; [auto|]. intros k c H1 H3. destruct (device_host_commands db2 !! k) as [x|] eqn:E2; [|by apply N2].
  pose proof (O2 _ _ E2) as E3. rewrite H3 in E3. injection E3 as ->. by apply N1.
Qed.

Lemma commands_added_insert p now db db' :
  device_host_commands db !! cc_ID p = None ->
  device_host_commands db' = <[cc_ID p := new_command p now]> (device_host_commands db) -> commands_added db db'.
Proof.
  intros Hn E. split; intros k c; rewrite E.
  - intros Hk. rewrite lookup_insert_ne; [done|congruence].
  - intros Hk [[<- <-]|[_ H]]%lookup_insert_Some; [done|congruence].
Qed.

Class AddsCommands {A} (m : Tx A) : Prop :=
  adds : forall env s r s', m env s = (r, s') -> commands_added (st_db s) (st_db s').

#[export] Instance same_commands_adds {A} (m : Tx A) : SameCommands m -> AddsCommands m | 20.
Proof. intros K env s r s' H. apply commands_added_same, (K _ _ _ _ H). Qed.

Lemma bind_adds {A B} (m : Tx A) (f : A -> Tx B) : AddsCommands m -> (forall a, AddsCommands (f a)) -> AddsCommands (m ≫= f).
Proof.
  intros Hm Hf env s r s' H. unfold mbind, Tx_bind, M_bind in H. destruct (m env s) as [[a|e] s1] eqn:E; apply Hm in E.
  - eapply commands_added_trans; [exact E|]. by eapply Hf.
  - by injection H as _ <-.
Qed.

Lemma WithinTx_adds {A} (m : Tx A) : AddsCommands m -> AddsCommands (WithinTx m).
Proof.
  intros Hm env s r s' [(a & -> & E)|(e & -> & E)]%WithinTx_result; [by eapply Hm|rewrite E; by apply commands_added_same].
Qed.

Lemma map_err_adds {A} f (m : Tx A) : AddsCommands m -> AddsCommands (map_err f m).
Proof. intros Hm env s r s' H. unfold map_err in H. destruct (m env s) as [x s1] eqn:E. destruct x; injection H as _ <-; by eapply Hm. Qed.

Lemma attempt_adds {A} (m : Tx A) : AddsCommands m -> AddsCommands (attempt m).
Proof. intros Hm env s r s' H. unfold attempt in H. destruct (m env s) as [x s1] eqn:E. injection H as _ <-. by eapply Hm. Qed.

#[export] Instance CreateCommand_adds p : AddsCommands (CreateCommand p).
Proof.
  intros env s r s' [E|[Hn E]]%CreateCommand_result; [apply commands_added_same; by rewrite E|by eapply commands_added_insert].
Qed.

#[export] Instance insert_command_adds p : AddsCommands (insert_command p).
Proof.
  intros env s r s' H. unfold insert_command, ClockNow, get_db, gets, mbind, Tx_bind, M_bind in H.
  destruct (first_where _ _); [injection H as _ <-; by apply commands_added_same|].
  destruct (_ !! cc_ID p) eqn:Hn; injection H as _ <-; [by apply commands_added_same|by eapply commands_added_insert].
Qed.

(** As for the sessions, a computation is opened at its head until only known statements
    are left. *)
Ltac adds_commands :=
  cbv zeta;
  lazymatch goal with
  | |- AddsCommands (_ ≫= _) => apply bind_adds; [adds_commands|intros ?; adds_commands]
  | |- AddsCommands (match ?x with _ => _ end) => destruct x; adds_commands
  | |- AddsCommands (map_err _ _) => apply map_err_adds; adds_commands
  | |- AddsCommands (attempt _) => apply attempt_adds; adds_commands
  | |- AddsCommands (WithinTx _) => apply WithinTx_adds; adds_commands
  | |- AddsCommands (ignore _) => unfold ignore; adds_commands
  | |- AddsCommands ?m => first [ solve [apply _] | let h := head_of m in progress unfold h; adds_commands ]
  end.

#[export] Instance save_device_commands id g f : SameCommands (save_device id g f).
Proof. keep_table. Qed.
#[export] Instance transitions_commands targets : forall d reason now, SameCommands (transitions d targets reason now).
Proof. induction targets; intros; cbn [transitions]; keep_table. Qed.
#[export] Instance update_devices_commands hostID ds now : SameCommands (update_devices hostID ds now).
Proof. induction ds; cbn [update_devices]; keep_table. Qed.
#[export] Instance quarantine_all_commands hostID ds now : SameCommands (quarantine_all hostID ds now).
Proof. induction ds; cbn [quarantine_all]; keep_table. Qed.
#[export] Instance record_entries_commands es : SameCommands (record_entries es).
Proof. induction es; cbn [record_entries]; keep_table. Qed.
#[export] Instance upsert_outcomes_commands l : forall w, SameCommands (upsert_outcomes w l).
Proof. induction l; intros w; cbn [upsert_outcomes]; keep_table. Qed.
#[export] Instance operation_event_commands r d a b ok reason p now : SameCommands (operation_event r d a b ok reason p now).
Proof. keep_table. Qed.
#[export] Instance queue_each_adds f ds : (forall d, AddsCommands (f d)) -> AddsCommands (queue_each f ds).
Proof. intros Hf. induction ds; cbn [queue_each]; adds_commands. Qed.
#[export] Instance queue_cleanup_adds p d : AddsCommands (queue_cleanup p d).
Proof. adds_commands. Qed.
#[export] Instance clean_failed_adds p d : AddsCommands (clean_failed_create p d).
Proof. adds_commands. Qed.
#[export] Instance scale_down_adds p platform t n : AddsCommands (queueScaleDown p platform t n).
Proof. induction n; cbn [queueScaleDown]; adds_commands. Qed.
#[export] Instance complete_creates_adds l : AddsCommands (complete_creates l).
Proof. induction l as [|[d c] l IH]; cbn [complete_creates]; adds_commands. Qed.
#[export] Instance create_device_adds a b c d e f g h : AddsCommands (createDeviceCommand a b c d e f g h).
Proof. adds_commands. Qed.
#[export] Instance fill_group_adds caps n : AddsCommands (fill_group caps n).
Proof. induction n; cbn [fill_group]; adds_commands. Qed.
#[export] Instance fill_groups_adds gs : AddsCommands (fill_groups gs).
Proof. induction gs; cbn [fill_groups]; adds_commands. Qed.
#[export] Instance create_missing_adds p i caps profile n : AddsCommands (create_missing p i caps profile n).
Proof. induction n; cbn [create_missing]; adds_commands. Qed.
#[export] Instance management_operation_adds record : AddsCommands (reconcileManagementOperation record).
Proof. adds_commands. Qed.
#[export] Instance report_adds config id deviceID input : AddsCommands (report_tx config id deviceID input).
Proof. adds_commands. Qed.
#[export] Instance write_commands w : SameCommands (run_write w).
Proof.
  assert (forall T V (R : Resource T V) meta (row : T),
    SameCommands (insert_resource row) -> (forall id, SameCommands (load_resource id)) -> SameCommands (create_resource_tx meta row)) as Hc.
  { intros T V R meta row Hi Hl. unfold create_resource_tx. keep_table. }
  destruct w; cbn [run_write]; try keep_table; unfold ignore.
  all: apply bind_keeps; [apply Hc; cbn; intros; keep_table|intros ?; keep_table].
Qed.
#[export] Instance forget_image_commands h i : Preserves device_host_commands (forget_missing_image h i).
Proof. intros db. unfold forget_missing_image. destruct (_ !! _) as [x|]; [|done]. by destruct (hi_available x). Qed.
#[export] Instance pool_adds p i : AddsCommands (pool_tx p i).
Proof. adds_commands. Qed.

(** ** Changing one command *)

(** A command that is in flight follows its state machine; one that is not is only
    marked, when it is a deletion of the warm pool that has not been settled. *)
Inductive command_changed (o c : CommandRecord) : Prop :=
  | changed_in_flight :
      in_flight o = true -> (c_Status c = c_Status o \/ has_edge commandTransitions (c_Status o) (c_Status c) = true) ->
      c_Payload c = c_Payload o -> c_Attempts o <= c_Attempts c -> command_changed o c
  | changed_settled now :
      in_flight o = false -> pool_delete o = true -> unreconciled o = true ->
      c = o <| c_Payload := assoc_set "scale_down_reconciled" (JBool true) (c_Payload o) |> <| c_UpdatedAt := now |> ->
      command_changed o c.

(** The columns that no statement changes. *)
Definition command_origin (c : CommandRecord) :=
  (c_ID c, c_HostID c, c_CommandType c, c_MaxAttempts c, c_IdempotencyKey c, c_CreatedAt c).

Definition one_changed (db db' : DB) : Prop :=
  device_host_commands db' = device_host_commands db
  \/ exists k o c, device_host_commands db !! k = Some o /\ command_origin c = command_origin o /\ command_changed o c
       /\ device_host_commands db' = <[k := c]> (device_host_commands db).

Definition change_then_add (db db' : DB) : Prop := exists mid, one_changed db mid /\ commands_added mid db'.

Class ChangesOne {A} (m : Tx A) : Prop :=
  changes_one : forall env s r s', commands_keyed (st_db s) -> m env s = (r, s') -> change_then_add (st_db s) (st_db s').

Lemma adds_change {A} (m : Tx A) : AddsCommands m -> ChangesOne m.
Proof. intros Hm env s r s' _ H. exists (st_db s). split; [by left|]. by eapply Hm. Qed.

Lemma change_before {A B} (m : Tx A) (f : A -> Tx B) : ChangesOne m -> (forall a, AddsCommands (f a)) -> ChangesOne (m ≫= f).
Proof.
  intros Hm Hf env s r s' Hk H. unfold mbind, Tx_bind, M_bind in H. destruct (m env s) as [[a|e] s1] eqn:E;
    destruct (Hm _ _ _ _ Hk E) as (mid & H1 & H2).
  - exists mid. split; [done|]. eapply commands_added_trans; [exact H2|]. by eapply Hf.
  - injection H as _ <-. by exists mid.
Qed.

Lemma ignore_change {A} (m : Tx A) : ChangesOne m -> ChangesOne (ignore m).
Proof. intros Hm. apply change_before; [done|]. intros a. adds_commands. Qed.

Lemma WithinTx_change {A} (m : Tx A) : ChangesOne m -> ChangesOne (WithinTx m).
Proof.
  intros Hm env s r s' Hk [(a & -> & E)|(e & -> & E)]%WithinTx_result; [by eapply Hm|].
  exists (st_db s). split; [by left|]. rewrite E. by apply commands_added_same.
Qed.

(** The statements of the queue. *)
Lemma move_changed now o c : queue_move now (Some o) c -> command_origin c = command_origin o /\ command_changed o c.
Proof.
  intros Hm. assert (in_flight o = true) as Hf.
  { unfold in_flight. inversion Hm as [|? host token lease Hc|? token attempt e Hh|? token attempt st result code Hl]; subst.
    - unfold claimable in Hc. apply andb_true_iff in Hc as [[_ ->]%andb_true_iff _]. done.
    - apply orb_true_iff. right. by eapply holds_lease_leased.
    - rewrite Hl. apply orb_true_r. }
  split; [by inversion Hm|]. apply changed_in_flight; [done|by eapply move_edge|by inversion Hm|inversion Hm; cbn; lia].
Qed.

Lemma queue_statement op : queue_checked op -> ChangesOne (run_queue op).
Proof.
  intros Hc env s r s' Hk H.
  destruct (run_queue_step _ _ _ _ _ Hk Hc H) as [E|(k & c & E & Hid & Hm)].
  { exists (st_db s). split; [by left|by apply commands_added_same]. }
  destruct (device_host_commands (st_db s) !! k) as [o|] eqn:Ho.
  - exists (st_db s'). split; [|by apply commands_added_same]. right. exists k, o, c.
    destruct (move_changed _ _ _ Hm). done.
  - exists (st_db s). split; [by left|]. inversion Hm as [p Hp| | |]; subst. by apply (commands_added_insert p (env_clock env)).
Qed.

(** The settlement of a deletion by the warm pool. *)
Definition marks (c c' : CommandRecord) (db db' : DB) : Prop :=
  device_host_commands db' = device_host_commands db
  \/ device_host_commands db' = <[c_ID c := c']> (device_host_commands db).

Lemma marks_after {A B} c c' (m : Tx A) (f : A -> Tx B) env s r s' :
  SameCommands m -> (forall a s1 r s', f a env s1 = (r, s') -> marks c c' (st_db s1) (st_db s')) ->
  (m ≫= f) env s = (r, s') -> marks c c' (st_db s) (st_db s').
Proof.
  intros K Hf H. unfold mbind, Tx_bind, M_bind in H. destruct (m env s) as [[a|e] s1] eqn:E; apply K in E.
  - apply Hf in H. unfold marks in *. by rewrite E in H.
  - injection H as _ <-. by left.
Qed.

Lemma marks_before {A B} c c' (m : Tx A) (f : A -> Tx B) env s r s' :
  (forall s r s', m env s = (r, s') -> marks c c' (st_db s) (st_db s')) -> (forall a, SameCommands (f a)) ->
  (m ≫= f) env s = (r, s') -> marks c c' (st_db s) (st_db s').
Proof.
  intros Hm Hf H. unfold mbind, Tx_bind, M_bind in H. destruct (m env s) as [[a|e] s1] eqn:E; apply Hm in E.
  - apply Hf in H. unfold marks in *. by rewrite H.
  - by injection H as _ <-.
Qed.

Lemma delete_event_marks deviceID k severity reason c now env s r s' :
  delete_event deviceID (c_ID c) k severity reason c now env s = (r, s') -> marks c (reconciled_payload c now) (st_db s) (st_db s').
Proof.
  unfold delete_event. apply marks_after; [keep_table|]. intros i s1 r1 s2. apply marks_after; [keep_table|].
  intros t s3 r3 s4 [= _ <-]. by right.
Qed.

#[export] Instance settle_deleted_commands d source now : SameCommands (settle_deleted d source now).
Proof. keep_table. Qed.
#[export] Instance settle_failed_commands d reason now : SameCommands (settle_failed d reason now).
Proof. keep_table. Qed.

Lemma settle_change deviceID : ChangesOne (settle_tx deviceID).
Proof.
  intros env s r s' Hk H. exists (st_db s'). split; [|by apply commands_added_same].
  unfold settle_tx, get_db, ClockNow, gets in H. unfold mbind at 1, Tx_bind at 1, M_bind at 1 in H.
  destruct (unsettled_delete deviceID (st_db s)) as [c|] eqn:Hc; [|injection H as _ <-; by left].
  destruct (devices (st_db s) !! deviceID) as [d|]; [|injection H as _ <-; by left].
  destruct (in_flight c) eqn:Hf; [injection H as _ <-; by left|].
  assert (exists now, marks c (reconciled_payload c now) (st_db s) (st_db s')) as [now Hm].
  { exists (env_clock env). unfold mbind at 1, Tx_bind at 1, M_bind at 1 in H. cbv zeta in H.
    destruct (confirmed_deleted c); revert H.
    all: apply marks_after; [keep_table|]; intros u s1 r1 s2; apply marks_before; [|intros; keep_table].
    all: intros s3 r3 s4; apply delete_event_marks. }
  destruct Hm as [E|E]; [by left|right]. exists (c_ID c), c, (reconciled_payload c now).
  unfold unsettled_delete in Hc. apply first_where_Some in Hc as [Hin Hp].
  apply andb_true_iff in Hp as [[Hd _]%andb_true_iff Hu].
  split_and!; [|done|by eapply changed_settled|exact E].
  unfold order_by_desc in Hin. rewrite elem_of_reverse, elem_of_order_by in Hin. apply elem_of_rows in Hin as [k Hin].
  by rewrite (Hk _ _ Hin).
Qed.

(** ** The transactions *)

(** A completion is for one of the statuses that the service lets through. *)
Definition completes_checked (op : control_operation) : Prop :=
  match op with CtlComplete id input _ => valid_completion id input = true | _ => True end.

Lemma completion_statuses id input : valid_completion id input = true ->
  ci_Status input = CommandSucceeded \/ ci_Status input = CommandFailed \/ ci_Status input = CommandTimedOut.
Proof.
  unfold valid_completion. intros [_ H%bool_decide_eq_true]%andb_true_iff.
  rewrite !elem_of_cons, elem_of_nil in H. tauto.
Qed.

Lemma control_changes op : completes_checked op -> ChangesOne (run_control op).
Proof.
  intros Hop. unfold run_control. apply WithinTx_change. destruct op; cbv iota.
  all: try (apply ignore_change; first
    [ apply settle_change
    | exact (queue_statement (QClaim _ _ _) I)
    | exact (queue_statement (QExtend _ _ _ _) I)
    | apply change_before; [exact (queue_statement QRecover I)|intros ?; adds_commands]
    | apply change_before; [exact (queue_statement (QComplete _ _ _ _ _ _ _) (completion_statuses _ _ Hop))|intros ?; adds_commands]
    | apply adds_change; adds_commands ]).
  apply adds_change, same_commands_adds, _.
Qed.

Lemma farm_adds op : AddsCommands (run op).
Proof. unfold run. apply WithinTx_adds. destruct op; cbv iota; adds_commands. Qed.

(** ** The state machine *)
Definition run_any (op : operation + control_operation) : Tx unit :=
  match op with inl op => run op | inr op => run_control op end.

Lemma any_changes op : match op with inl _ => True | inr op => completes_checked op end -> ChangesOne (run_any op).
Proof. destruct op as [op|op]; [intros _; apply adds_change, farm_adds|apply control_changes]. Qed.

(** C33: the commands follow their state machine under every transaction of the scheduler,
    the service, the reaper and the control plane, however it ends, where a completion
    carries a status that the service lets through.  No command is deleted; a new one is
    pending and has not been attempted; at most one command that was there changes, and
    not its host, type, key, number of attempts allowed or creation.  A pending or leased
    one keeps its payload and keeps its status or moves along an edge of the domain's
    transition table.  One that is neither (it succeeded, failed, timed out or was
    canceled) can only be a deletion of the warm pool that has not been settled yet, whose
    payload is then marked as settled. *)
Theorem commands_follow_state_machine (op : operation + control_operation) (env : Env) (s s' : St) (r : result Err unit) :
  commands_keyed (st_db s) -> match op with inl _ => True | inr op => completes_checked op end ->
  run_any op env s = (r, s') ->
  let row k db := device_host_commands db !! k in
  (forall k, match row k (st_db s), row k (st_db s') with
             | None, None => True
             | None, Some c => c_ID c = k /\ c_Status c = CommandPending /\ c_Attempts c = 0
             | Some o, Some c => c = o \/ command_origin c = command_origin o /\ command_changed o c
             | Some _, None => False
             end)
  /\ (forall k j, row k (st_db s) <> None -> row k (st_db s') <> row k (st_db s) ->
                  row j (st_db s) <> None -> row j (st_db s') <> row j (st_db s) -> j = k).
Proof.
  intros Hk Hop H row. destruct (any_changes op Hop _ _ _ _ Hk H) as (mid & Hone & [Hold Hnew]). unfold row. clear row H.
  assert (forall k, device_host_commands (st_db s) !! k = None -> device_host_commands mid !! k = None) as Hnone.
  { destruct Hone as [->|(i & o & c & Ho & _ & _ & ->)]; [done|]. intros k Hn. rewrite lookup_insert_ne; [done|congruence]. }
  destruct Hone as [E|(i & o & c & Ho & Hor & Hc & E)].
  - rewrite E in Hold, Hnew. split.
    + intros k. destruct (device_host_commands (st_db s) !! k) as [o|] eqn:Ho; [rewrite (Hold _ _ Ho); exact (or_introl eq_refl)|].
      destruct (device_host_commands (st_db s') !! k) as [c|] eqn:Ec; [|done]. destruct (Hnew _ _ Ho Ec) as (? & ? & ?). done.
    + intros k j Hs Hne. destruct (device_host_commands (st_db s) !! k) as [o|] eqn:Ho; [|done]. by rewrite (Hold _ _ Ho) in Hne.
  - assert (forall k x, k <> i -> device_host_commands (st_db s) !! k = Some x -> device_host_commands (st_db s') !! k = Some x) as Hkeep.
    { intros k x Hne Hx. apply Hold. by rewrite E, lookup_insert_ne by congruence. }
    split.
    + intros k. destruct (decide (k = i)) as [->|Hne].
      * rewrite Ho, (Hold i c); [exact (or_intror (conj Hor Hc))|]. by rewrite E, lookup_insert_eq.
      * destruct (device_host_commands (st_db s) !! k) as [x|] eqn:Hx; [rewrite (Hkeep _ _ Hne Hx); exact (or_introl eq_refl)|].
        destruct (device_host_commands (st_db s') !! k) as [y|] eqn:Hy; [|done]. destruct (Hnew _ _ (Hnone _ Hx) Hy) as (? & ? & ?). done.
    + assert (forall k, device_host_commands (st_db s) !! k <> None ->
                device_host_commands (st_db s') !! k <> device_host_commands (st_db s) !! k -> k = i) as Hi.
      { intros k Hs Hne. destruct (decide (k = i)) as [|Hki]; [done|]. destruct (device_host_commands (st_db s) !! k) as [x|] eqn:Hx; [|done].
        by rewrite (Hkeep _ _ Hki Hx) in Hne. }
      intros k j Hs1 Hs2 Hs3 Hs4. by rewrite (Hi k Hs1 Hs2), (Hi j Hs3 Hs4).
Qed.

(** A failed attempt that is reported as retryable returns to the queue. *)
Definition sample_completion : control_operation :=
  CtlComplete command_id (mkCompletion token_1 1 CommandFailed [] (Some (mkCompletionError "BOOT_FAILED" true))) (Some "BOOT_FAILED"%string).

Example commands_follow_state_machine_witness :
  exists s' o c, run_any (inr sample_completion) (env_at 110 None) q_claimed = (Ok tt, s')
    /\ device_host_commands (st_db q_claimed) !! command_id = Some o /\ device_host_commands (st_db s') !! command_id = Some c
    /\ c <> o /\ command_changed o c.
Proof.
  destruct (run_any (inr sample_completion) (env_at 110 None) q_claimed) as [r s'] eqn:E.
  pose proof (proj1 (commands_follow_state_machine (inr sample_completion) _ _ _ _ q_claimed_keyed eq_refl E) command_id) as H1.
  assert ((run_any (inr sample_completion) (env_at 110 None) q_claimed).1 = Ok tt) as Hr by (vm_compute; reflexivity).
  assert (exists o c, device_host_commands (st_db q_claimed) !! command_id = Some o
    /\ device_host_commands (st_db (run_any (inr sample_completion) (env_at 110 None) q_claimed).2) !! command_id = Some c
    /\ c_Status c <> c_Status o) as (o & c & Ho & Hc & Hne)
    by (vm_compute; eexists; eexists; split; [reflexivity|split; [reflexivity|discriminate]]).
  cbv beta zeta in H1. rewrite E in Hr, Hc. cbn [fst snd] in Hr, Hc. subst r. exists s', o, c. rewrite Ho, Hc in H1.
  split; [reflexivity|]. split; [exact Ho|]. split; [exact Hc|]. destruct H1 as [->|[_ H1]]; [destruct (Hne eq_refl)|].
  split; [intros ->; exact (Hne eq_refl)|exact H1].
Defined.

