(* ===== verification/HeartbeatSpec.v ===== *)
(** * Properties of heartbeat observations

    What an observation of a device by its host does to the aggregate, against a
    specification on the pair of its lifecycle and its health. *)
From S2P Require Import Prelude GoText Errors Domain DomainSpec Json Sensitive Actor.
From S2P Require Import Store ReservationRepo CommandRepo DeviceStore HostCommand.

(** ** Aggregates by their two statuses *)
Definition in_state (d : Device) (l : DeviceLifecycleStatus) (h : HealthStatus) : Prop :=
  Lifecycle d = l /\ Health d = h
  /\ sm_transitions (dv_lifecycle d) = deviceTransitions /\ sm_valid (dv_lifecycle d) = validDeviceLifecycleStatus.

(** A call chain that ends well, in the given state. *)
Definition reaches (r : result Err Device) (l : DeviceLifecycleStatus) (h : HealthStatus) : Prop :=
  exists d, r = Ok d /\ in_state d l h.

Lemma reaches_ok d l h : in_state d l h -> reaches (Ok d) l h.
Proof. by exists d. Qed.

Lemma and_then_reaches r f l h l' h' :
  reaches r l h -> (forall d, in_state d l h -> reaches (f d) l' h') -> reaches (and_then r f) l' h'.
Proof. intros (d & -> & Hd) Hf. by apply Hf. Qed.

Lemma RestoreDevice_state id l h :
  identifierPattern id = true -> validDeviceLifecycleStatus l = true -> validHealthStatus h = true ->
  exists d, RestoreDevice id l h = Ok d /\ in_state d l h.
Proof.
  intros Hi Hl Hh. unfold RestoreDevice, newStateMachine. rewrite Hi, Hl, Hh. eexists. done.
Qed.

Section Steps.
Context (now : Z) (Hnow : now <> 0).

Lemma step_lifecycle d l h to reason :
  in_state d l h -> has_edge deviceTransitions l to = true -> validDeviceLifecycleStatus to = true ->
  (to = DeviceReady -> h = HealthHealthy) -> blank reason = false ->
  reaches (step (Transition d to reason now)) to h.
Proof.
  intros (Hl & Hh & Ht & Hv) Hedge Hval Hready Hb. unfold Transition.
  replace (bool_decide (to = DeviceReady) && negb (bool_decide (dv_health d = HealthHealthy))) with false.
  2: { symmetry. apply andb_false_iff. destruct (decide (to = DeviceReady)) as [E|E].
       - right. unfold Health in Hh. by rewrite Hh, (Hready E), bool_decide_eq_true_2.
       - left. by rewrite bool_decide_eq_false_2. }
  destruct (transition_ok (dv_lifecycle d) to reason now) as [Hok Hst]; rewrite ?Hv, ?Ht; try done.
  { unfold Lifecycle in Hl. by rewrite Hl. }
  destruct (transition_frame (dv_lifecycle d) to reason now) as (_ & Hv' & Ht').
  destruct (transition _ _ _ _) as [r m] eqn:E. cbn in Hok, Hst, Hv', Ht'. rewrite Hok. cbn.
  eexists. split; [done|]. unfold in_state, Lifecycle, Health. cbn. by rewrite Hst, Ht', Hv', Ht, Hv.
Qed.

Lemma step_not_ready d l h reason :
  in_state d l h -> h <> HealthHealthy -> step (Transition d DeviceReady reason now) = Fail ErrDeviceNotHealthy.
Proof.
  intros (_ & Hh & _) Hne. unfold Transition. unfold Health in Hh.
  by rewrite Hh, bool_decide_eq_true_2, bool_decide_eq_false_2 by done.
Qed.

Lemma step_health d l h to reason :
  in_state d l h -> has_edge healthTransitions h to = true -> validHealthStatus to = true -> blank reason = false ->
  reaches (step (UpdateHealth d to reason now)) l to.
Proof.
  intros (Hl & Hh & Ht & Hv) Hedge Hval Hb. unfold UpdateHealth, IsZero. unfold Health in Hh.
  rewrite Hval, Hb, Hh, Hedge, (proj2 (Z.eqb_neq _ _) Hnow). cbn. eexists. split; [done|]. done.
Qed.

(** Any two different valid healths are connected. *)
Lemma health_edge h h' : validHealthStatus h = true -> validHealthStatus h' = true -> h <> h' -> has_edge healthTransitions h h' = true.
Proof. by destruct h, h'. Qed.

(** ** Specifications *)

Lemma recoverFromHostOutage_reaches d h target :
  in_state d DeviceQuarantined h -> validHealthStatus h = true ->
  reaches (recoverFromHostOutage d target now) (assignment_state target) HealthHealthy.
Proof.
  intros Hd Hh. unfold recoverFromHostOutage.
  apply (and_then_reaches _ _ (if String.eqb target "reserved" || String.eqb target "busy" then DeviceReserved else DeviceReady) HealthHealthy).
  2: { intros d' Hd'. unfold assignment_state. destruct (target =? "busy")%string; [rewrite orb_true_r in Hd'; by eapply step_lifecycle|].
       destruct (target =? "reserved")%string; by apply reaches_ok. }
  apply (and_then_reaches _ _ DeviceReady HealthHealthy).
  2: { intros d' Hd'. destruct (_ || _); [by eapply step_lifecycle|by apply reaches_ok]. }
  apply (and_then_reaches _ _ DeviceBooting HealthHealthy); [|intros d' Hd'; by eapply step_lifecycle].
  apply (and_then_reaches _ _ DeviceProvisioning HealthHealthy); [|intros d' Hd'; by eapply step_lifecycle].
  apply (and_then_reaches _ _ DeviceQuarantined HealthHealthy); [|intros d' Hd'; by eapply step_lifecycle].
  pose proof Hd as (_ & Hh' & _). rewrite Hh'. destruct (decide (h = HealthHealthy)) as [->|Hne].
  - rewrite bool_decide_eq_true_2 by done. by apply reaches_ok.
  - rewrite bool_decide_eq_false_2 by done. eapply step_health; [done| |done|done]. by apply health_edge.
Qed.

Definition discovered_lifecycle (l seen : DeviceLifecycleStatus) : DeviceLifecycleStatus :=
  match seen, l with
  | DeviceBooting, (DeviceProvisioning | DeviceStopped) => DeviceBooting
  | DeviceReady, (DeviceProvisioning | DeviceStopped | DeviceBooting) => DeviceReady
  | DeviceStopped, (DeviceBooting | DeviceReady) => DeviceStopped
  | _, _ => l
  end.

(** The lifecycles from which a report of ready starts the device. *)
Definition starting (l : DeviceLifecycleStatus) : bool :=
  bool_decide (l = DeviceProvisioning) || bool_decide (l = DeviceStopped) || bool_decide (l = DeviceBooting).

Definition reportable (seen : Observation) : Prop :=
  (ob_lifecycle seen = DeviceBooting \/ ob_lifecycle seen = DeviceReady \/ ob_lifecycle seen = DeviceStopped)
  /\ validHealthStatus (ob_health seen) = true
  /\ (ob_lifecycle seen = DeviceReady -> ob_health seen = HealthHealthy).

Lemma applyDiscoveredLifecycle_spec d l h seen :
  in_state d l h -> (seen = DeviceBooting \/ seen = DeviceReady \/ seen = DeviceStopped) ->
  if bool_decide (seen = DeviceReady) && starting l && negb (bool_decide (h = HealthHealthy))
  then applyDiscoveredLifecycle d seen now = Fail ErrDeviceNotHealthy
  else reaches (applyDiscoveredLifecycle d seen now) (discovered_lifecycle l seen) h.
Proof.
  intros Hd Hseen. pose proof Hd as (Hl & _). unfold applyDiscoveredLifecycle. rewrite Hl.
  destruct Hseen as [-> | [-> | ->]]; cbn [bool_decide decide_rel andb].
  - rewrite (bool_decide_eq_false_2 (DeviceBooting = DeviceReady)) by done. cbn [andb].
    destruct l; try (by apply reaches_ok); by eapply step_lifecycle.
  - rewrite (bool_decide_eq_true_2 (DeviceReady = DeviceReady)) by done. cbn [andb].
    destruct (decide (h = HealthHealthy)) as [->|Hne].
    + rewrite (bool_decide_eq_true_2 (HealthHealthy = _)), andb_false_r by done.
      assert (forall d', in_state d' DeviceBooting HealthHealthy ->
        reaches (if bool_decide (Lifecycle d' = DeviceBooting) then step (Transition d' DeviceReady "agent health checks passed" now) else Ok d')
          DeviceReady HealthHealthy) as Hboot.
      { intros d' Hd'. pose proof Hd' as (-> & _). by eapply step_lifecycle. }
      destruct l; try (by apply reaches_ok);
        try (eapply and_then_reaches; [by eapply step_lifecycle|done]);
        try (eapply and_then_reaches; [by apply reaches_ok|]; first [done|intros d' Hd'; pose proof Hd' as (-> & _); by apply reaches_ok]).
    + rewrite (bool_decide_eq_false_2 (h = _)) by done. cbn [negb]. rewrite andb_true_r.
      assert (forall r, reaches r DeviceBooting h -> and_then r (fun d' =>
        if bool_decide (Lifecycle d' = DeviceBooting) then step (Transition d' DeviceReady "agent health checks passed" now) else Ok d')
        = Fail ErrDeviceNotHealthy) as Hboot.
      { intros r (d' & -> & Hd'). cbn. pose proof Hd' as (-> & _). by eapply step_not_ready. }
      destruct l; try (by apply reaches_ok);
        try (apply Hboot; first [by eapply step_lifecycle|by apply reaches_ok]);
        try (eapply and_then_reaches; [by apply reaches_ok|]; intros d' Hd'; pose proof Hd' as (-> & _); by apply reaches_ok).
  - rewrite (bool_decide_eq_false_2 (DeviceStopped = DeviceReady)) by done. cbn [andb].
    destruct l; try (by apply reaches_ok); by eapply step_lifecycle.
Qed.
End Steps.

(** The two statuses after an observation, by the tests of the code; [None] is a rejected
    observation. *)
Definition observed_state (current : discoveredDeviceState) (seen : Observation)
    : option (DeviceLifecycleStatus * HealthStatus) :=
  let '(l, h) := if recoveredAutomatically current seen
                 then (assignment_state (ds_assignmentTarget current), HealthHealthy)
                 else (ds_lifecycle current, ds_health current) in
  if negb (applies current seen) then Some (l, h)
  else
    let h' := if preserves_stf_health current seen then h else ob_health seen in
    if bool_decide (ds_lifecycle current = DeviceReserved) || bool_decide (ds_lifecycle current = DeviceBusy)
       || bool_decide (ds_lifecycle current = DeviceRecycling) then Some (l, h')
    else if bool_decide (ob_lifecycle seen = DeviceReady) && starting l && negb (bool_decide (h' = HealthHealthy)) then None
    else Some (discovered_lifecycle l (ob_lifecycle seen), h').

Definition valid_state (current : discoveredDeviceState) : Prop :=
  identifierPattern (ds_id current) = true /\ validDeviceLifecycleStatus (ds_lifecycle current) = true
  /\ validHealthStatus (ds_health current) = true.

Lemma recovered_quarantined current seen :
  recoveredAutomatically current seen = true -> ds_lifecycle current = DeviceQuarantined.
Proof. unfold recoveredAutomatically. rewrite !andb_true_iff, bool_decide_eq_true. tauto. Qed.

Lemma observe_spec current seen now :
  now <> 0 -> valid_state current -> reportable seen ->
  match observed_state current seen with
  | Some (l, h) => reaches (observe current seen now) l h
  | None => observe current seen now = Fail ErrDeviceNotHealthy
  end.
Proof.
  intros Hnow (Hid & Hl & Hh) (Hseen & Hsh & Hsr). unfold observe, observed_state.
  destruct (RestoreDevice_state _ _ _ Hid Hl Hh) as (d0 & -> & Hd0).
  set (l := if recoveredAutomatically current seen then assignment_state (ds_assignmentTarget current) else ds_lifecycle current).
  set (h := if recoveredAutomatically current seen then HealthHealthy else ds_health current).
  assert ((if recoveredAutomatically current seen then (assignment_state (ds_assignmentTarget current), HealthHealthy)
           else (ds_lifecycle current, ds_health current)) = (l, h)) as -> by (unfold l, h; by destruct (recoveredAutomatically _ _)).
  set (start := if recoveredAutomatically current seen then recoverFromHostOutage _ _ _ else _).
  assert (reaches start l h) as (d1 & -> & Hd1).
  { unfold start, l, h. destruct (recoveredAutomatically _ _) eqn:Hr; [|by apply reaches_ok].
    apply recovered_quarantined in Hr. rewrite Hr in Hd0. by eapply recoverFromHostOutage_reaches. }
  assert (validHealthStatus h = true) as Hh1 by (unfold h; by destruct (recoveredAutomatically _ _)).
  cbn [and_then]. destruct (applies current seen); cbn [negb]; [|by apply reaches_ok].
  set (h' := if preserves_stf_health current seen then h else ob_health seen).
  assert (reaches (if negb (preserves_stf_health current seen) && negb (bool_decide (Health d1 = ob_health seen))
                   then step (UpdateHealth d1 (ob_health seen) "agent heartbeat health observation" now) else Ok d1) l h') as (d2 & -> & Hd2).
  { unfold h'. destruct (preserves_stf_health _ _); [by apply reaches_ok|]. cbn [negb andb]. pose proof Hd1 as (_ & -> & _).
    destruct (decide (h = ob_health seen)) as [E|E].
    - rewrite bool_decide_eq_true_2, <-E by done. by apply reaches_ok.
    - rewrite bool_decide_eq_false_2 by done. eapply step_health; [done|done| |done|done]. by apply health_edge. }
  cbn [and_then]. destruct (_ || _ || _); [by apply reaches_ok|].
  pose proof (applyDiscoveredLifecycle_spec now Hnow d2 l h' (ob_lifecycle seen) Hd2 Hseen) as Happly.
  by destruct (_ && _ && _).
Qed.

(** *** The specification of an observation

    It is written over the texts of the reasons and the names of the statuses, and uses
    none of the tests of the code. *)

(** A failure that STF found. *)
Definition stf_fault (reason : string) : Prop :=
  TrimSpace reason = "device is not visible through STF" \/ exists rest, TrimSpace reason = ("STF " ++ rest)%string.

(** An outage of the infrastructure. *)
Definition outage (reason : string) : Prop :=
  TrimSpace reason = "设备宿主机离线或暂不可用"
  \/ TrimSpace reason = "agent heartbeat reported an assigned or schedulable device is not healthy"
  \/ exists rest, TrimSpace reason = ("IOS_PROVIDER_DEVICE_MISSING:" ++ rest)%string.

(** The report says healthy, after an outage or after a failure that STF found. *)
Definition outage_over (current : discoveredDeviceState) (seen : Observation) : Prop :=
  ob_health seen = HealthHealthy /\ exists reason, ds_healthReason current = Some reason /\ outage reason.
Definition doubted (current : discoveredDeviceState) (seen : Observation) : Prop :=
  ob_health seen = HealthHealthy /\ exists reason, ds_healthReason current = Some reason /\ stf_fault reason.

Definition health_after (current : discoveredDeviceState) (seen : Observation) (h : HealthStatus) : Prop :=
  doubted current seen /\ h = ds_health current \/ ~ doubted current seen /\ h = ob_health seen.

(** A recovered device goes back to its reservation or into service; in service, a report
    of stopped stops it. *)
Definition back_in_service (target : string) (seen : DeviceLifecycleStatus) : DeviceLifecycleStatus :=
  if bool_decide (target = "busy"%string) then DeviceBusy
  else if bool_decide (target = "reserved"%string) then DeviceReserved
  else if bool_decide (seen = DeviceStopped) then DeviceStopped else DeviceReady.

Definition unassigned (l : DeviceLifecycleStatus) : Prop :=
  l = DeviceProvisioning \/ l = DeviceBooting \/ l = DeviceReady \/ l = DeviceStopped.

(** A device that is reported ready starts to be in service with this health. *)
Definition starts (current : discoveredDeviceState) (seen : Observation) : Prop :=
  ob_lifecycle seen = DeviceReady
  /\ (ds_lifecycle current = DeviceProvisioning \/ ds_lifecycle current = DeviceStopped \/ ds_lifecycle current = DeviceBooting).

(** The two statuses after the observation; [None] is a rejected observation. *)
Inductive observed (current : discoveredDeviceState) (seen : Observation) : option (DeviceLifecycleStatus * HealthStatus) -> Prop :=
  | observed_untouched :
      ds_operationInFlight current = true \/ ds_lifecycle current = DeviceDeleted
      \/ ds_lifecycle current = DeviceQuarantined /\ ~ outage_over current seen ->
      observed current seen (Some (ds_lifecycle current, ds_health current))
  | observed_recovered :
      ds_operationInFlight current = false -> ds_lifecycle current = DeviceQuarantined -> outage_over current seen ->
      observed current seen (Some (back_in_service (ds_assignmentTarget current) (ob_lifecycle seen), HealthHealthy))
  | observed_assigned h :
      ds_operationInFlight current = false ->
      ds_lifecycle current = DeviceReserved \/ ds_lifecycle current = DeviceBusy \/ ds_lifecycle current = DeviceRecycling ->
      health_after current seen h -> observed current seen (Some (ds_lifecycle current, h))
  | observed_moved h :
      ds_operationInFlight current = false -> unassigned (ds_lifecycle current) -> health_after current seen h ->
      (starts current seen -> h = HealthHealthy) ->
      observed current seen (Some (discovered_lifecycle (ds_lifecycle current) (ob_lifecycle seen), h))
  | observed_refused h :
      ds_operationInFlight current = false -> health_after current seen h -> starts current seen -> h <> HealthHealthy ->
      observed current seen None.

(** The tests of the code decide it. *)
Lemma HasPrefix_spec s p : HasPrefix s p = true <-> exists rest, s = (p ++ rest)%string.
Proof.
  unfold HasPrefix. revert s. induction p as [|a p IH]; intros s; cbn.
  - split; [by exists s|done].
  - destruct s as [|b s]; [by split; [|intros [? ?]]|]. destruct (Ascii.eqb_spec a b) as [->|Hne].
    + rewrite IH. split; intros [rest E]; exists rest; [by rewrite E|by injection E].
    + split; [done|]. intros [rest E]. by injection E.
Qed.

Lemma IsSTFFailureReason_spec reason : IsSTFFailureReason reason = true <-> stf_fault reason.
Proof. unfold IsSTFFailureReason, stf_fault. by rewrite orb_true_iff, bool_decide_eq_true, HasPrefix_spec. Qed.

Lemma outage_spec reason : IsSystemRecoverableHealthReason reason && negb (IsSTFFailureReason reason) = true <-> outage reason.
Proof.
  assert (outage reason -> IsSTFFailureReason reason = false) as Hno.
  { unfold outage, IsSTFFailureReason. by intros [->|[->|[rest ->]]]. }
  assert (IsSTFFailureReason (TrimSpace reason) = IsSTFFailureReason reason) as Et by (unfold IsSTFFailureReason; by rewrite TrimSpace_idemp).
  unfold IsSystemRecoverableHealthReason. rewrite Et, andb_true_iff, negb_true_iff, !orb_true_iff, !bool_decide_eq_true, HasPrefix_spec.
  unfold outage, HostUnavailableReason, AgentReportedUnhealthyReason in *.
  split; [intros [[[[?|?]|?]|?] ?]; [tauto|tauto|congruence|tauto]|]. intros Ho. split; [tauto|by apply Hno].
Qed.

Lemma recovered_spec current seen :
  recoveredAutomatically current seen = true
  <-> ds_operationInFlight current = false /\ ds_lifecycle current = DeviceQuarantined /\ outage_over current seen.
Proof.
  unfold recoveredAutomatically, outage_over. rewrite !andb_true_iff, negb_true_iff, !bool_decide_eq_true.
  destruct (ds_healthReason current) as [reason|].
  - rewrite outage_spec. split; [intros [[[? ?] ?] ?]|intros (? & ? & ? & ? & [= ->] & ?)]; [|tauto]. split_and!; eauto.
  - split; [intros [[[? ?] ?] ?]; done|intros (? & ? & ? & ? & ? & ?); done].
Qed.

Lemma doubted_spec current seen :
  bool_decide (ob_health seen = HealthHealthy) && stf_reason (ds_healthReason current) = true <-> doubted current seen.
Proof.
  unfold doubted, stf_reason. rewrite andb_true_iff, bool_decide_eq_true. destruct (ds_healthReason current) as [reason|].
  - rewrite IsSTFFailureReason_spec. split; [intros [? ?]; eauto|intros (? & ? & [= ->] & ?); done].
  - split; [by intros [? ?]|by intros (? & ? & ? & ?)].
Qed.

Lemma health_after_spec current seen h : health_after current seen h ->
  h = if bool_decide (ob_health seen = HealthHealthy) && stf_reason (ds_healthReason current) then ds_health current else ob_health seen.
Proof.
  intros [[Hd ->]|[Hd ->]]; [by apply doubted_spec in Hd as ->|]. rewrite <-doubted_spec in Hd. by destruct (_ && _).
Qed.

Lemma recovered_elsewhere current seen : ds_lifecycle current <> DeviceQuarantined -> recoveredAutomatically current seen = false.
Proof. intros Hne. destruct (recoveredAutomatically current seen) eqn:E; [|done]. by apply recovered_spec in E as (_ & ? & _). Qed.

(** [observed_state] computes the specification. *)
Lemma observed_computed current seen out : reportable seen -> observed current seen out -> observed_state current seen = out.
Proof.
  intros (Hseen & _ & _) Ho. unfold observed_state, preserves_stf_health, applies.
  destruct Ho as [Hu|Hf Hq Hr|h Hf Hl Hh|h Hf Hl Hh Hs|h Hf Hh [Hs Hl] Hn].
  - assert (recoveredAutomatically current seen = false) as ->.
    { destruct (recoveredAutomatically current seen) eqn:E; [|done]. apply recovered_spec in E as (E1 & E2 & E3).
      destruct Hu as [?|[?|[_ ?]]]; [congruence|congruence|done]. }
    destruct Hu as [->|[->|[-> _]]]; cbn; by rewrite ?andb_false_r.
  - assert (recoveredAutomatically current seen = true) as -> by by apply recovered_spec.
    destruct Hr as [Hh (reason & Hr & Hout)]. rewrite Hq, Hf, Hr, Hh. cbn.
    apply outage_spec, andb_true_iff in Hout as [_ Hout%negb_true_iff]. rewrite Hout. unfold back_in_service, assignment_state.
    destruct (String.eqb_spec (ds_assignmentTarget current) "busy") as [->|Hb]; [by destruct Hseen as [-> | [-> | ->]]|].
    rewrite (bool_decide_eq_false_2 (_ = "busy"%string)) by done.
    destruct (String.eqb_spec (ds_assignmentTarget current) "reserved") as [->|Hd]; [by destruct Hseen as [-> | [-> | ->]]|].
    rewrite (bool_decide_eq_false_2 (_ = "reserved"%string)) by done. by destruct Hseen as [-> | [-> | ->]].
  - apply health_after_spec in Hh. rewrite recovered_elsewhere, Hf by (by destruct Hl as [-> | [-> | ->]]).
    assert (bool_decide (ds_lifecycle current = DeviceReserved) || bool_decide (ds_lifecycle current = DeviceBusy)
            || bool_decide (ds_lifecycle current = DeviceRecycling) = true) as -> by (by destruct Hl as [-> | [-> | ->]]).
    rewrite (bool_decide_eq_false_2 (_ = DeviceQuarantined)), (bool_decide_eq_false_2 (_ = DeviceDeleted)) by (by destruct Hl as [-> | [-> | ->]]).
    cbn. by rewrite Hh.
  - apply health_after_spec in Hh. rewrite recovered_elsewhere, Hf by (by destruct Hl as [-> | [-> | [-> | ->]]]).
    rewrite (bool_decide_eq_false_2 (_ = DeviceQuarantined)), (bool_decide_eq_false_2 (_ = DeviceDeleted)),
      (bool_decide_eq_false_2 (_ = DeviceReserved)), (bool_decide_eq_false_2 (_ = DeviceBusy)), (bool_decide_eq_false_2 (_ = DeviceRecycling))
      by (by destruct Hl as [-> | [-> | [-> | ->]]]).
    cbn [negb orb andb]. rewrite <-Hh.
    destruct (bool_decide (ob_lifecycle seen = DeviceReady) && starting (ds_lifecycle current)) eqn:E; [|done].
    apply andb_true_iff in E as [E1%bool_decide_eq_true E2]. rewrite Hs; [done|]. split; [done|].
    unfold starting in E2. rewrite !orb_true_iff, !bool_decide_eq_true in E2. tauto.
  - apply health_after_spec in Hh. rewrite recovered_elsewhere, Hf by (by destruct Hl as [-> | [-> | ->]]).
    rewrite (bool_decide_eq_false_2 (_ = DeviceQuarantined)), (bool_decide_eq_false_2 (_ = DeviceDeleted)),
      (bool_decide_eq_false_2 (_ = DeviceReserved)), (bool_decide_eq_false_2 (_ = DeviceBusy)), (bool_decide_eq_false_2 (_ = DeviceRecycling))
      by (by destruct Hl as [-> | [-> | ->]]).
    cbn [negb orb andb]. rewrite <-Hh, Hs, (bool_decide_eq_false_2 (h = _)) by done. by destruct Hl as [-> | [-> | ->]].
Qed.

Lemma health_after_total current seen : exists h, health_after current seen h.
Proof.
  unfold health_after. destruct (bool_decide (ob_health seen = HealthHealthy) && stf_reason (ds_healthReason current)) eqn:E.
  - exists (ds_health current). left. by apply doubted_spec in E.
  - exists (ob_health seen). right. split; [|done]. rewrite <-doubted_spec. by rewrite E.
Qed.

Lemma observed_total current seen : validDeviceLifecycleStatus (ds_lifecycle current) = true -> exists out, observed current seen out.
Proof.
  intros Hv. destruct (ds_operationInFlight current) eqn:Hf; [eexists; apply observed_untouched; by left|].
  destruct (health_after_total current seen) as [h Hh].
  assert (unassigned (ds_lifecycle current) -> exists out, observed current seen out) as Hun.
  { intros Hl. destruct (decide (ob_lifecycle seen = DeviceReady /\ ds_lifecycle current <> DeviceReady /\ h <> HealthHealthy)) as [(H1 & H2 & H3)|Hn].
    - exists None. eapply observed_refused; [done|exact Hh| |done]. split; [done|]. unfold unassigned in Hl. tauto.
    - eexists. eapply observed_moved; [done|done|exact Hh|]. intros [H1 H2]. destruct (decide (h = HealthHealthy)) as [|Hne]; [done|].
      destruct Hn. split_and!; [done| |done]. intros E. rewrite E in H2. by destruct H2 as [|[|]]. }
  unfold unassigned in Hun. destruct (ds_lifecycle current) eqn:El; try tauto; try done.
  1-3: eexists; eapply observed_assigned; [done|rewrite El; tauto|exact Hh].
  - destruct (recoveredAutomatically current seen) eqn:E.
    + apply recovered_spec in E as (_ & _ & Hr). eexists. by apply observed_recovered.
    + eexists. apply observed_untouched. right. right. split; [done|]. intros Hr.
      assert (recoveredAutomatically current seen = true); [by apply recovered_spec|congruence].
  - eexists. apply observed_untouched. right. by left.
Qed.

(** C35: an observation is applied as specified.  On a device with valid statuses, a
    valid report leaves exactly the lifecycle and health of [observed], a specification
    over the texts of the reasons: a device that is deleted, under an operation, or in
    quarantine for anything but an outage is left as it is; a device that an outage put
    in quarantine comes back, once it is reported healthy, to the state its assignment
    asks for; a failure that STF found keeps the health against a report of healthy; an
    assigned or recycling device keeps its lifecycle; another device follows the report.
    The report is rejected in one case only: the device would start to be in service, but
    the failure that STF found keeps it unhealthy. *)
Theorem observation_refines_spec (current : discoveredDeviceState) (seen : Observation) (now : Z) :
  now <> 0 -> valid_state current -> reportable seen ->
  (exists out, observed current seen out)
  /\ forall out, observed current seen out ->
     match out with
     | Some (l, h) => exists d, observe current seen now = Ok d /\ Lifecycle d = l /\ Health d = h
     | None => observe current seen now = Fail ErrDeviceNotHealthy /\ doubted current seen /\ starts current seen
     end.
Proof.
  intros Hnow Hv Hr. pose proof Hv as (_ & Hl & _). split; [by apply observed_total|]. intros out Ho.
  pose proof (observe_spec current seen now Hnow Hv Hr) as H. rewrite (observed_computed _ _ _ Hr Ho) in H.
  destruct out as [[l h]|].
  - destruct H as (d & -> & Hdl & Hdh & _). by exists d.
  - split; [done|]. inversion Ho as [| | | |h Hf Hh Hs Hne]; subst. split; [|done].
    destruct Hh as [[? _]|[_ ->]]; [done|]. destruct Hr as (_ & _ & Hsr), Hs as [Hs _]. by rewrite Hsr in Hne.
Qed.

Definition outage_state : discoveredDeviceState :=
  mkDiscoveredState "device-11111111111" DeviceQuarantined HealthUnhealthy (Some HostUnavailableReason) false "busy".
Definition healthy_report : Observation := mkObservation DeviceReady HealthHealthy.

Lemma healthy_reportable : reportable healthy_report.
Proof. split; [right; by left|done]. Qed.

Lemma outage_valid : valid_state outage_state.
Proof. by vm_compute. Qed.

Example observation_refines_spec_witness :
  exists d, observe outage_state healthy_report 7 = Ok d /\ Lifecycle d = DeviceBusy /\ Health d = HealthHealthy.
Proof.
  apply (proj2 (observation_refines_spec outage_state healthy_report 7 ltac:(lia) outage_valid healthy_reportable)
    (Some (DeviceBusy, HealthHealthy))).
  apply (observed_recovered outage_state healthy_report); [reflexivity|reflexivity|].
  split; [reflexivity|]. exists HostUnavailableReason. split; [reflexivity|]. left. vm_compute. reflexivity.
Defined.

(** A device that was stopped while STF could not see it and is reported ready. *)
Example observation_rejected :
  observe (mkDiscoveredState "device-11111111111" DeviceStopped HealthUnhealthy (Some STFReadinessStabilizationReason) false "")
    healthy_report 7 = Fail ErrDeviceNotHealthy.
Proof. vm_compute. reflexivity. Qed.

(** an observation never takes a device from its reservation.  When a valid report
    is accepted, a reserved, busy, recycling or deleted device, and one under an
    operation, keeps its lifecycle; a quarantined device leaves quarantine only when its
    reason is one the system outage_over from, it is reported healthy, and nothing operates
    on it; and if it is assigned it then returns to reserved or busy, never to ready. *)
Theorem observation_keeps_assignments (current : discoveredDeviceState) (seen : Observation) (now : Z) (d : Device) :
  now <> 0 -> valid_state current -> reportable seen -> observe current seen now = Ok d ->
  (ds_lifecycle current = DeviceReserved \/ ds_lifecycle current = DeviceBusy \/ ds_lifecycle current = DeviceRecycling
   \/ ds_lifecycle current = DeviceDeleted \/ ds_operationInFlight current = true ->
     Lifecycle d = ds_lifecycle current)
  /\ (ds_lifecycle current = DeviceQuarantined ->
        (recoveredAutomatically current seen = false /\ Lifecycle d = DeviceQuarantined /\ Health d = ds_health current)
        \/ (recoveredAutomatically current seen = true
            /\ (ds_assignmentTarget current = "reserved" -> Lifecycle d = DeviceReserved)
            /\ (ds_assignmentTarget current = "busy" -> Lifecycle d = DeviceBusy))).
Proof.
  intros Hnow Hv Hr Hobs. pose proof (observe_spec current seen now Hnow Hv Hr) as H. rewrite Hobs in H.
  unfold observed_state in H. split.
  - intros Hl. assert (recoveredAutomatically current seen = false) as Hrec.
    { destruct (recoveredAutomatically current seen) eqn:Hrec; [|done]. pose proof (recovered_quarantined _ _ Hrec) as Hq.
      unfold recoveredAutomatically in Hrec. rewrite !andb_true_iff, negb_true_iff in Hrec. rewrite Hq in Hl.
      destruct Hrec as (_ & Hrec). destruct Hl as [?|[?|[?|[?|?]]]]; congruence. }
    rewrite Hrec in H. destruct (applies current seen) eqn:Happ; cbn [negb] in H.
    2: { by destruct H as (d' & [= ->] & ? & _). }
    unfold applies in Happ. rewrite !andb_true_iff, !negb_true_iff, bool_decide_eq_false in Happ.
    destruct Hl as [E|[E|[E|[E|E]]]]; [| | |destruct Happ; tauto|destruct Happ; congruence];
      rewrite E in H; cbn in H; by destruct H as (d' & [= ->] & -> & _).
  - intros Hq. destruct (recoveredAutomatically current seen) eqn:Hrec; [right|left]; (split; [done|]).
    + assert (forall l, assignment_state (ds_assignmentTarget current) = l ->
        discovered_lifecycle l (ob_lifecycle seen) = l -> starting l = false -> Lifecycle d = l) as Hgen.
      { intros l Hst Hdl Hstart. rewrite Hst, Hq in H. cbn in H. rewrite Hstart, andb_false_r in H. cbn in H. rewrite Hdl in H.
        by destruct (applies _ _); destruct H as (d' & [= ->] & -> & _). }
      destruct Hr as ([Hs|[Hs|Hs]] & _); split; intros Ht; (apply Hgen; [by rewrite Ht|by rewrite Hs|done]).
    + unfold applies in H. rewrite Hq, Hrec in H. cbn in H. by destruct H as (d' & [= ->] & -> & -> & _).
Qed.

Definition busy_state : discoveredDeviceState :=
  mkDiscoveredState "device-11111111111" DeviceBusy HealthHealthy None false "busy".
Definition observed_busy : Device :=
  match observe busy_state (mkObservation DeviceStopped HealthUnknown) 7 with
  | Ok d => d
  | Fail _ => mkDevice (mkMachine "" "" "" DeviceBusy validDeviceLifecycleStatus deviceTransitions []) HealthHealthy []
  end.

Lemma observe_busy : observe busy_state (mkObservation DeviceStopped HealthUnknown) 7 = Ok observed_busy.
Proof. vm_compute. reflexivity. Qed.
Lemma stopped_reportable : reportable (mkObservation DeviceStopped HealthUnknown).
Proof. split; [right; by right|done]. Qed.
Lemma busy_valid : valid_state busy_state.
Proof. by vm_compute. Qed.

Example observation_keeps_assignments_witness : Lifecycle observed_busy = DeviceBusy.
Proof.
  apply (observation_keeps_assignments busy_state _ 7 _ ltac:(lia) busy_valid stopped_reportable observe_busy).
  right. left. reflexivity.
Defined.
