(* ===== verification/RuntimeProfileSpec.v ===== *)
(** * Properties of runtime profiles

    Exact conversions between float64 and rationals, and the round trip of a profile
    through its canonical document. *)
From Stdlib Require Import SpecFloat QArith.
From S2P Require Import Prelude GoText Json Float64 RuntimeProfile.

#[local] Open Scope Z_scope.

(** ** Exact conversions *)
Lemma digits_log2 p : Zpos (digits2_pos p) = Z.log2 (Zpos p) + 1.
Proof.
  induction p as [p IH|p IH|]; [..|done]; cbn [digits2_pos]; rewrite Pos2Z.inj_succ, IH.
  - rewrite Pos2Z.inj_xI, Z.log2_succ_double by lia. lia.
  - rewrite Pos2Z.inj_xO, Z.log2_double by lia. lia.
Qed.

(** An even mantissa one bit too long is rounded exactly. *)
Lemma round_exact s p e :
  fexp prec emax (Z.log2 (Zpos p) + 2 + e) = e + 1 -> e + 1 <= emax - prec ->
  binary_round_aux prec emax s (Zpos p~0) e loc_Exact = S754_finite s p (e + 1).
Proof.
  intros Hf He. unfold binary_round_aux, shr_fexp. cbn [Zdigits2 digits2_pos].
  rewrite Pos2Z.inj_succ, digits_log2, Z.add_succ_l.
  replace (Z.succ (Z.log2 (Zpos p) + 1 + e)) with (Z.log2 (Zpos p) + 2 + e) by lia. rewrite Hf.
  replace (e + 1 - e) with 1 by lia. cbn [shr_record_of_loc shr SpecFloat.iter_pos shr_1 orb shr_m loc_of_shr_record round_nearest_even].
  cbn [Zdigits2]. rewrite digits_log2.
  replace (Z.log2 (Zpos p) + 1 + (e + 1)) with (Z.log2 (Zpos p) + 2 + e) by lia. rewrite Hf.
  replace (e + 1 - (e + 1)) with 0 by lia. cbn [shr shr_m].
  by rewrite (proj2 (Z.leb_le _ _) He).
Qed.

(** A dyadic rational whose numerator has at most 53 bits is a float64. *)
Lemma dyadic_exact s m k :
  Z.log2 (Zpos m) <= 52 -> 0 <= k <= 1000 ->
  exists p, Zpos p = Zpos m * 2 ^ (52 - Z.log2 (Zpos m))
    /\ SFdiv prec emax (S754_finite s m 0) (S754_finite false (Z.to_pos (2 ^ k)) 0)
       = S754_finite s p (Z.log2 (Zpos m) - 52 - k).
Proof.
  intros Hm Hk. set (l := Z.log2 (Zpos m)) in *. assert (0 <= l) as Hl by apply Z.log2_nonneg.
  assert (0 < 2 ^ (52 - l)) as Hpow by (apply Z.pow_pos_nonneg; lia).
  exists (Z.to_pos (Zpos m * 2 ^ (52 - l))). rewrite Z2Pos.id by lia. split; [done|].
  assert (0 < 2 ^ k) as Hk2 by (apply Z.pow_pos_nonneg; lia).
  unfold SFdiv, SFdiv_core_binary. cbn [Zdigits2]. rewrite !digits_log2, Z2Pos.id by done.
  rewrite Z.log2_pow2 by lia. fold l.
  assert (Z.min (fexp prec emax (l + 1 + 0 - (k + 1 + 0))) (0 - 0) = l - k - 53) as ->.
  { unfold fexp, emin, prec, emax. lia. }
  replace (0 - 0 - (l - k - 53)) with (53 - l + k) by lia.
  assert (match 53 - l + k with Z0 => Zpos m | Zpos _ => Z.shiftl (Zpos m) (53 - l + k) | Zneg _ => 0 end
    = (Zpos m * 2 ^ (53 - l)) * 2 ^ k) as ->.
  { destruct (53 - l + k) eqn:E; try lia. rewrite <-E, Z.shiftl_mul_pow2, Z.pow_add_r by lia. lia. }
  assert (Z.div_eucl (Zpos m * 2 ^ (53 - l) * 2 ^ k) (2 ^ k) = (Zpos m * 2 ^ (53 - l), 0)) as ->.
  { pose proof (Z.div_mul (Zpos m * 2 ^ (53 - l)) (2 ^ k) ltac:(lia)) as Hq.
    pose proof (Z.mod_mul (Zpos m * 2 ^ (53 - l)) (2 ^ k) ltac:(lia)) as Hr.
    unfold Z.div, Z.modulo in Hq, Hr. destruct (Z.div_eucl _ _). by subst. }
  assert (new_location (2 ^ k) 0 = loc_Exact) as ->.
  { unfold new_location, new_location_even, new_location_odd. by destruct (Z.even _). }
  replace (Zpos m * 2 ^ (53 - l)) with (Zpos (xO (Z.to_pos (Zpos m * 2 ^ (52 - l))))).
  2: { rewrite Pos2Z.inj_xO, Z2Pos.id by lia. replace (53 - l) with (Z.succ (52 - l)) by lia. rewrite Z.pow_succ_r by lia. lia. }
  rewrite xorb_false_r, round_exact.
  - f_equal. lia.
  - rewrite Z2Pos.id, Z.log2_mul_pow2 by lia. fold l. unfold fexp, emin, prec, emax. lia.
  - unfold emax, prec. lia.
Qed.

Lemma f_of_integer n : 0 < n < 2 ^ 53 ->
  exists p, Zpos p = n * 2 ^ (52 - Z.log2 n) /\ f_of_Q (inject_Z n) = S754_finite false p (Z.log2 n - 52).
Proof.
  intros Hn. destruct n as [|m|m]; [lia| |lia].
  destruct (dyadic_exact false m 0) as (p & Hp & Hd); [|lia|].
  { assert (Z.log2 (Zpos m) < 53); [|lia]. apply Z.log2_lt_pow2; lia. }
  exists p. split; [done|]. unfold f_of_Q. cbn [inject_Z Qnum Qden].
  rewrite Z.sub_0_r in Hd. exact Hd.
Qed.

Lemma f_of_small_integer n : 0 <= n < 2 ^ 53 ->
  f_integral (f_of_Q (inject_Z n)) = true /\ f_trunc (f_of_Q (inject_Z n)) = Some n
  /\ f_lt (f_of_Z max_int64) (f_of_Q (inject_Z n)) = false /\ f_lt (f_of_Q (inject_Z n)) (f_of_Z min_int64) = false.
Proof.
  intros Hn. destruct (decide (n = 0)) as [->|Hne]; [done|].
  destruct (f_of_integer n) as (p & Hp & ->); [lia|].
  assert (0 <= Z.log2 n) by apply Z.log2_nonneg. assert (Z.log2 n < 53) as Hl by (apply Z.log2_lt_pow2; lia).
  assert (0 < 2 ^ (52 - Z.log2 n)) by (apply Z.pow_pos_nonneg; lia).
  unfold f_integral, f_trunc, f_lt, SFltb. cbn [cond_Zopp]. split_and!.
  - apply orb_true_iff. destruct (Z.leb_spec 0 (Z.log2 n - 52)); [by left|right].
    replace (- (Z.log2 n - 52)) with (52 - Z.log2 n) by lia. rewrite Hp, Z.mod_mul by lia. done.
  - destruct (Z.leb_spec 0 (Z.log2 n - 52)).
    + rewrite Hp. replace (52 - Z.log2 n) with 0 by lia. replace (Z.log2 n - 52) with 0 by lia. f_equal. lia.
    + replace (- (Z.log2 n - 52)) with (52 - Z.log2 n) by lia. by rewrite Hp, Z.div_mul by lia.
  - change (f_of_Z max_int64) with (S754_finite false 4503599627370496 11). cbn [SFcompare].
    destruct (Z.compare_spec 11 (Z.log2 n - 52)); [lia|lia|done].
  - done.
Qed.

Lemma int64Value_jint values fallback k n :
  assoc k values = Some (jint n) -> 0 <= n < 2 ^ 53 -> int64Value values fallback [k] = Some n.
Proof.
  intros Hk Hn. unfold int64Value, floatValue. rewrite Hk. unfold jint.
  destruct (f_of_small_integer n Hn) as (-> & -> & -> & ->). cbn. unfold to_int64, in_int64, min_int64, max_int64.
  by rewrite (proj2 (Z.leb_le _ _)), (proj2 (Z.leb_le _ _)) by lia.
Qed.

(** A float between 1 and 64 is read back from its exact value. *)
Lemma cpu_roundtrip f :
  valid_binary prec emax f = true -> f_to_Q f <> None -> f_lt f (f_of_Z 1) = false -> f_lt (f_of_Z 64) f = false ->
  exists q, float_json f = JNum q /\ f_of_Q q = f.
Proof.
  change (f_of_Z 1) with (S754_finite false 4503599627370496 (-52)).
  change (f_of_Z 64) with (S754_finite false 4503599627370496 (-46)).
  destruct f as [[]|[]| |[] m e]; try done. unfold f_lt, SFltb, SFcompare. intros Hv _ H1 H2.
  assert (-52 <= e) as He1 by (destruct (Z.compare_spec e (-52)); lia || done).
  assert (e <= -46) as He2 by (destruct (Z.compare_spec (-46) e); lia || done).
  unfold valid_binary, bounded, canonical_mantissa in Hv. apply andb_true_iff in Hv as [Hv%Z.eqb_eq _].
  rewrite digits_log2 in Hv. unfold fexp, emin, prec, emax in Hv. assert (Z.log2 (Zpos m) = 52) as Hl by lia.
  destruct e as [|e|k]; try lia. eexists. split; [reflexivity|].
  unfold f_of_Q. cbn [cond_Zopp Qnum Qden].
  destruct (dyadic_exact false m (Zpos k)) as (p & Hp & Hd); [lia|lia|].
  rewrite Hl in Hp, Hd. assert (p = m) as -> by (change (52 - 52) with 0 in Hp; lia).
  replace (Pos.pow 2 k) with (Z.to_pos (2 ^ Zpos k)) by (rewrite <-Pos2Z.inj_pow; done).
  rewrite Hd. f_equal.
Qed.

(** ** Round trip *)
Lemma Validate_bounds p : Validate p = true ->
  f_lt (rp_ContainerCPUCores p) (f_of_Z 1) = false /\ f_lt (f_of_Z 64) (rp_ContainerCPUCores p) = false
  /\ 2048 <= rp_ContainerMemoryMB p <= 262144 /\ 1 <= rp_GuestCPUCores p <= 32
  /\ 1536 <= rp_GuestMemoryMB p <= rp_ContainerMemoryMB p - 512 /\ 2048 <= rp_DataDiskMB p <= 1048576
  /\ 0 <= rp_ImageDiskMB p /\ 320 <= rp_Width p <= 4320 /\ 480 <= rp_Height p <= 7680 /\ 120 <= rp_DensityDPI p <= 960
  /\ 128 <= rp_VMHeapMB p <= rp_GuestMemoryMB p / 2
  /\ rp_Graphics p ∈ [GraphicsAuto; GraphicsHost; GraphicsSoftware].
Proof.
  unfold Validate, within_limits. rewrite andb_true_iff, negb_true_iff, !orb_false_iff, !Z.ltb_ge, bool_decide_eq_true.
  intros (H & Hg). destruct_and? H. rewrite Z.quot_div_nonneg in * by lia. split_and!; done || lia.
Qed.

Lemma graphics_roundtrip g : g ∈ [GraphicsAuto; GraphicsHost; GraphicsSoftware] -> ToLower (TrimSpace g) = g.
Proof.
  intros [->|[->|[->|[]%elem_of_nil]%elem_of_cons]%elem_of_cons]%elem_of_cons; vm_compute; reflexivity.
Qed.

(** C40: a profile survives its canonical document.  Every profile that validates, with a
    finite number of cores and an image size below 2^53 MB, is parsed back from its own
    document, cores and derived guest sizes included; so storing a parsed profile and
    parsing it again never changes it. *)
Theorem profile_roundtrip (p : Profile) :
  Validate p = true -> marshals p = true -> valid_binary prec emax (rp_ContainerCPUCores p) = true ->
  rp_ImageDiskMB p < 2 ^ 53 -> Parse (Map p) = Some p.
Proof.
  intros Hv Hm%bool_decide_eq_true Hb Hi. pose proof (Validate_bounds _ Hv) as (H1 & H64 & Hbounds). destruct_and? Hbounds.
  assert (rp_GuestMemoryMB p / 2 <= rp_GuestMemoryMB p) by (apply Z.div_le_upper_bound; lia).
  destruct (cpu_roundtrip (rp_ContainerCPUCores p)) as (q & Hq & Hf); [done| |done|done|].
  { destruct Hm as [x Hx]. by rewrite Hx. }
  unfold Parse. replace (floatValue (Map p) _ _) with (Some (rp_ContainerCPUCores p)).
  2: { unfold floatValue. change (assoc "container_cpu_cores" (Map p)) with (Some (float_json (rp_ContainerCPUCores p))).
       by rewrite Hq, Hf. }
  replace (int64Value (Map p) (rp_ContainerMemoryMB Default) _) with (Some (rp_ContainerMemoryMB p)).
  2: { symmetry. unfold int64Value, floatValue. change (assoc "container_memory_mb" (Map p)) with (Some (jint (rp_ContainerMemoryMB p))).
       apply (int64Value_jint (Map p) 0 "container_memory_mb"); [done|lia]. }
  cbn [bind_opt]. repeat (erewrite int64Value_jint by (reflexivity || lia); cbn [bind_opt]).
  unfold sized_guest. change (hasAny (Map p) ["guest_cpu_cores"]) with true. change (hasAny (Map p) ["guest_memory_mb"]) with true.
  cbv iota zeta. unfold graphics_of. change (assoc "graphics" (Map p)) with (Some (JStr (rp_Graphics p))). cbv iota.
  rewrite graphics_roundtrip by done. cbn [bind_opt].
  transitivity (if Validate p then Some p else None); [destruct p; reflexivity|by rewrite Hv].
Qed.

Definition sample_profile : Profile := default Default (Parse [("cpu", JStr "2.5"); ("memory_mb", jint 6144)]).

Example profile_roundtrip_witness : Parse (Map sample_profile) = Some sample_profile.
Proof. apply (profile_roundtrip sample_profile); vm_compute; reflexivity. Defined.
