(* ===== verification/CapacitySpec.v ===== *)
(** * Properties of the host capacity evaluation *)
From Stdlib Require Import SpecFloat.
From S2P Require Import Prelude GoText Json Float64 RuntimeProfile RuntimeProfileSpec Capacity.

(** Reports within the range of real hosts: no int64 operation wraps. *)
Definition mb (n : Z) : Prop := 0 <= n < 2 ^ 60.

Definition plausible (h : Host) (a b : Allocation) (p : Profile) : Prop :=
  mb (ch_MemoryTotalMB h) /\ mb (ch_MemoryAvailableMB h) /\ mb (ch_DiskAvailableMB h) /\ mb (ch_DeviceSlots h)
  /\ mb (al_MemoryMB a) /\ mb (al_DiskMB a) /\ mb (al_Slots a)
  /\ mb (al_MemoryMB b) /\ mb (al_DiskMB b) /\ mb (al_Slots b) /\ mb (rp_ImageDiskMB p).

Ltac no_wrap := repeat match goal with |- context [wrap64 ?x] =>
  lazymatch x with
  | context [wrap64 _] => fail
  | _ => rewrite (wrap64_id x) by (unfold in_int64, min_int64, max_int64; apply andb_true_iff; rewrite !Z.leb_le; lia)
  end end.

Section Evaluate.
Context (h : Host) (a b : Allocation) (p : Profile) (cached : bool).
Context (Hv : Validate p = true) (Hp : plausible h a b p).

Lemma memory_spec : availableMemory h a b
  = Z.max 0 (Z.min (ch_MemoryTotalMB h - 2048 - al_MemoryMB a) (ch_MemoryAvailableMB h - 2048) - al_MemoryMB b).
Proof.
  unfold plausible, mb in Hp. destruct_and? Hp. unfold availableMemory, DefaultReserveMemoryMB. no_wrap. lia.
Qed.

Lemma disk_spec : availableDisk h b = Z.max 0 (ch_DiskAvailableMB h - 4096 - al_DiskMB b).
Proof. unfold plausible, mb in Hp. destruct_and? Hp. unfold availableDisk, DefaultReserveDiskMB. no_wrap. done. Qed.

Lemma wanted_spec : requestDisk p cached = rp_DataDiskMB p + (if cached then 0 else rp_ImageDiskMB p) /\ 0 < requestDisk p cached.
Proof.
  unfold plausible, mb in Hp. destruct_and? Hp. pose proof (Validate_bounds _ Hv) as Hb. destruct_and? Hb.
  unfold requestDisk. destruct cached; no_wrap; lia.
Qed.

Lemma slots_spec : bySlots (limits h a b p cached)
  = if 0 <? ch_DeviceSlots h then ch_DeviceSlots h - al_Slots a - al_Slots b else MaxInt.
Proof. unfold plausible, mb in Hp. destruct_and? Hp. unfold limits. cbn. destruct (0 <? _); no_wrap; done. Qed.

(** A count of devices fits in a quantity exactly when it is within the quotient. *)
Lemma quotient_spec q unit n : 0 <= q -> 0 < unit -> 0 <= n -> n <= Z.quot q unit <-> n * unit <= q.
Proof.
  intros Hq Hu Hn. rewrite Z.quot_div_nonneg by lia. rewrite Z.mul_comm. split; intros H.
  - pose proof (Z.mul_div_le q unit Hu). nia.
  - apply Z.div_le_lower_bound; lia.
Qed.

(** The room that each resource leaves for [n] more devices, next to the allocations and
    the reserve of the host. *)
Definition memory_room (n : Z) : Prop :=
  al_MemoryMB a + al_MemoryMB b + n * rp_ContainerMemoryMB p + 2048 <= ch_MemoryTotalMB h
  /\ al_MemoryMB b + n * rp_ContainerMemoryMB p + 2048 <= ch_MemoryAvailableMB h.
Definition disk_room (n : Z) : Prop :=
  al_DiskMB b + n * (rp_DataDiskMB p + (if cached then 0 else rp_ImageDiskMB p)) + 4096 <= ch_DiskAvailableMB h.
Definition slots_room (n : Z) : Prop := 0 < ch_DeviceSlots h -> al_Slots a + al_Slots b + n <= ch_DeviceSlots h.
Definition cpu_left : float64 := f_max (f_of_Z 0) (f_sub (f_sub (f_sub (ch_CPUCores h) (f_of_Z 1)) (al_CPUCores a)) (al_CPUCores b)).
Definition cpu_room (n : Z) : Prop := n <= to_int64 (f_floor (f_div cpu_left (rp_ContainerCPUCores p))).

Definition room_for (n : Z) : Prop := memory_room n /\ disk_room n /\ slots_room n /\ cpu_room n.

#[export] Instance memory_room_dec n : Decision (memory_room n).
Proof. unfold memory_room. apply _. Defined.
#[export] Instance disk_room_dec n : Decision (disk_room n).
Proof. unfold disk_room. apply _. Defined.
#[export] Instance slots_room_dec n : Decision (slots_room n).
Proof. unfold slots_room. apply _. Defined.
#[export] Instance room_for_dec n : Decision (room_for n).
Proof. unfold room_for, cpu_room. apply _. Defined.
#[export] Instance cpu_room_dec n : Decision (cpu_room n).
Proof. unfold cpu_room. apply _. Defined.

(** The resource of this name has no room for [n] more devices. *)
Inductive lacks (n : Z) : string -> Prop :=
  | lacks_cpu : ~ cpu_room n -> lacks n "cpu"
  | lacks_memory : ~ memory_room n -> lacks n "memory"
  | lacks_disk : ~ disk_room n -> lacks n "disk"
  | lacks_slots : ~ slots_room n -> lacks n "device_slots".

(** What is left of the memory and of the disk. *)
Definition memory_left : Z :=
  Z.max 0 (Z.min (ch_MemoryTotalMB h - 2048 - al_MemoryMB a) (ch_MemoryAvailableMB h - 2048) - al_MemoryMB b).
Definition disk_left : Z := Z.max 0 (ch_DiskAvailableMB h - 4096 - al_DiskMB b).

Lemma by_cpu n : n <= byCPU (limits h a b p cached) <-> cpu_room n.
Proof. reflexivity. Qed.

Lemma by_memory n : 0 < n -> n <= byMemory (limits h a b p cached) <-> memory_room n.
Proof.
  intros Hn. pose proof (Validate_bounds _ Hv) as Hb. destruct_and? Hb. assert (0 < n * rp_ContainerMemoryMB p) by nia.
  change (byMemory _) with (Z.quot (availableMemory h a b) (rp_ContainerMemoryMB p)).
  rewrite quotient_spec, memory_spec by (rewrite ?memory_spec; lia). unfold memory_room. lia.
Qed.

Lemma by_disk n : 0 < n -> n <= byDisk (limits h a b p cached) <-> disk_room n.
Proof.
  intros Hn. destruct wanted_spec as [Hw Hpos]. assert (0 < n * requestDisk p cached) by nia.
  unfold limits, disk_room. cbn. rewrite (proj2 (Z.ltb_lt _ _) Hpos).
  rewrite quotient_spec, disk_spec by (rewrite ?disk_spec; lia). rewrite <-Hw. lia.
Qed.

Lemma by_slots n : 0 < n < 2 ^ 60 -> n <= bySlots (limits h a b p cached) <-> slots_room n.
Proof.
  intros Hn. rewrite slots_spec. unfold slots_room. destruct (Z.ltb_spec 0 (ch_DeviceSlots h)); [lia|].
  unfold MaxInt, max_int64. lia.
Qed.

Lemma room_spec n : 0 < n < 2 ^ 60 -> room_for n <-> n <= additional (limits h a b p cached).
Proof.
  intros Hn. unfold room_for, additional. rewrite <-by_memory, <-by_disk, <-by_slots, <-by_cpu by lia.
  rewrite Z.max_le_iff, !Z.min_glb_iff. intuition lia.
Qed.

(** No resource is without limit: the memory never is. *)
Lemma byMemory_small : byMemory (limits h a b p cached) < 2 ^ 60 - 1.
Proof.
  unfold plausible, mb in Hp. destruct_and? Hp. pose proof (Validate_bounds _ Hv) as Hb. destruct_and? Hb.
  apply Z.lt_nge. intros Hge. assert (memory_room (2 ^ 60 - 1)) as [Hroom _] by (by apply by_memory). nia.
Qed.

Lemma limiting_smallest l : byMemory l < MaxInt ->
  exists n, (n, limiting l) ∈ [(byCPU l, "cpu"%string); (byMemory l, "memory"%string); (byDisk l, "disk"%string); (bySlots l, "device_slots"%string)]
    /\ n = Z.min (Z.min (Z.min (byCPU l) (byMemory l)) (byDisk l)) (bySlots l).
Proof.
  intros Hm. destruct l as [x y z w]. unfold limiting. cbn in *.
  destruct (Z.ltb_spec x MaxInt); cbn.
  all: destruct (y <? _) eqn:E1; cbn; destruct (z <? _) eqn:E2; cbn; destruct (w <? _) eqn:E3; cbn.
  all: try (exfalso; lia).
  all: eexists; split; [rewrite !elem_of_cons; first [by left|by right; left|by right; right; left|by right; right; right; left]|lia].
Qed.

Lemma limiting_lacks : lacks (additional (limits h a b p cached) + 1) (limiting (limits h a b p cached)).
Proof.
  pose proof byMemory_small as Hsm. destruct (limiting_smallest (limits h a b p cached)) as (n & Hin & Hn).
  { unfold MaxInt, max_int64. lia. }
  assert (n < additional (limits h a b p cached) + 1 /\ additional (limits h a b p cached) + 1 < 2 ^ 60
          /\ 0 < additional (limits h a b p cached) + 1) as (H1 & H2 & H3) by (unfold additional; lia).
  clear Hn. set (k := additional _ + 1) in *.
  rewrite !elem_of_cons, elem_of_nil in Hin. destruct Hin as [E|[E|[E|[E|[]]]]];
    pose proof (f_equal fst E) as E1; pose proof (f_equal snd E) as E2; cbn [fst snd] in E1, E2; clear E; rewrite E2.
  - apply lacks_cpu. rewrite <-by_cpu. lia.
  - apply lacks_memory. rewrite <-by_memory; lia.
  - apply lacks_disk. rewrite <-by_disk; lia.
  - apply lacks_slots. rewrite <-by_slots; lia.
Qed.

(** What a refusal lists, with the amounts that are missing. *)
Inductive missing : string -> Z -> Prop :=
  | missing_cpu : f_lt cpu_left (rp_ContainerCPUCores p) = true ->
      missing "cpu_millicores" (to_int64 (f_ceil (f_mul (f_sub (rp_ContainerCPUCores p) cpu_left) (f_of_Z 1000))))
  | missing_memory : ~ memory_room 1 -> missing "memory_mb" (rp_ContainerMemoryMB p - memory_left)
  | missing_disk : ~ disk_room 1 ->
      missing "disk_mb" (rp_DataDiskMB p + (if cached then 0 else rp_ImageDiskMB p) - disk_left)
  | missing_slots : ~ slots_room 1 -> missing "device_slots" 1.

Lemma shortfalls_spec name m : (name, m) ∈ shortfalls h a b p cached <-> missing name m.
Proof.
  destruct wanted_spec as [Hw Hpos]. pose proof (Validate_bounds _ Hv) as Hb. destruct_and? Hb.
  assert ((availableMemory h a b <? rp_ContainerMemoryMB p) = true <-> ~ memory_room 1) as Hm.
  { rewrite Z.ltb_lt, memory_spec. unfold memory_room. lia. }
  assert ((availableDisk h b <? requestDisk p cached) = true <-> ~ disk_room 1) as Hd.
  { rewrite Z.ltb_lt, disk_spec. unfold disk_room. rewrite Hw. rewrite Hw in Hpos. lia. }
  assert ((0 <? ch_DeviceSlots h) && (bySlots (limits h a b p cached) <? 1) = true <-> ~ slots_room 1) as Hs.
  { rewrite andb_true_iff, !Z.ltb_lt, slots_spec. unfold slots_room. destruct (Z.ltb_spec 0 (ch_DeviceSlots h)); lia. }
  assert (forall (c : bool) (P : Prop) nm v, (c = true <-> P) -> (name, m) ∈ (if c then [(nm, v)] else []) <-> P /\ name = nm /\ m = v) as Hif.
  { intros c P nm v Hc. destruct c.
    - rewrite list_elem_of_singleton. split; [intros [= -> ->]; by rewrite <-Hc|by intros (_ & -> & ->)].
    - rewrite elem_of_nil. split; [done|]. intros [HP%Hc _]. done. }
  unfold shortfalls. rewrite !elem_of_app, (Hif _ _ _ _ Hm), (Hif _ _ _ _ Hd), (Hif _ _ _ _ Hs), (Hif _ (f_lt (availableCPU h a b) (rp_ContainerCPUCores p) = true) _ _ (iff_refl _)).
  rewrite memory_spec, disk_spec, Hw. split.
  - intros [(? & -> & ->)|[(? & -> & ->)|[(? & -> & ->)|(? & -> & ->)]]]; by constructor.
  - intros []; tauto.
Qed.
End Evaluate.

(** C39: the evaluation admits exactly what fits.  For a validated profile and a host report
    without int64 overflow, n more devices are admitted (n at most the additional count)
    exactly when, next to the existing and the queued allocations and the reserve kept
    for the host, the total and the currently available memory, the disk and the slots
    hold n of them and the CPU quotient allows n; so an admission never overcommits a
    resource.  The limiting resource always is one that has no room for one more than the
    additional count: for a refusal, for one.  A refusal lists the memory, the disk and the
    slots exactly when they have no room for one, and the CPU exactly when less of it is
    left than asked for, each with the amount that is missing, and nothing else. *)
Theorem evaluate_exact (h : Host) (a b : Allocation) (p : Profile) (cached : bool) :
  Validate p = true -> plausible h a b p ->
  let r := Evaluate h a b p cached in
  (forall n, 0 < n < 2 ^ 60 -> room_for h a b p cached n <-> n <= cr_Additional r)
  /\ cr_Fits r = bool_decide (room_for h a b p cached 1)
  /\ lacks h a b p cached (cr_Additional r + 1) (cr_Limiting r)
  /\ (cr_Fits r = false -> cr_Additional r = 0 /\ forall name m, (name, m) ∈ cr_Shortfall r <-> missing h a b p cached name m)
  /\ (cr_Fits r = false -> ~ cpu_room h a b p 1 \/ cr_Shortfall r <> [])
  /\ (cr_Fits r = true -> cr_Shortfall r = []).
Proof.
  intros Hv Hp r. assert (forall n, 0 < n < 2 ^ 60 -> room_for h a b p cached n <-> n <= cr_Additional r) as Hroom.
  { intros n Hn. by apply room_spec. }
  assert (cr_Fits r = bool_decide (room_for h a b p cached 1)) as Hfits.
  { change (cr_Fits r) with (0 <? cr_Additional r). symmetry.
    destruct (Z.ltb_spec 0 (cr_Additional r)); [apply bool_decide_eq_true_2|apply bool_decide_eq_false_2]; rewrite Hroom; lia. }
  split_and!; [done|done|by apply limiting_lacks| | |by unfold r, Evaluate; cbn; intros ->].
  - intros Hf. unfold r, Evaluate in *. cbn [cr_Fits cr_Shortfall cr_Additional] in *. rewrite Hf. apply Z.ltb_ge in Hf.
    split; [unfold additional in *; lia|]. intros name m. by apply shortfalls_spec.
  - intros Hf. unfold r, Evaluate in *. cbn [cr_Fits cr_Shortfall cr_Additional] in *. rewrite Hf.
    destruct (decide (cpu_room h a b p 1)) as [Hcpu|]; [right|by left]. apply Z.ltb_ge in Hf.
    assert (~ room_for h a b p cached 1) as Hno by (rewrite room_spec; [lia|done|done|lia]).
    intros Hnil. assert (forall name m, ~ missing h a b p cached name m) as Hm.
    { intros name m H1. apply shortfalls_spec in H1; [|done..]. rewrite Hnil in H1. by apply elem_of_nil in H1. }
    apply Hno. split_and!; [..|exact Hcpu]; apply dec_stable; intros Hr; by eapply Hm; constructor.
Qed.

Definition example_report (memory : Z) : Host := example_host <| ch_MemoryAvailableMB := memory |>.

Lemma example_plausible memory : mb memory -> plausible (example_report memory) no_allocation no_allocation Default.
Proof. unfold plausible, mb. cbn. lia. Qed.

Example evaluate_exact_witness : room_for (example_report 20000) no_allocation no_allocation Default true 2.
Proof.
  refine (proj2 (proj1 (evaluate_exact (example_report 20000) no_allocation no_allocation Default true _ _) 2 _) _).
  - vm_compute. reflexivity.
  - apply example_plausible. vm_compute. split; [discriminate|reflexivity].
  - vm_compute. split; reflexivity.
  - vm_compute. discriminate.
Defined.
