(* ===== verification/PoolSpec.v ===== *)
(** * Properties of the warm pool

    A sample farm with two hosts; the selection of a host, the slots of a host, the
    devices that leave a pool, and the record of what hosts were seen to hold. *)
From Stdlib Require Import SpecFloat.
From S2P Require Import Prelude GoText Errors Domain Json Sensitive Actor Store.
From S2P Require Import Float64 RuntimeProfile Capacity ReservationRepo TxFacts PoolSelector CommandRepo DeviceStore Reconcile DeviceOps.
From S2P Require Import ImageCatalog HostCommand HostSelection Completion WarmPool PoolCycle PoolScale.
From S2P Require Import ReservationService Scheduler ServiceFacts FarmSystem Samples FarmSafety ControlStep PoolMoves PoolFacts.

(** ** A warm farm: two hosts with slots, one image, a pool per host *)
Definition image_30 : string := "image-3030303030".

Definition ready_image : ImageRow :=
  mkImageRow image_30 30 "x86_64" "1080x2400" [] ImageReady "registry.local/android:30" "sha256:0" "Android 30" None 1 1.

Definition slot_host (id address : string) (slots : Z) : HostRow := sample_host id address <| h_capacity := [("device_slots", jint slots)] |>.

Definition warm_pool (id name : string) (target max : Z) : PoolRow :=
  sample_pool id name max false <| p_default_image_id := Some image_30 |> <| p_total_target := target |>.

Definition warm_db (slots_a slots_b target_a target_b max_b : Z) : DB :=
  empty_db
    <| device_hosts := <[host_a := slot_host host_a "10.0.0.1" slots_a]> (<[host_b := slot_host host_b "10.0.0.2" slots_b]> ∅) |>
    <| device_pools := <[pool_a := warm_pool pool_a "android-10.0.0.1" target_a 4]>
         (<[pool_b := warm_pool pool_b "android-10.0.0.2" target_b max_b]> ∅) |>
    <| device_images := <[image_30 := ready_image]> ∅ |>
    <| device_pool_images := <[(pool_a, image_30) := mkPoolImageRow pool_a image_30 true 2 2 (at_second 1) (at_second 1)]>
         (<[(pool_b, image_30) := mkPoolImageRow pool_b image_30 true 2 2 (at_second 1) (at_second 1)]> ∅) |>.

Definition warm_ids : list string := map (fun n => ("identifier-0000" ++ Z_text n)%string) (seqZ 10 40).
Definition keep_order (l : list (obj * Z)) : list (obj * Z) := l.

(** A digest whose first characters depend on the end of the text. *)
Definition warm_env (t : Z) : Env :=
  mkEnv (at_second t) (at_second t) ∅ ∅ ∅ ∅ (fun v => rev_string (print_json v)) None None.

Definition cycle (t : Z) (s : St) : result Err Counts * St := PoolScale.RunOnce keep_order None (warm_env t) s.

Definition warm_state : St := mkSt (warm_db 2 2 0 0 1) warm_ids [] ∅.
Definition android_request (id key : string) : CreateReservationParams :=
  mkCreateParams id "service" pool_a "test_run" "test-run-00000001" [("apiLevel", jint 30)] 600 key.

Definition two_requests : St :=
  after (run (OpCreate (android_request "reservation-0002" "create-key-2"))) (env_at 100 None)
    (after (run (OpCreate (android_request "reservation-0001" "create-key-1"))) (env_at 100 None) warm_state).

(** A command of host A is claimed and completes. *)
Definition finish (t : Z) (host : string) (status : CommandStatus) (result : option obj) (s : St) : St :=
  let s1 := after (ClaimNext host "token" (60 * Second)) (warm_env t) s in
  match first_where (fun c => command_is CommandLeased c) (rows (device_host_commands (st_db s1))) with
  | Some c => after (CommandRepo.Complete (c_ID c) "token" 1 status result (Some "BOOM") false) (warm_env t) s1
  | None => s1
  end.
(** ** The host of a new emulator *)
Lemma select_host_spec verdict hosts : forall best blocked,
  match select_host verdict best blocked hosts with
  | Ok id => exists l1 h l2, hosts = l1 ++ h :: l2 /\ h_id h = id /\ verdict h = HostFits /\ Forall (fun x => verdict x <> HostFits) l1
  | Fail _ => Forall (fun x => verdict x <> HostFits) hosts
  end.
Proof.
  induction hosts as [|h rest IH]; intros best blocked; cbn [select_host]; [constructor|].
  destruct (verdict h) as [| | |r] eqn:Hv; [| |exists [], h, rest; split_and!; [done|done|done|constructor]|];
    [specialize (IH best blocked)|specialize (IH best true)|specialize (IH (betterCapacityResult best r) blocked)];
    (destruct (select_host _ _ _ _) as [id|e]; [destruct IH as (l1 & x & l2 & -> & ? & ? & ?); exists (h :: l1), x, l2|];
     [split_and!; [done|done|done|]|]; constructor; [congruence|done|congruence|done]).
Qed.

Lemma fits_slots db now imageID requested respect h :
  assess db now imageID requested respect h = HostFits -> HostFromMap (h_capacity h) = None ->
  host_load (h_id h) db < jsonInt (h_capacity h) "device_slots".
Proof.
  unfold assess, host_load, assess_slots. intros H Hn. rewrite Hn in H.
  destruct (respect && _); [done|]. destruct (Z.ltb_spec (Z.max (Z.of_nat (length (host_devices (h_id h) db)))
    (jsonInt (h_used_capacity h) "device_slots") + Z.of_nat (length (pending_validations (h_id h) db)))
    (jsonInt (h_capacity h) "device_slots")); [|done]. lia.
Qed.

(** [lockHostCapacity] only reads, and is first-fit: a host it returns is an online
    emulator host that no other transaction holds, that is not known to miss the image and
    that has room (a host with fixed slots has a free one, counting its devices and the
    validations queued on it), and no host with room comes before it by identifier; it
    reports a lack of capacity only when no such host has room. *)
Theorem host_selection_first_fit imageID requested respect env s r s' :
  lockHostCapacity imageID requested respect env s = (r, s') ->
  let fits h := (h ∈ rows (device_hosts (st_db s)) /\ emulator_host h = true /\ (h_id h ∉ env_locked_hosts env)
                 /\ assess (st_db s) (env_process_clock env) imageID requested respect h = HostFits) in
  s' = s
  /\ match r with
     | Ok (Ok id) => exists h, fits h /\ h_id h = id
         /\ (respect = true -> image_usable id imageID (st_db s) = true)
         /\ (HostFromMap (h_capacity h) = None -> host_load id (st_db s) < jsonInt (h_capacity h) "device_slots")
         /\ forall h', fits h' -> String.le id (h_id h')
     | Ok (Fail _) => forall h, ~ fits h
     | Fail _ => False
     end.
Proof.
  intros H fits. injection H as <- <-. split; [done|].
  set (v := assess (st_db s) (env_process_clock env) imageID requested respect).
  assert (forall h, h ∈ candidate_hosts env (st_db s) /\ v h = HostFits <-> fits h) as Hc.
  { intros h. unfold candidate_hosts, fits. rewrite list_elem_of_filter, elem_of_order_by, andb_true_iff, negb_true_iff, bool_decide_eq_false.
    tauto. }
  pose proof (select_host_spec v (candidate_hosts env (st_db s)) None false) as Hs.
  destruct (select_host _ _ _ _) as [id|e].
  - destruct Hs as (l1 & h & l2 & Hl & <- & Hv & Hl1).
    assert (fits h) as Hf. { apply Hc. rewrite Hl. split; [|done]. apply elem_of_app. right. by left. }
    exists h. split_and!; [done|done| |by eapply fits_slots|].
    + intros ->. unfold v, assess in Hv. cbn in Hv. by destruct (image_usable _ _ _).
    + intros h' [Hin Hv']%Hc. pose proof Hin as Hin'. rewrite Hl in Hin'. apply elem_of_app in Hin' as [Hin'|Hin'].
      { rewrite Forall_forall in Hl1. by apply Hl1 in Hin'. }
      apply elem_of_cons in Hin' as [->|Hin']; [done|].
      assert (StronglySorted (by_key (fun x => (0, h_id x))) (candidate_hosts env (st_db s))) as Hsort
        by apply sorted_filter, order_by_sorted.
      rewrite Hl in Hsort. apply StronglySorted_app_1_r, StronglySorted_inv in Hsort as [_ Hsort].
      rewrite Forall_forall in Hsort. apply Hsort in Hin'. by destruct Hin' as [?|[_ ?]]; [cbn in *; lia|].
  - intros h [Hin Hv]%Hc. rewrite Forall_forall in Hs. by apply Hs in Hin.
Qed.

Lemma host_selection_first_fit_witness :
  exists s', lockHostCapacity image_30 Default true (warm_env 100) warm_state = (Ok (Ok host_a), s')
    /\ s' = warm_state /\ exists h, h_id h = host_a /\ emulator_host h = true.
Proof.
  destruct (lockHostCapacity image_30 Default true (warm_env 100) warm_state) as [r s'] eqn:H.
  assert (r = Ok (Ok host_a)) as ->.
  { assert (r = (lockHostCapacity image_30 Default true (warm_env 100) warm_state).1) as -> by (rewrite H; reflexivity). vm_compute. reflexivity. }
  exists s'. split; [reflexivity|].
  destruct (host_selection_first_fit image_30 Default true (warm_env 100) warm_state _ s' H) as (-> & h & (_ & He & _) & Hid & _).
  split; [reflexivity|]. exists h. split; assumption.
Defined.

(** ** Hosts with fixed slots *)

(** No host with fixed slots has more devices and validations than slots. *)
Definition within_slots (db : DB) : Prop := forall id h, device_hosts db !! id = Some h ->
  h_id h = id /\ (HostFromMap (h_capacity h) = None -> host_load id db <= jsonInt (h_capacity h) "device_slots").

(** A transaction that keeps every host within its slots. *)
Class Fits {A} (m : Tx A) : Prop := fits : forall env s a s', within_slots (st_db s) -> m env s = (Ok a, s') -> within_slots (st_db s').

#[export] Instance Fits_read {A} (m : Tx A) : ReadOnly m -> Fits m | 20.
Proof. intros R env s a s' Hw H. by apply R in H as ->. Qed.
#[export] Instance Fits_bind {A B} (m : Tx A) (f : A -> Tx B) : Fits m -> (forall a, Fits (f a)) -> Fits (m ≫= f) | 10.
Proof. intros Hm Hf env s b s' Hw (a & s1 & E & H)%bindT_ok. eapply Hf; [|exact H]. by eapply Hm. Qed.

Lemma within_slots_frame db db' :
  device_hosts db' = device_hosts db -> (forall id, host_load id db' <= host_load id db) -> within_slots db -> within_slots db'.
Proof. intros Hh Hl Hw id h Hid. rewrite Hh in Hid. apply Hw in Hid as [? Hs]. split; [done|]. intros Hn%Hs. specialize (Hl id). lia. Qed.

Lemma Fits_db {A} (m : Tx A) : Keeps (fun db => db) m -> Fits m.
Proof. intros K env s a s' Hw H. apply K in H. cbn in H. by rewrite H. Qed.
#[export] Instance newID_fits : Fits newID := Fits_db _ _.

(** A host that the selection returned has room for one more. *)
Definition roomy (db : DB) (hostID : string) : Prop := forall h, device_hosts db !! hostID = Some h ->
  HostFromMap (h_capacity h) = None -> host_load hostID db < jsonInt (h_capacity h) "device_slots".

Lemma selected_roomy imageID requested respect env s hostID s' :
  within_slots (st_db s) -> lockHostCapacity imageID requested respect env s = (Ok (Ok hostID), s') -> s' = s /\ roomy (st_db s) hostID.
Proof.
  intros Hw H. injection H as H <-. split; [done|]. intros h Hh Hn.
  pose proof (select_host_spec (assess (st_db s) (env_process_clock env) imageID requested respect) (candidate_hosts env (st_db s)) None false) as Hs.
  rewrite H in Hs. destruct Hs as (l1 & x & l2 & Hl & Hx & Hv & _).
  assert (x ∈ candidate_hosts env (st_db s)) as Hin by (rewrite Hl; set_solver).
  unfold candidate_hosts in Hin. rewrite list_elem_of_filter, elem_of_order_by, elem_of_rows in Hin. destruct Hin as [_ [k Hk]].
  pose proof (Hw _ _ Hk) as [Hxk _].
  assert (h = x) as -> by congruence. rewrite <-Hx. by eapply fits_slots.
Qed.

Lemma created_load imageID runtimeImage digest hostID capabilities key now c document k db id :
  devices db !! cd_DeviceID c = None -> device_host_commands db !! cd_CommandID c = None ->
  host_load id (created_db imageID runtimeImage digest hostID capabilities key now c document k db)
  = (if String.eqb hostID id then 1 else 0) + host_load id db.
Proof.
  intros Hd Hc. rewrite !host_load_count. unfold created_db, commands. cbn.
  rewrite !count_where_insert by done. cbn [loads validates d_host_id created_row]. unfold loads, validates, command_type_in. cbn.
  rewrite andb_false_r. change (occupies_slot (created_row _ _ _ _ _ _)) with true.
  destruct (hostID =? id)%string; cbn; lia.
Qed.

Lemma create_on_roomy a b c d hostID caps p k env s r s' :
  within_slots (st_db s) -> roomy (st_db s) hostID -> createDeviceCommand a b c d hostID caps p k env s = (Ok r, s') -> within_slots (st_db s').
Proof.
  intros Hw Hr (document & key & Hd & _ & Hc & ->)%createDeviceCommand_ok id h Hid. cbn in Hid.
  apply Hw in Hid as Hid'. destruct Hid' as [? Hs]. split; [done|]. intros Hn. rewrite created_load by done.
  destruct (String.eqb_spec hostID id) as [->|]; [|by apply Hs]. specialize (Hr _ Hid Hn). lia.
Qed.

(** A creation on the selected host, whatever follows. *)
Lemma Fits_select {B} imageID requested respect (f : string -> Tx B) (g : Capacity.Result -> Tx B) :
  (forall hostID env s b s', within_slots (st_db s) -> roomy (st_db s) hostID -> f hostID env s = (Ok b, s') -> within_slots (st_db s')) ->
  (forall r, Fits (g r)) ->
  Fits (host ← lockHostCapacity imageID requested respect; match host with Ok hostID => f hostID | Fail r => g r end).
Proof.
  intros Hf Hg env s b s' Hw (host & s1 & E & H)%bindT_ok. destruct host as [hostID|r].
  - apply selected_roomy in E as [-> Hr]; [|done]. by eapply Hf.
  - eapply Hg; [|exact H]. injection E as _ <-. done.
Qed.

#[export] Instance create_for_demand_fits caps : Fits (create_for_demand caps).
Proof.
  unfold create_for_demand. apply Fits_bind; [apply _|]. intros db. destruct (demand_pool caps db) as [[p image]|]; [|apply _].
  apply Fits_bind; [apply _|]. intros profile. apply Fits_select; [|apply _].
  intros hostID env s b s' Hw Hr (c & s1 & E & H)%bindT_ok. injection H as _ <-. by eapply create_on_roomy.
Qed.
#[export] Instance fill_group_fits caps n : Fits (fill_group caps n).
Proof. induction n as [|n IH]; cbn [fill_group]; [apply _|]. apply Fits_bind; [apply _|]. intros [c|]; apply _. Qed.
#[export] Instance fill_groups_fits gs : Fits (fill_groups gs).
Proof. induction gs; cbn [fill_groups]; apply _. Qed.
#[export] Instance create_missing_fits p i caps profile n : Fits (create_missing p i caps profile n).
Proof.
  induction n as [|n IH]; cbn [create_missing]; [apply _|]. apply Fits_select; [|apply _].
  intros hostID env s b s' Hw Hr (c & s1 & E & H)%bindT_ok. eapply (fits (m := c ← _; mret _)); [|exact H]. by eapply create_on_roomy.
Qed.

#[export] Instance provision_fits input phone : Fits (provision_tx input phone).
Proof.
  unfold provision_tx. apply Fits_bind; [apply _|]. intros db. destruct (provisioned_by _ db); [apply _|].
  do 5 (apply Fits_bind; [apply _|intros ?]). apply Fits_select; [|apply _].
  intros hostID env s b s' Hw Hr (c & s1 & E & H)%bindT_ok. apply create_on_roomy in E; [|done|done].
  apply bindT_ok in H as (now & s2 & E2 & H). injection E2 as _ <-. apply bindT_ok in H as (u & s2 & E2 & H).
  injection E2 as _ <-. injection H as _ <-. exact E.
Qed.

#[export] Instance queue_validation_fits image : Fits (queue_validation image).
Proof.
  unfold queue_validation. apply Fits_bind; [apply _|]. intros profile. apply Fits_select; [|apply _].
  intros hostID env s b s' Hw Hr H. apply bindT_ok in H as (commandID & s1 & E & H). apply newID_db in E.
  apply bindT_ok in H as (document & s2 & E2 & H). apply marshalled_ro in E2 as ->. cbv zeta in H.
  apply bindT_ok in H as (u & s2 & E2 & H). apply insert_command_ok in E2 as (_ & Hc & ->). injection H as _ <-.
  rewrite E in Hc. match goal with |- within_slots (st_db (on_db ?f ?x)) => change (within_slots (f (st_db x))) end. rewrite E. intros id h Hid. cbn in Hid. pose proof (Hw _ _ Hid) as [? Hs]. split; [done|].
  intros Hn. rewrite host_load_count. unfold commands. cbn. rewrite count_where_insert by done.
  specialize (Hs Hn). rewrite host_load_count in Hs. unfold commands in Hs.
  match goal with |- context [if validates id ?c then _ else _] =>
    replace (validates id c) with (String.eqb hostID id) by (unfold validates, command_type_in; cbn; by destruct (hostID =? id)%string) end.
  destruct (String.eqb_spec hostID id) as [->|]; [|lia].
  specialize (Hr _ Hid Hn). rewrite host_load_count in Hr. unfold commands in Hr. lia.
Qed.

#[export] Instance demand_fits order : Fits (demand_tx order).
Proof. unfold demand_tx. apply _. Qed.

(** C37: every transaction that puts an emulator or an image validation on a host leaves
    each host with fixed slots within its slots: the demand of the reservations, a
    provisioning request, the growth of a pool up to its minimum, and a validation. *)
Theorem slots_respected env s s' :
  within_slots (st_db s) ->
  (forall order r, demand_tx order env s = (Ok r, s') -> within_slots (st_db s'))
  /\ (forall input phone r, provision_tx input phone env s = (Ok r, s') -> within_slots (st_db s'))
  /\ (forall poolID image capabilities profile missing r,
        create_missing poolID image capabilities profile missing env s = (Ok r, s') -> within_slots (st_db s'))
  /\ (forall image r, queue_validation image env s = (Ok r, s') -> within_slots (st_db s')).
Proof.
  intros Hw. split_and!; intros *.
  - by apply (fits (m := demand_tx _)).
  - by apply (fits (m := provision_tx _ _)).
  - by apply (fits (m := create_missing _ _ _ _ _)).
  - by apply (fits (m := queue_validation _)).
Qed.

(** A check of the invariant on a concrete database. *)
Definition slots_checked (db : DB) : bool :=
  forallb (fun kv => String.eqb (h_id kv.2) kv.1
    && match HostFromMap (h_capacity kv.2) with None => host_load kv.1 db <=? jsonInt (h_capacity kv.2) "device_slots" | Some _ => true end)
    (map_to_list (device_hosts db)).

Lemma slots_checked_sound db : slots_checked db = true -> within_slots db.
Proof.
  unfold slots_checked. rewrite forallb_forall. intros H id h Hid%elem_of_map_to_list%list_elem_of_In. apply H in Hid. cbn in Hid.
  apply andb_true_iff in Hid as [He Hs]. apply String.eqb_eq in He. split; [done|]. intros Hn. rewrite Hn in Hs. by apply Z.leb_le.
Qed.

Lemma slots_respected_witness :
  exists r s', demand_tx keep_order (warm_env 101) two_requests = (Ok r, s') /\ r = (2, 0) /\ within_slots (st_db s').
Proof.
  destruct (demand_tx keep_order (warm_env 101) two_requests) as [[r|e] s'] eqn:H; [|exfalso; vm_compute in H; discriminate H].
  exists r, s'. split_and!; [reflexivity| |].
  - assert (Ok r = (demand_tx keep_order (warm_env 101) two_requests).1) as E by (rewrite H; reflexivity). vm_compute in E. congruence.
  - apply (proj1 (slots_respected (warm_env 101) two_requests s' ltac:(apply slots_checked_sound; vm_compute; reflexivity)) keep_order r). exact H.
Defined.

(** ** Scaling down *)

(** C36: [queueScaleDown] takes the devices out one by one, at most the excess, and stops
    early only when no device may leave any more.  A device that leaves was held by
    nobody, was ready, stopped or quarantined, and was not the base of the pool unless the
    pool is emptied; it is stopped if it was ready, and one delete command names it.
    Every other device and every earlier command stay as they were. *)
Theorem scale_down_sound poolID platform target excess env s n s' :
  keyed (st_db s) -> queueScaleDown poolID platform target excess env s = (Ok n, s') ->
  exists ds, n = Z.of_nat (length ds) /\ (length ds <= excess)%nat /\ NoDup (map d_id ds)
    /\ (forall d, d ∈ ds -> candidate env poolID platform target (st_db s) d
          /\ ~ held_by_any (st_db s) (d_id d) /\ d_lifecycle d ∈ [DeviceReady; DeviceStopped; DeviceQuarantined]
          /\ (target <> 0 -> forall p, device_pools (st_db s) !! poolID = Some p -> p_base_device_id p <> Some (d_id d))
          /\ devices (st_db s') !! d_id d = Some (leaving_row (env_clock env) d)
          /\ exists id k, device_host_commands (st_db s') !! id = Some (leaving_command poolID target (env_clock env) d id k))
    /\ (forall k, k ∉ map d_id ds -> devices (st_db s') !! k = devices (st_db s) !! k)
    /\ ((length ds < excess)%nat -> forall d, candidate env poolID platform target (st_db s) d -> d ∈ ds)
    /\ device_host_commands (st_db s) ⊆ device_host_commands (st_db s').
Proof.
  intros Hk H. apply scale_down_ok in H as (ds & ? & ? & ? & Hds & ? & ? & ?); [|done].
  exists ds. split_and!; try done. intros d Hd. apply Hds in Hd as (Hc & ? & ?).
  pose proof (candidate_free _ _ _ _ _ _ Hc) as (Ho & ? & ?). unfold operable in Ho. apply bool_decide_eq_true in Ho. done.
Qed.

(** Two ready emulators in the pool of host A; the first is the base of the pool. *)
Definition emulator_1 : string := "device-0000000001".
Definition emulator_2 : string := "device-0000000002".
Definition idle_emulator (id : string) : DeviceRow :=
  new_device id host_a (Some image_30) "android" "emulator" "docker_emulator" ("emulator-" ++ id)%string "clean" ("serial-" ++ id)%string
    [("platformName", JStr "Android"); ("apiLevel", jint 30)] None (at_second 1) "Android-000001" <| d_lifecycle := DeviceReady |> <| d_health := HealthHealthy |>.

Definition idle_farm : St :=
  let member id := mkPoolDeviceRow pool_a id true (at_second 1) (at_second 1) in
  warm_state <| st_db := (warm_db 4 2 1 0 1)
    <| devices := <[emulator_1 := idle_emulator emulator_1]> (<[emulator_2 := idle_emulator emulator_2]> ∅) |>
    <| device_pools := <[pool_a := warm_pool pool_a "android-10.0.0.1" 1 4 <| p_base_device_id := Some emulator_1 |>]> ∅ |>
    <| device_pool_devices := <[(pool_a, emulator_1) := member emulator_1]> (<[(pool_a, emulator_2) := member emulator_2]> ∅) |> |>.

Lemma idle_keyed : keyed (st_db idle_farm).
Proof.
  split; [done|]. intros k d Hd. change (devices (st_db idle_farm)) with
    (<[emulator_1 := idle_emulator emulator_1]> (<[emulator_2 := idle_emulator emulator_2]> (∅ : gmap string DeviceRow))) in Hd.
  by apply lookup_insert_Some in Hd as [[<- <-]|[_ [[<- <-]|[_ ?]]%lookup_insert_Some]].
Qed.

Lemma scale_down_sound_witness :
  exists n s', queueScaleDown pool_a "android" 1 2 (warm_env 10) idle_farm = (Ok n, s') /\ n = 1
    /\ exists ds, n = Z.of_nat (length ds) /\ (length ds <= 2)%nat /\ NoDup (map d_id ds).
Proof.
  destruct (queueScaleDown pool_a "android" 1 2 (warm_env 10) idle_farm) as [[n|e] s'] eqn:H; [|exfalso; vm_compute in H; discriminate H].
  exists n, s'. split_and!; [reflexivity| |].
  - assert (Ok n = (queueScaleDown pool_a "android" 1 2 (warm_env 10) idle_farm).1) as E by (rewrite H; reflexivity). vm_compute in E. congruence.
  - destruct (scale_down_sound pool_a "android" 1 2 (warm_env 10) idle_farm n s' idle_keyed H) as (ds & ? & ? & ? & _).
    exists ds. split_and!; assumption.
Defined.

(** ** What hosts were seen to hold *)
Section Outcomes.
Context (k : string * string).

Lemma outcome_written_twice l : forall env s r s' written x,
  k ∈ written -> x ∈ l -> outcome_key x = k -> upsert_outcomes written l env s = (r, s') -> r = Fail ErrCardinalityViolation.
Proof.
  induction l as [|y l IH]; intros env s r s' written x Hw Hx Hk H; [by apply elem_of_nil in Hx|].
  cbn [upsert_outcomes] in H. destruct (decide (outcome_key y ∈ written)) as [Hy|Hy].
  { rewrite bool_decide_eq_true_2 in H by done. by injection H as <- _. }
  rewrite bool_decide_eq_false_2 in H by done. apply elem_of_cons in Hx as [->|Hx]; [congruence|].
  unfold get_db, put_db, gets, modify, mbind, Tx_bind, M_bind in H. cbn in H.
  destruct (_ !! outcome_key y) as [old|]; [destruct (_ <? _)|]; (eapply IH; [|exact Hx|exact Hk|exact H]); set_solver.
Qed.

Lemma outcome_proposed_twice l1 : forall env s r s' written x l2 y l3,
  outcome_key x = k -> outcome_key y = k ->
  (forall old, device_host_image_states (st_db s) !! k = Some old -> hi_observed_at old < hi_observed_at x) ->
  upsert_outcomes written (l1 ++ x :: l2 ++ y :: l3) env s = (r, s') -> r = Fail ErrCardinalityViolation.
Proof.
  induction l1 as [|z l1 IH]; intros env s r s' written x l2 y l3 Hx Hy Hold H; cbn [app upsert_outcomes] in H.
  - destruct (decide (outcome_key x ∈ written)) as [Hw|Hw].
    { rewrite bool_decide_eq_true_2 in H by done. by injection H as <- _. }
    rewrite bool_decide_eq_false_2 in H by done. unfold get_db, put_db, gets, modify, mbind, Tx_bind, M_bind in H. cbn in H.
    rewrite Hx in H. assert (k ∈ k :: written /\ y ∈ l2 ++ y :: l3) as [? ?] by set_solver.
    destruct (_ !! k) as [old|]; [specialize (Hold _ eq_refl); apply Z.ltb_lt in Hold; rewrite Hold in H|];
      by eapply outcome_written_twice.
  - destruct (decide (outcome_key z ∈ written)) as [Hw|Hw].
    { rewrite bool_decide_eq_true_2 in H by done. by injection H as <- _. }
    rewrite bool_decide_eq_false_2 in H by done. unfold get_db, put_db, gets, modify, mbind, Tx_bind, M_bind in H. cbn in H.
    assert (x ∈ l1 ++ x :: l2 ++ y :: l3) as Hin by set_solver.
    assert (forall v r s', upsert_outcomes (outcome_key z :: written) (l1 ++ x :: l2 ++ y :: l3) env
      (s <| st_db := st_db s <| device_host_image_states := <[outcome_key z := v]> (device_host_image_states (st_db s)) |> |>) = (r, s') ->
      r = Fail ErrCardinalityViolation) as Hstep.
    { clear H r s'. intros v r s' H. destruct (decide (outcome_key z = k)) as [Hz|Hz].
      - eapply outcome_written_twice; [|exact Hin|exact Hx|exact H]. apply elem_of_cons. by left.
      - eapply IH; [exact Hx|exact Hy| |exact H]. intros old. cbn. rewrite lookup_insert_ne by done. apply Hold. }
    destruct (device_host_image_states (st_db s) !! outcome_key z) as [old|]; [destruct (_ <? _)|].
    + by eapply Hstep.
    + eapply IH; [exact Hx|exact Hy|exact Hold|exact H].
    + by eapply Hstep.
Qed.
End Outcomes.

Lemma split_two {A} (l : list A) x y : x ∈ l -> y ∈ l -> x <> y ->
  exists a b l1 l2 l3, l = l1 ++ a :: l2 ++ b :: l3 /\ ((a = x /\ b = y) \/ (a = y /\ b = x)).
Proof.
  intros (l1 & l2 & ->)%list_elem_of_split Hy Hne. apply elem_of_app in Hy as [Hy|Hy].
  - apply list_elem_of_split in Hy as (m1 & m2 & ->). exists y, x, m1, m2, l2. rewrite <-app_assoc. eauto.
  - apply elem_of_cons in Hy as [->|Hy]; [done|]. apply list_elem_of_split in Hy as (m1 & m2 & ->).
    exists x, y, l1, m1, m2. eauto.
Qed.

(** A successful creation of an image on a host, completed at an instant. *)
Definition created_at (db : DB) (host image : string) (t : Z) (c : CommandRecord) : Prop :=
  c ∈ commands db /\ c_CommandType c = "create"%string /\ c_Status c = CommandSucceeded /\ c_CompletedAt c = Some t
  /\ exists id d, get_text (c_Payload c) "device_id" = Some id /\ devices db !! id = Some d
       /\ d_host_id d = host /\ d_image_id d = Some image.

(** two emulators of one image created on one host within the window of
    [recordHostImageOutcomes] make that statement fail, unless the state of the image on
    the host is already as recent: the statement proposes the row of the host and the
    image twice, and the database refuses to update a row twice ([ON CONFLICT DO UPDATE
    command cannot affect row a second time]).  The cycle of the warm pool ends there. *)
Theorem image_outcomes_collide env s r s' host image c1 c2 t1 t2 :
  created_at (st_db s) host image t1 c1 -> created_at (st_db s) host image t2 c2 -> c1 <> c2 ->
  env_clock env - imageOutcomeWindow <= t1 -> env_clock env - imageOutcomeWindow <= t2 ->
  (forall old, device_host_image_states (st_db s) !! (host, image) = Some old -> hi_observed_at old < Z.min t1 t2) ->
  recordHostImageOutcomes env s = (r, s') -> r = Fail ErrCardinalityViolation.
Proof.
  intros H1 H2 Hne Hw1 Hw2 Hold H.
  assert (forall c t, created_at (st_db s) host image t c -> env_clock env - imageOutcomeWindow <= t ->
    (if command_type_in ["create"%string] c then
          at_ <-? success_time c ;; id <-? get_text (c_Payload c) "device_id" ;; d <-? devices (st_db s) !! id ;; image <-? d_image_id d ;;
          if env_clock env - imageOutcomeWindow <=? at_ then Some (mkHostImageRow (d_host_id d) image true None at_) else None
        else None) = Some (mkHostImageRow host image true None t)) as Hrow.
  { intros c t (_ & Ht & Hs & Hc & id & d & Hid & Hd & <- & Hi) Hw. unfold command_type_in, success_time, command_is.
    rewrite Ht, Hs, Hc, bool_decide_eq_true_2, bool_decide_eq_true_2 by set_solver. rewrite Hid. cbn. rewrite Hd. cbn. rewrite Hi. cbn.
    by apply Z.leb_le in Hw as ->. }
  destruct (split_two (order_by (fun c => (0, c_ID c)) (commands (st_db s))) c1 c2) as (a & b & l1 & l2 & l3 & Hl & Hab);
    [by apply elem_of_order_by, H1|by apply elem_of_order_by, H2|done|].
  unfold recordHostImageOutcomes in H. cbv zeta in H. unfold ClockNow, get_db, gets, mbind, Tx_bind, M_bind in H.
  destruct (upsert_outcomes [] (create_outcomes (st_db s) success_time true (env_clock env - imageOutcomeWindow)) env s) as [r1 s1] eqn:E.
  assert (r1 = Fail ErrCardinalityViolation) as ->; [|by injection H as <- _].
  unfold create_outcomes in E. rewrite Hl, omap_app in E. cbn [omap list_omap] in E.
  destruct Hab as [[-> ->]|[-> ->]].
  - rewrite (Hrow c1 t1), omap_app in E by done. cbn [omap list_omap] in E. rewrite (Hrow c2 t2) in E by done.
    eapply (outcome_proposed_twice (host, image)); [| | |exact E]; [done|done|]. intros old Ho%Hold. cbn. lia.
  - rewrite (Hrow c2 t2), omap_app in E by done. cbn [omap list_omap] in E. rewrite (Hrow c1 t1) in E by done.
    eapply (outcome_proposed_twice (host, image)); [| | |exact E]; [done|done|]. intros old Ho%Hold. cbn. lia.
Qed.

(** The two creations of the sample farm succeed. *)
Definition both_created : St :=
  finish 103 host_a CommandSucceeded None (finish 102 host_a CommandSucceeded None (after (PoolScale.RunOnce keep_order None) (warm_env 101) two_requests)).

Definition created_check (db : DB) (key host image : string) (t : Z) : bool :=
  match device_host_commands db !! key with
  | Some c => command_type_in ["create"%string] c && command_is CommandSucceeded c && bool_decide (c_CompletedAt c = Some t)
      && match get_text (c_Payload c) "device_id" ≫= fun id => devices db !! id with
         | Some d => String.eqb (d_host_id d) host && bool_decide (d_image_id d = Some image)
         | None => false
         end
  | None => false
  end.

Lemma created_check_sound db key host image t :
  created_check db key host image t = true -> exists c, device_host_commands db !! key = Some c /\ created_at db host image t c.
Proof.
  unfold created_check, created_at. destruct (_ !! key) as [c|] eqn:Hc; [|done]. intros H.
  destruct (get_text (c_Payload c) "device_id") as [id|] eqn:Hid; [|by rewrite andb_false_r in H]. cbn in H.
  destruct (devices db !! id) as [d|] eqn:Hd; [|by rewrite andb_false_r in H].
  unfold command_type_in, command_is in H. rewrite !andb_true_iff, !bool_decide_eq_true, String.eqb_eq in H.
  destruct H as [[[Ht ?] ?] [? ?]]. apply list_elem_of_singleton in Ht. exists c. split; [done|]. split_and!; try done.
  - apply elem_of_rows. eauto.
  - exists id, d. split_and!; done.
Qed.

Lemma image_outcomes_collide_witness : (recordHostImageOutcomes (warm_env 104) both_created).1 = Fail ErrCardinalityViolation.
Proof.
  destruct (recordHostImageOutcomes (warm_env 104) both_created) as [r s'] eqn:H.
  destruct (created_check_sound (st_db both_created) "identifier-000011" host_a image_30 (at_second 102) ltac:(vm_compute; reflexivity)) as (c1 & E1 & H1).
  destruct (created_check_sound (st_db both_created) "identifier-000013" host_a image_30 (at_second 103) ltac:(vm_compute; reflexivity)) as (c2 & E2 & H2).
  apply (image_outcomes_collide (warm_env 104) both_created r s' host_a image_30 c1 c2 (at_second 102) (at_second 103)); [exact H1|exact H2| | | | |exact H].
  - intros ->. destruct H1 as (_ & _ & _ & T1 & _), H2 as (_ & _ & _ & T2 & _). rewrite T1 in T2. discriminate T2.
  - vm_compute. discriminate.
  - vm_compute. discriminate.
  - intros old Ho. exfalso. assert ((device_host_image_states (st_db both_created) !! (host_a, image_30)) = None) as E by (vm_compute; reflexivity). congruence.
Defined.

(** The whole cycle fails, so that nothing is scaled before the window has passed. *)
Lemma cycle_blocked_by_outcomes : (cycle 104 both_created).1 = Fail ErrCardinalityViolation /\ is_ok (cycle 404 both_created).1 = true.
Proof. split; vm_compute; reflexivity. Qed.
