(* ===== verification/DemandSpec.v ===== *)
(** * Demand, provisioning requests and what blocks a cycle

    The devices that a cycle creates for the pending reservations, the idempotence of a
    provisioning request, and three farms in which the warm pool goes past a limit or
    cannot complete a cycle. *)
From Stdlib Require Import SpecFloat.
From S2P Require Import Prelude GoText Errors Domain Json Sensitive Actor Store.
From S2P Require Import Float64 RuntimeProfile Capacity ReservationRepo TxFacts PoolSelector CommandRepo DeviceStore Reconcile DeviceOps.
From S2P Require Import ImageCatalog HostCommand HostSelection Completion WarmPool PoolCycle PoolScale.
From S2P Require Import ReservationService Scheduler ServiceFacts FarmSystem Samples FarmSafety ControlStep PoolMoves PoolFacts PoolSpec.

(** ** Demand *)

(** What one creation for a group leaves: a new device that serves the group. *)
Lemma create_for_demand_ok caps env s c s' :
  create_for_demand caps env s = (Ok (Some c), s') ->
  exists d, devices (st_db s) !! d_id d = None /\ devices (st_db s') = <[d_id d := d]> (devices (st_db s))
    /\ device_reservations (st_db s') = device_reservations (st_db s)
    /\ d_lifecycle d = DeviceProvisioning /\ d_platform d = "android"%string /\ docker_emulator d = true
    /\ obj_contains (d_capabilities d) caps = true.
Proof.
  unfold create_for_demand. intros H. apply bindT_ok in H as (db & s1 & E & H). injection E as <- <-.
  unfold demand_pool in H. destruct (first_where _ _) as [p|] eqn:Hp; [|done]. cbn in H.
  apply first_where_Some in Hp as [_ Hp]. unfold serves_demand in Hp.
  destruct (pool_template (st_db s) p) as [image|]; [|done]. cbn in H. guards.
  apply bindT_ok in H as (profile & s1 & E & H). apply expect_row_ok in E as [_ ->].
  apply bindT_ok in H as (host & s1 & E & H). apply lock_host_ro in E as ->.
  destruct host as [hostID|r]; [|done]. apply bindT_ok in H as (created & s1 & E & H). injection H as <- <-.
  apply createDeviceCommand_ok in E as (document & k & Hd & _ & _ & ->).
  eexists (created_row _ _ _ _ _ _). split_and!; [exact Hd|reflexivity|reflexivity|reflexivity|reflexivity|reflexivity|done].
Qed.

Lemma create_for_demand_miss caps env s s' : create_for_demand caps env s = (Ok None, s') -> s' = s.
Proof.
  unfold create_for_demand. intros H. apply bindT_ok in H as (db & s1 & E & H). injection E as <- <-.
  destruct (demand_pool _ _) as [[p image]|]; [|by injection H as <-].
  apply bindT_ok in H as (profile & s1 & E & H). apply expect_row_ok in E as [_ ->].
  apply bindT_ok in H as (host & s1 & E & H). apply lock_host_ro in E as ->.
  destruct host as [hostID|r]; [|by injection H as <-]. by apply bindT_ok in H as (created & s1 & E & H).
Qed.

(** Devices are added, none changes. *)
Record grown (db db' : DB) (n : Z) : Prop := {
  gr_devices : devices db ⊆ devices db';
  gr_size : Z.of_nat (size (devices db')) = Z.of_nat (size (devices db)) + n;
  gr_reservations : device_reservations db' = device_reservations db }.

Lemma grown_refl db : grown db db 0.
Proof. split; [done|lia|done]. Qed.

Lemma grown_trans db1 db2 db3 n m : grown db1 db2 n -> grown db2 db3 m -> grown db1 db3 (n + m).
Proof. intros [D1 S1 R1] [D2 S2 R2]. split; [by etrans|lia|congruence]. Qed.

Lemma count_where_subseteq {R} (f : R -> bool) (t t' : gmap string R) : t ⊆ t' -> count_where f (rows t) <= count_where f (rows t').
Proof.
  revert t'. induction t as [|k x t Hk IH] using map_ind; intros t' Hsub; [unfold count_where, rows; rewrite map_to_list_empty; cbn; lia|].
  assert (t' !! k = Some x) as Hx by (eapply lookup_weaken; [apply lookup_insert_eq|done]).
  rewrite <-(insert_delete_id t' k x) by done. rewrite !count_where_insert by (done || apply lookup_delete_eq).
  assert (t ⊆ delete k t') as Ht. { rewrite <-(delete_insert_id t k x) by done. by apply delete_mono. }
  apply IH in Ht. lia.
Qed.

Lemma in_flight_mono caps db db' n : grown db db' n -> in_flight_devices caps db <= in_flight_devices caps db'.
Proof. intros [D _ _]. by apply count_where_subseteq. Qed.

Lemma fill_group_ok caps n : forall env s r s', fill_group caps n env s = (Ok r, s') ->
  grown (st_db s) (st_db s') r.1 /\ 0 <= r.1 <= Z.of_nat n /\ 0 <= r.2
  /\ in_flight_devices caps (st_db s') = in_flight_devices caps (st_db s) + r.1
  /\ (r.2 = 0 -> r.1 = Z.of_nat n).
Proof.
  induction n as [|n IH]; intros env s r s' H; cbn [fill_group] in H.
  { injection H as <- <-. split_and!; cbn; try lia. apply grown_refl. }
  apply bindT_ok in H as (c & s1 & E & H). destruct c as [c|].
  - apply create_for_demand_ok in E as (d & Hd & Hdev & Hres & Hl & Hp & Hk & Hc).
    apply bindT_ok in H as (r1 & s2 & E & H). injection H as <- <-. cbn.
    apply IH in E as (Hg & Hb & ? & Hf & Hm). split_and!; [|lia|lia|lia| |lia].
    + rewrite (Z.add_comm r1.1). eapply grown_trans; [|exact Hg].
      split; rewrite ?Hdev; [by apply insert_subseteq|rewrite map_size_insert_None by done; lia|done].
    + rewrite Hf. assert (in_flight_devices caps (st_db s1) = in_flight_devices caps (st_db s) + 1); [|lia].
      unfold in_flight_devices. rewrite Hdev, count_where_insert by done.
      match goal with |- (if ?b then _ else _) + _ = _ => assert (b = true) as -> end; [|lia].
      unfold ready_or_creating, creating, lifecycle_is. by rewrite Hl, Hp, Hk, Hc.
  - apply create_for_demand_miss in E as ->. injection H as <- <-. split_and!; cbn; try lia. apply grown_refl.
Qed.

Lemma fill_groups_ok gs : forall env s r s', fill_groups gs env s = (Ok r, s') ->
  grown (st_db s) (st_db s') r.1 /\ 0 <= r.1 <= foldr Z.add 0 (map (fun g => Z.max (dg_deficit g) 0) gs) /\ 0 <= r.2
  /\ (r.2 = 0 -> forall g, g ∈ gs -> in_flight_devices (dg_caps g) (st_db s) + dg_deficit g <= in_flight_devices (dg_caps g) (st_db s')).
Proof.
  induction gs as [|g gs IH]; intros env s r s' H; cbn [fill_groups] in H.
  { injection H as <- <-. split_and!; cbn; try lia; [apply grown_refl|]. by intros _ g []%elem_of_nil. }
  apply bindT_ok in H as (a & s1 & E & H). apply fill_group_ok in E as (Hg & Hb & ? & Hf & Hm).
  apply bindT_ok in H as (b & s2 & E & H). injection H as <- <-. apply IH in E as (Hg2 & Hb2 & ? & Hall). cbn.
  split_and!; [by eapply grown_trans|lia|lia|lia|]. intros Hz x [->|Hx]%elem_of_cons.
  - apply (in_flight_mono (dg_caps g)) in Hg2. specialize (Hm ltac:(lia)). lia.
  - specialize (Hall ltac:(lia) x Hx). apply (in_flight_mono (dg_caps x)) in Hg. lia.
Qed.

(** The groups count every reservation once. *)
Lemma count_group_sum caps groups : foldr Z.add 0 (map snd (count_group caps groups)) = foldr Z.add 0 (map snd groups) + 1.
Proof. induction groups as [|[c n] rest IH]; cbn [count_group]; [done|]. destruct (json_eqb _ _); cbn; [lia|]. rewrite IH. lia. Qed.

Lemma pending_groups_sum db : foldr Z.add 0 (map snd (pending_groups db)) = globalPendingCount db.
Proof.
  unfold pending_groups, globalPendingCount, count_where. induction (reservations db) as [|r l IH]; [done|]. cbn [foldr List.filter].
  destruct (android_demand r); [|done]. rewrite count_group_sum, IH. cbn [length]. lia.
Qed.

(** C38: the demand of the pending reservations.  A cycle only adds devices, at most the
    deficits of the groups of reservations, and changes no reservation; when it reports no
    miss, every group of pending reservations has as many emulators coming or ready that
    serve it as it has reservations.  The groups count every pending Android reservation
    once, and the order of the groups in the database does not matter. *)
Theorem demand_served (order : list (obj * Z) -> list (obj * Z)) env s created misses s' :
  (forall l, (order l ≡ₚ l)) -> demand_tx order env s = (Ok (created, misses), s') ->
  grown (st_db s) (st_db s') created
  /\ 0 <= created <= foldr Z.add 0 (map (fun g => Z.max (dg_deficit g) 0) (demand_groups order (st_db s)))
  /\ foldr Z.add 0 (map snd (pending_groups (st_db s))) = globalPendingCount (st_db s)
  /\ (misses = 0 -> forall caps n, ((caps, n) ∈ pending_groups (st_db s)) -> n <= in_flight_devices caps (st_db s')).
Proof.
  intros Hperm H. unfold demand_tx in H. apply bindT_ok in H as (db & s1 & E & H). injection E as <- <-.
  apply fill_groups_ok in H as (Hg & Hb & _ & Hall). split_and!; [done|exact (proj1 Hb)|exact (proj2 Hb)|apply pending_groups_sum|].
  intros Hz caps n Hin. destruct (Z.lt_ge_cases 0 (n - in_flight_devices caps (st_db s))) as [Hlt|Hge].
  - specialize (Hall Hz (mkDemandGroup caps (n - in_flight_devices caps (st_db s)))). cbn in Hall.
    enough (in_flight_devices caps (st_db s) + (n - in_flight_devices caps (st_db s)) <= in_flight_devices caps (st_db s')) by lia.
    apply Hall. unfold demand_groups. apply list_elem_of_omap. exists (caps, n). split; [by rewrite Hperm|]. cbn.
    by apply Z.ltb_lt in Hlt as ->.
  - apply (in_flight_mono caps) in Hg. lia.
Qed.

Lemma demand_served_witness :
  exists r s', demand_tx keep_order (warm_env 101) two_requests = (Ok r, s') /\ r = (2, 0)
    /\ Forall (fun g => g.2 <= in_flight_devices g.1 (st_db s')) (pending_groups (st_db two_requests)).
Proof.
  destruct (demand_tx keep_order (warm_env 101) two_requests) as [[r|e] s'] eqn:H; [|exfalso; vm_compute in H; discriminate H].
  assert (r = (2, 0)) as ->.
  { assert (Ok r = (demand_tx keep_order (warm_env 101) two_requests).1) as E by (rewrite H; reflexivity). vm_compute in E. congruence. }
  exists (2, 0), s'. split; [reflexivity|]. split; [reflexivity|]. apply Forall_forall. intros [caps n] Hin.
  apply (demand_served keep_order (warm_env 101) two_requests 2 0 s'); [intros l; reflexivity|exact H|reflexivity|exact Hin].
Defined.

(** ** A provisioning request is made once *)
Lemma long_key_nonempty key : (8 <=? len key) = true -> nonempty key = true.
Proof. by destruct key. Qed.

Lemma created_key imageID runtimeImage digest hostID capabilities key now c document k :
  nonempty key = true ->
  let command := created_command imageID runtimeImage digest hostID capabilities key now c document k in
  command_type_in ["create"%string] command && payload_is "provisioning_key" key command = true
  /\ provisioned command = mkProvisioning (cd_CommandID c) (cd_DeviceID c) (cd_CommandID c) hostID "provisioning" "" "" None.
Proof.
  intros Hk. cbn. unfold provisioned, payload_is, command_type_in, created_command, create_payload, new_command. rewrite Hk. cbn.
  split; [|done]. rewrite !bool_decide_eq_true_2; [done|done|by apply list_elem_of_singleton].
Qed.

Lemma provision_recorded input phone env s p s' :
  nonempty (pi_IdempotencyKey input) = true -> provision_tx input phone env s = (Ok (Ok p), s') ->
  exists c, provisioned_by (pi_IdempotencyKey input) (st_db s') = Some c /\ provisioned c = p.
Proof.
  intros Hk H. unfold provision_tx in H. apply bindT_ok in H as (db & s1 & E & H). injection E as <- <-.
  destruct (provisioned_by _ (st_db s)) as [c|] eqn:Hnone; [injection H as <- <-; eauto|].
  do 5 (apply bindT_ok in H as (? & s1 & E & H); (apply expect_row_ok in E as [_ ->] || apply guardT_ok in E as [_ ->])).
  apply bindT_ok in H as (host & s1 & E & H). apply lock_host_ro in E as ->. destruct host as [hostID|r]; [|done].
  apply bindT_ok in H as (created & s1 & E & H). apply createDeviceCommand_ok in E as (document & k & _ & _ & Hc & Hdb).
  apply bindT_ok in H as (now & s2 & E & H). injection E as _ <-. apply bindT_ok in H as (u & s2 & E & H). injection E as _ <-.
  injection H as <- <-. unfold provisioned_by in Hnone |- *. rewrite first_where_None in Hnone.
  pose proof (fun d e f g => created_key d e f hostID g (pi_IdempotencyKey input) (env_clock env) created document k Hk) as Hnew.
  cbn [st_db set_field commands]. unfold commands in *. cbn. rewrite Hdb. cbn.
  destruct (first_where _ _) as [c|] eqn:Hf.
  - apply first_where_Some in Hf as [Hin Hp]. rewrite elem_of_order_by, elem_of_rows in Hin. destruct Hin as [i Hi].
    apply lookup_insert_Some in Hi as [[_ <-]|[_ Hi]].
    + eexists. split; [done|]. apply Hnew.
    + rewrite Hnone in Hp; [done|]. apply elem_of_order_by, elem_of_rows. eauto.
  - exfalso. rewrite first_where_None in Hf. edestruct Hnew as [Hp _]. erewrite Hf in Hp; [done|].
    apply elem_of_order_by, elem_of_rows. exists (cd_CommandID created). apply lookup_insert_eq.
Qed.

(** a provisioning request is idempotent.  Repeating a request that was accepted, at
    any time and whatever else the repetition finds locked, answers with the same device,
    command and host, and writes nothing. *)
Theorem provision_idempotent input env env' s p s' :
  Provision input env s = (Ok (Ok p), s') -> Provision input env' s' = (Ok (Ok p), s').
Proof.
  intros H. unfold Provision in H.
  apply bindT_ok in H as (u & s1 & E & H). apply guardT_ok in E as [G1 ->].
  apply bindT_ok in H as (u1 & s1 & E & H). apply guardT_ok in E as [G2 ->].
  apply bindT_ok in H as (phone & s1 & E & H). apply expect_row_ok in E as [G3 ->].
  unfold WithinTx in H. destruct (provision_tx input phone env s) as [[[q|r]|e] s1] eqn:E; [|done|done]. injection H as -> ->.
  assert (nonempty (pi_IdempotencyKey input) = true) as Hk by (guards; by apply long_key_nonempty).
  apply provision_recorded in E as (c & Hc & <-); [|done].
  unfold Provision. rewrite G1, G2, G3. unfold mbind, Tx_bind, M_bind. cbn. unfold WithinTx, provision_tx, mbind, Tx_bind, M_bind.
  cbn. by rewrite Hc.
Qed.

Definition phone_request : ProvisionInput := mkProvisionInput pool_a image_30 "pixel_8" Default "provision-key-1".

Lemma provision_idempotent_witness :
  exists p s', Provision phone_request (warm_env 100) warm_state = (Ok (Ok p), s')
    /\ pv_DeviceID p = "identifier-000010"%string /\ Provision phone_request (warm_env 500) s' = (Ok (Ok p), s').
Proof.
  destruct (Provision phone_request (warm_env 100) warm_state) as [[[p|r]|e] s'] eqn:H; [|exfalso; vm_compute in H; discriminate H..].
  exists p, s'. split_and!; [reflexivity| |exact (provision_idempotent phone_request (warm_env 100) (warm_env 500) warm_state p s' H)].
  assert (match (Provision phone_request (warm_env 100) warm_state).1 with Ok (Ok q) => pv_DeviceID q | _ => ""%string end = "identifier-000010"%string) as E
    by (vm_compute; reflexivity).
  rewrite H in E. exact E.
Defined.

(** ** What the code does not check *)

(** Host A has no slot left, the pool of host B allows one device. *)
Definition full_a : St :=
  two_requests <| st_db := set_field device_reservations (fun _ => device_reservations (st_db two_requests)) (warm_db 0 4 0 0 1) |>.

(** the limit of a pool can be exceeded.  The demand of the reservations tests the
    limit of the pool whose template it uses, but the new device is attributed to the
    pool named after its host: here pool A still allows devices, its host is full, and
    both devices go to pool B, which allows one. *)
Theorem demand_exceeds_limit :
  match cycle 101 full_a with
  | (Ok counts, s) => n_DevicesCreated counts = 2 /\ member_count pool_a (st_db s) = 0 /\ member_count pool_b (st_db s) = 2
      /\ option_map p_max_concurrency (device_pools (st_db s) !! pool_b) = Some 1
  | (Fail _, _) => False
  end.
Proof. vm_compute. done. Qed.

(** A creation fails, then its cleanup fails, and the cycle queues the cleanup of the
    device that was quarantined. *)
Definition one_request : St := after (run (OpCreate (android_request "reservation-0001" "create-key-1"))) (warm_env 100) warm_state.
Definition failed_create : St := finish 102 host_a CommandFailed None (after (PoolScale.RunOnce keep_order None) (warm_env 101) one_request).
Definition failed_cleanup : St := finish 104 host_a CommandFailed None (after (PoolScale.RunOnce keep_order None) (warm_env 103) failed_create).
Definition second_cleanup : St := after (PoolScale.RunOnce keep_order None) (warm_env 105) failed_cleanup.

(** Two simulators in a pool that wants one; the second is being deleted, and fails. *)
Definition simulator (id : string) : DeviceRow :=
  idle_emulator id <| d_platform := "ios"%string |> <| d_device_kind := "simulator"%string |>
    <| d_provider_type := "appium_device_farm_ios"%string |> <| d_image_id := None |>.
Definition simulator_farm : St :=
  set_field st_db (set_field devices (fun _ => <[emulator_1 := simulator emulator_1]> (<[emulator_2 := simulator emulator_2]> ∅))) idle_farm.
Definition simulator_pool : St :=
  set_field st_db (set_field device_pools (fun _ => <[pool_a := warm_pool pool_a "iOS - 10.0.0.1" 1 4 <| p_base_device_id := Some emulator_1 |>
    <| p_platform := "ios"%string |>]> ∅)) simulator_farm.
Definition failed_delete : St := finish 12 host_a CommandFailed None (after (PoolScale.RunOnce keep_order None) (warm_env 11) simulator_pool).

(** two kinds of cleanup block the cycle when they are retried, because the key of the
    command does not change.  While the second cleanup of a device whose first cleanup
    failed is in flight, the cycle queues the first one again and violates the unique
    index on the host and the key.  A simulator whose deletion failed is chosen again, with
    the key of the deletion that failed: from then on every cycle fails, an hour later
    too, and no pool is scaled. *)
Theorem retried_cleanup_blocks_cycle :
  let blocked := Fail (ErrUniqueViolation "uq_device_host_commands_idempotency") in
  (cycle 106 second_cleanup).1 = blocked /\ is_ok (cycle 11 simulator_pool).1 = true
  /\ (cycle 13 failed_delete).1 = blocked /\ (cycle 3600 failed_delete).1 = blocked.
Proof. vm_compute. done. Qed.
