(* ===== verification/IOSSessionSpec.v ===== *)
(** * Properties of the iOS sessions

    The life of a grant and of the Appium session behind it as a step relation on the
    fence columns of a session, and that every transaction of the service takes one of
    its steps; the single use of a grant; the request that reaches the fence; the end of
    a reservation; and the loop that quarantines drifted devices. *)
From Stdlib Require Import Ascii.
From S2P Require Import Prelude GoText Errors Domain DomainSpec Json Sensitive Actor Store.
From S2P Require Import RuntimeProfile ReservationRepo TxFacts ServiceFacts CommandRepo DeviceStore Reconcile DeviceOps Completion PoolCycle.
From S2P Require Import IOSSession FarmSystem Samples FarmSafety ControlStep PoolMoves SessionMoves ControlPlane SessionsKept HostCommand HeartbeatSpec PoolFacts.

(** ** What the queries and the updates do *)
(** A binding as the joins of the database give it. *)
Record joined (db : DB) (b : bindingRecord) : Prop := {
  jo_session : device_sessions db !! s_ID (b_Session b) = Some (b_Session b);
  jo_reservation : device_reservations db !! s_ReservationID (b_Session b) = Some (b_Reservation b);
  jo_device : devices db !! s_DeviceID (b_Session b) = Some (b_Device b);
  jo_host : device_hosts db !! d_host_id (b_Device b) = Some (b_Host b);
  jo_snapshot : b_SnapshotHostID b = default ""%string (get_text (s_ConnectionMetadata (b_Session b)) "host_id") }.

Lemma binding_ok now db k x env s b s' :
  sessions_keyed db -> device_sessions db !! k = Some x -> binding_of now db x env s = (Ok (Some b), s') -> joined db b /\ b_Session b = x.
Proof.
  intros Hk Hx H. pose proof (Hk _ _ Hx) as <-. unfold binding_of in H.
  destruct (device_reservations db !! _) as [r|] eqn:Hr; [|done]. destruct (devices db !! _) as [d|] eqn:Hd; [|done].
  destruct (device_hosts db !! _) as [h|] eqn:Hh; [|done]. apply bindT_ok in H as (busy & s1 & _ & H). injection H as <- _.
  split; [|done]. by split.
Qed.

Lemma grant_binding_ok hash env s b s' :
  sessions_keyed (st_db s) -> getBindingByGrant hash env s = (Ok b, s') ->
  s' = s /\ joined (st_db s) b /\ f_GrantHash (s_Fence (b_Session b)) = Some hash.
Proof.
  intros Hk H. pose proof (grant_binding_ro _ _ _ _ _ H) as ->. split; [done|]. unfold getBindingByGrant in H.
  apply bindT_ok in H as (now & s1 & E & H). injection E as _ <-. apply bindT_ok in H as (db & s2 & E & H). injection E as <- <-.
  destruct (first_where _ _) as [x|] eqn:Hx; [|done]. apply first_where_Some in Hx as [[k Hx]%elem_of_rows Hg].
  apply bindT_ok in H as (o & s3 & E & H). apply expect_row_ok in H as [-> ->].
  apply binding_ok with (k := k) in E as [Hj ->]; [|done|done]. split; [done|]. by apply bool_decide_eq_true in Hg.
Qed.

Lemma reservation_binding_ok id env s b s' :
  sessions_keyed (st_db s) -> reservation_binding id env s = (Ok b, s') -> s' = s /\ joined (st_db s) b /\ s_ReservationID (b_Session b) = id.
Proof.
  intros Hk H. pose proof (reservation_binding_ro _ _ _ _ _ H) as ->. split; [done|]. unfold reservation_binding in H.
  apply bindT_ok in H as (now & s1 & E & H). injection E as _ <-. apply bindT_ok in H as (db & s2 & E & H). injection E as <- <-.
  destruct (session_of _ _) as [x|] eqn:Hx; [|done]. apply session_of_spec in Hx as [Hr [k Hx]].
  apply bindT_ok in H as (o & s3 & E & H). apply expect_row_ok in H as [-> ->].
  apply binding_ok with (k := k) in E as [Hj ->]; done.
Qed.

(** A session after an update of its fence columns. *)
Definition refenced (now : Z) (f : FenceColumns) (x : SessionRecord) : SessionRecord := x <| s_Fence := f |> <| s_UpdatedAt := now |>.

Lemma update_fence_ok id g f now env s n s' :
  update_fence id g f now env s = (Ok n, s') ->
  (n = 0 /\ s' = s)
  \/ exists x, n = 1 /\ device_sessions (st_db s) !! id = Some x /\ g x = true /\ fence_order (f (s_Fence x)) = true
       /\ (forall k y, device_sessions (st_db s) !! k = Some y -> s_ID y <> id -> fence_conflict (refenced now (f (s_Fence x)) x) y = None)
       /\ s' = on_db (put_session id (refenced now (f (s_Fence x)) x)) s.
Proof.
  intros H. unfold update_fence in H. apply bindT_ok in H as (db & s1 & E & H). injection E as <- <-.
  destruct (_ !! id) as [x|] eqn:Hx; [|injection H as <- <-; by left]. destruct (g x) eqn:Hg; [|injection H as <- <-; by left].
  cbv zeta in H. apply bindT_ok in H as (u & s1 & E & H). apply guardT_ok in E as [Ho ->]. right. exists x.
  match type of H with (match ?o with _ => _ end) _ _ = _ => destruct o eqn:Hc; [done|] end. injection H as <- <-.
  split_and!; try done. intros k y Hy Hne. assert (y ∈ rows (device_sessions (st_db s))) as Hin by (apply elem_of_rows; eauto).
  clear -Hc Hin Hne. induction (rows _) as [|z l IH]; [by apply elem_of_nil in Hin|]. cbn [foldr] in Hc.
  destruct (String.eqb_spec (s_ID z) id) as [He|]; [|destruct (fence_conflict _ z) eqn:Hz; [done|]];
    apply elem_of_cons in Hin as [->|Hin]; try done; by apply IH.
Qed.

Lemma update_fence_here id g f now x env s n s' :
  device_sessions (st_db s) !! id = Some x -> g x = true -> update_fence id g f now env s = (Ok n, s') ->
  s' = on_db (put_session id (refenced now (f (s_Fence x)) x)) s.
Proof.
  intros Hx Hg H. unfold update_fence in H. apply bindT_ok in H as (db & s1 & E & H). injection E as <- <-. rewrite Hx, Hg in H. cbv zeta in H.
  apply bindT_ok in H as (u & s1 & E & H). apply guardT_ok in E as [_ ->].
  match type of H with (match ?o with _ => _ end) _ _ = _ => destruct o; [done|] end. by injection H as _ <-.
Qed.

(** ** The life of a grant and its Appium session *)

(** One step of the fence columns of a session, with what allows it: a grant is issued,
    used and bound only for a device in active use, on the host that the session was made
    for.  [issued] are the hashes of the grants that are issued. *)
Definition in_use (db : DB) (now : Z) (x : SessionRecord) : Prop :=
  exists b, joined db b /\ b_Session b = x /\ available b now = true /\ b_SnapshotHostID b = d_host_id (b_Device b).

Inductive fence_move (issued : string -> Prop) (db : DB) (now : Z) (x : SessionRecord) : FenceColumns -> Prop :=
  | move_issue hash expires :
      issued hash -> in_use db now x -> s_Status x = SessionActive -> f_AppiumSessionID (s_Fence x) = None -> now < expires ->
      (exists r e, device_reservations db !! s_ReservationID x = Some r /\ r_ExpiresAt r = Some e /\ expires <= e) ->
      fence_move issued db now x (s_Fence x <| f_GrantHash := Some hash |> <| f_GrantExpiresAt := Some expires |> <| f_GrantConsumedAt := None |>)
  | move_consume expires :
      in_use db now x -> is_Some (f_GrantHash (s_Fence x)) -> f_GrantConsumedAt (s_Fence x) = None ->
      f_GrantExpiresAt (s_Fence x) = Some expires -> now < expires ->
      fence_move issued db now x (s_Fence x <| f_GrantConsumedAt := Some now |>)
  | move_bind id :
      in_use db now x -> is_Some (f_GrantConsumedAt (s_Fence x)) -> f_AppiumSessionID (s_Fence x) = None ->
      fence_move issued db now x (s_Fence x <| f_AppiumSessionID := Some id |> <| f_AppiumStartedAt := Some now |> <| f_AppiumEndedAt := None |>)
  | move_close :
      is_Some (f_AppiumSessionID (s_Fence x)) -> f_AppiumEndedAt (s_Fence x) = None ->
      (forall t, f_AppiumStartedAt (s_Fence x) = Some t -> t <= now) ->
      fence_move issued db now x (s_Fence x <| f_AppiumEndedAt := Some now |>).

(** The sessions after a transaction: as before, or one of them moved; a grant that is
    written is the grant of no other session, and an Appium session that is opened is the
    only open one of its device. *)
Inductive fence_step (issued : string -> Prop) (now : Z) (db : DB) : DB -> Prop :=
  | step_none db' : device_sessions db' = device_sessions db -> fence_step issued now db db'
  | step_move db' x f :
      device_sessions db !! s_ID x = Some x -> fence_move issued db now x f ->
      (forall k y, device_sessions db !! k = Some y -> s_ID y <> s_ID x -> fence_conflict (refenced now f x) y = None) ->
      device_sessions db' = <[s_ID x := refenced now f x]> (device_sessions db) ->
      fence_step issued now db db'.

#[export] Instance fence_audit_keeps a b c d e : SameSessions (IOSSession.insertAudit a b c d e).
Proof. unfold IOSSession.insertAudit, insertAuditResource, insert_audit. solve_keeps. Qed.

(** A step that an update of the fence columns takes. *)
Lemma update_step issued env s id g f n s1 :
  sessions_keyed (st_db s) -> update_fence id g f (env_clock env) env s = (Ok n, s1) ->
  (forall x, device_sessions (st_db s) !! id = Some x -> g x = true -> fence_order (f (s_Fence x)) = true ->
     fence_move issued (st_db s) (env_clock env) x (f (s_Fence x))) ->
  fence_step issued (env_clock env) (st_db s) (st_db s1).
Proof.
  intros Hk [[_ ->]|(x & _ & Hx & Hg & Ho & Hc & ->)]%update_fence_ok Hf; [by constructor|].
  pose proof (Hk _ _ Hx) as <-. eapply step_move; [exact Hx|by apply Hf|exact Hc|done].
Qed.

Lemma step_frame issued now db db1 db2 : fence_step issued now db db1 -> device_sessions db2 = device_sessions db1 -> fence_step issued now db db2.
Proof. intros H E. destruct H as [db1 H|db1 x f Hx Hm Hc H]; [apply step_none|eapply step_move; [done|done|done|]]; by rewrite E. Qed.

Lemma fence_step_mono (issued issued' : string -> Prop) now db db' :
  (forall h, issued h -> issued' h) -> fence_step issued now db db' -> fence_step issued' now db db'.
Proof.
  intros Hi [db1 H|db1 x f Hx Hm Hc H]; [by apply step_none|]. eapply step_move; [exact Hx| |exact Hc|exact H].
  destruct Hm as [h e Hh ? ? ? ? ?|e ? ? ? ? ?|id ? ? ?|? ? ?]; [apply move_issue; auto|by eapply move_consume|by apply move_bind|by apply move_close].
Qed.

(** [available] and the two comparisons of the host. *)
Lemma use_intro db now b hostID :
  joined db b -> available b now = true -> d_host_id (b_Device b) = hostID -> b_SnapshotHostID b = hostID -> in_use db now (b_Session b).
Proof. intros Hj Ha <- Hs. by exists b. Qed.

Ltac split_guards :=
  repeat match goal with
  | H : (_ && _) = true |- _ => apply andb_true_iff in H as [? ?]
  | H : String.eqb _ _ = true |- _ => apply String.eqb_eq in H
  | H : bool_decide _ = true |- _ => apply bool_decide_eq_true in H
  end.

Section Transactions.
Context (issued : string -> Prop) (env : Env) (s s' : St) (Hk : sessions_keyed (st_db s)).
Abbreviation Steps := (fence_step issued (env_clock env) (st_db s) (st_db s')).

Lemma issue_step parse print loopback actor id requestID grant hash ownerType ownerID ttl r :
  issued hash -> 0 < ttl -> issue_tx parse print loopback actor id requestID grant hash ownerType ownerID ttl env s = (Ok r, s') -> Steps.
Proof.
  intros Hissued Ht H. unfold issue_tx in H. apply bindT_ok in H as (b & s1 & E & H). apply reservation_binding_ok in E as (-> & Hj & Hid); [|done].
  apply bindT_ok in H as (now & s1 & E & H). injection E as <- <-. cbv zeta in H.
  apply bindT_ok in H as (u & s1 & E & H). apply guardT_ok in E as [_ ->].
  apply bindT_ok in H as (u1 & s1 & E & H). apply guardT_ok in E as [Ha ->].
  destruct (b_ProviderBusy b); [destruct (b_RecentCleanup b); [done|injection H as _ <-; by constructor]|].
  apply bindT_ok in H as (u2 & s1 & E & H). apply guardT_ok in E as [Hn ->].
  apply bindT_ok in H as (endpoint & s1 & E & H). apply lift_ok in E as [_ ->].
  apply bindT_ok in H as (n & s1 & E & H). apply bindT_ok in H as (u3 & s2 & E2 & H). injection H as _ <-.
  eapply step_frame; [|by apply (keeps (g := device_sessions) _ _ _ _ E2)]. eapply update_step; [done|exact E|].
  intros y Hx _ _. rewrite (jo_session _ _ Hj) in Hx. injection Hx as <-.
  apply andb_true_iff in Ha as [[Ha Hst]%andb_true_iff Hsnap]. pose proof Ha as Hav. unfold available in Hav. split_guards.
  match goal with H : after_now _ (r_ExpiresAt _) = true |- _ => unfold after_now in H; destruct (r_ExpiresAt (b_Reservation b)) as [e|] eqn:He; [apply Z.ltb_lt in H|done] end.
  apply move_issue; [done|by eapply use_intro|done|done|unfold Second; lia|].
  exists (b_Reservation b), e. split_and!; [apply Hj|done|lia].
Qed.

Lemma consume_step hash requestID input r : consume_tx hash requestID input env s = (Ok r, s') -> Steps.
Proof.
  intros H. unfold consume_tx in H. apply bindT_ok in H as (b & s1 & E & H). apply grant_binding_ok in E as (-> & Hj & Hg); [|done].
  apply bindT_ok in H as (now & s1 & E & H). injection E as <- <-. cbv zeta in H.
  do 4 (apply bindT_ok in H as (? & s1 & E & H); apply guardT_ok in E as [? ->]).
  destruct (b_ProviderBusy b); [destruct (b_RecentCleanup b); [done|injection H as _ <-; by constructor]|].
  apply bindT_ok in H as (pinned & s1 & E & H). apply lift_ok in E as [_ ->].
  apply bindT_ok in H as (n & s1 & E & H). apply bindT_ok in H as (u3 & s2 & E2 & H). injection H as _ <-.
  eapply step_frame; [|by apply (keeps (g := device_sessions) _ _ _ _ E2)]. eapply update_step; [done|exact E|].
  intros y Hx _ _. rewrite (jo_session _ _ Hj) in Hx. injection Hx as <-. split_guards.
  match goal with H : after_now _ (f_GrantExpiresAt _) = true |- _ => unfold after_now in H;
    destruct (f_GrantExpiresAt (s_Fence (b_Session b))) as [e|] eqn:He; [apply Z.ltb_lt in H|done] end.
  eapply move_consume; [by eapply use_intro|by rewrite Hg|done|exact He|done].
Qed.

Lemma bound_step hash requestID input u : bind_tx hash requestID input env s = (Ok u, s') -> Steps.
Proof.
  intros H. unfold bind_tx in H. apply bindT_ok in H as (b & s1 & E & H). apply grant_binding_ok in E as (-> & Hj & Hg); [|done].
  apply bindT_ok in H as (now & s1 & E & H). injection E as <- <-. cbv zeta in H.
  do 2 (apply bindT_ok in H as (? & s1 & E & H); apply guardT_ok in E as [? ->]).
  destruct (f_AppiumSessionID _) as [id|] eqn:Hid; [apply guardT_ok in H as [_ ->]; by constructor|].
  apply bindT_ok in H as (id & s1 & E & H). apply varchar_ro in E as ->.
  apply bindT_ok in H as (n & s1 & E & H).
  eapply step_frame; [|by apply (keeps (g := device_sessions) _ _ _ _ H)]. eapply update_step; [done|exact E|].
  intros y Hx _ _. rewrite (jo_session _ _ Hj) in Hx. injection Hx as <-. split_guards.
  apply move_bind; [by eapply use_intro|done|done].
Qed.

(** An end that the check constraint accepts. *)
Lemma close_move x : is_Some (f_AppiumSessionID (s_Fence x)) -> f_AppiumEndedAt (s_Fence x) = None ->
  fence_order (s_Fence x <| f_AppiumEndedAt := Some (env_clock env) |>) = true ->
  fence_move issued (st_db s) (env_clock env) x (s_Fence x <| f_AppiumEndedAt := Some (env_clock env) |>).
Proof.
  intros Hid Hn Ho. apply move_close; [done|done|]. intros t Hs. unfold fence_order in Ho. cbn in Ho. rewrite Hs in Ho. by apply Z.leb_le.
Qed.

Lemma close_step hash requestID input u : close_tx hash requestID input env s = (Ok u, s') -> Steps.
Proof.
  intros H. unfold close_tx in H. apply bindT_ok in H as (b & s1 & E & H). apply grant_binding_ok in E as (-> & Hj & Hg); [|done]. cbv zeta in H.
  apply bindT_ok in H as (? & s1 & E & H). apply guardT_ok in E as [Hid ->].
  destruct (bool_decide (is_Some (f_AppiumEndedAt _))); [injection H as _ <-; by constructor|].
  apply bindT_ok in H as (now & s1 & E & H). injection E as <- <-. apply bindT_ok in H as (n & s1 & E & H).
  eapply step_frame; [|by apply (keeps (g := device_sessions) _ _ _ _ H)]. eapply update_step; [done|exact E|].
  intros y Hx Hx2 Ho. rewrite (jo_session _ _ Hj) in Hx. injection Hx as <-. cbv beta in *. split_guards. apply close_move; [by eexists|done|done].
Qed.

Lemma closed_step id deviceID hostID sessionID appium u : closed_tx id deviceID hostID sessionID appium env s = (Ok u, s') -> Steps.
Proof.
  intros H. unfold closed_tx in H. apply bindT_ok in H as (now & s1 & E & H). injection E as <- <-.
  apply bindT_ok in H as (n & s1 & E & H).
  eapply step_frame; [|destruct (n =? 0); [by injection H as _ <-|by apply (keeps (g := device_sessions) _ _ _ _ H)]].
  eapply update_step; [done|exact E|]. intros x Hx Hx2 Ho. cbv beta in *. split_guards. apply close_move; [by eexists|done|done].
Qed.

Lemma failure_step hash requestID code input u : failure_tx hash requestID code input env s = (Ok u, s') -> Steps.
Proof. intros H. constructor. assert (SameSessions (failure_tx hash requestID code input)) as K by (unfold failure_tx, insert_health_event; solve_keeps). by apply K in H. Qed.

Lemma quarantine_step id reservationID event reason payload u : quarantine_tx id reservationID event reason payload env s = (Ok u, s') -> Steps.
Proof.
  intros H. constructor. assert (SameSessions (quarantine_tx id reservationID event reason payload)) as K; [|by apply K in H].
  unfold quarantine_tx, report_drift, insertAuditResource, insert_audit, insert_health_event, save_device, ensure_health, ensure_lifecycle. solve_keeps.
Qed.
End Transactions.

(** ** The protocol *)

(** The transactions of the service, as the control plane lists them. *)
Definition session_operation (op : control_operation) : Prop :=
  match op with
  | CtlIssue _ _ _ _ _ _ _ _ _ _ ttl => 0 < ttl
  | CtlConsume _ _ _ | CtlBind _ _ _ | CtlClose _ _ _ | CtlFailure _ _ _ _ | CtlClosed _ _ _ _ _ | CtlQuarantine _ _ _ _ _ => True
  | _ => False
  end.

(** The grants that an operation issues. *)
Definition issued_by (op : control_operation) (h : string) : Prop :=
  match op with CtlIssue _ _ _ _ _ _ _ hash _ _ _ => h = hash | _ => False end.

Lemma operation_step op env s r s' :
  sessions_keyed (st_db s) -> session_operation op -> run_control op env s = (r, s') -> fence_step (issued_by op) (env_clock env) (st_db s) (st_db s').
Proof.
  intros Hk Hop [(u & _ & H)|(e & _ & Hdb)]%WithinTx_result; [|rewrite Hdb; by constructor].
  destruct op; cbn in Hop; try done; cbv iota in H; unfold ignore in H; apply bindT_ok in H as (x & s1 & H & [= _ <-]).
  - by eapply issue_step.
  - by eapply consume_step.
  - by eapply bound_step.
  - by eapply close_step.
  - by eapply failure_step.
  - by eapply closed_step.
  - by eapply quarantine_step.
Qed.

(** C10: the session service follows the life of a grant.  A transaction of the service
    changes at most one session, and only by one step: a grant is issued for a session
    without an Appium session and expires with the reservation at the latest; it is
    consumed once, before it expires; an Appium session is bound after that, once; and it
    ends once, after it started.  A grant is issued, consumed and bound only while the
    reservation is active and not expired, its device is busy and healthy on an online
    host, and that host is the one the session was made for; no other session has the
    grant, and no other session of the device has an open Appium session. *)
Theorem session_protocol op env s r s' :
  sessions_keyed (st_db s) -> session_operation op -> run_control op env s = (r, s') -> fence_step (issued_by op) (env_clock env) (st_db s) (st_db s').
Proof. apply operation_step. Qed.

(** ** Well-formed sessions *)
Record fence_valid (db : DB) : Prop := {
  fv_keyed : sessions_keyed db;
  fv_consumed k x : device_sessions db !! k = Some x -> is_Some (f_GrantConsumedAt (s_Fence x)) -> is_Some (f_GrantHash (s_Fence x));
  fv_bound k x : device_sessions db !! k = Some x -> is_Some (f_AppiumSessionID (s_Fence x)) ->
    is_Some (f_GrantConsumedAt (s_Fence x)) /\ is_Some (f_AppiumStartedAt (s_Fence x));
  fv_ended k x : device_sessions db !! k = Some x -> is_Some (f_AppiumEndedAt (s_Fence x)) -> is_Some (f_AppiumSessionID (s_Fence x));
  fv_order k x a b : device_sessions db !! k = Some x -> f_AppiumStartedAt (s_Fence x) = Some a -> f_AppiumEndedAt (s_Fence x) = Some b -> a <= b;
  fv_grant k1 k2 x1 x2 h : device_sessions db !! k1 = Some x1 -> device_sessions db !! k2 = Some x2 ->
    f_GrantHash (s_Fence x1) = Some h -> f_GrantHash (s_Fence x2) = Some h -> k1 = k2;
  fv_open k1 k2 x1 x2 : device_sessions db !! k1 = Some x1 -> device_sessions db !! k2 = Some x2 ->
    open_appium x1 = true -> open_appium x2 = true -> s_DeviceID x1 = s_DeviceID x2 -> k1 = k2 }.

Lemma no_fence_conflict x y :
  fence_conflict x y = None ->
  (forall h, f_GrantHash (s_Fence x) = Some h -> f_GrantHash (s_Fence y) <> Some h)
  /\ (open_appium x = true -> open_appium y = true -> s_DeviceID x <> s_DeviceID y).
Proof.
  unfold fence_conflict. destruct (negb _ && _) eqn:E1; [done|]. destruct (open_appium x && _ && _) eqn:E2; [done|]. intros _. split.
  - intros h Hx Hy. rewrite Hx, Hy in E1. rewrite bool_decide_eq_false_2, bool_decide_eq_true_2 in E1; done.
  - intros Hx Hy He. rewrite Hx, Hy, He, String.eqb_refl in E2. done.
Qed.

(** What one step leaves of the columns of the session that moved. *)
Lemma moved_columns issued db now x f :
  fence_move issued db now x f ->
  (is_Some (f_GrantConsumedAt (s_Fence x)) -> is_Some (f_GrantHash (s_Fence x))) ->
  (is_Some (f_AppiumSessionID (s_Fence x)) -> is_Some (f_GrantConsumedAt (s_Fence x)) /\ is_Some (f_AppiumStartedAt (s_Fence x))) ->
  (is_Some (f_AppiumEndedAt (s_Fence x)) -> is_Some (f_AppiumSessionID (s_Fence x))) ->
  (is_Some (f_GrantConsumedAt f) -> is_Some (f_GrantHash f))
  /\ (is_Some (f_AppiumSessionID f) -> is_Some (f_GrantConsumedAt f) /\ is_Some (f_AppiumStartedAt f))
  /\ (is_Some (f_AppiumEndedAt f) -> is_Some (f_AppiumSessionID f)).
Proof.
  intros [h e _ _ _ Hid _ _|e _ Hh Hc _ _|id _ Hc Hid|Hid He _] H1 H2 H3; cbn; rewrite ?Hid in *; split_and!; intros H; auto;
    try (by destruct H); try (by eexists); try (apply H2 in H as [??]; split; [by eexists|done]).
Qed.

Lemma move_order issued db now x f a b :
  fence_move issued db now x f -> (forall a b, f_AppiumStartedAt (s_Fence x) = Some a -> f_AppiumEndedAt (s_Fence x) = Some b -> a <= b) ->
  f_AppiumStartedAt f = Some a -> f_AppiumEndedAt f = Some b -> a <= b.
Proof. intros [h e _ _ _ _ _ _|e _ _ _ _ _|id _ _ _|_ _ Ht] Hxo; cbn; auto; [by intros _ [=]|]. intros Ha [= <-]. by apply Ht. Qed.

Lemma refenced_open now f x y : s_Fence y = f -> s_Status y = s_Status x -> open_appium (refenced now f x) = open_appium y.
Proof. intros <- Hs. unfold open_appium. cbn. by rewrite Hs. Qed.

Lemma fence_step_valid issued now db db' : fence_valid db -> fence_step issued now db db' -> fence_valid db'.
Proof.
  intros V H. destruct V as [Vk Vc Vb Ve Vo Vg Vp]. destruct H as [db' E|db' x f Hx Hm Hc E]; [split; unfold sessions_keyed; by rewrite E|].
  pose proof (moved_columns _ _ _ _ _ Hm (Vc _ _ Hx) (Vb _ _ Hx) (Ve _ _ Hx)) as (C1 & C2 & C3).
  assert (forall k y, k <> s_ID x -> device_sessions db !! k = Some y -> fence_conflict (refenced now f x) y = None) as Hfree.
  { intros k y Hne Hy. apply (Hc k y Hy). by rewrite (Vk _ _ Hy). }
  split; unfold sessions_keyed; rewrite E.
  - intros k y [[<- <-]|[_ Hy]]%lookup_insert_Some; [done|by apply Vk].
  - intros k y [[<- <-]|[_ Hy]]%lookup_insert_Some; [exact C1|by eapply Vc].
  - intros k y [[<- <-]|[_ Hy]]%lookup_insert_Some; [exact C2|by eapply Vb].
  - intros k y [[<- <-]|[_ Hy]]%lookup_insert_Some; [exact C3|by eapply Ve].
  - intros k y a b [[<- <-]|[_ Hy]]%lookup_insert_Some; [|by eapply Vo]. eapply move_order; [exact Hm|]. intros ??. by apply (Vo _ _ _ _ Hx).
  - intros k1 k2 x1 x2 h [[<- <-]|[N1 H1]]%lookup_insert_Some [[<- <-]|[N2 H2]]%lookup_insert_Some G1 G2; [done| | |by eapply Vg].
    + by destruct (proj1 (no_fence_conflict _ _ (Hfree _ _ (not_eq_sym N2) H2)) h G1).
    + by destruct (proj1 (no_fence_conflict _ _ (Hfree _ _ (not_eq_sym N1) H1)) h G2).
  - intros k1 k2 x1 x2 [[<- <-]|[N1 H1]]%lookup_insert_Some [[<- <-]|[N2 H2]]%lookup_insert_Some O1 O2 D; [done| | |by eapply Vp].
    + by destruct (proj2 (no_fence_conflict _ _ (Hfree _ _ (not_eq_sym N2) H2)) O1 O2).
    + by destruct (proj2 (no_fence_conflict _ _ (Hfree _ _ (not_eq_sym N1) H1)) O2 O1).
Qed.

Lemma fences_kept_valid db db' : fences_kept db db' -> fence_valid db -> fence_valid db'.
Proof.
  intros [K R] V. pose proof (fun k x' => R k x' (fv_keyed _ V)) as R'. clear R. rename R' into R.
  destruct V as [Vk Vc Vb Ve Vo Vg Vp].
  assert (forall {P : SessionRecord -> Prop}, (forall k x, device_sessions db !! k = Some x -> P x) -> (forall x x', s_Fence x' = s_Fence x -> P x -> P x') ->
    (forall x, s_Fence x = no_fence -> P x) -> forall k x, device_sessions db' !! k = Some x -> P x) as Lift.
  { intros P H1 H2 H3 k x' [He|(x & Hx & He & _)]%R; [by apply H3|]. eapply H2; [exact He|by eapply H1]. }
  split; [by apply K| | | | | |].
  - apply (Lift (fun x => is_Some (f_GrantConsumedAt (s_Fence x)) -> _)); [exact Vc|by intros x x' ->|by intros x -> []].
  - apply (Lift (fun x => is_Some (f_AppiumSessionID (s_Fence x)) -> _)); [exact Vb|by intros x x' ->|by intros x -> []].
  - apply (Lift (fun x => is_Some (f_AppiumEndedAt (s_Fence x)) -> _)); [exact Ve|by intros x x' ->|by intros x -> []].
  - intros k x a b Hx. revert k x Hx a b. apply (Lift (fun x => forall a b, f_AppiumStartedAt (s_Fence x) = Some a -> f_AppiumEndedAt (s_Fence x) = Some b -> a <= b));
      [intros; by eapply Vo|by intros x x' ->|by intros x ->].
  - intros k1 k2 x1 x2 h [->|(y1 & H1 & -> & _)]%R [->|(y2 & H2 & -> & _)]%R; try done. by eapply Vg.
  - intros k1 k2 x1 x2 [E1|(y1 & H1 & E1 & D1 & O1)]%R [E2|(y2 & H2 & E2 & D2 & O2)]%R A1 A2;
      [by unfold open_appium in A1; rewrite E1 in A1|by unfold open_appium in A1; rewrite E1 in A1|by unfold open_appium in A2; rewrite E2 in A2|].
    rewrite D1, D2. apply (Vp _ _ _ _ H1 H2); auto.
Qed.

(** One transaction of the farm, committed or rolled back: of the control plane, the
    session service included, or of the scheduler, the service and the reaper.  A grant
    is issued for a positive time. *)
Definition lasting (op : control_operation) : Prop :=
  match op with CtlIssue _ _ _ _ _ _ _ _ _ _ ttl => 0 < ttl | _ => True end.

Inductive session_step (issued : string -> Prop) : DB -> DB -> Prop :=
  | session_control op env s r s' :
      lasting op -> (forall h, issued_by op h -> issued h) ->
      run_control op env s = (r, s') -> session_step issued (st_db s) (st_db s')
  | session_farm op env s r s' : run op env s = (r, s') -> session_step issued (st_db s) (st_db s').

(** It is a step of the protocol, or keeps the columns. *)
Lemma session_step_cases issued db db' :
  session_step issued db db' -> sessions_keyed db ->
  (exists now, fence_step issued now db db') \/ fences_kept db db'.
Proof.
  intros [op env s r s' Hl Hi H|op env s r s' H] Hk; [|right; by eapply farm_fences].
  destruct (of_sessions op) eqn:Hop; [left|right; by apply fences_kept_same, (control_sessions _ Hop _ _ _ _ H)].
  exists (env_clock env). assert (session_operation op) as Hs by by destruct op.
  eapply fence_step_mono; [exact Hi|]. by eapply operation_step.
Qed.

Lemma session_step_valid issued db db' : session_step issued db db' -> fence_valid db -> fence_valid db'.
Proof.
  intros H V. apply session_step_cases in H as [[now H]|H]; [by eapply fence_step_valid|by eapply fences_kept_valid|apply V].
Qed.

(** the columns of the sessions stay well formed, whatever interleaves.  A consumed
    grant has a hash, an Appium session was bound to a consumed grant and has a start, an
    end belongs to an Appium session and is not before its start; no two sessions share a
    grant and no two sessions of a device have an open Appium session. *)
Theorem sessions_stay_valid db db' : rtc (session_step (fun _ => True)) db db' -> fence_valid db -> fence_valid db'.
Proof. induction 1 as [|db1 db2 db3 H _ IH]; [done|]. intros V. by apply IH, (session_step_valid _ _ _ H). Qed.

(** ** A grant is used once *)

(** A session still waits for the grant. *)
Definition usable (hash : string) (db : DB) : Prop :=
  exists k x, device_sessions db !! k = Some x /\ f_GrantHash (s_Fence x) = Some hash /\ f_GrantConsumedAt (s_Fence x) = None.

Lemma move_unusable issued hash db now x f :
  ~ issued hash -> fence_move issued db now x f -> f_GrantHash f = Some hash -> f_GrantConsumedAt f = None ->
  f_GrantHash (s_Fence x) = Some hash /\ f_GrantConsumedAt (s_Fence x) = None.
Proof. intros Hn [h e Hh _ _ _ _ _|e _ _ _ _ _|id _ _ _|_ _ _]; cbn; try done. by intros [= ->]. Qed.

Lemma session_step_unusable hash db db' : session_step (fun h => h <> hash) db db' -> fence_valid db -> ~ usable hash db -> ~ usable hash db'.
Proof.
  intros H V Hu (k & x' & Hx & Hh & Hc). apply session_step_cases in H as [[now H]|[_ R]]; [| |apply V].
  - destruct H as [d E|d x f Hx0 Hm _ E]; rewrite E in Hx; [apply Hu; by exists k, x'|].
    apply lookup_insert_Some in Hx as [[<- <-]|[_ Hx]]; [|apply Hu; by exists k, x']. cbn in Hh, Hc.
    eapply move_unusable in Hm; [|by intros ?|exact Hh|exact Hc]. apply Hu. exists (s_ID x), x. tauto.
  - apply R in Hx as [E|(x & Hx & E & _)]; [by rewrite E in Hh| |apply V]. apply Hu. exists k, x. by rewrite <-E.
Qed.

Lemma consume_spent hash requestID input env s v s' :
  sessions_keyed (st_db s) -> consume_tx hash requestID input env s = (Ok v, s') -> usable hash (st_db s).
Proof.
  intros Hk H. unfold consume_tx in H. apply bindT_ok in H as (b & s1 & E & H). apply grant_binding_ok in E as (-> & Hj & Hg); [|done].
  apply bindT_ok in H as (now & s1 & E & H). injection E as <- <-. cbv zeta in H.
  do 2 (apply bindT_ok in H as (? & s1 & E & H); apply guardT_ok in E as [? ->]). split_guards.
  exists (s_ID (b_Session b)), (b_Session b). split_and!; [apply Hj|done|done].
Qed.

Lemma consumed_unusable hash requestID input env s view s' :
  fence_valid (st_db s) -> consume_tx hash requestID input env s = (Ok (inl view), s') -> fence_valid (st_db s') /\ ~ usable hash (st_db s').
Proof.
  intros V H. pose proof (consume_step (fun _ => False) _ _ _ (fv_keyed _ V) _ _ _ _ H) as Hs.
  split; [by eapply fence_step_valid|]. intros (k & x' & Hx & Hh & Hc).
  unfold consume_tx in H. apply bindT_ok in H as (b & s1 & E & H). apply grant_binding_ok in E as (-> & Hj & Hg); [|apply V].
  apply bindT_ok in H as (now & s1 & E & H). injection E as <- <-. cbv zeta in H.
  do 4 (apply bindT_ok in H as (? & s1 & E & H); apply guardT_ok in E as [? ->]). split_guards.
  destruct (b_ProviderBusy b); [by destruct (b_RecentCleanup b)|].
  apply bindT_ok in H as (pinned & s1 & E & H). apply lift_ok in E as [_ ->].
  apply bindT_ok in H as (n & s1 & E & H). apply bindT_ok in H as (u3 & s2 & E2 & H). injection H as _ <-.
  apply (keeps (g := device_sessions)) in E2. rewrite E2 in Hx. pose proof (jo_session _ _ Hj) as Hs0.
  apply update_fence_here with (x := b_Session b) in E; [|exact Hs0|by apply bool_decide_eq_true]. rewrite E in Hx. cbn in Hx.
  apply lookup_insert_Some in Hx as [[<- <-]|[Hne Hx]]; [done|]. apply Hne. by apply (fv_grant _ V _ _ _ _ _ Hs0 Hx Hg Hh).
Qed.

(** C9: a grant opens one session at most.  Once [Consume] has accepted a grant, no later
    [Consume] accepts it, at any time and for any host, whatever transactions of the
    scheduler, the reservation service, the reaper, the session service and the rest of
    the control plane come between, as long as no grant with the same hash is issued. *)
Theorem grant_single_use input requestID env s view s1 db2 :
  fence_valid (st_db s) -> Consume input requestID env s = (Ok view, s1) ->
  rtc (session_step (fun h => h <> env_digest env (JStr (gc_SessionGrant input)))) (st_db s1) db2 ->
  forall input' requestID' env' s2 r s3, st_db s2 = db2 -> gc_SessionGrant input' = gc_SessionGrant input -> env_digest env' = env_digest env ->
    Consume input' requestID' env' s2 = (r, s3) -> is_ok r = false.
Proof.
  intros V H Hsteps input' requestID' env' s2 r s3 <- Hg Hd H2. set (hash := env_digest env (JStr (gc_SessionGrant input))) in *.
  unfold Consume in H. apply bindT_ok in H as (u & s0 & E & H). apply guardT_ok in E as [_ ->].
  apply bindT_ok in H as (h & s0 & E & H). injection E as <- <-. apply bindT_ok in H as (v & s0 & E & H).
  destruct v as [v|b]; [|by apply bindT_ok in H as ([u'|e] & s4 & _ & H)]. injection H as _ <-.
  rewrite WithinTx_ok in E. apply consumed_unusable in E as [V1 Hu]; [|done]. fold hash in Hu.
  assert (fence_valid (st_db s2) /\ ~ usable hash (st_db s2)) as [V2 Hu2].
  { clear -Hsteps V1 Hu. induction Hsteps as [db|db1 db2 db3 Hs _ IH]; [done|]. apply IH; [by eapply session_step_valid|by eapply session_step_unusable]. }
  destruct r as [v2|e]; [|done]. exfalso. unfold Consume in H2. apply bindT_ok in H2 as (u2 & s4 & E & H2). apply guardT_ok in E as [_ ->].
  apply bindT_ok in H2 as (h & s4 & E & H2). injection E as <- <-. apply bindT_ok in H2 as (w & s4 & E & H2). rewrite WithinTx_ok in E.
  apply consume_spent in E; [|apply V2]. rewrite Hg, Hd in E. done.
Qed.

(** ** The request that reaches the fence *)
Lemma assoc_set_id k v o : assoc k o = Some v -> assoc_set k v o = o.
Proof.
  induction o as [|[k' v'] rest IH]; [done|]. cbn. case_bool_decide as E; [by intros [= ->]; subst|]. intros H. by rewrite IH.
Qed.

Lemma assoc_set_keys k v o : has_key o k = true -> map fst (assoc_set k v o) = map fst o.
Proof.
  unfold has_key. induction o as [|[k' v'] rest IH]; [done|]. cbn. case_bool_decide as E; [by subst|]. intros H. cbn. by rewrite IH.
Qed.

Lemma existsb_keys (f : string -> bool) (o o' : obj) : map fst o' = map fst o -> existsb (fun kv => f kv.1) o' = existsb (fun kv => f kv.1) o.
Proof. revert o'. induction o as [|[k v] o IH]; intros [|[k' v'] o'] H; try done. cbn in *. injection H as -> H. by rewrite (IH _ H). Qed.

(** What the checks of [alwaysMatch] establish. *)
Lemma check_always_match_ok udid o :
  check_always_match udid o = None ->
  forbiddenSelector o = false /\ has_key o "platformName" = true /\ has_key o "appium:udid" = true /\ has_key o "df:udids" = true
  /\ (forall s, text_value o "platformName" = Some s -> EqualFold (TrimSpace s) "ios" = true)
  /\ (forall v, assoc "appium:automationName" o = Some v -> exists s, v = JStr s /\ EqualFold (TrimSpace s) "xcuitest" = true).
Proof.
  unfold check_always_match. cbv zeta. destruct (forbiddenSelector o); [done|].
  assert (forall k s, text_value o k = Some s -> has_key o k = true) as Hk.
  { intros k s. unfold text_value, has_key. by destruct (assoc k o). }
  destruct (text_value o "platformName") as [p|] eqn:E1; [|done]. destruct (EqualFold _ "ios") eqn:Ep; [|done].
  destruct (text_value o "appium:udid") as [u|] eqn:E2; [|done]. destruct (TrimSpace u =? udid)%string; [|done].
  destruct (text_value o "df:udids") as [d|] eqn:E3; [|done]. destruct (TrimSpace d =? udid)%string; [|done]. cbn.
  intros H. split_and!; [done|by eapply Hk..|by intros s [= <-]|].
  intros v Hv. rewrite Hv in H. destruct v; try done. destruct (EqualFold _ "xcuitest") eqn:Ea; [|done]. eauto.
Qed.

Section Pinned.
Context (udid : string) (o : obj) (Hok : check_always_match udid o = None).

Lemma pinned_lookup :
  assoc "appium:udid" (pinned_match udid o) = Some (JStr udid) /\ assoc "df:udids" (pinned_match udid o) = Some (JStr udid)
  /\ assoc "platformName" (pinned_match udid o) = Some (JStr "iOS")
  /\ (forall k, k <> "appium:udid"%string -> k <> "df:udids"%string -> k <> "platformName"%string -> assoc k (pinned_match udid o) = assoc k o).
Proof.
  unfold pinned_match. split_and!.
  - by rewrite assoc_set_other, assoc_set_same.
  - by rewrite assoc_set_same.
  - by rewrite 2!assoc_set_other, assoc_set_same.
  - intros k H1 H2 H3. by rewrite !assoc_set_other.
Qed.

Lemma pinned_keys : map fst (pinned_match udid o) = map fst o.
Proof.
  apply check_always_match_ok in Hok as (_ & H1 & H2 & H3 & _). unfold pinned_match.
  assert (forall k k' v x, has_key x k = true -> has_key (assoc_set k' v x) k = true) as Hset.
  { intros k k' v x H. unfold has_key. destruct (decide (k = k')) as [->|]; [by rewrite assoc_set_same|by rewrite assoc_set_other]. }
  rewrite !assoc_set_keys; auto.
Qed.

Lemma pinned_selectors : forbiddenSelector (pinned_match udid o) = false.
Proof. unfold forbiddenSelector. rewrite (existsb_keys forbidden_key _ _ pinned_keys). by apply check_always_match_ok in Hok as [? _]. Qed.

Lemma pinned_twice : pinned_match udid (pinned_match udid o) = pinned_match udid o.
Proof. destruct pinned_lookup as (H1 & H2 & H3 & _). unfold pinned_match at 1. rewrite (assoc_set_id "platformName"), (assoc_set_id "appium:udid"), (assoc_set_id "df:udids"); done. Qed.

Lemma pinned_checked : TrimSpace udid = udid -> check_always_match udid (pinned_match udid o) = None.
Proof.
  intros Ht. destruct pinned_lookup as (H1 & H2 & H3 & H4). unfold check_always_match. cbv zeta. rewrite pinned_selectors.
  unfold text_value. rewrite H1, H2, H3, Ht, String.eqb_refl. cbn. rewrite H4 by done.
  apply check_always_match_ok in Hok as (_ & _ & _ & _ & _ & Ha). destruct (assoc "appium:automationName" o) as [v|]; [|done].
  by destruct (Ha _ eq_refl) as (s & -> & ->).
Qed.
End Pinned.

Lemma with_first_match_ok c c' :
  with_first_match c = Ok c' ->
  (exists candidate, assoc "firstMatch" c' = Some (JArr [JObj candidate]) /\ hasRoutingCapability candidate = false /\ forbiddenSelector candidate = false)
  /\ (forall k, k <> "firstMatch"%string -> assoc k c' = assoc k c) /\ with_first_match c' = Ok c'.
Proof.
  unfold with_first_match. destruct (assoc "firstMatch" c) as [v|] eqn:E.
  - destruct v as [| | | |l|]; try done. destruct l as [|[| | | | |candidate] [|]]; try done.
    destruct (hasRoutingCapability candidate) eqn:H1; [done|]. destruct (forbiddenSelector candidate) eqn:H2; [done|].
    cbn. intros [= <-]. rewrite E, H1, H2. split_and!; [by exists candidate|done|done].
  - intros [= <-]. rewrite assoc_set_same. split_and!; [by exists []|by intros k Hne; rewrite assoc_set_other|done].
Qed.

(** C12: a new session reaches the device of its reservation and no other.  A request that
    passes is one W3C document; what is sent upstream names the reserved device in both
    of its identifiers and iOS as its platform, keeps every other capability, selects no
    other device by tags or host, and has one candidate that neither routes nor selects;
    checking it again changes nothing. *)
Theorem request_pinned raw udid o :
  validateAndPinSessionRequest raw udid = Ok o ->
  exists capabilities alwaysMatch capabilities' alwaysMatch' candidate,
    raw_Document raw = Some (JObj [("capabilities"%string, JObj capabilities)]) /\ raw_Trailing raw = false
    /\ assoc "alwaysMatch" capabilities = Some (JObj alwaysMatch)
    /\ o = [("capabilities"%string, JObj capabilities')] /\ assoc "alwaysMatch" capabilities' = Some (JObj alwaysMatch')
    /\ assoc "appium:udid" alwaysMatch' = Some (JStr udid) /\ assoc "df:udids" alwaysMatch' = Some (JStr udid)
    /\ assoc "platformName" alwaysMatch' = Some (JStr "iOS")
    /\ (forall k, k <> "appium:udid"%string -> k <> "df:udids"%string -> k <> "platformName"%string -> assoc k alwaysMatch' = assoc k alwaysMatch)
    /\ forbiddenSelector alwaysMatch' = false
    /\ assoc "firstMatch" capabilities' = Some (JArr [JObj candidate]) /\ hasRoutingCapability candidate = false /\ forbiddenSelector candidate = false
    /\ (forall length, 0 < length <= maxSessionRequestBytes -> TrimSpace udid = udid ->
          validateAndPinSessionRequest (mkRaw length (Some (JObj o)) false) udid = Ok o).
Proof.
  unfold validateAndPinSessionRequest. destruct (_ || _) eqn:Hguard; [done|]. apply orb_false_iff in Hguard as [_ Hblank].
  destruct (raw_Document raw) as [[| | | | |[|[k [| | | | |c]] [|]]]|]; try done.
  destruct (raw_Trailing raw); [done|]. destruct (String.eqb_spec k "capabilities") as [->|]; [|done]. cbn [orb negb].
  destruct (assoc "alwaysMatch" c) as [[| | | | |m]|] eqn:Hm; try done. cbn [object_of].
  destruct (with_first_match c) as [c'|] eqn:Hc; [|done]. destruct (check_always_match udid m) eqn:Hok; [done|]. intros [= <-].
  pose proof (pinned_lookup udid m) as (H1 & H2 & H3 & H4).
  pose proof (with_first_match_ok _ _ Hc) as ((candidate & Hf & Hr & Hs) & _ & _).
  exists c, m, (assoc_set "alwaysMatch" (JObj (pinned_match udid m)) c'), (pinned_match udid m), candidate.
  split_and!; try done; [by rewrite assoc_set_same|by apply pinned_selectors|by rewrite assoc_set_other|].
  intros n Hn Ht. unfold validateAndPinSessionRequest. cbn [raw_Length raw_Document raw_Trailing]. rewrite Hblank.
  destruct (Z.eqb_spec n 0); [lia|]. destruct (Z.ltb_spec maxSessionRequestBytes n); [lia|]. cbn [orb negb String.eqb Ascii.eqb Bool.eqb].
  rewrite assoc_set_same. cbn [object_of].
  assert (with_first_match (assoc_set "alwaysMatch" (JObj (pinned_match udid m)) c') = Ok (assoc_set "alwaysMatch" (JObj (pinned_match udid m)) c')) as ->.
  { unfold with_first_match. rewrite assoc_set_other, Hf, Hr, Hs; done. }
  rewrite pinned_checked by done. by rewrite pinned_twice, assoc_set_id by (done || apply assoc_set_same).
Qed.

(** ** Drifted devices *)

Lemma ensure_quarantine_health d to reason now env s d' s' : ensure_lifecycle d to reason now env s = (Ok d', s') -> Health d' = Health d.
Proof.
  unfold ensure_lifecycle. case_bool_decide; [by intros [= <- _]|]. unfold apply_call. destruct (Transition d to reason now) as [[u|e] x] eqn:E; [|done].
  intros [= <- _]. pose proof (Transition_success d to reason now) as H1. rewrite E in H1. destruct u. by apply H1.
Qed.

(** What a quarantine leaves. *)
Lemma quarantine_ok deviceID reservationID eventType reason payload env s u s' :
  quarantine_tx deviceID reservationID eventType reason payload env s = (Ok u, s') ->
  exists d, devices (st_db s) !! deviceID = Some d
    /\ ((d_lifecycle d = DeviceQuarantined /\ s' = s)
        \/ (d_lifecycle d <> DeviceQuarantined
            /\ exists a, Lifecycle a = DeviceQuarantined /\ Health a = HealthDegraded
                 /\ devices (st_db s') = <[deviceID := drifted_row a reason (env_clock env) d]> (devices (st_db s))
                 /\ device_sessions (st_db s') = device_sessions (st_db s))).
Proof.
  unfold quarantine_tx. intros H. apply bindT_ok in H as (db & s1 & E & H). injection E as <- <-.
  apply bindT_ok in H as (d & s1 & E & H). apply expect_row_ok in E as [Hd ->]. exists d. split; [done|].
  destruct (lifecycle_is DeviceQuarantined d) eqn:Hq; [left; injection H as _ <-; by apply lifecycle_is_spec in Hq|]. right.
  split; [intros Hl; by apply lifecycle_is_spec in Hl; congruence|].
  apply bindT_ok in H as (now & s1 & E & H). injection E as <- <-. apply bindT_ok in H as (a0 & s1 & E & H). apply lift_ok in E as [_ ->].
  apply bindT_ok in H as (a1 & s1 & E & H). apply ensure_health_ok in E as (-> & _ & Hh).
  apply bindT_ok in H as (a2 & s1 & E & H). pose proof (ensure_quarantine_health _ _ _ _ _ _ _ _ E) as Hh2.
  apply ensure_lifecycle_ok in E as [-> Hl]. exists a2. split; [done|]. split; [congruence|].
  apply bindT_ok in H as (n & s1 & E & H). apply save_device_here with (d := d) in E as [_ ->]; [|done|done].
  apply bindT_ok in H as (db & s1 & E & H). injection E as <- <-. destruct (recently_reported _ _ _ _); [by injection H as _ <-|].
  assert (Keeps (fun db => (devices db, device_sessions db)) (report_drift deviceID reservationID eventType reason payload (env_clock env))) as K.
  { unfold report_drift, IOSSession.insertAudit, insertAuditResource, insert_audit, insert_health_event. solve_keeps. }
  apply K in H. injection H as -> ->. done.
Qed.

(** The devices as the primary key, the checks of their statuses and
    [uq_devices_provider_ref] keep them. *)
Record registered (db : DB) : Prop := {
  rg_key k d : devices db !! k = Some d -> d_id d = k /\ identifierPattern k = true;
  rg_status k d : devices db !! k = Some d -> validDeviceLifecycleStatus (d_lifecycle d) = true /\ validHealthStatus (d_health d) = true;
  rg_ref k1 k2 d1 d2 : devices db !! k1 = Some d1 -> devices db !! k2 = Some d2 ->
    d_provider_type d1 = d_provider_type d2 -> d_provider_ref d1 = d_provider_ref d2 -> k1 = k2 }.

Lemma drifted_no_conflict db k d a reason now :
  registered db -> devices db !! k = Some d -> Lifecycle a = DeviceQuarantined -> device_conflict db k (drifted_row a reason now d) = None.
Proof.
  intros R Hd Ha. unfold device_conflict.
  assert (forall x, x ∈ rows (devices db) -> d_id x <> k -> shared_index (drifted_row a reason now d) x = None) as Hx.
  { intros x [j Hj]%elem_of_rows Hne. unfold shared_index, indexed, lifecycle_is. cbn. rewrite Ha. cbn.
    destruct (String.eqb_spec (d_provider_type d) (d_provider_type x)) as [E1|]; [|done].
    destruct (String.eqb_spec (d_provider_ref d) (d_provider_ref x)) as [E2|]; [|done].
    destruct Hne. rewrite (proj1 (rg_key _ R _ _ Hj)). by rewrite (rg_ref _ R _ _ _ _ Hd Hj E1 E2). }
  induction (rows _) as [|x l IH]; [done|]. cbn [foldr].
  assert (forall y, y ∈ l -> d_id y <> k -> shared_index (drifted_row a reason now d) y = None) as Hl.
  { intros y Hy. apply Hx, elem_of_cons. by right. }
  destruct (String.eqb_spec (d_id x) k); [by apply IH|]. rewrite Hx; [by apply IH|apply elem_of_cons; by left|done].
Qed.

Lemma ensure_health_total d l h reason now env s :
  now <> 0 -> in_state d l h -> validHealthStatus h = true -> blank reason = false ->
  exists d', ensure_health d HealthDegraded reason now env s = (Ok d', s) /\ in_state d' l HealthDegraded.
Proof.
  intros Hn Hd Hv Hr. unfold ensure_health. pose proof Hd as (Hl & Hh & Hrest). case_bool_decide as E.
  { exists d. split; [done|]. unfold in_state. by rewrite Hl, E. }
  destruct (step_health now Hn d l h HealthDegraded reason) as (d' & Hs & Hd'); [done|apply health_edge; [done|done|congruence]|done|done|].
  exists d'. split; [|done]. unfold step in Hs. destruct (UpdateHealth _ _ _ _) as [[] x]; [|done]. by injection Hs as <-.
Qed.

Lemma ensure_quarantine_total d l h reason now env s :
  now <> 0 -> in_state d l h -> validDeviceLifecycleStatus l = true -> l <> DeviceDeleted -> blank reason = false ->
  exists d', ensure_lifecycle d DeviceQuarantined reason now env s = (Ok d', s) /\ in_state d' DeviceQuarantined h.
Proof.
  intros Hn Hd Hv Hne Hr. unfold ensure_lifecycle. case_bool_decide as E.
  { exists d. split; [done|]. destruct Hd as (Hl & Hh & Hrest). unfold in_state. by rewrite E, Hh. }
  assert (l <> DeviceQuarantined) as Hq by (destruct Hd as [<- _]; done).
  destruct (step_lifecycle now Hn d l h DeviceQuarantined reason) as (d' & Hs & Hd'); [done|by destruct l|done|done|done|].
  exists d'. split; [|done]. unfold step in Hs. destruct (Transition _ _ _ _) as [[] x]; [|done]. by injection Hs as <-.
Qed.

Lemma bindT_run {A B} (m : Tx A) (f : A -> Tx B) env s a s1 : m env s = (Ok a, s1) -> (m ≫= f) env s = f a env s1.
Proof. unfold mbind, Tx_bind, M_bind. by intros ->. Qed.

(** The tables that the query of the drift reads, except the events of other types. *)
Record drift_frame (id : string) (db db' : DB) : Prop := {
  df_reservations : device_reservations db' = device_reservations db;
  df_sessions : device_sessions db' = device_sessions db;
  df_failures : forall now k, recently_failed now k db' = recently_failed now k db }.

Lemma reported_frame now deviceID reservationID reason payload env s :
  (2 <= length (st_ids s))%nat ->
  exists s', report_drift deviceID reservationID "ios_session_drift" reason payload now env s = (Ok tt, s')
    /\ devices (st_db s') = devices (st_db s) /\ drift_frame deviceID (st_db s) (st_db s') /\ st_ids s' = drop 2 (st_ids s).
Proof.
  intros Hi. destruct s as [db ids calls locks]. cbn in Hi. destruct ids as [|i1 [|i2 ids]]; [cbn in Hi; lia..|].
  unfold report_drift. destruct (String.eqb reservationID ""); eexists; (split; [reflexivity|]); (split_and!; [done| |done]);
    (split; [done|done|]); intros t k; unfold recently_failed; cbn; rewrite existsb_app; cbn; by rewrite andb_false_r, orb_false_r.
Qed.

Lemma quarantine_total id r reason payload d env s :
  registered (st_db s) -> env_clock env <> 0 -> blank reason = false -> (2 <= length (st_ids s))%nat ->
  devices (st_db s) !! id = Some d -> d_lifecycle d <> DeviceQuarantined -> d_lifecycle d <> DeviceDeleted ->
  exists a s', quarantine id r "ios_session_drift" reason payload env s = (Ok tt, s')
    /\ in_state a DeviceQuarantined HealthDegraded
    /\ devices (st_db s') = <[id := drifted_row a reason (env_clock env) d]> (devices (st_db s))
    /\ drift_frame id (st_db s) (st_db s') /\ (length (st_ids s) <= 2 + length (st_ids s'))%nat.
Proof.
  intros R Hn Hr Hi Hd Hq Hx. destruct (rg_key _ R _ _ Hd) as [_ Hp]. destruct (rg_status _ R _ _ Hd) as [Hv Hh].
  destruct (RestoreDevice_state _ _ _ Hp Hv Hh) as (a0 & E0 & H0).
  destruct (ensure_health_total _ _ _ reason _ env s Hn H0 Hh Hr) as (a1 & E1 & H1).
  destruct (ensure_quarantine_total _ _ _ reason _ env s Hn H1 Hv Hx Hr) as (a2 & E2 & H2).
  exists a2. set (s1 := on_db (put_device id (drifted_row a2 reason (env_clock env) d)) s).
  assert (exists s', quarantine_tx id r "ios_session_drift" reason payload env s = (Ok tt, s')
            /\ devices (st_db s') = devices (st_db s1) /\ drift_frame id (st_db s1) (st_db s') /\ (length (st_ids s1) <= 2 + length (st_ids s'))%nat)
    as (s' & E & Hdev & Hf & Hl); cycle 1.
  { exists s'. split_and!; [unfold quarantine, WithinTx; by rewrite E|done|done|by destruct Hf|done]. }
  destruct (reported_frame (env_clock env) id r reason payload env s1 Hi) as (s2 & E3 & Hdev & Hf & Hids).
  assert (save_device id (fun _ => true) (drifted_row a2 reason (env_clock env)) env s = (Ok 1, s1)) as E4.
  { unfold save_device, get_db, mbind, Tx_bind, M_bind, gets. by rewrite Hd, drifted_no_conflict by (done || apply H2). }
  unfold quarantine_tx. erewrite bindT_run by reflexivity. rewrite Hd. erewrite bindT_run by reflexivity.
  rewrite (proj2 (bool_decide_eq_false _) Hq : lifecycle_is DeviceQuarantined d = false). erewrite bindT_run by reflexivity.
  erewrite bindT_run by (rewrite E0; reflexivity). erewrite bindT_run by exact E1. erewrite bindT_run by exact E2.
  erewrite bindT_run by exact E4. erewrite bindT_run by reflexivity. destruct (recently_reported _ _ _ _).
  - exists s1. split_and!; [done|done|done|lia].
  - exists s2. split_and!; [done|done|done|]. rewrite Hids, length_drop. cbn in Hi |- *. lia.
Qed.

(** One device in the list of the drift. *)
Definition drift_in (now : Z) (db : DB) (d : DeviceRow) (reason : string) : Prop :=
  exists r, drift_of now db d = Some (Some (d_id d, r, reason)).

Lemma drift_of_spec now db d id r reason :
  drift_of now db d = Some (Some (id, r, reason)) ->
  id = d_id d /\ d_platform d = "ios"%string /\ d_lifecycle d <> DeviceQuarantined /\ d_lifecycle d <> DeviceDeleted /\ blank reason = false.
Proof.
  unfold drift_of. destruct (String.eqb_spec (d_platform d) "ios") as [Hp|]; [|done].
  destruct (lifecycle_is DeviceQuarantined d) eqn:H1; [done|]. destruct (lifecycle_is DeviceDeleted d) eqn:H2; [done|]. cbn.
  destruct (provider_busy d) as [busy|]; [|done]. cbn. destruct (drift_reason _ _ _ _ _) as [x|] eqn:E; [|done]. cbn. intros [= <- _ <-].
  apply bool_decide_eq_false in H1, H2. split_and!; try done. unfold drift_reason in E.
  repeat match type of E with (if ?b then _ else _) = _ => destruct b; [by injection E as <-|] end. done.
Qed.

Lemma drifts_rows now db l :
  drifts now db = Some l ->
  (forall k d, devices db !! k = Some d -> is_Some (drift_of now db d))
  /\ forall t, t ∈ l <-> exists k d, devices db !! k = Some d /\ drift_of now db d = Some (Some t).
Proof.
  unfold drifts. destruct (mapM _ _) as [o|] eqn:E; [|done]. intros [= <-]. apply mapM_Some in E.
  assert (forall d, d ∈ order_by (fun d => (0, d_id d)) (rows (devices db)) <-> exists k, devices db !! k = Some d) as Hin.
  { intros d. by rewrite elem_of_order_by, elem_of_rows. }
  split.
  - intros k d Hd. assert (d ∈ order_by (fun d => (0, d_id d)) (rows (devices db))) as H by (apply Hin; eauto).
    destruct (list_elem_of_lookup_1 _ _ H) as [i Hi]. destruct (Forall2_lookup_l _ _ _ _ _ E Hi) as (x & _ & Hx). by eexists.
  - intros t. rewrite list_elem_of_omap. split.
    + intros (x & Hx & Ht). cbn in Ht. subst x. destruct (list_elem_of_lookup_1 _ _ Hx) as [i Hi].
      destruct (Forall2_lookup_r _ _ _ _ _ E Hi) as (d & Hd & Ho). apply list_elem_of_lookup_2, Hin in Hd as [k Hd]. eauto.
    + intros (k & d & Hd & Ho). assert (d ∈ order_by (fun d => (0, d_id d)) (rows (devices db))) as H by (apply Hin; eauto).
      destruct (list_elem_of_lookup_1 _ _ H) as [i Hi]. destruct (Forall2_lookup_l _ _ _ _ _ E Hi) as (x & Hx & Ho'). rewrite Ho in Ho'.
      injection Ho' as <-. exists (Some t). split; [by eapply list_elem_of_lookup_2|done].
Qed.

Lemma drifts_total now db : (forall k d, devices db !! k = Some d -> is_Some (drift_of now db d)) -> is_Some (drifts now db).
Proof.
  intros H. unfold drifts. apply fmap_is_Some, mapM_is_Some, Forall_forall. intros d Hd. rewrite elem_of_order_by in Hd.
  apply elem_of_rows in Hd as [k Hk]. by eapply H.
Qed.

Lemma drift_of_frame id now db db' d : drift_frame id db db' -> drift_of now db' d = drift_of now db d.
Proof.
  intros [F1 F2 F3]. unfold drift_of, drift_reason, joined_fence, active_reservation, active_session, recent_cleanup, reservations.
  by rewrite F1, F2, F3.
Qed.

(** The device after the loop, for each device before it. *)
Definition settled_device (now : Z) (db : DB) (d d' : DeviceRow) : Prop :=
  match drift_of now db d with
  | Some (Some (_, _, reason)) => exists a, in_state a DeviceQuarantined HealthDegraded /\ d' = drifted_row a reason now d
  | _ => d' = d
  end.

Definition watched (kd : string * DeviceRow) : Prop := d_platform kd.2 = "ios"%string /\ d_lifecycle kd.2 <> DeviceQuarantined.
#[export] Instance watched_dec kd : Decision (watched kd).
Proof. unfold watched. apply _. Defined.

(** How many devices the loop watches. *)
Definition watched_count (db : DB) : nat := size (filter watched (devices db)).

Lemma quarantined_not_watched k a reason now d : in_state a DeviceQuarantined HealthDegraded -> ~ watched (k, drifted_row a reason now d).
Proof. intros [Hl _] [_ H]. by apply H. Qed.

Lemma quarantined_undrifted now db a reason t d : in_state a DeviceQuarantined HealthDegraded -> drift_of now db (drifted_row a reason t d) = Some None.
Proof. intros [Hl _]. unfold drift_of, lifecycle_is. cbn. rewrite Hl. cbn. by rewrite andb_false_r. Qed.

Lemma registered_insert db db' k d a reason now :
  registered db -> devices db !! k = Some d -> in_state a DeviceQuarantined HealthDegraded ->
  devices db' = <[k := drifted_row a reason now d]> (devices db) -> registered db'.
Proof.
  intros [Rk Rs Rr] Hd (Hl & Hh & _) E. split; rewrite E.
  - intros j x [[<- <-]|[_ Hx]]%lookup_insert_Some; [apply (Rk _ _ Hd)|by apply Rk].
  - intros j x [[<- <-]|[_ Hx]]%lookup_insert_Some; [cbn; by rewrite Hl, Hh|by eapply Rs].
  - intros j1 j2 x1 x2 [[<- <-]|[_ H1]]%lookup_insert_Some [[<- <-]|[_ H2]]%lookup_insert_Some; cbn; try done; by apply Rr.
Qed.

Section DriftTick.
Context (env : Env) (Hclock : env_clock env <> 0).
Abbreviation now := (env_clock env).

(** One turn of the loop that finds a device. *)
Lemma drift_turn s t l :
  registered (st_db s) -> drifts now (st_db s) = Some (t :: l) -> (2 <= length (st_ids s))%nat ->
  exists k d reason a s', ReconcileOnce env s = (Ok tt, s')
    /\ devices (st_db s) !! k = Some d /\ watched (k, d) /\ (exists r, drift_of now (st_db s) d = Some (Some (k, r, reason)))
    /\ in_state a DeviceQuarantined HealthDegraded
    /\ devices (st_db s') = <[k := drifted_row a reason now d]> (devices (st_db s))
    /\ (forall x, drift_of now (st_db s') x = drift_of now (st_db s) x) /\ (length (st_ids s) <= 2 + length (st_ids s'))%nat.
Proof.
  intros R Hl Hi. destruct t as [[id r] reason]. destruct (drifts_rows _ _ _ Hl) as [_ Hrows].
  destruct (proj1 (Hrows (id, r, reason)) (list_elem_of_here _ _)) as (k & d & Hd & Ho).
  pose proof (drift_of_spec _ _ _ _ _ _ Ho) as (-> & Hp & Hq & Hx & Hb). destruct (rg_key _ R _ _ Hd) as [Hk _].
  rewrite Hk in Ho. destruct (quarantine_total k r reason [("drift_code", JStr reason)]%string d env s R Hclock Hb Hi Hd Hq Hx)
    as (a & s' & E & Ha & Hdev & Hf & Hids).
  exists k, d, reason, a, s'. split_and!; try done; [|by exists r|intros x; by eapply drift_of_frame].
  unfold ReconcileOnce. erewrite bindT_run by reflexivity. erewrite bindT_run by reflexivity. erewrite bindT_run by (rewrite Hl; reflexivity).
  rewrite Hk. exact E.
Qed.

Lemma RunReconcile_turn n s s1 : ReconcileOnce env s = (Ok tt, s1) -> RunReconcile (S n) env s = RunReconcile n env s1.
Proof.
  intros E. cbn [RunReconcile]. rewrite (bindT_run _ _ env s (Ok tt) s1); [reflexivity|]. unfold attempt. by rewrite E.
Qed.

Lemma RunReconcile_end n s : drifts now (st_db s) = Some [] -> RunReconcile (S n) env s = (Ok (Some tt), s).
Proof.
  intros E. cbn [RunReconcile]. rewrite (bindT_run _ _ env s (Fail SesErrNothingToReconcile) s); [reflexivity|].
  assert (ReconcileOnce env s = (Fail SesErrNothingToReconcile, s)) as H; [|unfold attempt; by rewrite H].
  unfold ReconcileOnce. erewrite bindT_run by reflexivity.
  erewrite bindT_run by reflexivity. erewrite bindT_run by (rewrite E; reflexivity). reflexivity.
Qed.

(** A turn takes one device out of the watch and leaves the list of the others. *)
Lemma watched_less db db' k d a reason t :
  devices db !! k = Some d -> watched (k, d) -> in_state a DeviceQuarantined HealthDegraded ->
  devices db' = <[k := drifted_row a reason t d]> (devices db) -> (watched_count db' < watched_count db)%nat.
Proof. intros Hd Hw Ha E. unfold watched_count. rewrite E. by apply count_rows_lt with (x := d), quarantined_not_watched. Qed.

Lemma watched_some db k d : devices db !! k = Some d -> watched (k, d) -> (1 <= watched_count db)%nat.
Proof.
  intros Hd Hw. unfold watched_count. destruct (decide (size (filter watched (devices db)) = 0%nat)) as [E|]; [|lia].
  apply map_size_empty_inv, map_filter_empty_not_lookup with (i := k) (x := d) in E; [by destruct E|done].
Qed.

Lemma settled_same t db db1 x x' : drift_of t db1 x = drift_of t db x -> settled_device t db1 x x' -> settled_device t db x x'.
Proof. unfold settled_device. by intros ->. Qed.

Lemma settled_still t db x x' : drift_of t db x = Some None -> settled_device t db x x' -> x' = x.
Proof. unfold settled_device. by intros ->. Qed.

Lemma settled_drift t db x id r reason a :
  drift_of t db x = Some (Some (id, r, reason)) -> in_state a DeviceQuarantined HealthDegraded -> settled_device t db x (drifted_row a reason t x).
Proof. unfold settled_device. intros -> Ha. by exists a. Qed.

(** Settling after one turn. *)
Lemma settled_after db db1 db2 k d r reason a :
  devices db !! k = Some d -> drift_of now db d = Some (Some (k, r, reason)) -> in_state a DeviceQuarantined HealthDegraded ->
  devices db1 = <[k := drifted_row a reason now d]> (devices db) -> (forall x, drift_of now db1 x = drift_of now db x) ->
  (forall j x, devices db1 !! j = Some x -> exists x', devices db2 !! j = Some x' /\ settled_device now db1 x x') ->
  forall j x, devices db !! j = Some x -> exists x', devices db2 !! j = Some x' /\ settled_device now db x x'.
Proof.
  intros Hd Ho Ha Hdev Hsame Hset j x Hx. destruct (decide (j = k)) as [->|Hne].
  - rewrite Hd in Hx. injection Hx as <-. destruct (Hset k (drifted_row a reason now d)) as (d' & Hd' & Hs); [by rewrite Hdev, lookup_insert_eq|].
    exists d'. split; [exact Hd'|]. rewrite (settled_still _ _ _ _ (quarantined_undrifted _ _ _ _ _ _ Ha) Hs).
    exact (settled_drift _ _ _ _ _ _ _ Ho Ha).
  - destruct (Hset j x) as (d' & Hd' & Hs); [by rewrite Hdev, lookup_insert_ne|]. exists d'. split; [exact Hd'|].
    exact (settled_same _ _ _ _ _ (Hsame x) Hs).
Qed.

Lemma drifts_after db db1 k d reason a l :
  drifts now db = Some l -> in_state a DeviceQuarantined HealthDegraded ->
  devices db1 = <[k := drifted_row a reason now d]> (devices db) -> (forall x, drift_of now db1 x = drift_of now db x) -> is_Some (drifts now db1).
Proof.
  intros Hl Ha Hdev Hsame. destruct (drifts_rows _ _ _ Hl) as [Hall _]. apply drifts_total. intros j x Hx. rewrite Hdev in Hx. rewrite Hsame.
  apply lookup_insert_Some in Hx as [[<- <-]|[_ Hx]]; [|by eapply Hall]. rewrite quarantined_undrifted by done. by eexists.
Qed.

Lemma drift_loop n s l :
  registered (st_db s) -> drifts now (st_db s) = Some l -> (watched_count (st_db s) < n)%nat -> (2 * watched_count (st_db s) <= length (st_ids s))%nat ->
  exists s', RunReconcile n env s = (Ok (Some tt), s') /\ drifts now (st_db s') = Some []
    /\ (forall k d, devices (st_db s) !! k = Some d -> exists d', devices (st_db s') !! k = Some d' /\ settled_device now (st_db s) d d').
Proof.
  revert s l. induction n as [|n IH]; [lia|]. intros s [|t l] R Hl Hn Hi.
  - exists s. split_and!; [|done|].
    + by apply RunReconcile_end.
    + intros k d Hd. exists d. split; [done|]. unfold settled_device. destruct (drifts_rows _ _ _ Hl) as [Hall Hrows].
      destruct (Hall _ _ Hd) as [[t|] Ho]; rewrite Ho; [|done].
      assert (t ∈ []) as []%elem_of_nil by (apply Hrows; eauto).
  - destruct (drifts_rows _ _ _ Hl) as [Hall Hrows].
    assert (1 <= watched_count (st_db s))%nat as H1.
    { destruct t as [[id r] reason]. destruct (proj1 (Hrows (id, r, reason)) (list_elem_of_here _ _)) as (k & d & Hd & Ho).
      pose proof (drift_of_spec _ _ _ _ _ _ Ho) as (_ & Hp & Hq & _). by eapply watched_some. }
    destruct (drift_turn s t l R Hl) as (k & d & reason & a & s1 & E & Hd & Hw & [r Ho] & Ha & Hdev & Hsame & Hids); [lia|].
    pose proof (watched_less _ _ _ _ _ _ _ Hd Hw Ha Hdev) as Hlt.
    destruct (drifts_after _ _ _ _ _ _ _ Hl Ha Hdev Hsame) as [l1 Hl1].
    destruct (IH s1 l1) as (s' & E' & Hempty & Hset); [by eapply registered_insert|done|lia|lia|].
    exists s'. split_and!; [|done|].
    + by rewrite (RunReconcile_turn _ _ _ E).
    + exact (settled_after _ _ _ _ _ _ _ _ Hd Ho Ha Hdev Hsame Hset).
Qed.
End DriftTick.

(** the loop against drift settles.  With the devices as the constraints of the table
    keep them, one tick of [RunReconcile] comes to its end, after at most as many turns as
    there are iOS devices that are not quarantined; then no device drifts.  Every device
    that drifted is quarantined for its own reason and every other one is as before: the
    first device of the list never keeps the others waiting. *)
Theorem drift_settles n env s l :
  registered (st_db s) -> env_clock env <> 0 -> drifts (env_clock env) (st_db s) = Some l ->
  (watched_count (st_db s) < n)%nat -> (2 * watched_count (st_db s) <= length (st_ids s))%nat ->
  exists s', RunReconcile n env s = (Ok (Some tt), s') /\ drifts (env_clock env) (st_db s') = Some []
    /\ (forall k d, devices (st_db s) !! k = Some d -> exists d', devices (st_db s') !! k = Some d' /\ settled_device (env_clock env) (st_db s) d d').
Proof. intros R Hn Hl Hf Hi. by apply drift_loop with (l := l). Qed.

(** ** The end of a reservation *)
Definition one_session (db : DB) : Prop :=
  forall k1 k2 x1 x2, device_sessions db !! k1 = Some x1 -> device_sessions db !! k2 = Some x2 -> s_ReservationID x1 = s_ReservationID x2 -> k1 = k2.

Lemma open_session_spec id db x d h appium :
  open_session id db = Some (x, d, h, appium) ->
  session_of db id = Some x /\ devices db !! s_DeviceID x = Some d /\ device_hosts db !! d_host_id d = Some h
  /\ f_AppiumSessionID (s_Fence x) = Some appium /\ d_platform d = "ios"%string /\ f_AppiumEndedAt (s_Fence x) = None.
Proof.
  intros H. unfold open_session in H. destruct (session_of db id) as [x0|]; [|done]. cbn [bind_opt] in H.
  destruct (devices db !! s_DeviceID x0) as [d0|] eqn:Hd; [|done]. cbn [bind_opt] in H.
  destruct (device_hosts db !! d_host_id d0) as [h0|] eqn:Hh; [|done]. cbn [bind_opt] in H.
  destruct (f_AppiumSessionID (s_Fence x0)) as [a|] eqn:Ha; [|done]. cbn [bind_opt] in H.
  destruct (String.eqb_spec (d_platform d0) "ios"); [|done]. case_bool_decide as He; [|done]. cbn in H. by injection H as <- <- <- <-.
Qed.

(** The session of a reservation after the only one was replaced. *)
Lemma session_of_replaced db db' x x' :
  one_session db -> device_sessions db !! s_ID x = Some x -> s_ReservationID x' = s_ReservationID x ->
  device_sessions db' = <[s_ID x := x']> (device_sessions db) -> session_of db' (s_ReservationID x) = Some x'.
Proof.
  intros H1 Hx Hr E. destruct (session_of db' (s_ReservationID x)) as [y|] eqn:Hy.
  - apply session_of_spec in Hy as [Hry [k Hk]]. rewrite E in Hk. apply lookup_insert_Some in Hk as [[_ <-]|[Hne Hk]]; [done|].
    destruct Hne. by apply (H1 _ _ _ _ Hx Hk).
  - rewrite session_of_None in Hy. destruct (Hy (s_ID x) x'); [by rewrite E, lookup_insert_eq|done].
Qed.

#[export] Instance fence_audit_keeps_devices a b c d e : Keeps devices (IOSSession.insertAudit a b c d e).
Proof. unfold IOSSession.insertAudit, insertAuditResource, insert_audit. solve_keeps. Qed.

Section Closing.
Context (parse : string -> option URL) (print : URL -> string) (escape : string -> string) (loopback : string -> bool)
        (delete : string -> string -> string -> option Z).

Lemma closed_effect id x d h appium env s u s' :
  one_session (st_db s) -> sessions_keyed (st_db s) -> open_session id (st_db s) = Some (x, d, h, appium) ->
  closed_tx id (d_id d) (d_host_id d) (s_ID x) appium env s = (Ok u, s') ->
  open_session id (st_db s') = None /\ devices (st_db s') = devices (st_db s)
  /\ device_sessions (st_db s') = <[s_ID x := refenced (env_clock env) (s_Fence x <| f_AppiumEndedAt := Some (env_clock env) |>) x]> (device_sessions (st_db s)).
Proof.
  intros H1 Hk Ho H. pose proof (open_session_spec _ _ _ _ _ _ Ho) as (Hs & Hd & Hh & Ha & Hp & He).
  apply session_of_spec in Hs as [Hr [k Hx]]. pose proof (Hk _ _ Hx) as <-.
  unfold closed_tx in H. apply bindT_ok in H as (now & s1 & E & H). injection E as <- <-. apply bindT_ok in H as (n & s1 & E & H).
  apply update_fence_here with (x := x) in E; [|done|cbv beta; by rewrite Ha, He, !bool_decide_eq_true_2].
  assert (device_sessions (st_db s') = device_sessions (st_db s1) /\ devices (st_db s') = devices (st_db s1)) as [E1 E2].
  { destruct (n =? 0); [by injection H as _ <-|]. split; [by apply (keeps (g := device_sessions)) in H|].
by apply (keeps (g := devices)) in H. }
  rewrite E in E1, E2. cbn in E1, E2. split_and!; [|done|done]. unfold open_session.
  pose proof (fun H => session_of_replaced (st_db s) (st_db s') x _ H1 Hx H E1) as Hn. specialize (Hn eq_refl). rewrite Hr in Hn. rewrite Hn. cbn. rewrite E2, Hd. cbn.
  destruct (device_hosts (st_db s') !! d_host_id d); [|done]. cbn. rewrite Ha. cbn. by rewrite andb_false_r.
Qed.

(** C11: the end of a reservation closes its Appium session or takes the device out of
    use.  Without an open session nothing happens.  When the fence confirms the close, a
    success leaves no open session, changes no device and ends the session at the time of
    the database.  When the fence refuses or cannot be reached, the call reports that the
    cleanup failed, the session stays open, and the device is quarantined, unless the
    quarantine fails as well, which the error then says. *)
Theorem close_or_quarantine token id env s r s' :
  one_session (st_db s) -> sessions_keyed (st_db s) -> validIdentifier id = true ->
  CloseForReservation parse print escape loopback delete token id env s = (r, s') ->
  match open_session id (st_db s) with
  | None => r = Ok tt /\ s' = s
  | Some (x, d, h, appium) =>
    match close_upstream parse print escape loopback delete token (d_host_id d) appium (fence_endpoint h) with
    | None =>
      match r with
      | Ok _ => open_session id (st_db s') = None /\ devices (st_db s') = devices (st_db s)
          /\ device_sessions (st_db s') = <[s_ID x := refenced (env_clock env) (s_Fence x <| f_AppiumEndedAt := Some (env_clock env) |>) x]> (device_sessions (st_db s))
      | Fail _ => st_db s' = st_db s
      end
    | Some _ =>
      device_sessions (st_db s') = device_sessions (st_db s)
      /\ ((r = Fail SesErrCleanupFailed /\ exists d', devices (st_db s') !! d_id d = Some d' /\ d_lifecycle d' = DeviceQuarantined)
          \/ (exists e, r = Fail (ErrJoin SesErrCleanupFailed e) /\ st_db s' = st_db s))
    end
  end.
Proof.
  intros H1 Hk Hv H. unfold CloseForReservation in H. rewrite Hv in H. erewrite bindT_run in H by reflexivity. erewrite bindT_run in H by reflexivity.
  destruct (open_session id (st_db s)) as [[[[x d] h] appium]|] eqn:Ho; [|by injection H as <- <-].
  destruct (close_upstream _ _ _ _ _ _ _ _ _) as [e|].
  - unfold attempt, mbind, Tx_bind, M_bind in H. destruct (quarantine _ _ _ _ _ env s) as [q s1] eqn:E. apply WithinTx_result in E as [(u & -> & E)|(e1 & -> & E)].
    + injection H as <- <-. apply quarantine_ok in E as (d0 & Hd0 & [[Hq ->]|(Hne & a & Ha & _ & Hdev & Hs)]).
      * split; [done|]. left. split; [done|]. by exists d0.
      * split; [done|]. left. split; [done|]. rewrite Hdev, lookup_insert_eq. eexists. split; [done|exact Ha].
    + injection H as <- <-. rewrite E. split; [done|]. right. by exists e1.
  - apply WithinTx_result in H as [(u & -> & H)|(e1 & -> & H)]; [|done]. by eapply closed_effect.
Qed.
End Closing.

(** ** A farm with one phone *)
Definition phone_id : string := "device-phone00001".
Definition phone_udid : string := "00008110-001A2B3C4D5E801E".
Definition mac_host : string := "host-mac000000001".
Definition mac_reservation : string := "reservation-mac01".

Definition phone (busy : bool) (lifecycle : DeviceLifecycleStatus) : DeviceRow :=
  mkDeviceRow phone_id mac_host None "ios" "physical" "ios" phone_udid "dedicated" phone_udid None None None
    [("providerBusy", JBool busy); ("model", JStr "iPhone 14")]%string lifecycle HealthHealthy None 0 None
    (at_second 2) (at_second 2) None None None "idle" None "idle" None "iPhone".

Definition mac : HostRow :=
  mkHostRow mac_host "ios" (Some "10.0.0.5"%string) [] [] HostOnline false (Some (at_second 99)) (at_second 1) (at_second 99)
    [("session_fence_endpoint", JStr "https://10.0.0.5:9443")]%string "darwin" "arm64" "mac".

Definition phone_reservation : ReservationRecord :=
  mkReservation mac_reservation "service" pool_a (Some phone_id) "test_run" "test-run-00000001" [] 600 ReservationActive
    "create-key-1" (Some (at_second 50)) (Some (at_second 700)) None None (at_second 40) (at_second 50).

Definition phone_session : SessionRecord :=
  mkSession "session-mac000001" mac_reservation phone_id SessionActive (Some (at_second 50)) None
    [("host_id", JStr mac_host); ("appium_endpoint", JStr "http://10.0.0.5:4723"); ("appium_udid", JStr phone_udid)]%string
    (at_second 50) (at_second 50) no_fence.

Definition phone_db (d : DeviceRow) : DB :=
  empty_db <| devices := {[phone_id := d]} |> <| device_hosts := {[mac_host := mac]} |>
    <| device_reservations := {[mac_reservation := phone_reservation]} |> <| device_sessions := {["session-mac000001"%string := phone_session]} |>.

Definition phone_state : St :=
  mkSt (phone_db (phone false DeviceBusy)) ["identifier-000001"; "identifier-000002"; "identifier-000003"; "identifier-000004"; "identifier-000005"; "identifier-000006"]%string [] ∅.

(** A farm with one session. *)
Lemma one_session_valid db x :
  device_sessions db = {[s_ID x := x]} ->
  (is_Some (f_GrantConsumedAt (s_Fence x)) -> is_Some (f_GrantHash (s_Fence x))) ->
  (is_Some (f_AppiumSessionID (s_Fence x)) -> is_Some (f_GrantConsumedAt (s_Fence x)) /\ is_Some (f_AppiumStartedAt (s_Fence x))) ->
  (is_Some (f_AppiumEndedAt (s_Fence x)) -> is_Some (f_AppiumSessionID (s_Fence x))) ->
  (forall a b, f_AppiumStartedAt (s_Fence x) = Some a -> f_AppiumEndedAt (s_Fence x) = Some b -> a <= b) ->
  fence_valid db /\ one_session db.
Proof.
  intros E H1 H2 H3 H4.
  assert (forall k y, device_sessions db !! k = Some y -> k = s_ID x /\ y = x) as Hone.
  { rewrite E. intros k y H. by apply lookup_singleton_Some in H as [<- <-]. }
  split; [|intros k1 k2 x1 x2 [-> _]%Hone [-> _]%Hone _; done]. split.
  - intros k y [-> ->]%Hone. done.
  - intros k y [_ ->]%Hone. done.
  - intros k y [_ ->]%Hone. done.
  - intros k y [_ ->]%Hone. done.
  - intros k y a b [_ ->]%Hone. auto.
  - by intros k1 k2 x1 x2 h [-> _]%Hone [-> _]%Hone.
  - by intros k1 k2 x1 x2 [-> _]%Hone [-> _]%Hone.
Qed.

Definition grant : string := "AAAAAAAAAAAAAAAAAAAAAAAAAAAAAAAAAAAAAAAAAAA".
Definition fence_url : URL := mkURL "https" false "10.0.0.5:9443" "10.0.0.5" "" "" "".
Definition parse_sample (s : string) : option URL := if String.eqb s "https://10.0.0.5:9443" then Some fence_url else None.
Definition print_sample (u : URL) : string := (u_Scheme u ++ "://" ++ u_Host u ++ u_Path u)%string.

Definition issue_phone : Tx GrantView :=
  Issue parse_sample print_sample (fun _ => false) (Ok grant) sample_actor mac_reservation "request-1" (mkGrantInput "test_run" "test-run-00000001" 60).
Definition granted : St := after issue_phone (env_at 100 None) phone_state.

Definition session_request : RawMessage :=
  mkRaw 220 (Some (JObj [("capabilities", JObj [("alwaysMatch", JObj [("platformName", JStr "ios"); ("appium:udid", JStr phone_udid);
    ("df:udids", JStr phone_udid); ("appium:automationName", JStr "XCUITest")])])]%string)) false.

Definition consume_input : ConsumeInput := mkConsume mac_host grant session_request.
Definition consumed : St := after (Consume consume_input "request-2") (env_at 110 None) granted.
Definition bind_input : BindingInput := mkBindingInput mac_host grant "appium-session-1".
Definition bound : St := after (Bind bind_input "request-3") (env_at 120 None) consumed.

Example phone_story :
  (match outcome issue_phone (env_at 100 None) phone_state with Ok v => (gv_UDID v, gv_FenceEndpoint v, gv_ExpiresAt v) | Fail _ => ("", "", 0) end,
   match outcome (Consume consume_input "request-2") (env_at 110 None) granted with Ok v => cv_UpstreamEndpoint v | Fail _ => "" end,
   outcome (Bind bind_input "request-3") (env_at 120 None) consumed,
   outcome (Authorize bind_input) (env_at 130 None) bound,
   is_ok (outcome (Consume consume_input "request-4") (env_at 130 None) bound))%string
  = (phone_udid, "https://10.0.0.5:9443"%string, at_second 160, "http://10.0.0.5:4723"%string, Ok tt, Ok "http://10.0.0.5:4723"%string, false).
Proof. vm_compute. reflexivity. Qed.

Definition session_in (s : St) : SessionRecord := default phone_session (session_of (st_db s) mac_reservation).

Lemma granted_valid : fence_valid (st_db granted).
Proof. apply (one_session_valid _ (session_in granted)); [vm_compute; reflexivity|vm_compute; by intros []..|by vm_compute]. Qed.
Lemma bound_valid : fence_valid (st_db bound) /\ one_session (st_db bound).
Proof. apply (one_session_valid _ (session_in bound)); [vm_compute; reflexivity|vm_compute; by eexists| | |]; vm_compute; try done; [split; by eexists|by intros []]. Qed.

Lemma session_protocol_witness :
  exists r s', run_control (CtlConsume (print_json (JStr grant)) "request-2" consume_input) (env_at 110 None) granted = (r, s') /\ is_ok r = true
    /\ fence_step (fun _ => False) (at_second 110) (st_db granted) (st_db s').
Proof.
  destruct (run_control (CtlConsume (print_json (JStr grant)) "request-2" consume_input) (env_at 110 None) granted) as [r s'] eqn:H.
  exists r, s'. split; [reflexivity|]. split.
  - assert (is_ok (run_control (CtlConsume (print_json (JStr grant)) "request-2" consume_input) (env_at 110 None) granted).1 = true) as E
      by (vm_compute; reflexivity). rewrite H in E. exact E.
  - exact (session_protocol (CtlConsume (print_json (JStr grant)) "request-2" consume_input) (env_at 110 None) granted r s'
      (fv_keyed _ granted_valid) I H).
Defined.

Lemma sessions_stay_valid_witness :
  exists s', st_db s' <> st_db granted /\ fence_valid (st_db s').
Proof.
  destruct (run_control (CtlConsume (print_json (JStr grant)) "request-2" consume_input) (env_at 110 None) granted) as [r s'] eqn:H.
  exists s'. split.
  - intros E. assert (match f_GrantConsumedAt (s_Fence (session_in (run_control (CtlConsume (print_json (JStr grant)) "request-2" consume_input) (env_at 110 None) granted).2))
      with Some _ => true | None => false end = true) as E1 by (vm_compute; reflexivity).
    rewrite H in E1. cbn [snd] in E1. unfold session_in in E1. rewrite E in E1. vm_compute in E1. discriminate E1.
  - apply (sessions_stay_valid (st_db granted)); [|exact granted_valid]. eapply rtc_l; [|apply rtc_refl].
    eapply session_control; [| |exact H]; [exact I|intros h []].
Defined.

Lemma grant_single_use_witness :
  exists view s1, Consume consume_input "request-2" (env_at 110 None) granted = (Ok view, s1)
    /\ is_ok (Consume consume_input "request-5" (env_at 115 None) s1).1 = false.
Proof.
  destruct (Consume consume_input "request-2" (env_at 110 None) granted) as [[view|e] s1] eqn:H; [|exfalso; vm_compute in H; discriminate H].
  exists view, s1. split; [reflexivity|]. destruct (Consume consume_input "request-5" (env_at 115 None) s1) as [r s3] eqn:H2.
  exact (grant_single_use consume_input "request-2" (env_at 110 None) granted view s1 (st_db s1) granted_valid H (rtc_refl _ _)
    consume_input "request-5" (env_at 115 None) s1 r s3 eq_refl eq_refl eq_refl H2).
Defined.

Lemma request_pinned_witness :
  exists o, validateAndPinSessionRequest session_request phone_udid = Ok o
    /\ exists capabilities' alwaysMatch', o = [("capabilities"%string, JObj capabilities')] /\ assoc "alwaysMatch" capabilities' = Some (JObj alwaysMatch')
         /\ assoc "platformName" alwaysMatch' = Some (JStr "iOS") /\ assoc "appium:automationName" alwaysMatch' = Some (JStr "XCUITest").
Proof.
  destruct (validateAndPinSessionRequest session_request phone_udid) as [o|e] eqn:H; [|exfalso; vm_compute in H; discriminate H].
  exists o. split; [reflexivity|]. destruct (request_pinned session_request phone_udid o H)
    as (c & m & c' & m' & f & Hd & _ & Hm & Ho & Hm' & _ & _ & Hp & Hk & _).
  exists c', m'. split; [exact Ho|]. split; [exact Hm'|]. split; [exact Hp|]. rewrite Hk by discriminate.
  injection Hd as <-. injection Hm as <-. reflexivity.
Defined.

(** A phone that is busy without a reservation. *)
Definition drifting : St := mkSt (phone_db (phone true DeviceReady) <| device_reservations := ∅ |>) ["identifier-000001"; "identifier-000002"]%string [] ∅.

Lemma drift_settles_witness :
  exists s', RunReconcile 2 (env_at 100 None) drifting = (Ok (Some tt), s') /\ drifts (at_second 100) (st_db s') = Some []
    /\ exists d', devices (st_db s') !! phone_id = Some d' /\ d_lifecycle d' = DeviceQuarantined.
Proof.
  assert (drifts (at_second 100) (st_db drifting) = Some [(phone_id, ""%string, "IOS_PROVIDER_BUSY_WITHOUT_RESERVATION"%string)]) as Hl by (vm_compute; reflexivity).
  destruct (drift_settles 2 (env_at 100 None) drifting [(phone_id, ""%string, "IOS_PROVIDER_BUSY_WITHOUT_RESERVATION"%string)]) as (s' & E & Hn & Hd).
  - assert (devices (st_db drifting) = {[phone_id := phone true DeviceReady]}) as Ed by reflexivity. split; rewrite Ed.
    + intros k d [<- <-]%lookup_singleton_Some. split; [reflexivity|vm_compute; reflexivity].
    + intros k d [<- <-]%lookup_singleton_Some. split; reflexivity.
    + intros k1 k2 d1 d2 [<- <-]%lookup_singleton_Some [<- <-]%lookup_singleton_Some _ _. reflexivity.
  - discriminate.
  - exact Hl.
  - vm_compute. lia.
  - vm_compute. lia.
  - exists s'. split; [exact E|]. split; [exact Hn|]. destruct (Hd phone_id (phone true DeviceReady)) as (d' & Hd' & Hs); [reflexivity|].
    exists d'. split; [exact Hd'|]. unfold settled_device in Hs.
    assert (drift_of (at_second 100) (st_db drifting) (phone true DeviceReady)
            = Some (Some (phone_id, ""%string, "IOS_PROVIDER_BUSY_WITHOUT_RESERVATION"%string))) as E1 by (vm_compute; reflexivity).
    cbn [env_clock env_at] in Hs. rewrite E1 in Hs. destruct Hs as (a & [Ha _] & ->). exact Ha.
Defined.

(** A fence that confirms, and one that fails. *)
Definition close_phone (status : Z) : Tx unit :=
  CloseForReservation parse_sample print_sample (fun s => s) (fun _ => false) (fun _ _ _ => Some status) "agent-token" mac_reservation.

Lemma close_or_quarantine_witness :
  (exists s', close_phone 204 (env_at 130 None) bound = (Ok tt, s') /\ open_session mac_reservation (st_db s') = None)
  /\ exists s', close_phone 500 (env_at 130 None) bound = (Fail SesErrCleanupFailed, s')
       /\ exists d', devices (st_db s') !! phone_id = Some d' /\ d_lifecycle d' = DeviceQuarantined.
Proof.
  pose proof bound_valid as [V H1].
  assert (open_session mac_reservation (st_db bound) = Some (session_in bound, phone false DeviceBusy, mac, "appium-session-1"%string)) as Ho by (vm_compute; reflexivity).
  split.
  - destruct (close_phone 204 (env_at 130 None) bound) as [[[]|e] s'] eqn:H; [|exfalso; vm_compute in H; discriminate H].
    exists s'. split; [reflexivity|].
    pose proof (close_or_quarantine parse_sample print_sample (fun s => s) (fun _ => false) (fun _ _ _ => Some 204) "agent-token" mac_reservation
      (env_at 130 None) bound (Ok tt) s' H1 (fv_keyed _ V) eq_refl H) as C.
    rewrite Ho in C. exact (proj1 C).
  - destruct (close_phone 500 (env_at 130 None) bound) as [r s'] eqn:H.
    assert ((close_phone 500 (env_at 130 None) bound).1 = Fail SesErrCleanupFailed) as E by (vm_compute; reflexivity). rewrite H in E. cbn [fst] in E. subst r.
    exists s'. split; [reflexivity|].
    pose proof (close_or_quarantine parse_sample print_sample (fun s => s) (fun _ => false) (fun _ _ _ => Some 500) "agent-token" mac_reservation
      (env_at 130 None) bound (Fail SesErrCleanupFailed) s' H1 (fv_keyed _ V) eq_refl H) as C.
    rewrite Ho in C.
    assert (close_upstream parse_sample print_sample (fun s => s) (fun _ => false) (fun _ _ _ => Some 500) "agent-token" mac_host "appium-session-1"
              (fence_endpoint mac) = Some (ErrExternal "unexpected status of the session fence")) as E1 by (vm_compute; reflexivity).
    cbn [d_host_id phone] in C. rewrite E1 in C. destruct C as [_ [Hq|Hf]]; [exact (proj2 Hq)|]. exfalso. clear -Hf. destruct Hf as (e & Hf & _). discriminate Hf.
Defined.
