(* ===== verification/ManagementSpec.v ===== *)
(** * Properties of the management of images, hosts and pools

    Creation once per key, retirement and update of images, the constraints of the
    catalogue, hosts that drain, the default image of a pool and whether a pool can be
    served. *)
From S2P Require Import Prelude GoText Errors Domain DomainSpec Json Sensitive Actor Store.
From S2P Require Import Float64 RuntimeProfile Capacity ReservationRepo TxFacts CommandRepo DeviceStore Reconcile DeviceOps ImageCatalog.
From S2P Require Import HostCommand HostSelection Completion WarmPool PoolCycle PoolScale ManagementStore Management PoolSelector.
From S2P Require Import ReservationService Scheduler ServiceFacts FarmSystem Samples FarmSafety ControlStep PoolMoves SessionMoves.
From S2P Require Import ManagementMoves ControlPlane Drives ManagementServices PoolSpec.

(** ** A farm to manage *)
Definition digest_of (n : string) : string :=
  ("sha256:000000000000000000000000000000000000000000000000000000000000000" ++ n)%string.
Definition image_form (config : option obj) : ImageInput :=
  mkImageInput "Android 34" "registry.local/android:34" (digest_of "4") 34 "x86_64" "1080x2400" config None.
Definition host_form : HostInput :=
  mkHostInput "rack-1" "docker_emulator" "" "" "10.0.0.9" None (Some [("device_slots", jint 4)]%string).
Definition pool_form (target : Z) : PoolInput :=
  mkPoolInput "nightly" "" 600 3600 2 (Some target) (Some 0) (Some image_30) None None "".

Definition managed_db : DB :=
  warm_db 2 2 0 0 1 <| device_images := <[image_30 := ready_image <| im_docker_digest := digest_of "3" |>]> ∅ |>.
Definition managed : St := mkSt managed_db warm_ids [] ∅.
Definition morning : Env := warm_env 100.
Definition request_1 : string := "request-00000001".

(** ** Reading rows *)
Section Reads.
Context (env : Env) (s s' : St).

Lemma GetImage_ok id i : GetImage id env s = (Ok i, s') -> device_images (st_db s) !! id = Some i /\ s' = s.
Proof.
  unfold GetImage, get_db, mbind, Tx_bind, M_bind, gets. destruct (_ !! id) as [x|]; [|done]. by intros [= <- <-].
Qed.
Lemma GetHost_ok id h : GetHost id env s = (Ok h, s') -> device_hosts (st_db s) !! id = Some h /\ s' = s.
Proof.
  unfold GetHost, get_db, mbind, Tx_bind, M_bind, gets. destruct (_ !! id) as [x|]; [|done]. by intros [= <- <-].
Qed.
Lemma GetPool_ok id v : GetPool id env s = (Ok v, s') ->
  exists p, device_pools (st_db s) !! id = Some p /\ v = fillPoolProvisionability (st_db s) p /\ s' = s.
Proof.
  unfold GetPool, get_db, mbind, Tx_bind, M_bind, gets. destruct (_ !! id) as [x|]; [|done]. intros [= <- <-]. eauto.
Qed.
End Reads.

Lemma filled_row db p : vp_row (fillPoolProvisionability db p) = p.
Proof.
  unfold fillPoolProvisionability. destruct (p_default_image_id p) as [i|]; [|done].
  destruct (_ =? "android")%string; [|done]. by destruct (provisionability db p i).
Qed.

Lemma deviceAudit_db actor requestID action reason env s a s' :
  deviceAudit actor requestID action reason env s = (Ok a, s') -> st_db s' = st_db s.
Proof. apply (keeps_db (m := deviceAudit _ _ _ _)). Qed.

(** ** Creation once per key *)
Definition record_key (meta : Idempotency) : string * string * string := (id_ClientID meta, id_Scope meta, id_Key meta).

(** What the creation relies on: loading reads, and inserting leaves the records of the keys. *)
Class ResourceLaws (T V : Type) `{Resource T V} : Prop := {
  load_reads id : ReadOnly (load_resource (T := T) id);
  insert_keeps row : Keeps device_idempotency_records (insert_resource row) }.

#[export] Instance image_laws : ResourceLaws ImageRow ImageRow.
Proof. split; [apply _|]. intros i. cbn. unfold insert_image, put_image. solve_keeps. Qed.
#[export] Instance host_laws : ResourceLaws HostRow HostRow.
Proof. split; [apply _|]. intros h. cbn. unfold insert_host, put_host. solve_keeps. Qed.
#[export] Instance pool_laws : ResourceLaws PoolRow PoolView.
Proof. split; [apply _|]. intros p. cbn. unfold insert_pool, put_pool. solve_keeps. Qed.

Section Creation.
Context {T V : Type} {R : Resource T V} {L : ResourceLaws T V}.

Lemma record_found (meta : Idempotency) (row : T) env s r :
  device_idempotency_records (st_db s) !! record_key meta = Some r ->
  create_resource_tx meta row env s =
  if String.eqb (i_request_hash r) (id_RequestHash meta) && String.eqb (i_resource_type r) (id_ResourceType meta)
  then load_resource (T := T) (i_resource_id r) env s else (Fail MgmtErrConflict, s).
Proof.
  intros Hr. unfold create_resource_tx, get_db, gets, guard_or, mbind, Tx_bind, M_bind. unfold record_key in Hr. rewrite Hr.
  by destruct (_ && _).
Qed.

Lemma record_made (meta : Idempotency) (row : T) env s v s' :
  device_idempotency_records (st_db s) !! record_key meta = None ->
  create_resource_tx meta row env s = (Ok v, s') ->
  device_idempotency_records (st_db s') !! record_key meta = Some (record_of meta)
  /\ load_resource (T := T) (id_ResourceID meta) env s' = (Ok v, s').
Proof.
  intros Hr H. unfold create_resource_tx in H. apply bindT_ok in H as (db & s1 & E & H). injection E as <- <-. cbv zeta in H.
  unfold record_key in *. rewrite Hr in H.
  apply bindT_ok in H as (u & s1 & E & H). injection E as _ <-.
  apply bindT_ok in H as (w & s2 & E & H). pose proof (insert_keeps row _ _ _ _ E) as Hk.
  pose proof (load_reads _ _ _ _ _ H) as ->. split; [|done]. rewrite Hk. cbn. by rewrite lookup_insert_eq.
Qed.

(** A creation reads, or stores its record and inserts its row. *)
Definition with_record (meta : Idempotency) (db : DB) : DB :=
  db <| device_idempotency_records := <[record_key meta := record_of meta]> (device_idempotency_records db) |>.

Lemma create_resource_ok (meta : Idempotency) (row : T) env s v s' :
  createIdempotent meta row env s = (Ok v, s') -> s' = s \/ exists u, insert_resource row env (on_db (with_record meta) s) = (Ok u, s').
Proof.
  intros H%map_err_ok. apply (proj1 (WithinTx_ok _ _ _ _ _)) in H.
  destruct (device_idempotency_records (st_db s) !! record_key meta) as [r|] eqn:Hr.
  - rewrite (record_found _ _ _ _ _ Hr) in H. destruct (_ && _); [|done]. left. by apply load_reads in H.
  - right. unfold create_resource_tx in H. apply bindT_ok in H as (db & s1 & E & H). injection E as <- <-. cbv zeta in H.
    unfold record_key in Hr. rewrite Hr in H. apply bindT_ok in H as (u & s1 & E & H). injection E as _ <-.
    apply bindT_ok in H as (w & s2 & E & H). apply load_reads in H as ->. by exists w.
Qed.
End Creation.

(** C14: an image, a host or a pool is created once per key of a client.  A creation that
    fails changes nothing.  One that succeeds leaves a record of the key, the hash of the
    request and the resource that it returned; from then on, as long as the record is
    there, the same request returns that resource as it is by then and another request
    under the key is a conflict, and neither changes anything. *)
Theorem create_resource_once {T V : Type} {R : Resource T V} {L : ResourceLaws T V} (meta : Idempotency) (row : T) (env : Env) (s s' : St) (r : result Err V) :
  createIdempotent meta row env s = (r, s') ->
  match r with
  | Fail _ => st_db s' = st_db s
  | Ok v => exists record, device_idempotency_records (st_db s') !! record_key meta = Some record
      /\ i_request_hash record = id_RequestHash meta /\ i_resource_type record = id_ResourceType meta
      /\ load_resource (T := T) (i_resource_id record) env s' = (Ok v, s')
      /\ forall env2 s2 meta2 (row2 : T), record_key meta2 = record_key meta ->
           device_idempotency_records (st_db s2) !! record_key meta = Some record ->
           (id_RequestHash meta2 = id_RequestHash meta -> id_ResourceType meta2 = id_ResourceType meta ->
              createIdempotent meta2 row2 env2 s2 = map_err normalize (load_resource (T := T) (i_resource_id record)) env2 s2)
           /\ (id_RequestHash meta2 <> id_RequestHash meta -> createIdempotent meta2 row2 env2 s2 = (Fail MgmtErrConflict, s2))
  end.
Proof.
  intros E. destruct r as [v|e].
  - apply map_err_ok in E. apply (proj1 (WithinTx_ok _ _ _ _ _)) in E.
    assert (exists record, device_idempotency_records (st_db s') !! record_key meta = Some record
      /\ i_request_hash record = id_RequestHash meta /\ i_resource_type record = id_ResourceType meta
      /\ load_resource (T := T) (i_resource_id record) env s' = (Ok v, s')) as (record & Hr & Hh & Ht & Hl).
    { destruct (device_idempotency_records (st_db s) !! record_key meta) as [record|] eqn:Hr.
      - rewrite (record_found _ _ _ _ _ Hr) in E. destruct (_ && _) eqn:Hsame; [|done]. guards.
        pose proof (load_reads _ _ _ _ _ E) as ->. by exists record.
      - apply record_made in E as [? ?]; [|done]. by exists (record_of meta). }
    exists record. split_and!; [done..|]. intros env2 s2 meta2 row2 Hkey Hr2. rewrite <-Hkey in Hr2.
    unfold createIdempotent, map_err, WithinTx. rewrite (record_found _ _ _ _ _ Hr2), Hh, Ht. split.
    + intros -> ->. rewrite !String.eqb_refl. cbn [andb]. destruct (load_resource _ env2 s2) as [[x|x] s3] eqn:E2; [done|].
      pose proof (load_reads _ _ _ _ _ E2) as ->. cbn. by destruct s2.
    + intros Hne. destruct (String.eqb_spec (id_RequestHash meta) (id_RequestHash meta2)); [congruence|]. cbn. by destruct s2.
  - unfold createIdempotent, map_err in E. destruct (WithinTx _ env s) as [[v|x] s1] eqn:E1; [done|]. injection E as _ <-.
    by apply WithinTx_fail in E1.
Qed.

Definition host_meta (hash : string) : Idempotency :=
  mkIdempotencyMeta "client-1" "create_device_host" "host-key-1" hash "device_host" "identifier-000010" 201.
Definition new_host : HostRow := sample_host "identifier-000010" "10.0.0.9" <| h_name := "rack-1" |>.
Definition hosted : St := after (createIdempotent (host_meta "hash-1") new_host) morning managed.
Definition stored_host : HostRow := new_host <| h_created_at := at_second 100 |> <| h_updated_at := at_second 100 |>.

Lemma create_resource_once_witness :
  createIdempotent (host_meta "hash-1") new_host morning hosted = (Ok stored_host, hosted)
  /\ createIdempotent (host_meta "hash-2") new_host morning hosted = (Fail MgmtErrConflict, hosted).
Proof.
  assert (createIdempotent (host_meta "hash-1") new_host morning managed = (Ok stored_host, hosted)) as E by (vm_compute; reflexivity).
  destruct (create_resource_once (host_meta "hash-1") new_host morning managed hosted (Ok stored_host) E)
    as (record & Hr & _ & _ & Hl & Hagain).
  split.
  - destruct (Hagain morning hosted (host_meta "hash-1") new_host eq_refl Hr) as [Hsame _]. rewrite Hsame by reflexivity.
    unfold map_err. rewrite Hl. reflexivity.
  - destruct (Hagain morning hosted (host_meta "hash-2") new_host eq_refl Hr) as [_ Hother]. apply Hother. discriminate.
Defined.

(** ** Images *)

(** Rows are stored under their identifiers. *)
Definition images_keyed (db : DB) : Prop := forall k i, device_images db !! k = Some i -> im_id i = k.

Lemma RestoreImage_status id status a : RestoreImage id status = Ok a -> sm_status a = status /\ sm_transitions a = imageTransitions.
Proof. unfold RestoreImage, newStateMachine. destruct (identifierPattern id), (validImageStatus status); try done. by intros [= <-]. Qed.

Lemma transition_status {S} `{EqDecision S} `{Status S} (m m' : stateMachine S) to reason now :
  transition m to reason now = (Ok tt, m') -> sm_status m' = to /\ has_edge (sm_transitions m) (sm_status m) to = true.
Proof.
  unfold transition. destruct (sm_valid m to); [|done]. destruct (blank reason); [done|]. destruct (IsZero now); [done|].
  cbn. destruct (has_edge _ _ _); [|done]. by intros [= <-].
Qed.

Lemma existsb_false_row {K} `{Countable K} {R} (p : R -> bool) (t : gmap K R) k x :
  existsb p (rows t) = false -> t !! k = Some x -> p x = false.
Proof.
  intros Hn Hx. apply not_true_iff_false. intros Hp. apply not_true_iff_false in Hn. apply Hn, existsb_exists.
  exists x. split; [|done]. apply list_elem_of_In, elem_of_rows. eauto.
Qed.

Lemma retire_tx_ok image expected audit env s i s' :
  retire_tx image expected audit env s = (Ok i, s') ->
  exists old, device_images (st_db s) !! im_id image = Some old /\ im_status old = expected
    /\ i = old <| im_status := im_status image |> <| im_updated_at := env_clock env |>
    /\ device_images (st_db s') = <[im_id i := i]> (device_images (st_db s))
    /\ devices (st_db s') = devices (st_db s) /\ device_pools (st_db s') = device_pools (st_db s)
    /\ device_pool_images (st_db s') = device_pool_images (disable_links (im_id image) (env_clock env) (st_db s))
    /\ default_references (st_db s) (im_id image) = false /\ active_devices (st_db s) (im_id image) = false.
Proof.
  unfold retire_tx. intros H. tx H. guards.
  match goal with H : enforce _ _ _ = _ |- _ => apply enforce_ok in H as [_ ->] end.
  repeat match goal with H : put_db _ _ _ = _ |- _ => injection H as _ <- | H : put_image _ _ _ = _ |- _ => injection H as _ <- end.
  match goal with H : write_audit _ _ _ _ _ _ = _ |- _ => injection H as _ <- end.
  match goal with H : _ || _ = false |- _ => apply orb_false_iff in H as [? ?] end.
  match goal with H : with_status _ _ = true |- _ => apply bool_decide_eq_true in H end.
  eexists. split_and!; try done.
Qed.

(** C15: an image is retired only when nothing needs it.  When the retirement succeeds, the
    image was a draft, ready or failed and is disabled; no pool has it as its default, no
    device that is not deleted uses it, every link of a pool to it is disabled, and no
    device and no pool has changed. *)
Theorem retire_image_safe (id reason : string) (actor : Actor) (requestID : string) (env : Env) (s s' : St) (i : ImageRow) :
  images_keyed (st_db s) -> RetireImage id reason actor requestID env s = (Ok i, s') ->
  validReason reason = true
  /\ (exists old, device_images (st_db s) !! id = Some old /\ im_status old ∈ [ImageDraft; ImageReady; ImageFailed]
        /\ i = old <| im_status := ImageDisabled |> <| im_updated_at := env_clock env |>)
  /\ device_images (st_db s') = <[id := i]> (device_images (st_db s))
  /\ devices (st_db s') = devices (st_db s) /\ device_pools (st_db s') = device_pools (st_db s)
  /\ (forall k p, device_pools (st_db s') !! k = Some p -> p_default_image_id p <> Some id)
  /\ (forall k d, devices (st_db s') !! k = Some d -> d_image_id d = Some id -> d_lifecycle d = DeviceDeleted)
  /\ (forall k l, device_pool_images (st_db s') !! k = Some l -> pi_image_id l = id -> pi_enabled l = false).
Proof.
  intros Hk H. unfold RetireImage in H.
  apply bindT_ok in H as (u & s1 & E & H). apply guardT_ok in E as [Hr ->].
  apply bindT_ok in H as (cur & s1 & E & H). apply GetImage_ok in E as [Hcur ->].
  apply bindT_ok in H as (u1 & s1 & E & H). apply guardT_ok in E as [Hst ->].
  apply bindT_ok in H as (a & s1 & E & H). apply lift_ok in E as [[Ha Ht]%RestoreImage_status ->].
  apply bindT_ok in H as (now & s1 & E & H). injection E as <- <-.
  apply bindT_ok in H as (b & s1 & E & H). apply apply_call_ok in E as [[Hb He]%transition_status ->].
  apply bindT_ok in H as (event & s1 & E & H). apply deviceAudit_db in E.
  apply map_err_ok in H. apply (proj1 (WithinTx_ok _ _ _ _ _)) in H. apply retire_tx_ok in H. rewrite E, Hb in H. cbn in H.
  pose proof (Hk _ _ Hcur) as Hid. rewrite Hid in H.
  destruct H as (old & Hold & Hexp & -> & Hi & Hd & Hp & Hl & Hdef & Hact).
  rewrite Hcur in Hold. injection Hold as <-. cbn in Hi. rewrite Hid in Hi.
  split_and!; [guards; by apply orb_false_iff in Hr as [? ?%negb_false_iff]| |done|done|done| | |].
  - exists cur. split; [done|]. split; [|done]. rewrite Ht, Ha in He. guards.
    apply bool_decide_eq_false in Hst. rewrite !list_elem_of_In in *. destruct (im_status cur); cbn in *; try tauto. done.
  - intros k p. rewrite Hp. intros Hkp E2. pose proof (existsb_false_row _ _ _ _ Hdef Hkp) as Hno. by apply bool_decide_eq_false in Hno.
  - intros k d. rewrite Hd. intros Hkd E2. pose proof (existsb_false_row _ _ _ _ Hact Hkd) as Hno. cbv beta in Hno.
    rewrite bool_decide_eq_true_2 in Hno by done. by apply negb_false_iff, lifecycle_is_spec in Hno.
  - intros k l. rewrite Hl. cbn. intros (l0 & <- & Hl0)%lookup_fmap_Some. destruct (String.eqb_spec (pi_image_id l0) id); [done|].
    by intros ?.
Qed.

(** A second image, that no pool and no device uses. *)
Definition two_images : St := after (CreateImage "client-1" "image-key-1" (image_form (Some []))) morning managed.
Definition image_34 : string := "identifier-000010".

Lemma two_images_keyed : images_keyed (st_db two_images).
Proof.
  assert (map_Forall (fun k i => im_id i = k) (device_images (st_db two_images))) as H by (apply (bool_decide_unpack _); vm_compute; exact I).
  intros k i Hi. exact (H k i Hi).
Qed.

Lemma retire_image_safe_witness :
  exists i, outcome (RetireImage image_34 "obsolete" sample_actor request_1) morning two_images = Ok i
    /\ im_status i = ImageDisabled
    /\ forall k p, device_pools (st_db (after (RetireImage image_34 "obsolete" sample_actor request_1) morning two_images)) !! k = Some p ->
         p_default_image_id p <> Some image_34.
Proof.
  destruct (RetireImage image_34 "obsolete" sample_actor request_1 morning two_images) as [r s'] eqn:H.
  assert (exists i, r = Ok i) as [i ->].
  { assert (is_ok (RetireImage image_34 "obsolete" sample_actor request_1 morning two_images).1 = true) as Ho by (vm_compute; reflexivity).
    rewrite H in Ho. destruct r as [i|]; [by exists i|discriminate Ho]. }
  destruct (retire_image_safe image_34 "obsolete" sample_actor request_1 morning two_images s' i two_images_keyed H)
    as (_ & (old & _ & _ & ->) & _ & _ & _ & Hp & _).
  eexists. unfold outcome, after. rewrite H. split; [reflexivity|]. split; [reflexivity|exact Hp].
Defined.

(** What a validation of an image is about. *)
Definition same_definition (old i : ImageRow) : Prop :=
  im_docker_image i = im_docker_image old /\ im_docker_digest i = im_docker_digest old /\ im_api_level i = im_api_level old
  /\ im_abi i = im_abi old /\ im_resolution i = im_resolution old
  /\ (im_resource_config i = im_resource_config old \/ json_eqb (JObj (im_resource_config i)) (JObj (im_resource_config old)) = true).

(** Every image that is ready was ready before, with the same definition. *)
Definition vouched (db db' : DB) : Prop :=
  forall k i, device_images db' !! k = Some i -> im_status i = ImageReady ->
    exists old, device_images db !! k = Some old /\ im_status old = ImageReady /\ same_definition old i.

Lemma same_definition_refl i : same_definition i i.
Proof. unfold same_definition. auto 10. Qed.
Lemma vouched_same db db' : device_images db' = device_images db -> vouched db db'.
Proof. intros E k i. rewrite E. intros Hi Hr. exists i. auto using same_definition_refl. Qed.

(** A new image has a status that the method gives it; an image whose definition changes
    ends as a draft, or stays disabled. *)
Definition cared (new : ImageStatus -> Prop) (db db' : DB) : Prop :=
  forall k i', device_images db' !! k = Some i' ->
    match device_images db !! k with
    | None => new (im_status i')
    | Some i => (im_status i' = ImageReady -> im_status i = ImageReady)
        /\ (same_definition i i' \/ im_status i' = ImageDraft \/ (im_status i' = ImageDisabled /\ im_status i = ImageDisabled))
    end.

Lemma cared_same new db db' : device_images db' = device_images db -> cared new db db'.
Proof. intros E k i'. rewrite E. intros Hi. rewrite Hi. split; [done|left; apply same_definition_refl]. Qed.

Lemma cared_insert (new : ImageStatus -> Prop) db db' k i' :
  device_images db' = <[k := i']> (device_images db) ->
  match device_images db !! k with
  | None => new (im_status i')
  | Some i => (im_status i' = ImageReady -> im_status i = ImageReady)
      /\ (same_definition i i' \/ im_status i' = ImageDraft \/ (im_status i' = ImageDisabled /\ im_status i = ImageDisabled))
  end -> cared new db db'.
Proof.
  intros E Hi j x. rewrite E. intros [[<- <-]|[_ Hx]]%lookup_insert_Some; [exact Hi|]. rewrite Hx.
  split; [done|left; apply same_definition_refl].
Qed.

Lemma cared_vouched new db db' : (forall st, new st -> st <> ImageReady) -> cared new db db' -> vouched db db'.
Proof.
  intros Hn Hc k i Hi Hr. specialize (Hc k i Hi). destruct (device_images db !! k) as [old|]; [|by apply Hn in Hc].
  destruct Hc as [Ho Hd]. exists old. split_and!; [done|auto|]. destruct Hd as [|[?|[? _]]]; [done|congruence|congruence].
Qed.

(** The methods on other things leave the images. *)
Section OtherTables.
Abbreviation Images := (Keeps device_images).
#[export] Instance host_images h : Images (put_host h). Proof. unfold put_host. solve_keeps. Qed.
#[export] Instance pool_images p : Images (put_pool p). Proof. unfold put_pool. solve_keeps. Qed.
#[export] Instance audit_images a t i x : Images (write_audit a t i x). Proof. unfold write_audit, insert_audit. solve_keeps. Qed.
#[export] Instance insert_host_images h : Images (insert_host h). Proof. unfold insert_host. solve_keeps. Qed.
#[export] Instance insert_pool_images p : Images (insert_pool p). Proof. unfold insert_pool. solve_keeps. Qed.
#[export] Instance update_host_images h e : Images (update_host h e). Proof. unfold update_host. solve_keeps. Qed.
#[export] Instance update_pool_images p e a : Images (update_pool_tx p e a). Proof. unfold update_pool_tx. solve_keeps. Qed.
#[export] Instance upsert_images v : Images (upsert_pool_image v). Proof. unfold upsert_pool_image. solve_keeps. Qed.
#[export] Instance link_images v a : Images (set_pool_image_tx v a). Proof. unfold set_pool_image_tx. solve_keeps. Qed.
#[export] Instance disable_images p i : Images (disable_pool_image p i). Proof. unfold disable_pool_image. solve_keeps. Qed.
#[export] Instance select_images p i a : Images (select_default_tx p i a). Proof. unfold select_default_tx. solve_keeps. Qed.
#[export] Instance base_images p d a : Images (set_base_tx p d a). Proof. unfold set_base_tx. solve_keeps. Qed.
#[export] Instance add_images p d : Images (add_membership p d). Proof. unfold add_membership. solve_keeps. Qed.
#[export] Instance remove_images p d : Images (RemoveDeviceFromPoolRow p d). Proof. unfold RemoveDeviceFromPoolRow. solve_keeps. Qed.
#[export] Instance rename_images i n a : Images (rename_tx i n a). Proof. unfold rename_tx. solve_keeps. Qed.
#[export] Instance insert_device_images d : Images (insert_device d). Proof. unfold insert_device. solve_keeps. Qed.
#[export] Instance create_device_images d : Images (create_device d). Proof. unfold create_device. solve_keeps. Qed.
#[export] Instance create_host_images meta (h : HostRow) : Images (create_resource_tx meta h).
Proof. unfold create_resource_tx. cbn [insert_resource load_resource host_resource]. solve_keeps. Qed.
#[export] Instance create_pool_images meta (p : PoolRow) : Images (create_resource_tx meta p).
Proof. unfold create_resource_tx. cbn [insert_resource load_resource pool_resource]. solve_keeps. Qed.
End OtherTables.

Lemma update_image_ok image expected env s i s' :
  update_image image expected env s = (Ok i, s') ->
  exists old, device_images (st_db s) !! im_id image = Some old /\ im_status old = expected
    /\ device_images (st_db s') = <[im_id image := i]> (device_images (st_db s)) /\ im_status i = im_status image
    /\ forall x, same_definition x image -> same_definition x i.
Proof.
  unfold update_image. intros H. tx H. destruct (device_images _ !! _) as [row|] eqn:Hrow; [|done].
  destruct (with_status expected row) eqn:Hst; [|done]. apply bool_decide_eq_true in Hst. tx H.
  repeat match goal with
  | H : varchar _ _ _ _ = _ |- _ => apply varchar_ro in H as ->
  | H : enforce _ _ _ = _ |- _ => apply enforce_ok in H as [_ ->]
  | H : no_conflict_with _ _ _ = _ |- _ => apply no_conflict_ok in H as [_ ->]
  | H : put_image _ _ _ = _ |- _ => injection H as _ <-
  end.
  exists row. split_and!; done.
Qed.

Lemma insert_image_ok i env s u s' :
  insert_image i env s = (Ok u, s') -> exists i', device_images (st_db s') = <[im_id i := i']> (device_images (st_db s)) /\ im_status i' = im_status i
    /\ device_images (st_db s) !! im_id i = None.
Proof.
  unfold insert_image. intros H. tx H.
  repeat match goal with
  | H : varchar _ _ _ _ = _ |- _ => apply varchar_ro in H as ->
  | H : enforce _ _ _ = _ |- _ => apply enforce_ok in H as [_ ->]
  | H : no_conflict_with _ _ _ = _ |- _ => apply no_conflict_ok in H as [_ ->]
  | H : unique _ _ _ _ = _ |- _ => unfold unique in H; apply guardT_ok in H as [Hnew ->]
  | H : put_image _ _ _ = _ |- _ => injection H as _ <-
  end.
  apply negb_true_iff, bool_decide_eq_false, eq_None_not_Some in Hnew. by eexists.
Qed.

Lemma insert_resource_image : insert_resource (T := ImageRow) (V := ImageRow) = insert_image.
Proof. reflexivity. Qed.

Lemma create_image_cared meta (i : ImageRow) env s v s' :
  createIdempotent meta i env s = (Ok v, s') -> cared (eq (im_status i)) (st_db s) (st_db s').
Proof.
  intros [->|[u H]]%create_resource_ok; [by apply cared_same|].
  rewrite insert_resource_image in H.
  apply insert_image_ok in H as (i' & Hi' & Hs & Hn). change (device_images (st_db s) !! im_id i = None) in Hn. eapply cared_insert; [exact Hi'|]. by rewrite Hn.
Qed.

Lemma update_row_cared image expected env s v s' :
  UpdateImageRow image expected env s = (Ok v, s') ->
  (forall old, device_images (st_db s) !! im_id image = Some old -> im_status old = expected ->
     (im_status image = ImageReady -> expected = ImageReady)
     /\ (same_definition old image \/ im_status image = ImageDraft \/ (im_status image = ImageDisabled /\ expected = ImageDisabled))) ->
  cared (fun _ => False) (st_db s) (st_db s').
Proof.
  intros H%map_err_ok Hi. apply update_image_ok in H as (old & Hold & Hexp & Hs' & Hst & Hdef).
  eapply cared_insert; [exact Hs'|]. rewrite Hold, Hst, Hexp. destruct (Hi _ Hold Hexp) as [? [?|?]]; auto.
Qed.

Lemma definition_kept input reference current :
  definition_changed input reference current = false ->
  reference = im_docker_image current /\ ii_DockerDigest input = im_docker_digest current /\ ii_APILevel input = im_api_level current
  /\ ii_ABI input = im_abi current /\ ii_Resolution input = im_resolution current
  /\ json_eqb (JObj (cloneMap (ii_ResourceConfig input))) (JObj (im_resource_config current)) = true.
Proof.
  unfold definition_changed, same_config. intros H. repeat (apply orb_false_iff in H as [H ?]).
  repeat match goal with H : negb _ = false |- _ => apply negb_false_iff in H end. guards.
  split_and!; try done; [lia|]. by destruct (ii_ResourceConfig input).
Qed.

Lemma update_target_spec changed enabled status :
  (update_target changed enabled status = ImageReady -> status = ImageReady)
  /\ (changed = false \/ update_target changed enabled status = ImageDraft
      \/ (update_target changed enabled status = ImageDisabled /\ status = ImageDisabled)).
Proof.
  unfold update_target. destruct (_ && _); [split; [done|auto]|]. destruct changed; cbn; [|auto].
  case_bool_decide as Hs; cbn; [|split; [done|auto]]. split; [done|].
  apply list_elem_of_In in Hs. destruct Hs as [<-|[<-|[]]]; auto.
Qed.

Section ImageMethods.
Context (env : Env) (s s' : St) (i : ImageRow) (Hk : images_keyed (st_db s)).

(** The status of an image that the method creates. *)
Definition first_status (input : ImageInput) : ImageStatus := if bool_decide (ii_Enabled input = Some false) then ImageDisabled else ImageDraft.

Lemma create_image_method clientID key input :
  CreateImage clientID key input env s = (Ok i, s') -> cared (eq (first_status input)) (st_db s) (st_db s').
Proof.
  intros H. unfold CreateImage in H. apply bindT_ok in H as (u & s1 & E & H). apply guardT_ok in E as [_ ->].
  apply bindT_ok in H as (id & s1 & E & H). pose proof (keeps_db _ _ _ _ E) as <-. cbv zeta in H.
  apply bindT_ok in H as (meta & s2 & E2 & H). apply (read_only (m := idempotency _ _ _ _ _ _ _)) in E2 as ->.
  apply create_image_cared in H. cbn in H. unfold first_status. by destruct (ii_Enabled input) as [[]|].
Qed.

Lemma retire_image_method id reason actor requestID :
  RetireImage id reason actor requestID env s = (Ok i, s') -> cared (fun _ => False) (st_db s) (st_db s').
Proof.
  intros H. unfold RetireImage in H.
  apply bindT_ok in H as (u & s1 & E & H). apply guardT_ok in E as [_ ->].
  apply bindT_ok in H as (cur & s1 & E & H). apply GetImage_ok in E as [_ ->].
  apply bindT_ok in H as (u1 & s1 & E & H). apply guardT_ok in E as [_ ->].
  apply bindT_ok in H as (a & s1 & E & H). apply lift_ok in E as [_ ->].
  apply bindT_ok in H as (now & s1 & E & H). injection E as <- <-.
  apply bindT_ok in H as (b & s1 & E & H). apply apply_call_ok in E as [[Hb _]%transition_status ->].
  apply bindT_ok in H as (event & s1 & E & H). apply deviceAudit_db in E.
  apply map_err_ok in H. apply (proj1 (WithinTx_ok _ _ _ _ _)) in H. apply retire_tx_ok in H. rewrite E, Hb in H.
  destruct H as (old & Hold & _ & -> & Hi & _). cbn in Hi, Hold. eapply cared_insert; [exact Hi|].
  rewrite (Hk _ _ Hold), Hold. cbn. split; [by intros [=]|]. left. unfold same_definition. cbn. auto 10.
Qed.

Lemma update_image_method id input : UpdateImage id input env s = (Ok i, s') -> cared (fun _ => False) (st_db s) (st_db s').
Proof.
  intros H. unfold UpdateImage in H.
  apply bindT_ok in H as (u & s1 & E & H). apply guardT_ok in E as [_ ->].
  apply bindT_ok in H as (u1 & s1 & E & H). apply guardT_ok in E as [_ ->].
  apply bindT_ok in H as (cur & s1 & E & H). apply GetImage_ok in E as [Hcur ->]. cbv zeta in H.
  apply bindT_ok in H as (u2 & s1 & E & H). apply read_only in E as ->.
  eapply update_row_cared; [exact H|]. cbn -[update_target definition_changed same_definition]. intros old Hold _. rewrite (Hk _ _ Hcur), Hcur in Hold. injection Hold as <-.
  match goal with |- (update_target ?c ?e ?f = _ -> _) /\ _ => destruct (update_target_spec c e f) as [? [Hc|?]]; (split; [done|]); [left|by right] end.
  apply definition_kept in Hc as (? & ? & ? & ? & ? & ?). unfold same_definition. cbn. auto 10.
Qed.

Lemma start_validation_method id : StartImageValidation id env s = (Ok i, s') -> cared (fun _ => False) (st_db s) (st_db s').
Proof.
  intros H. unfold StartImageValidation in H.
  apply bindT_ok in H as (cur & s1 & E & H). apply GetImage_ok in E as [Hcur ->].
  apply bindT_ok in H as (u1 & s1 & E & H). apply guardT_ok in E as [_ ->].
  apply bindT_ok in H as (a & s1 & E & H). apply lift_ok in E as [_ ->].
  apply bindT_ok in H as (now & s1 & E & H). injection E as <- <-.
  apply bindT_ok in H as (b & s1 & E & H). apply apply_call_ok in E as [[Hb _]%transition_status ->].
  eapply update_row_cared; [exact H|]. cbn. intros old Hold _. rewrite (Hk _ _ Hcur), Hcur in Hold. injection Hold as <-.
  rewrite Hb. split; [done|]. left. unfold same_definition. cbn. auto 10.
Qed.
End ImageMethods.

(** The status that a method gives to a new image. *)
Definition new_status (m : management_method) (st : ImageStatus) : Prop :=
  match m with MCreateImage _ _ input => st = first_status input | _ => False end.

Lemma cared_mono (new new' : ImageStatus -> Prop) db db' : (forall st, new st -> new' st) -> cared new db db' -> cared new' db db'.
Proof. intros Hn Hc k i' Hi. specialize (Hc k i' Hi). destruct (device_images db !! k); auto. Qed.

Lemma manage_cared m env s u s' :
  images_keyed (st_db s) -> manage m env s = (Ok u, s') -> cared (new_status m) (st_db s) (st_db s').
Proof.
  intros Hk H.
  assert (Keeps device_images (manage m) -> cared (new_status m) (st_db s) (st_db s')) as Hother by (intros K; apply cared_same, (K _ _ _ _ H)).
  destruct m; cbn [manage] in *; unfold ignore in *.
  - apply bindT_ok in H as (i & s1 & H & E). injection E as _ <-. apply create_image_method in H. eapply cared_mono; [|exact H]. by intros st <-.
  - apply bindT_ok in H as (i & s1 & H & E). injection E as _ <-. by eapply retire_image_method.
  - apply bindT_ok in H as (i & s1 & H & E). injection E as _ <-. by eapply update_image_method.
  - apply bindT_ok in H as (i & s1 & H & E). injection E as _ <-. by eapply start_validation_method.
  - apply Hother. unfold CreateHost. solve_keeps.
  - apply Hother. unfold UpdateHost. solve_keeps.
  - apply Hother. unfold SetHostDraining. solve_keeps.
  - apply Hother. unfold CreatePool. solve_keeps.
  - apply Hother. unfold UpdatePool. solve_keeps.
  - apply Hother. unfold SetPoolImage. solve_keeps.
  - apply Hother. unfold DisablePoolImage. solve_keeps.
  - apply Hother. unfold SelectPoolDefaultImage. solve_keeps.
  - apply Hother. unfold SetPoolBaseDevice. solve_keeps.
  - apply Hother. unfold AddDeviceToPool. solve_keeps.
  - apply Hother. unfold RemoveDeviceFromPool. solve_keeps.
  - apply Hother. unfold UpdateDeviceName. solve_keeps.
  - apply Hother. unfold ProvisionMockDevice. solve_keeps.
Qed.

(** C16: what is ready was validated.  A method of the management service that fails
    changes nothing; one that succeeds leaves ready only images that were ready, and only
    with the definition (reference, digest, level, architecture, resolution and runtime
    profile) that they had.  Only the creation of an image adds one, as a draft, or as
    disabled when the request asks for that; an image whose definition changes ends as a
    draft, except that a disabled one may stay disabled. *)
Theorem ready_images_vouched (m : management_method) (env : Env) (s s' : St) (r : result Err unit) :
  images_keyed (st_db s) -> manage m env s = (r, s') ->
  (is_ok r = false -> st_db s' = st_db s)
  /\ (forall k i', device_images (st_db s') !! k = Some i' -> im_status i' = ImageReady ->
        exists i, device_images (st_db s) !! k = Some i /\ im_status i = ImageReady /\ same_definition i i')
  /\ (forall k i', device_images (st_db s) !! k = None -> device_images (st_db s') !! k = Some i' ->
        exists clientID key input, m = MCreateImage clientID key input
          /\ im_status i' = if bool_decide (ii_Enabled input = Some false) then ImageDisabled else ImageDraft)
  /\ (forall k i i', device_images (st_db s) !! k = Some i -> device_images (st_db s') !! k = Some i' -> ~ same_definition i i' ->
        im_status i' = ImageDraft \/ (im_status i' = ImageDisabled /\ im_status i = ImageDisabled)).
Proof.
  intros Hk H.
  assert (cared (new_status m) (st_db s) (st_db s')) as Hc.
  { destruct r as [u|e]; [by eapply manage_cared|]. apply (manage_atomic m) in H. apply cared_same. by rewrite H. }
  split_and!.
  - intros Hr. destruct r; [done|]. by apply (manage_atomic m) in H.
  - eapply cared_vouched; [|exact Hc]. intros st Hn ->. destruct m; try done. cbn in Hn. unfold first_status in Hn. by destruct (bool_decide _).
  - intros k i' Hn Hi. specialize (Hc k i' Hi). rewrite Hn in Hc. destruct m; try done. eauto.
  - intros k i i' Hi Hi' Hd. specialize (Hc k i' Hi'). rewrite Hi in Hc. by destruct Hc as [_ [|]].
Qed.

Lemma managed_keyed : images_keyed (st_db managed).
Proof.
  assert (map_Forall (fun k i => im_id i = k) (device_images (st_db managed))) as H by (apply (bool_decide_unpack _); vm_compute; exact I).
  intros k i Hi. exact (H k i Hi).
Qed.

Definition revise : management_method := MUpdateImage image_30 (image_form (Some [])).

Lemma ready_images_vouched_witness :
  option_map im_status (device_images (st_db managed) !! image_30) = Some ImageReady
  /\ option_map im_status (device_images (st_db (after (manage revise) morning managed)) !! image_30) = Some ImageDraft
  /\ vouched (st_db managed) (st_db (after (manage revise) morning managed)).
Proof.
  split; [vm_compute; reflexivity|]. split; [vm_compute; reflexivity|].
  exact (proj1 (proj2 (ready_images_vouched revise morning managed _ _ managed_keyed (surjective_pairing _)))).
Defined.
