(* ===== verification/CatalogRows.v ===== *)
(** * The rows that the schema allows, value by value

    The constraints that the migrations put on images, hosts, pools and the links of
    pools to images, written as the values that a row may have, and that the checks of
    [ManagementStore] accept exactly these rows. *)
From Stdlib Require Import Ascii.
From S2P Require Import Prelude GoText Errors Domain Json Sensitive Actor Store.
From S2P Require Import RuntimeProfile ReservationRepo CommandRepo DeviceStore Reconcile DeviceOps ImageCatalog WarmPool ManagementStore.

Definition all_digits (s : string) : Prop := s <> ""%string /\ forall_chars is_digit s = true.

(** [device_images]: migrations 1 and 4. *)
Record image_allowed (i : ImageRow) : Prop := {
  ia_digest : exists hex, im_docker_digest i = ("sha256:" ++ hex)%string /\ len hex = 64 /\ forall_chars any_hex hex = true;
  ia_api_level : 21 <= im_api_level i;
  ia_abi : im_abi i = "x86_64"%string \/ im_abi i = "arm64-v8a"%string;
  ia_resolution : exists width height, im_resolution i = (width ++ "x" ++ height)%string /\ all_digits width /\ all_digits height;
  ia_reference : im_docker_image i = ""%string \/ reference_pattern (im_docker_image i) = true;
  ia_status : im_status i ∈ [ImageDraft; ImageValidating; ImageReady; ImageFailed; ImageDisabled];
  ia_runnable : im_docker_image i = ""%string -> im_status i ∈ [ImageDraft; ImageFailed; ImageDisabled] }.

(** [device_hosts]: migrations 1 and 14. *)
Record host_allowed (h : HostRow) : Prop := {
  ha_type : h_host_type h ∈ ["docker_emulator"; "usb_android"; "hybrid"; "appium_device_farm_ios"]%string;
  ha_status : h_status h ∈ [HostOnline; HostOffline; HostDraining; HostMaintenance];
  ha_draining : h_draining h = true <-> h_status h = HostDraining;
  ha_os : h_host_os h ∈ ["linux"; "macos"; "windows"]%string;
  ha_arch : h_host_arch h <> ""%string /\ forall_chars arch_char (h_host_arch h) = true /\ len (h_host_arch h) <= 32;
  ha_ios : h_host_type h = "appium_device_farm_ios"%string -> h_host_os h = "macos"%string }.

(** [device_pools]: migrations 1, 12 and 14. *)
Record pool_allowed (p : PoolRow) : Prop := {
  pa_status : p_status p = PoolActive \/ p_status p = PoolDisabled;
  pa_lease : 60 <= p_default_lease_seconds p <= p_max_lease_seconds p;
  pa_concurrency : 0 < p_max_concurrency p;
  pa_target : 0 <= p_min_ready p <= p_total_target p;
  pa_platform : p_platform p = "android"%string \/ p_platform p = "ios"%string }.

(** [device_pool_images]: migration 1. *)
Definition link_allowed (l : PoolImageRow) : Prop := 0 <= pi_min_ready l <= pi_max_instances l /\ 0 < pi_max_instances l.

(** ** Patterns *)
Lemma digest_spec s :
  digest_pattern s = true <-> exists hex, s = ("sha256:" ++ hex)%string /\ len hex = 64 /\ forall_chars any_hex hex = true.
Proof.
  unfold digest_pattern. destruct (strip_prefix "sha256:" s) as [d|] eqn:E.
  - apply strip_prefix_spec in E as ->. rewrite andb_true_iff, Z.eqb_eq. split; [intros [? ?]; by exists d|].
    intros (hex & He & ? & ?). apply (inj (fun x => ("sha256:" ++ x)%string)) in He as ->; done.
  - split; [done|]. intros (hex & -> & _). by rewrite (proj2 (strip_prefix_spec _ _ _) eq_refl) in E.
Qed.

Lemma first_where_map {A B} (f : A -> B) p l : first_where p (map f l) = option_map f (first_where (fun a => p (f a)) l).
Proof. induction l as [|a l IH]; [done|]. cbn. by destruct (p (f a)). Qed.

Definition first_x (s : string) : option nat := first_where (starts_at "x" s) (seq 0 (String.length s)).

Lemma first_x_cons a s : first_x (String a s) = if Ascii.eqb "x" a then Some 0%nat else option_map S (first_x s).
Proof.
  unfold first_x. cbn [String.length seq first_where].
  assert (starts_at "x" (String a s) 0 = Ascii.eqb "x" a) as ->.
  { unfold starts_at, HasPrefix. cbn [String.length Nat.sub String.substring strip_prefix]. by destruct (Ascii.eqb "x" a). }
  destruct (Ascii.eqb "x" a); [done|]. rewrite <-seq_shift, first_where_map. done.
Qed.

Lemma substring_all s : String.substring 0 (String.length s) s = s.
Proof. induction s as [|a s IH]; [done|exact (f_equal (String a) IH)]. Qed.

Lemma substring_head w t : String.substring 0 (String.length w) (w ++ t)%string = w.
Proof. induction w as [|a w IH]; [by destruct t|exact (f_equal (String a) IH)]. Qed.

Lemma first_x_split s : forall i, first_x s = Some i -> exists w h, s = (w ++ "x" ++ h)%string /\ i = String.length w.
Proof.
  induction s as [|a s IH]; intros i; [done|]. rewrite first_x_cons. destruct (Ascii.eqb_spec "x" a) as [<-|_].
  - intros [= <-]. by exists ""%string, s.
  - destruct (first_x s) as [j|]; [|done]. intros [= <-]. destruct (IH j eq_refl) as (w & h & -> & ->). by exists (String a w), h.
Qed.

Lemma first_x_digits w h : forall_chars is_digit w = true -> first_x (w ++ "x" ++ h)%string = Some (String.length w).
Proof.
  induction w as [|a w IH]; intros Hw; [done|]. cbn in Hw. apply andb_true_iff in Hw as [Ha Hw].
  change (String a w ++ "x" ++ h)%string with (String a (w ++ "x" ++ h)). rewrite first_x_cons.
  destruct (Ascii.eqb_spec "x" a) as [<-|_]; [by vm_compute in Ha|]. by rewrite (IH Hw).
Qed.

Lemma suffix_after w h : suffix_from (w ++ "x" ++ h)%string (S (String.length w)) = h.
Proof.
  unfold suffix_from. induction w as [|a w IH]; [|exact IH].
  change (String.substring 0 (String.length h - 0) h = h). rewrite Nat.sub_0_r. apply substring_all.
Qed.

Lemma nonempty_spec s : nonempty s = true <-> s <> ""%string.
Proof. unfold nonempty. by rewrite negb_true_iff, String.eqb_neq. Qed.

Lemma resolution_spec s :
  resolution_pattern s = true <-> exists w h, s = (w ++ "x" ++ h)%string /\ all_digits w /\ all_digits h.
Proof.
  unfold resolution_pattern, all_digits. fold (first_x s). split.
  - destruct (first_x s) as [i|] eqn:E; [|done]. destruct (first_x_split _ _ E) as (w & h & -> & ->).
    rewrite substring_head, suffix_after, !andb_true_iff, !nonempty_spec. intros [[[? ?] ?] ?]. by exists w, h.
  - intros (w & h & -> & [? Hw] & [? ?]). rewrite (first_x_digits _ _ Hw), substring_head, suffix_after, !andb_true_iff, !nonempty_spec. done.
Qed.

(** ** The checks accept exactly the allowed rows *)
Lemma is_key_spec {S} (t : S -> option (list S)) x : is_key t x = true <-> is_Some (t x).
Proof. unfold is_key. by destruct (t x). Qed.

(** A check that refuses unless a condition holds, before the next ones. *)
Lemma check_cons (b : bool) (c : string) (rest : option string) : (if negb b then Some c else rest) = None <-> b = true /\ rest = None.
Proof. destruct b; naive_solver. Qed.
Lemma check_lt (b : bool) (c : string) (rest : option string) : (if b then Some c else rest) = None <-> b = false /\ rest = None.
Proof. destruct b; naive_solver. Qed.

Lemma image_checks_spec i : image_checks i = None <-> image_allowed i.
Proof.
  unfold image_checks. rewrite !check_cons, check_lt, !check_cons, check_lt.
  rewrite digest_spec, Z.ltb_ge, bool_decide_eq_true, resolution_spec, orb_true_iff, String.eqb_eq, andb_false_iff,
    String.eqb_neq, negb_false_iff, bool_decide_eq_true.
  assert (validImageStatus (im_status i) = true <-> im_status i ∈ [ImageDraft; ImageValidating; ImageReady; ImageFailed; ImageDisabled]) as ->.
  { unfold validImageStatus. rewrite is_key_spec. destruct (im_status i); cbn; split; intros H; try (by eexists); try (by destruct H);
      rewrite ?elem_of_cons in *; try tauto; destruct_or?; try done; by apply elem_of_nil in H. }
  assert (im_abi i ∈ ["x86_64"; "arm64-v8a"]%string <-> im_abi i = "x86_64"%string \/ im_abi i = "arm64-v8a"%string) as ->.
  { rewrite !elem_of_cons, elem_of_nil. tauto. }
  split.
  - intros (? & ? & ? & ? & ? & ? & Hr & _). split; try done. intros He. by destruct Hr.
  - intros [? ? ? ? ? ? Hr]. split_and!; try done. destruct (decide (im_docker_image i = ""%string)); auto.
Qed.

Lemma host_checks_spec h : host_checks h = None <-> host_allowed h.
Proof.
  unfold host_checks. rewrite !check_cons, check_lt.
  rewrite !bool_decide_eq_true, eqb_true_iff, !andb_true_iff, nonempty_spec, Z.leb_le, andb_false_iff, negb_false_iff, String.eqb_neq, String.eqb_eq.
  assert (validHostStatus (h_status h) = true <-> h_status h ∈ [HostOnline; HostOffline; HostDraining; HostMaintenance]) as ->.
  { unfold validHostStatus. rewrite is_key_spec. destruct (h_status h); cbn; split; intros H; try (by eexists); try (by destruct H);
      rewrite ?elem_of_cons in *; try tauto; destruct_or?; try done; by apply elem_of_nil in H. }
  assert (h_draining h = bool_decide (h_status h = HostDraining) <-> (h_draining h = true <-> h_status h = HostDraining)) as ->.
  { destruct (h_draining h), (decide (h_status h = HostDraining)) as [E|E]; rewrite ?bool_decide_eq_true_2, ?bool_decide_eq_false_2 by done;
      split; intros H; try done; tauto || (exfalso; apply E, H; done) || (exfalso; discriminate (proj2 H E)). }
  split.
  - intros (? & ? & ? & ? & [[? ?] ?] & Hi & _). split; try done. intros E. by destruct Hi.
  - intros [? ? ? ? (? & ? & ?) Hi]. split_and!; try done. destruct (decide (h_host_type h = "appium_device_farm_ios"%string)); auto.
Qed.

Lemma pool_checks_spec p : pool_checks p = None <-> pool_allowed p.
Proof.
  unfold pool_checks. rewrite !check_cons, !andb_true_iff, !Z.leb_le, Z.ltb_lt, bool_decide_eq_true.
  assert (validPoolStatus (p_status p) = true <-> p_status p = PoolActive \/ p_status p = PoolDisabled) as ->.
  { unfold validPoolStatus. rewrite is_key_spec. destruct (p_status p); cbn; split; intros H; try (by eexists); try (by destruct H); auto. }
  assert (p_platform p ∈ ["android"; "ios"]%string <-> p_platform p = "android"%string \/ p_platform p = "ios"%string) as ->.
  { rewrite !elem_of_cons, elem_of_nil. tauto. }
  split.
  - intros (? & [? ?] & ? & ? & [? ?] & ? & _). by split.
  - intros [? [? ?] ? [? ?] ?]. split_and!; try done. lia.
Qed.

Lemma link_checks_spec l : pool_image_checks l = None <-> link_allowed l.
Proof.
  unfold pool_image_checks, link_allowed. destruct (_ && _ && _) eqn:E.
  - rewrite !andb_true_iff, !Z.leb_le, Z.ltb_lt in E. split; [lia|done].
  - split; [done|]. intros H. apply not_true_iff_false in E. destruct E. rewrite !andb_true_iff, !Z.leb_le, Z.ltb_lt. lia.
Qed.

(** ** The tables of the catalogue *)

(** The rows are stored under their identifiers, are allowed and have distinct names. *)
Record table_allowed {R} (id name : R -> string) (allowed : R -> Prop) (t : gmap string R) : Prop := {
  ta_row k r : t !! k = Some r -> id r = k /\ allowed r;
  ta_name k1 k2 r1 r2 : t !! k1 = Some r1 -> t !! k2 = Some r2 -> name r1 = name r2 -> k1 = k2 }.

(** A link joins a pool and an image that exist, a member a pool and a device that exist
    and are on one platform. *)
Record catalog_allowed (db : DB) : Prop := {
  ca_images : table_allowed im_id im_name image_allowed (device_images db);
  ca_hosts : table_allowed h_id h_name host_allowed (device_hosts db);
  ca_pools : table_allowed p_id p_name pool_allowed (device_pools db);
  ca_link k l : device_pool_images db !! k = Some l -> link_allowed l
    /\ k = (pi_pool_id l, pi_image_id l) /\ is_Some (device_pools db !! k.1) /\ is_Some (device_images db !! k.2);
  ca_member k pd : device_pool_devices db !! k = Some pd -> k = (pd_pool_id pd, pd_device_id pd)
    /\ exists p d, device_pools db !! k.1 = Some p /\ devices db !! k.2 = Some d /\ p_platform p = d_platform d }.
