(* ===== verification/CatalogSpec.v ===== *)
(** * The constraints of the catalogue

    [CatalogRows.catalog_allowed] is what the checks, keys and triggers of the migrations
    say of the tables of the management, value by value; [catalog_valid] is the same with
    the checks as the store evaluates them, and every method of the management service
    keeps it. *)
From S2P Require Import Prelude GoText Errors Domain DomainSpec Json Sensitive Actor Store.
From S2P Require Import Float64 RuntimeProfile Capacity ReservationRepo TxFacts CommandRepo DeviceStore Reconcile DeviceOps ImageCatalog.
From S2P Require Import HostCommand HostSelection Completion WarmPool PoolCycle PoolScale ManagementStore Management.
From S2P Require Import FarmSystem Samples FarmSafety ControlStep PoolMoves SessionMoves ManagementMoves ControlPlane Drives ManagementServices.
From S2P Require Import PoolSpec ManagementSpec CatalogRows.

(** ** The constraints of the catalogue *)

(** A table whose rows are stored under their identifiers, satisfy their checks and have
    distinct names. *)
Record table_valid {R} (id name : R -> string) (checks : R -> option string) (t : gmap string R) : Prop := {
  tv_row k r : t !! k = Some r -> id r = k /\ checks r = None;
  tv_name k1 k2 r1 r2 : t !! k1 = Some r1 -> t !! k2 = Some r2 -> name r1 = name r2 -> k1 = k2 }.

Lemma table_valid_insert {R} (id name : R -> string) checks t r :
  table_valid id name checks t -> checks r = None ->
  (forall k x, t !! k = Some x -> k <> id r -> name x <> name r) -> table_valid id name checks (<[id r := r]> t).
Proof.
  intros [Hr Hn] Hc Hu. split.
  - by intros k x [[<- <-]|[_ Hx%Hr]]%lookup_insert_Some.
  - intros k1 k2 r1 r2 [[<- <-]|[H1 Hx1]]%lookup_insert_Some [[<- <-]|[H2 Hx2]]%lookup_insert_Some E; try done.
    + by destruct (Hu _ _ Hx2 (not_eq_sym H2)).
    + by destruct (Hu _ _ Hx1 (not_eq_sym H1)).
    + by eapply Hn.
Qed.

Lemma table_valid_change {R} (id name : R -> string) checks t r old :
  table_valid id name checks t -> checks r = None -> t !! id r = Some old -> name r = name old ->
  table_valid id name checks (<[id r := r]> t).
Proof.
  intros Ht Hc Ho Hn. apply table_valid_insert; [done|done|]. intros k x Hx Hne E.
  apply Hne. eapply (tv_name _ _ _ _ Ht); [exact Hx|exact Ho|congruence].
Qed.

(** The tables of the catalogue: the links of pools to images and the memberships join
    rows that exist, and a device is on the platform of its pools. *)
Record catalog_valid (db : DB) : Prop := {
  cv_images : table_valid im_id im_name image_checks (device_images db);
  cv_hosts : table_valid h_id h_name host_checks (device_hosts db);
  cv_pools : table_valid p_id p_name pool_checks (device_pools db);
  cv_link k l : device_pool_images db !! k = Some l -> pool_image_checks l = None
    /\ k = (pi_pool_id l, pi_image_id l) /\ is_Some (device_pools db !! k.1) /\ is_Some (device_images db !! k.2);
  cv_member k pd : device_pool_devices db !! k = Some pd -> k = (pd_pool_id pd, pd_device_id pd)
    /\ exists p d, device_pools db !! k.1 = Some p /\ devices db !! k.2 = Some d /\ p_platform p = d_platform d }.

Definition catalog_tables (db : DB) :=
  (device_images db, device_hosts db, device_pools db, device_pool_images db, device_pool_devices db, devices db).

Lemma catalog_valid_same db db' : catalog_tables db' = catalog_tables db -> catalog_valid db -> catalog_valid db'.
Proof. intros [= E1 E2 E3 E4 E5 E6] [? ? ? Hl Hm]. split; rewrite ?E1, ?E2, ?E3, ?E4, ?E5, ?E6; done. Qed.

Section Puts.
Context (db : DB) (Hv : catalog_valid db).

Lemma valid_put_image i :
  table_valid im_id im_name image_checks (<[im_id i := i]> (device_images db)) ->
  catalog_valid (db <| device_images := <[im_id i := i]> (device_images db) |>).
Proof.
  destruct Hv as [? ? ? Hl ?]. intros Ht. split; try done; cbn. intros k l Hk. destruct (Hl _ _ Hk) as (? & ? & ? & Hi).
  split_and!; try done. apply lookup_insert_is_Some'. by right.
Qed.

Lemma valid_put_host h :
  table_valid h_id h_name host_checks (<[h_id h := h]> (device_hosts db)) ->
  catalog_valid (db <| device_hosts := <[h_id h := h]> (device_hosts db) |>).
Proof. destruct Hv. by split. Qed.

Lemma valid_put_pool p :
  table_valid p_id p_name pool_checks (<[p_id p := p]> (device_pools db)) ->
  (forall did pd d, device_pool_devices db !! (p_id p, did) = Some pd -> devices db !! did = Some d -> d_platform d = p_platform p) ->
  catalog_valid (db <| device_pools := <[p_id p := p]> (device_pools db) |>).
Proof.
  destruct Hv as [? ? ? Hl Hm]. intros Ht Hp. split; try done; cbn.
  - intros k l Hk. destruct (Hl _ _ Hk) as (? & ? & Hi & ?). split_and!; try done. apply lookup_insert_is_Some'. by right.
  - intros [pid did] pd Hk. destruct (Hm _ _ Hk) as (? & q & d & Hq & Hd & Hpl). split; [done|]. cbn in *.
    destruct (decide (pid = p_id p)) as [->|]; [|rewrite lookup_insert_ne by done; eauto].
    rewrite lookup_insert_eq. exists p, d. split_and!; [done|done|]. symmetry. by eapply Hp.
Qed.

Lemma valid_change_pool p old :
  device_pools db !! p_id p = Some old -> pool_checks p = None -> p_name p = p_name old -> p_platform p = p_platform old ->
  catalog_valid (db <| device_pools := <[p_id p := p]> (device_pools db) |>).
Proof.
  intros Ho Hc Hn Hp. apply valid_put_pool.
  - eapply table_valid_change; [apply Hv|done|exact Ho|done].
  - intros did pd d Hk Hd. destruct (cv_member _ Hv _ _ Hk) as (_ & q & x & Hq & Hx & E). cbn in *. congruence.
Qed.

Lemma valid_put_link l :
  pool_image_checks l = None -> is_Some (device_pools db !! pi_pool_id l) -> is_Some (device_images db !! pi_image_id l) ->
  catalog_valid (db <| device_pool_images := <[(pi_pool_id l, pi_image_id l) := l]> (device_pool_images db) |>).
Proof. destruct Hv as [? ? ? Hl ?]. intros. split; try done; cbn. by intros k x [[<- <-]|[_ Hx%Hl]]%lookup_insert_Some. Qed.

Lemma valid_put_member pool device pd p d :
  pd_pool_id pd = pool -> pd_device_id pd = device -> device_pools db !! pool = Some p -> devices db !! device = Some d ->
  p_platform p = d_platform d ->
  catalog_valid (db <| device_pool_devices := <[(pool, device) := pd]> (device_pool_devices db) |>).
Proof.
  destruct Hv as [? ? ? ? Hm]. intros <- <- ? ? ?. split; try done; cbn. intros k x [[<- <-]|[_ Hx%Hm]]%lookup_insert_Some; [|done].
  split; [done|]. by exists p, d.
Qed.

Lemma valid_put_device k d :
  (forall x, devices db !! k = Some x -> d_platform d = d_platform x) -> catalog_valid (db <| devices := <[k := d]> (devices db) |>).
Proof.
  destruct Hv as [? ? ? ? Hm]. intros Hd. split; try done; cbn. intros [pid did] pd Hk.
  destruct (Hm _ _ Hk) as (? & p & x & Hp & Hx & E). split; [done|]. cbn in *. destruct (decide (did = k)) as [->|].
  - rewrite lookup_insert_eq. exists p, d. split_and!; [done|done|]. by rewrite (Hd _ Hx).
  - rewrite lookup_insert_ne by done. eauto.
Qed.
End Puts.

(** No other row of the table has the name of the row. *)
Lemma no_other_name {R} (id name : R -> string) checks (t : gmap string R) r :
  table_valid id name checks t ->
  existsb (fun x => negb (String.eqb (id x) (id r)) && String.eqb (name x) (name r)) (rows t) = false ->
  forall k x, t !! k = Some x -> k <> id r -> name x <> name r.
Proof.
  intros Ht Hn k x Hx Hne E. pose proof (existsb_false_row _ _ _ _ Hn Hx) as Hf. cbv beta in Hf.
  destruct (tv_row _ _ _ _ Ht _ _ Hx) as [Hid _]. rewrite E, String.eqb_refl, andb_true_r in Hf.
  apply negb_false_iff, String.eqb_eq in Hf. congruence.
Qed.

Lemma image_unique i db : image_conflict i db = None ->
  existsb (fun x => negb (String.eqb (im_id x) (im_id i)) && String.eqb (im_name x) (im_name i)) (rows (device_images db)) = false.
Proof. unfold image_conflict. cbv zeta. by destruct (existsb _ _). Qed.
Lemma host_unique h db : host_conflict h db = None ->
  existsb (fun x => negb (String.eqb (h_id x) (h_id h)) && String.eqb (h_name x) (h_name h)) (rows (device_hosts db)) = false.
Proof. unfold host_conflict. by destruct (existsb _ _). Qed.
Lemma pool_unique p db : pool_conflict p db = None ->
  existsb (fun x => negb (String.eqb (p_id x) (p_id p)) && String.eqb (p_name x) (p_name p)) (rows (device_pools db)) = false.
Proof. unfold pool_conflict. by destruct (existsb _ _). Qed.

(** Open a write down to the rows that it stores. *)
Ltac store H :=
  tx H;
  repeat match goal with
  | H : varchar _ _ _ _ = (Ok _, _) |- _ => apply varchar_ro in H as ->
  | H : enforce _ _ _ = (Ok _, _) |- _ => apply enforce_ok in H as [? ->]
  | H : no_conflict_with _ _ _ = (Ok _, _) |- _ => apply no_conflict_ok in H as [? ->]
  | H : unique _ _ _ _ = (Ok _, _) |- _ => apply unique_ro in H as ->
  | H : put_db _ _ _ = (Ok _, _) |- _ => injection H as _ <-
  | H : put_image _ _ _ = (Ok _, _) |- _ => injection H as _ <-
  | H : put_host _ _ _ = (Ok _, _) |- _ => injection H as _ <-
  | H : put_pool _ _ _ = (Ok _, _) |- _ => injection H as _ <-
  | H : write_audit _ _ _ _ _ _ = (Ok _, _) |- _ => injection H as _ <-
  end.

Section Writes.
Context (env : Env) (s s' : St) (Hv : catalog_valid (st_db s)).

Lemma valid_insert_image i u : insert_image i env s = (Ok u, s') -> catalog_valid (st_db s').
Proof.
  unfold insert_image. intros H. store H. match goal with H : image_checks ?x = None |- _ => apply (valid_put_image _ Hv x) end. apply table_valid_insert; [apply Hv|done|].
  eapply no_other_name; [apply Hv|match goal with H : image_conflict _ _ = None |- _ => exact (image_unique _ _ H) end].
Qed.

Lemma valid_insert_host h u : insert_host h env s = (Ok u, s') -> catalog_valid (st_db s').
Proof.
  unfold insert_host. intros H. store H. match goal with H : host_checks ?x = None |- _ => apply (valid_put_host _ Hv x) end. apply table_valid_insert; [apply Hv|done|].
  eapply no_other_name; [apply Hv|match goal with H : host_conflict _ _ = None |- _ => exact (host_unique _ _ H) end].
Qed.

Lemma valid_update_image i e x : update_image i e env s = (Ok x, s') -> catalog_valid (st_db s').
Proof.
  unfold update_image. intros H. tx H. destruct (device_images _ !! _) as [row|]; [|done].
  destruct (with_status e row); [|done]. store H. match goal with H : image_checks ?x = None |- _ => apply (valid_put_image _ Hv x) end. apply table_valid_insert; [apply Hv|done|].
  eapply no_other_name; [apply Hv|match goal with H : image_conflict _ _ = None |- _ => exact (image_unique _ _ H) end].
Qed.

Lemma valid_update_host h e x : update_host h e env s = (Ok x, s') -> catalog_valid (st_db s').
Proof.
  unfold update_host. intros H. tx H. destruct (device_hosts _ !! _) as [row|]; [|done].
  destruct (bool_decide _); [|done]. store H. match goal with H : host_checks ?x = None |- _ => apply (valid_put_host _ Hv x) end. apply table_valid_insert; [apply Hv|done|].
  eapply no_other_name; [apply Hv|match goal with H : host_conflict _ _ = None |- _ => exact (host_unique _ _ H) end].
Qed.

Lemma valid_insert_pool p u : insert_pool p env s = (Ok u, s') -> catalog_valid (st_db s').
Proof.
  unfold insert_pool. intros H. tx H. 
  match goal with H : unique _ _ _ _ = _ |- _ => unfold unique in H; apply guardT_ok in H as [Hnew ->] end. store H.
  apply negb_true_iff, bool_decide_eq_false in Hnew. match goal with H : pool_checks ?x = None |- _ => apply (valid_put_pool _ Hv x) end.
  - apply table_valid_insert; [apply Hv|done|]. eapply no_other_name; [apply Hv|match goal with H : pool_conflict _ _ = None |- _ => exact (pool_unique _ _ H) end].
  - intros did pd d Hk _. destruct (cv_member _ Hv _ _ Hk) as (_ & q & _ & Hq & _). destruct Hnew. by exists q.
Qed.

Lemma valid_update_pool p e a x : update_pool_tx p e a env s = (Ok x, s') -> catalog_valid (st_db s').
Proof.
  unfold update_pool_tx. intros H. tx H. destruct (device_pools _ !! _) as [row|] eqn:Hrow; [|done].
  destruct (bool_decide _); [|done]. store H. guards.
  match goal with H : pool_checks ?x = None |- _ =>
    eapply catalog_valid_same; [|apply (valid_put_pool _ Hv x)]; [reflexivity| |] end.
  - apply table_valid_insert; [apply Hv|done|].
    eapply no_other_name; [apply Hv|match goal with H : pool_conflict _ _ = None |- _ => exact (pool_unique _ _ H) end].
  - cbn. intros did pd d Hk Hd. destruct (cv_member _ Hv _ _ Hk) as ([= Hid Hdid] & q & y & Hq & Hy & Epl). cbn in *.
    rewrite Hrow in Hq. rewrite Hd in Hy. injection Hq as <-. injection Hy as <-.
    match goal with H : platform_conflict _ _ _ = false |- _ => unfold platform_conflict in H; apply andb_false_iff in H as [Hpc|Hpc] end.
    + apply negb_false_iff, String.eqb_eq in Hpc. congruence.
    + pose proof (existsb_false_row _ _ _ _ Hpc Hk) as Hf. cbv beta in Hf. rewrite <-Hid, <-Hdid, Hd, String.eqb_refl in Hf.
      cbn in Hf. by apply negb_false_iff, String.eqb_eq in Hf.
Qed.

(** A pool stored again under its name and its platform. *)
Lemma valid_same_pool db p old :
  catalog_valid db -> device_pools db !! p_id old = Some old -> p_id p = p_id old -> p_name p = p_name old -> p_platform p = p_platform old ->
  pool_checks p = None -> catalog_valid (db <| device_pools := <[p_id p := p]> (device_pools db) |>).
Proof. intros Hd Ho Hi Hn Hp Hc. eapply valid_change_pool; [done|by rewrite Hi|done..]. Qed.

Lemma pool_id db k p : catalog_valid db -> device_pools db !! k = Some p -> p_id p = k.
Proof. intros Hd H. apply (tv_row _ _ _ _ (cv_pools _ Hd)) in H. tauto. Qed.

Lemma valid_disable image now db : catalog_valid db -> catalog_valid (disable_links image now db).
Proof.
  intros [? ? ? Hl ?]. split; try done; cbn. intros k l (l0 & <- & Hl0%Hl)%lookup_fmap_Some.
  destruct (_ =? _)%string; [|done]. done.
Qed.

Lemma valid_retire i e a x : retire_tx i e a env s = (Ok x, s') -> catalog_valid (st_db s').
Proof.
  unfold retire_tx. intros H. store H.
  match goal with E : device_images (st_db s) !! im_id i = Some ?a |- _ => rename E into Hold; rename a into old end.
  destruct (tv_row _ _ _ _ (cv_images _ Hv) _ _ Hold) as [Hid _].
  match goal with H : image_checks ?y = None |- _ => rename H into Hc; set (new := y) in * end.
  apply (catalog_valid_same (disable_links (im_id i) (env_clock env) (st_db s) <| device_images := <[im_id new := new]> (device_images (st_db s)) |>)).
  { reflexivity. }
  apply (valid_put_image (disable_links (im_id i) (env_clock env) (st_db s)) (valid_disable _ _ _ Hv)).
  apply (table_valid_change _ _ _ _ _ old); [apply Hv|exact Hc| |reflexivity]. subst new. cbn. by rewrite Hid.
Qed.

Lemma upsert_ok v l : upsert_pool_image v env s = (Ok l, s') ->
  st_db s' = st_db s <| device_pool_images := <[(pi_pool_id l, pi_image_id l) := l]> (device_pool_images (st_db s)) |>
  /\ pi_pool_id l = pi_pool_id v /\ pi_image_id l = pi_image_id v /\ pi_enabled l = pi_enabled v /\ pi_min_ready l = pi_min_ready v
  /\ pi_max_instances l = pi_max_instances v
  /\ pool_image_checks l = None /\ is_Some (device_pools (st_db s) !! pi_pool_id v) /\ is_Some (device_images (st_db s) !! pi_image_id v).
Proof. clear Hv. unfold upsert_pool_image. intros H. store H. split_and!; done. Qed.

Lemma valid_upsert v l : upsert_pool_image v env s = (Ok l, s') -> catalog_valid (st_db s').
Proof. intros (-> & E1 & E2 & _ & _ & _ & Hc & ? & ?)%upsert_ok. apply valid_put_link; [done|done| |]; by rewrite ?E1, ?E2. Qed.

Lemma valid_disable_image p i l : disable_pool_image p i env s = (Ok l, s') -> catalog_valid (st_db s').
Proof.
  unfold disable_pool_image. intros H. store H.
  match goal with E : device_pool_images _ !! _ = Some ?a |- _ => rename E into Hl; rename a into old end.
  destruct (cv_link _ Hv _ _ Hl) as (Hc & Hk & Hp & Hi). cbn in Hp, Hi. injection Hk as Ep Ei. rewrite Ep in *. rewrite Ei in *.
  set (new := old <| pi_enabled := false |> <| pi_updated_at := env_clock env |>). exact (valid_put_link _ Hv new Hc Hp Hi).
Qed.

Lemma valid_membership p d u : add_membership p d env s = (Ok u, s') -> catalog_valid (st_db s').
Proof.
  unfold add_membership. intros H. tx H. guards.
  destruct (device_pools (st_db s) !! p) as [q|] eqn:Hq; [|done].
  destruct (devices (st_db s) !! d) as [y|] eqn:Hd; [|done].
  match goal with E : option_map _ _ = _ |- _ => injection E as Hpl end. injection H as _ <-.
  eapply (valid_put_member _ Hv); [| |exact Hq|exact Hd|exact Hpl].
  all: destruct (device_pool_devices (st_db s) !! (p, d)) as [pd|] eqn:Hpd; [|done].
  all: by destruct (cv_member _ Hv _ _ Hpd) as ([= -> ->] & _).
Qed.

Lemma valid_departure p d u : RemoveDeviceFromPoolRow p d env s = (Ok u, s') -> catalog_valid (st_db s').
Proof.
  unfold RemoveDeviceFromPoolRow. intros H. tx H. destruct (device_pool_devices _ !! (p, d)) as [pd|] eqn:Hpd; [|done].
  destruct (pd_enabled pd); [|done]. injection H as _ <-. destruct (cv_member _ Hv _ _ Hpd) as ([= -> ->] & q & y & Hq & Hy & Hpl).
  by eapply (valid_put_member _ Hv).
Qed.

Lemma valid_new_device d v : create_device d env s = (Ok v, s') -> catalog_valid (st_db s').
Proof.
  unfold create_device. intros H. apply bindT_ok in H as (now & s1 & E & H). injection E as <- <-. cbv zeta in H.
  apply bindT_ok in H as (u & s1 & E & H). apply enforce_ok in E as [_ ->].
  apply bindT_ok in H as (u1 & s1 & E & H). apply insert_device_ok in E as [Hn ->]. apply (read_only (m := load_device _)) in H as ->.
  apply valid_put_device; [done|]. intros x Hx. congruence.
Qed.

Lemma valid_rename id name a v : rename_tx id name a env s = (Ok v, s') -> catalog_valid (st_db s').
Proof.
  unfold rename_tx. intros H. apply bindT_ok in H as (now & s1 & E & H). injection E as <- <-.
  apply bindT_ok in H as (db & s1 & E & H). injection E as <- <-. apply bindT_ok in H as (u & s1 & E & H).
  apply bindT_ok in H as (x & s2 & E2 & H). apply (read_only (m := load_device _)) in E2 as ->. store H.
  destruct (devices (st_db s) !! id) as [d|] eqn:Hd; [|injection E as _ <-; by apply (catalog_valid_same (st_db s))].
  apply bindT_ok in E as (w & s3 & E' & E). apply check_name_ro in E' as ->. injection E as _ <-.
  eapply catalog_valid_same; [|apply (valid_put_device _ Hv id (d <| d_name := name |> <| d_updated_at := env_clock env |>))]; [reflexivity|].
  intros y Hy. rewrite Hd in Hy. by injection Hy as <-.
Qed.
End Writes.

(** ** The methods keep the constraints

    A computation that succeeds leaves a valid catalogue valid; one that fails changes
    nothing ([manage_atomic]). *)
Class Catalogued {A} (m : Tx A) : Prop :=
  catalogued : forall env s a s', catalog_valid (st_db s) -> m env s = (Ok a, s') -> catalog_valid (st_db s').

#[export] Instance Catalogued_keeps {A} (m : Tx A) : KeepsDB m -> Catalogued m | 20.
Proof. intros K env s r s' Hv H. by rewrite (keeps_db _ _ _ _ H). Qed.
#[export] Instance Catalogued_bind {A B} (m : Tx A) (f : A -> Tx B) : Catalogued m -> (forall a, Catalogued (f a)) -> Catalogued (m ≫= f) | 10.
Proof. intros Hm Hf env s r s' Hv (a & s1 & E & H)%bindT_ok. eapply Hf, H. by eapply Hm. Qed.
#[export] Instance Catalogued_map_err {A} f (m : Tx A) : Catalogued m -> Catalogued (map_err f m) | 10.
Proof. intros Hm env s r s' Hv H%map_err_ok. by eapply Hm. Qed.
#[export] Instance Catalogued_tx {A} (m : Tx A) : Catalogued m -> Catalogued (WithinTx m) | 10.
Proof. intros Hm env s r s' Hv H. apply (proj1 (WithinTx_ok _ _ _ _ _)) in H. by eapply Hm. Qed.
#[export] Instance Catalogued_or_delete {A} ref (m : Tx A) : Catalogued m -> Catalogued (or_delete ref m) | 10.
Proof.
  intros Hm env s r s' Hv (x & s1 & E & H)%bindT_ok. unfold attempt in E. destruct (m env s) as [y s2] eqn:Em. injection E as <- <-.
  destruct y as [a|e]; [injection H as <- <-; by eapply Hm|]. by apply bindT_ok in H as (u & s3 & _ & H).
Qed.

Section PoolWrites.
Context (env : Env) (s s' : St) (Hv : catalog_valid (st_db s)).

Lemma pool_of_link v l s1 p : upsert_pool_image v env s = (Ok l, s1) -> device_pools (st_db s) !! pi_pool_id v = Some p ->
  catalog_valid (st_db s1) /\ device_pools (st_db s1) !! p_id p = Some p.
Proof.
  intros H Hp. split; [by eapply valid_upsert|]. apply upsert_ok in H as (-> & _). cbn. by rewrite (pool_id _ _ _ Hv Hp).
Qed.

Lemma retarget_same image n m now p :
  p_id (retarget image n m now p) = p_id p /\ p_name (retarget image n m now p) = p_name p /\ p_platform (retarget image n m now p) = p_platform p.
Proof. unfold retarget. cbv zeta. by destruct (match p_default_image_id p with None => true | Some i => String.eqb i image end). Qed.

Lemma valid_set_pool_image v a l : set_pool_image_tx v a env s = (Ok l, s') -> catalog_valid (st_db s').
Proof.
  unfold set_pool_image_tx. intros H. apply bindT_ok in H as (db & s1 & E & H). injection E as <- <-.
  apply bindT_ok in H as (now & s1 & E & H). injection E as <- <-.
  apply bindT_ok in H as (u & s1 & E & H). apply guardT_ok in E as [_ ->].
  apply bindT_ok in H as (r & s1 & Eu & H).
  apply bindT_ok in H as (p & s2 & E & H). apply expect_row_ok in E as [Hp ->]. cbv zeta in H. store H.
  destruct (pool_of_link _ _ _ _ Eu Hp) as [Hv1 Hp1].
  destruct (retarget_same (pi_image_id v) (pi_max_instances v) (pi_min_ready v) (env_clock env) p) as (? & ? & ?).
  eapply catalog_valid_same; [|by apply (valid_same_pool (st_db s1) (retarget (pi_image_id v) (pi_max_instances v) (pi_min_ready v) (env_clock env) p) p Hv1 Hp1)].
  reflexivity.
Qed.

Lemma valid_select_default p i a r : select_default_tx p i a env s = (Ok r, s') -> catalog_valid (st_db s').
Proof.
  unfold select_default_tx. intros H. apply bindT_ok in H as (db & s1 & E & H). injection E as <- <-.
  apply bindT_ok in H as (now & s1 & E & H). injection E as <- <-.
  apply bindT_ok in H as (row & s1 & E & H). apply expect_row_ok in E as [Hp ->].
  apply bindT_ok in H as (image & s1 & E & H). apply expect_row_ok in E as [_ ->].
  apply bindT_ok in H as (u & s1 & E & H). apply guardT_ok in E as [_ ->].
  apply bindT_ok in H as (l & s1 & Eu & H). cbv zeta in H. store H.
  destruct (pool_of_link _ _ _ _ Eu Hp) as [Hv1 Hp1].
  eapply catalog_valid_same; [|by apply (valid_same_pool (st_db s1) (row <| p_default_image_id := Some i |> <| p_updated_at := env_clock env |>) row Hv1 Hp1)].
  reflexivity.
Qed.

Lemma valid_set_base p d a r : set_base_tx p d a env s = (Ok r, s') -> catalog_valid (st_db s').
Proof.
  unfold set_base_tx. intros H. store H.
  match goal with E : device_pools _ !! _ = Some ?a |- _ => rename E into Hp; rename a into row end.
  pose proof Hp as Hp'. rewrite <-(pool_id _ _ _ Hv Hp) in Hp'.
  eapply catalog_valid_same; [|by apply (valid_same_pool (st_db s) (row <| p_base_device_id := Some d |> <| p_updated_at := env_clock env |>) row Hv Hp')].
  reflexivity.
Qed.
End PoolWrites.

Lemma insert_resource_host : insert_resource (T := HostRow) (V := HostRow) = insert_host.
Proof. reflexivity. Qed.

Lemma insert_resource_pool : insert_resource (T := PoolRow) (V := PoolView) = insert_pool.
Proof. reflexivity. Qed.

Section Catalogue.
Lemma with_record_valid meta s : catalog_valid (st_db s) -> catalog_valid (st_db (on_db (with_record meta) s)).
Proof. by apply catalog_valid_same. Qed.

#[local] Instance new_image_catalogued meta (i : ImageRow) : Catalogued (createIdempotent meta i).
Proof.
  intros env s v s' Hv [->|[u H]]%create_resource_ok; [done|]. rewrite insert_resource_image in H.
  eapply valid_insert_image; [by eapply with_record_valid|exact H].
Qed.
#[local] Instance new_host_catalogued meta (h : HostRow) : Catalogued (createIdempotent meta h).
Proof.
  intros env s v s' Hv [->|[u H]]%create_resource_ok; [done|]. rewrite insert_resource_host in H.
  eapply valid_insert_host; [by eapply with_record_valid|exact H].
Qed.
#[local] Instance new_pool_catalogued meta (p : PoolRow) : Catalogued (createIdempotent meta p).
Proof.
  intros env s v s' Hv [->|[u H]]%create_resource_ok; [done|]. rewrite insert_resource_pool in H.
  eapply valid_insert_pool; [by eapply with_record_valid|exact H].
Qed.
#[local] Instance image_catalogued i e : Catalogued (UpdateImageRow i e).
Proof. apply Catalogued_map_err. intros env s v s' Hv. by apply valid_update_image. Qed.
#[local] Instance host_catalogued h e : Catalogued (UpdateHostRow h e).
Proof. apply Catalogued_map_err. intros env s v s' Hv. by apply valid_update_host. Qed.
#[local] Instance retirement_catalogued i e a : Catalogued (RetireImageRow i e a).
Proof. apply Catalogued_map_err, Catalogued_tx. intros env s v s' Hv. by apply valid_retire. Qed.
#[local] Instance pool_catalogued p e a : Catalogued (UpdatePoolRow p e a).
Proof. apply Catalogued_map_err, Catalogued_tx. intros env s v s' Hv. by apply valid_update_pool. Qed.
#[local] Instance pool_image_catalogued v a : Catalogued (SetPoolImageRow v a).
Proof. apply Catalogued_map_err, Catalogued_tx. intros env s l s' Hv. by apply valid_set_pool_image. Qed.
#[local] Instance disabled_image_catalogued p i : Catalogued (DisablePoolImageRow p i).
Proof. apply Catalogued_map_err. intros env s v s' Hv. by apply valid_disable_image. Qed.
#[local] Instance default_image_catalogued p i a : Catalogued (SelectPoolDefaultImageRow p i a).
Proof. apply Catalogued_map_err, Catalogued_tx. intros env s v s' Hv. by apply valid_select_default. Qed.
#[local] Instance base_device_catalogued p d a : Catalogued (SetPoolBaseDeviceRow p d a).
Proof. apply Catalogued_map_err, Catalogued_tx. intros env s v s' Hv. by apply valid_set_base. Qed.
#[local] Instance membership_catalogued p d : Catalogued (AddDeviceToPoolRow p d).
Proof. apply Catalogued_map_err. intros env s v s' Hv. by apply valid_membership. Qed.
#[local] Instance departure_catalogued p d : Catalogued (RemoveDeviceFromPoolRow p d).
Proof. intros env s v s' Hv. by apply valid_departure. Qed.
#[local] Instance name_catalogued id name a : Catalogued (UpdateDeviceNameRow id name a).
Proof. apply Catalogued_map_err, Catalogued_tx. intros env s v s' Hv. by apply valid_rename. Qed.
#[local] Instance new_device_catalogued d : Catalogued (CreateDevice d).
Proof. apply Catalogued_map_err. intros env s v s' Hv. by apply valid_new_device. Qed.

(** The reads and the checks of a method, then its write. *)
Ltac catalogue :=
  repeat (cbv zeta beta; lazymatch goal with
    | |- Catalogued (match ?x with _ => _ end) => destruct x
    | |- Catalogued (or_delete _ _) => apply Catalogued_or_delete
    | |- Catalogued (_ ≫= _) => apply Catalogued_bind; [|intros ?]
    | |- Catalogued _ => apply _
    end).

Lemma manage_catalogued m : Catalogued (manage m).
Proof.
  destruct m; cbn [manage]; unfold ignore, CreateImage, RetireImage, UpdateImage, StartImageValidation, CreateHost, UpdateHost,
    SetHostDraining, CreatePool, UpdatePool, SetPoolImage, DisablePoolImage, SelectPoolDefaultImage, SetPoolBaseDevice, AddDeviceToPool,
    RemoveDeviceFromPool, UpdateDeviceName, ProvisionMockDevice; catalogue.
Qed.
End Catalogue.

(** The methods called one after the other, each whatever it returns. *)
Definition manage_all (calls : list (Env * management_method)) (s : St) : St :=
  foldl (fun s call => after (manage call.2) call.1 s) s calls.

Lemma call_stays_valid m env s : catalog_valid (st_db s) -> catalog_valid (st_db (after (manage m) env s)).
Proof.
  intros Hv. unfold after. destruct (manage m env s) as [[u|e] s'] eqn:E; cbn [snd].
  - by eapply manage_catalogued.
  - apply (manage_atomic m) in E. by rewrite E.
Qed.

(** The catalogue with the checks as the store evaluates them is the one written out. *)
Lemma table_valid_allowed {R} (id name : R -> string) checks (allowed : R -> Prop) t :
  (forall r, checks r = None <-> allowed r) -> table_valid id name checks t <-> table_allowed id name allowed t.
Proof. intros Hc. split; intros [Hr Hn]; (split; [|exact Hn]); intros k r [? ?%Hc]%Hr; done. Qed.

Lemma catalog_valid_allowed db : catalog_valid db <-> catalog_allowed db.
Proof.
  split; intros [Hi Hh Hp Hl Hm]; (split; [by eapply table_valid_allowed, Hi; apply image_checks_spec
    |by eapply table_valid_allowed, Hh; apply host_checks_spec|by eapply table_valid_allowed, Hp; apply pool_checks_spec| |exact Hm]);
    intros k l (Hc & ? & ? & ?)%Hl; split_and!; try done; by apply link_checks_spec.
Qed.

Lemma calls_stay_valid (calls : list (Env * management_method)) (s : St) :
  catalog_valid (st_db s) -> catalog_valid (st_db (manage_all calls s)).
Proof.
  revert s. induction calls as [|[env m] calls IH]; intros s Hv; [done|]. cbn. by apply IH, call_stays_valid.
Qed.


Definition table_ok {R} (id name : R -> string) (checks : R -> option string) (t : gmap string R) : Prop :=
  map_Forall (fun k r => id r = k /\ checks r = None /\ map_Forall (fun k2 r2 => name r = name r2 -> k = k2) t) t.

Lemma table_ok_valid {R} (id name : R -> string) checks t : table_ok id name checks t -> table_valid id name checks t.
Proof.
  intros H. split; [intros k r Hr; by destruct (H _ _ Hr) as (? & ? & _)|].
  intros k1 k2 r1 r2 H1 H2. destruct (H _ _ H1) as (_ & _ & H3). exact (H3 _ _ H2).
Qed.

Lemma managed_valid : catalog_valid (st_db managed).
Proof.
  split.
  - apply table_ok_valid, (bool_decide_unpack _). vm_compute. exact I.
  - apply table_ok_valid, (bool_decide_unpack _). vm_compute. exact I.
  - apply table_ok_valid, (bool_decide_unpack _). vm_compute. exact I.
  - assert (map_Forall (fun k l => pool_image_checks l = None /\ k = (pi_pool_id l, pi_image_id l)
      /\ is_Some (device_pools (st_db managed) !! k.1) /\ is_Some (device_images (st_db managed) !! k.2)) (device_pool_images (st_db managed))) as H
      by (apply (bool_decide_unpack _); vm_compute; exact I).
    intros k l Hl. exact (H k l Hl).
  - assert (map_Forall (fun k pd => k = (pd_pool_id pd, pd_device_id pd)
      /\ is_Some (device_pools (st_db managed) !! k.1) /\ is_Some (devices (st_db managed) !! k.2)
      /\ option_map p_platform (device_pools (st_db managed) !! k.1) = option_map d_platform (devices (st_db managed) !! k.2))
      (device_pool_devices (st_db managed))) as H by (apply (bool_decide_unpack _); vm_compute; exact I).
    intros k pd Hpd. destruct (H k pd Hpd) as (? & [p Hp] & [d Hd] & E). split; [done|]. exists p, d.
    rewrite Hp, Hd in E. by injection E as E.
Qed.

Definition busy_morning : list (Env * management_method) :=
  [(warm_env 100, MCreateHost "client-1" "host-key-1" host_form); (warm_env 110, MCreatePool "client-1" "pool-key-1" (pool_form 2));
   (warm_env 120, MCreatePool "client-1" "pool-key-2" (pool_form 2)); (warm_env 130, revise)].

Fixpoint outcomes (calls : list (Env * management_method)) (s : St) : list bool :=
  match calls with
  | [] => []
  | (env, m) :: calls => is_ok (manage m env s).1 :: outcomes calls (after (manage m) env s)
  end.

