(* ===== verification/ProvisionSpec.v ===== *)
(** * What the management shows and what the farm does with it

    Whether a pool is shown as provisionable and whether an emulator of it can be
    created; a host that drains; the default image of a pool that is not linked to it. *)
From S2P Require Import Prelude GoText Errors Domain DomainSpec Json Sensitive Actor Store.
From S2P Require Import Float64 RuntimeProfile Capacity ReservationRepo TxFacts CommandRepo DeviceStore Reconcile DeviceOps ImageCatalog.
From S2P Require Import HostCommand HostSelection Completion WarmPool PoolCycle PoolScale ManagementStore Management PoolSelector.
From S2P Require Import ReservationService Scheduler ServiceFacts FarmSystem Samples FarmSafety ControlStep PoolMoves SessionMoves.
From S2P Require Import ManagementMoves ControlPlane Drives ManagementServices SchedulerSpec PoolSpec ManagementSpec CatalogSpec.

(** ** Whether a pool can be provisioned *)

(** A host on which an emulator with the image can be created, as far as anyone knows. *)
Definition can_host (db : DB) (image : string) (h : HostRow) : Prop :=
  h ∈ rows (device_hosts db) /\ emulator_host h = true /\ image_usable (h_id h) image db = true.

Lemma lacks_image_usable db image h : lacks_image db image h = negb (image_usable (h_id h) image db).
Proof. unfold lacks_image, image_usable. by destruct (_ !! _). Qed.

Lemma provisionability_none db p image : provisionability db p image = None <-> exists h, can_host db image h.
Proof.
  unfold provisionability. cbv zeta.
  set (candidates := filter (fun h => emulator_candidate h = true) (rows (device_hosts db))).
  assert (forall h, h ∈ filter (fun h => lacks_image db image h = false) candidates <-> can_host db image h) as Hc.
  { intros h. unfold candidates, can_host. rewrite !list_elem_of_filter, lacks_image_usable, negb_false_iff. tauto. }
  destruct (bool_decide (filter (fun h => lacks_image db image h = false) candidates <> [])) eqn:Hu.
  - apply bool_decide_eq_true in Hu. split; [|done]. intros _.
    destruct (filter (fun h => lacks_image db image h = false) candidates) as [|h l]; [done|]. exists h. apply Hc. by left.
  - apply bool_decide_eq_false in Hu. split; [by repeat case_match|]. intros [h Hh%Hc]. destruct Hu. intros E. rewrite E in Hh. by apply elem_of_nil in Hh.
Qed.

Lemma provisionability_reason db p image reason : provisionability db p image = Some reason -> reason <> ""%string.
Proof. unfold provisionability. cbv zeta. repeat case_match; by intros [= <-]. Qed.

Lemma no_host_blocks db now image requested l : forall best blocked,
  (forall h, h ∈ l -> image_usable (h_id h) image db = false) ->
  select_host (assess db now image requested true) best blocked l
  = Fail (if blocked || bool_decide (l <> []) then no_result "image" [("image", 1)]%string else default (no_result "" []) best).
Proof.
  induction l as [|h l IH]; intros best blocked Hl; cbn [select_host]; [by rewrite orb_false_r|].
  assert (assess db now image requested true h = HostImageBlocked) as -> by (unfold assess; by rewrite Hl by (by left)).
  rewrite IH by (intros x Hx; apply Hl; by right).
  assert (bool_decide (h :: l <> []) = true) as -> by (by apply bool_decide_eq_true). by rewrite orb_true_r.
Qed.

Lemma not_shown_blocks db image env s requested :
  st_db s = db -> (forall h, ~ can_host db image h) ->
  lockHostCapacity image requested true env s
  = (Ok (Fail (if bool_decide (candidate_hosts env db <> []) then no_result "image" [("image", 1)]%string else no_result "" [])), s).
Proof.
  intros <- Hn. unfold lockHostCapacity, ProcessNow, env_gets, mbind, Tx_bind, M_bind. rewrite no_host_blocks; [done|].
  intros h (Hf & Hin)%list_elem_of_filter. apply andb_true_iff in Hf as [He _]. apply (proj1 (elem_of_order_by (fun h => (0, h_id h)) _ _)) in Hin.
  apply not_true_iff_false. intros Hu. exact (Hn h (conj Hin (conj He Hu))).
Qed.

(** A choice that does not respect the image states is the one of a farm without any. *)
Lemma validation_ignores image s requested env2 :
  (lockHostCapacity image requested false env2 s).1
  = (lockHostCapacity image requested true env2 (s <| st_db := st_db s <| device_host_image_states := ∅ |> |>)).1.
Proof. reflexivity. Qed.

(** C17: a pool is shown as the farm can serve it.  A pool without a default image, or that
    is not for Android, is not evaluated.  Any other is provisionable, without a reason,
    exactly when an online emulator host that is not draining is not known to lack the
    image.  When it is shown as not provisionable there is a reason, and no device with
    that image is given a host, whatever the profile, the time and the rows that others
    have locked: the shortfall is the image, or nothing when there is no host.  A request
    that validates an image does not respect what was observed of it: it chooses a host
    as if no host had been observed, so it can be granted one even then. *)
Theorem provisionable_exact (id : string) (env : Env) (s s' : St) (v : PoolView) :
  GetPool id env s = (Ok v, s') ->
  let p := vp_row v in
  s' = s /\ device_pools (st_db s) !! id = Some p
  /\ (vp_Provisionable v = None <-> p_default_image_id p = None \/ p_platform p <> "android"%string)
  /\ forall image, p_default_image_id p = Some image -> p_platform p = "android"%string ->
     (vp_Provisionable v = Some true <-> exists h, can_host (st_db s) image h)
     /\ (vp_Provisionable v = Some true <-> vp_ProvisionableReason v = ""%string)
     /\ (vp_Provisionable v = Some false -> forall requested env2,
           lockHostCapacity image requested true env2 s
           = (Ok (Fail (if bool_decide (candidate_hosts env2 (st_db s) <> []) then no_result "image" [("image", 1)]%string
                        else no_result "" [])), s))
     /\ forall requested env2, (lockHostCapacity image requested false env2 s).1
          = (lockHostCapacity image requested true env2 (s <| st_db := st_db s <| device_host_image_states := ∅ |> |>)).1.
Proof.
  intros (p & Hp & -> & ->)%GetPool_ok. cbv zeta. rewrite filled_row. split; [done|]. split; [done|].
  unfold fillPoolProvisionability. destruct (p_default_image_id p) as [i|]; [|split; [split; [by left|done]|done]].
  destruct (String.eqb_spec (p_platform p) "android") as [Ha|Ha]; [|split; [split; [by right|done]|by intros image _ Ha']].
  pose proof (provisionability_none (st_db s) p i) as Hnone. pose proof (provisionability_reason (st_db s) p i) as Hreason.
  destruct (provisionability (st_db s) p i) as [reason|]; (split; [split; [done|by intros [?|?]]|]); intros image [= ->] _; cbn.
  - specialize (Hreason _ eq_refl). split_and!.
    + split; [done|]. by intros H%Hnone.
    + split; [done|]. by intros ->.
    + intros _ requested env2. apply not_shown_blocks; [done|]. intros h Hh. assert (Some reason = None) by (apply Hnone; by exists h). done.
    + apply validation_ignores.
  - split_and!; [split; [intros _; by apply Hnone|done]|done|done|apply validation_ignores].
Qed.

(** Both hosts were seen not to hold the image. *)
Definition without_image : St :=
  mkSt (managed_db <| device_host_image_states := <[(host_a, image_30) := mkHostImageRow host_a image_30 false None 0]>
                                                   (<[(host_b, image_30) := mkHostImageRow host_b image_30 false None 0]> ∅) |>) warm_ids [] ∅.

Definition shown (s : St) : PoolView := fillPoolProvisionability (st_db s) (warm_pool pool_a "android-10.0.0.1" 0 4).

Lemma GetPool_found id p env s :
  device_pools (st_db s) !! id = Some p -> GetPool id env s = (Ok (fillPoolProvisionability (st_db s) p), s).
Proof. intros H. unfold GetPool, get_db, mbind, Tx_bind, M_bind, gets. by rewrite H. Qed.

Lemma provisionable_exact_witness :
  GetPool pool_a morning managed = (Ok (shown managed), managed) /\ vp_Provisionable (shown managed) = Some true
  /\ vp_Provisionable (shown without_image) = Some false
  /\ forall requested env2, exists r, lockHostCapacity image_30 requested true env2 without_image = (Ok (Fail r), without_image).
Proof.
  assert (forall s, device_pools (st_db s) = device_pools managed_db -> GetPool pool_a morning s = (Ok (shown s), s)) as Hg.
  { intros s Hs. apply GetPool_found. rewrite Hs. vm_compute. reflexivity. }
  split; [by apply Hg|]. split; [vm_compute; reflexivity|].
  assert (vp_Provisionable (shown without_image) = Some false) as Hf by (vm_compute; reflexivity).
  split; [exact Hf|]. intros requested env2.
  destruct (provisionable_exact pool_a morning without_image without_image _ (Hg without_image eq_refl)) as (_ & _ & _ & Hi).
  destruct (Hi image_30 eq_refl eq_refl) as (_ & _ & Hb & _). eexists. exact (Hb Hf requested env2).
Defined.

(** ** A host that drains *)

(** The host takes no part in the choices of the farm. *)
Definition passed_over (id : string) (s : St) : Prop :=
  (forall env c s', reserve_tx env s = (Ok c, s') -> da_HostID (cc_device c) <> id)
  /\ (forall image requested respect env host s', lockHostCapacity image requested respect env s = (Ok (Ok host), s') -> host <> id)
  /\ (forall pool d, d ∈ ListSchedulableDevices pool (st_db s) -> d_host_id (dv_row d) <> id).

Lemma selected_host imageID requested respect env s host s' :
  lockHostCapacity imageID requested respect env s = (Ok (Ok host), s') ->
  exists h, h ∈ rows (device_hosts (st_db s)) /\ emulator_host h = true /\ h_id h = host.
Proof.
  intros [= H _]. pose proof (select_host_spec (assess (st_db s) (env_process_clock env) imageID requested respect)
    (candidate_hosts env (st_db s)) None false) as Hs.
  rewrite H in Hs. destruct Hs as (l1 & h & l2 & Hl & <- & _ & _).
  assert (h ∈ candidate_hosts env (st_db s)) as Hin by (rewrite Hl; apply elem_of_app; right; by left).
  apply list_elem_of_filter in Hin as [Hf Hin]. apply (proj1 (elem_of_order_by (fun h => (0, h_id h)) _ _)) in Hin.
  exists h. split_and!; [done| |done]. by apply andb_true_iff in Hf as [? _].
Qed.

Lemma schedulable_host pool db d :
  d ∈ ListSchedulableDevices pool db ->
  exists h, device_hosts db !! d_host_id (dv_row d) = Some h /\ h_status h = HostOnline /\ h_draining h = false.
Proof.
  unfold ListSchedulableDevices. intros (x & -> & Hx)%list_elem_of_fmap.
  apply (proj1 (elem_of_order_by (fun d => (d_created_at d, d_id d)) _ _)) in Hx. apply list_elem_of_filter in Hx as [Hs _].
  cbn. repeat case_match; try done. guards. eauto.
Qed.

Lemma not_taking_passed_over id h s :
  catalog_valid (st_db s) -> device_hosts (st_db s) !! id = Some h -> h_draining h = true -> passed_over id s.
Proof.
  intros Hv Hh Hd. split_and!.
  - intros env c s' (r & m & policy & d & row & _ & Hm & Ha & H)%reserve_tx_ok. destruct_and! H. subst c. cbn.
    apply allocatable_spec in Ha as (Ha & _). apply available_spec in Ha. destruct_and! Ha.
    apply memberships_spec in Hm as (_ & _ & Hm & _). congruence.
  - intros image requested respect env host s' (x & (k & Hx)%elem_of_rows & He & <-)%selected_host.
    destruct (tv_row _ _ _ _ (cv_hosts _ Hv) _ _ Hx) as [Hid _]. unfold emulator_host in He. guards. congruence.
  - intros pool d (x & Hx & _ & Hdr)%schedulable_host E. congruence.
Qed.

Lemma RestoreHost_ok id status a : RestoreHost id status = Ok a -> sm_status a = status /\ sm_transitions a = hostTransitions.
Proof. unfold RestoreHost, newStateMachine. destruct (identifierPattern id), (validHostStatus status); try done. by intros [= <-]. Qed.

Lemma update_host_ok h e env s x s' :
  update_host h e env s = (Ok x, s') ->
  exists old, device_hosts (st_db s) !! h_id h = Some old /\ h_status old = e
    /\ device_hosts (st_db s') = <[h_id h := x]> (device_hosts (st_db s)) /\ devices (st_db s') = devices (st_db s)
    /\ h_status x = h_status h /\ h_draining x = h_draining h /\ h_id x = h_id h /\ h_last_heartbeat_at x = h_last_heartbeat_at old.
Proof.
  unfold update_host. intros H. tx H. destruct (device_hosts _ !! _) as [row|] eqn:Hrow; [|done].
  destruct (bool_decide _) eqn:He; [|done]. apply bool_decide_eq_true in He. store H. exists row. split_and!; done.
Qed.

(** C18: draining a host keeps new work away from it and stops nothing.  When a host has
    been set to drain it was online, its row says that it is draining, the time of its
    last heartbeat stays and no device has changed.  From then on, in every state in which
    the row is still there, the scheduler reserves no device on the host, no new emulator
    is placed on it and none of its devices is listed as schedulable. *)
Theorem draining_host_idle (id reason : string) (env : Env) (s s' : St) (h : HostRow) :
  catalog_valid (st_db s) -> SetHostDraining id true reason env s = (Ok h, s') ->
  (exists old, device_hosts (st_db s) !! id = Some old /\ h_status old = HostOnline /\ h_last_heartbeat_at h = h_last_heartbeat_at old)
  /\ h_status h = HostDraining /\ h_draining h = true
  /\ device_hosts (st_db s') = <[id := h]> (device_hosts (st_db s)) /\ devices (st_db s') = devices (st_db s)
  /\ forall s2, catalog_valid (st_db s2) -> device_hosts (st_db s2) !! id = Some h -> passed_over id s2.
Proof.
  intros Hv H. unfold SetHostDraining in H.
  apply bindT_ok in H as (u & s1 & E & H). apply guardT_ok in E as [_ ->].
  apply bindT_ok in H as (cur & s1 & E & H). apply GetHost_ok in E as [Hcur ->].
  apply bindT_ok in H as (a & s1 & E & H). apply lift_ok in E as [[Ha Ht]%RestoreHost_ok ->].
  apply bindT_ok in H as (now & s1 & E & H). injection E as <- <-.
  apply bindT_ok in H as (b & s1 & E & H). apply apply_call_ok in E as [[Hb He]%transition_status ->].
  apply map_err_ok in H. apply update_host_ok in H as (old & Hold & Hst & Hs' & Hds & Hx1 & Hx2 & _ & Hx4). cbn in *.
  rewrite (proj1 (tv_row _ _ _ _ (cv_hosts _ Hv) _ _ Hcur)) in *. rewrite Hcur in Hold. injection Hold as <-.
  rewrite Hb in Hx1. split_and!; try done.
  - exists cur. split_and!; [done| |done]. rewrite Ha, Ht in He. unfold has_edge in He. by destruct (h_status cur).
  - intros s2 Hv2 H2. by eapply not_taking_passed_over.
Qed.

Definition draining_a : St := after (SetHostDraining host_a true "maintenance of the rack") morning managed.

Lemma draining_host_idle_witness :
  is_ok (lockHostCapacity image_30 Default true morning managed).1 = true
  /\ (exists h, SetHostDraining host_a true "maintenance of the rack" morning managed = (Ok h, draining_a)) /\ passed_over host_a draining_a.
Proof.
  split; [vm_compute; reflexivity|].
  assert (is_ok (SetHostDraining host_a true "maintenance of the rack" morning managed).1 = true) as Hok by (vm_compute; reflexivity).
  unfold draining_a, after. destruct (SetHostDraining host_a true "maintenance of the rack" morning managed) as [[h|e] s'] eqn:E; [|discriminate Hok].
  split; [by exists h|]. cbn [snd].
  destruct (draining_host_idle host_a _ morning managed s' h managed_valid E) as (_ & _ & _ & Hs' & _ & Hp).
  apply Hp; [|rewrite Hs'; apply lookup_insert_eq].
  pose proof (call_stays_valid (MSetHostDraining host_a true "maintenance of the rack") morning managed managed_valid) as Hv.
  unfold after, manage, ignore, mbind, Tx_bind, M_bind in Hv. rewrite E in Hv. exact Hv.
Defined.

(** ** A default image without its link *)
Lemma insert_pool_ok p env s u s' :
  insert_pool p env s = (Ok u, s') ->
  exists name, let row := p <| p_name := name |> <| p_created_at := env_clock env |> <| p_updated_at := env_clock env |> in
    device_pools (st_db s) !! p_id p = None /\ device_pools (st_db s') = <[p_id p := row]> (device_pools (st_db s))
    /\ device_pool_images (st_db s') = device_pool_images (st_db s) /\ device_images (st_db s') = device_images (st_db s).
Proof.
  unfold insert_pool. intros H. tx H.
  match goal with H : unique _ _ _ _ = _ |- _ => unfold unique in H; apply guardT_ok in H as [Hnew ->] end. store H.
  apply negb_true_iff, bool_decide_eq_false, eq_None_not_Some in Hnew. by eexists.
Qed.

Lemma unlinked_template db p :
  p_base_device_id p = None -> (forall image, device_pool_images db !! (p_id p, image) = None) -> pool_template db p = None.
Proof.
  intros Hb Hl. unfold pool_template.
  assert (template_image db p = p_default_image_id p) as -> by (unfold template_image, base_device; by rewrite Hb).
  destruct (p_default_image_id p) as [i|]; [|done]. cbn [bind_opt]. by rewrite (Hl i).
Qed.

(** A computation that is refused as invalid. *)
Definition refused {A} (env : Env) (s : St) (m : Tx A) : Prop := (m env s).1 = Fail MgmtErrInvalidArgument.

Section Refused.
Context {A B : Type} (env : Env) (s : St).
Abbreviation refused := (refused env s).

Lemma refused_guard b (f : unit -> Tx B) : (b = true -> refused (f tt)) -> refused (guard_or b MgmtErrInvalidArgument ≫= f).
Proof. unfold refused, guard_or, mbind, Tx_bind, M_bind. destruct b; [by intros H; apply H|done]. Qed.
Lemma refused_bind (m : Tx A) (f : A -> Tx B) : refused m -> refused (m ≫= f).
Proof. unfold refused, mbind, Tx_bind, M_bind. destruct (m env s) as [[a|e] s1]; [done|]. by cbn; intros [= ->]. Qed.
Lemma refused_after (m : Tx A) (f : A -> Tx B) a : m env s = (Ok a, s) -> refused (f a) -> refused (m ≫= f).
Proof. unfold refused, mbind, Tx_bind, M_bind. by intros ->. Qed.
Lemma refused_attempt (m : Tx A) (f : result Err A -> Tx B) : ReadOnly m -> (forall r, r = (m env s).1 -> refused (f r)) -> refused (attempt m ≫= f).
Proof.
  intros Hr Hf. specialize (Hf _ eq_refl). unfold refused, attempt, mbind, Tx_bind, M_bind in *.
  destruct (m env s) as [r s1] eqn:E. by rewrite (Hr _ _ _ _ E).
Qed.
End Refused.

Lemma unlinked_update id env s p image input actor requestID :
  device_pools (st_db s) !! id = Some p -> device_pool_images (st_db s) !! (id, TrimSpace image) = None ->
  pli_DefaultImageID input = Some image -> (UpdatePool id input actor requestID env s).1 = Fail MgmtErrInvalidArgument.
Proof.
  intros Hp Hl Hi. unfold UpdatePool. eapply (refused_after env s); [by apply GetPool_found|]. cbv zeta.
  apply refused_guard. intros _. apply refused_guard. intros _. apply refused_bind.
  assert (forall platform, pli_DefaultImageID (input <| pli_Platform := platform |>) = Some image) as Hd by (intros; by destruct input).
  rewrite Hd. unfold updated_default. apply refused_guard. intros _. cbv zeta. apply refused_guard. intros _.
  apply refused_attempt; [apply _|]. intros r _. apply refused_guard. intros _. apply refused_attempt; [apply _|]. intros l ->.
  assert ((GetPoolImage id (TrimSpace image) env s).1 = Fail MgmtErrNotFound) as ->
    by (unfold GetPoolImage, get_db, mbind, Tx_bind, M_bind, gets; by rewrite Hl).
  by apply refused_guard.
Qed.

Lemma created_with_default clientID key input image env s v s' :
  pli_DefaultImageID input = Some image -> blank image = false -> CreatePool clientID key input env s = (Ok v, s') ->
  exists p meta s1, st_db s1 = st_db s /\ record_key meta = (clientID, "create_device_pool", key)%string /\ id_ResourceID meta = p_id p
    /\ (exists i, device_images (st_db s) !! TrimSpace image = Some i /\ im_status i = ImageReady)
    /\ p_default_image_id p = Some (TrimSpace image) /\ p_base_device_id p = None /\ createIdempotent meta p env s1 = (Ok v, s').
Proof.
  intros Hi Hb H. unfold CreatePool in H. cbv zeta in H.
  apply bindT_ok in H as (u & s1 & E & H). apply guardT_ok in E as [_ ->].
  apply bindT_ok in H as (d & s1 & E & H).
  assert (forall platform, pli_DefaultImageID (input <| pli_Platform := platform |>) = Some image) as Hd by (intros; by destruct input).
  rewrite Hd, Hb in E. clear Hd.
  apply bindT_ok in E as (u1 & s2 & E1 & E). apply guardT_ok in E1 as [_ ->].
  apply bindT_ok in E as (r & s2 & E1 & E). unfold attempt in E1. destruct (GetImage (TrimSpace image) env s) as [r' s3] eqn:Eg.
  pose proof (get_stored_image_ro _ _ _ _ _ Eg) as ->. injection E1 as <- <-.
  apply bindT_ok in E as (u2 & s2 & E1 & E). apply guardT_ok in E1 as [Hr ->]. injection E as <- <-.
  destruct r' as [i|]; [|done]. apply GetImage_ok in Eg as [Eg _]. apply bool_decide_eq_true in Hr.
  apply bindT_ok in H as (id & s1 & E & H). pose proof (keeps_db _ _ _ _ E) as Hs.
  apply bindT_ok in H as (meta & s2 & E2 & H). pose proof (read_only (m := idempotency _ _ _ _ _ _ _) _ _ _ _ E2) as ->.
  unfold idempotency in E2. apply bindT_ok in E2 as (u3 & s3 & E3 & E2). apply guardT_ok in E3 as [_ ->].
  apply bindT_ok in E2 as (hash & s3 & E3 & E2). injection E3 as _ <-. injection E2 as <-.
  eexists _, _, s1. split_and!; [exact Hs| | |by exists i| | |exact H]; reflexivity.
Qed.

Lemma pool_made (meta : Idempotency) (p : PoolRow) env s v s' :
  device_idempotency_records (st_db s) !! record_key meta = None -> create_resource_tx meta p env s = (Ok v, s') ->
  (exists u, insert_pool p env (on_db (with_record meta) s) = (Ok u, s')) /\ GetPool (id_ResourceID meta) env s' = (Ok v, s').
Proof.
  intros Hr H. split; [|by apply record_made in H as [_ H]].
  unfold create_resource_tx in H. apply bindT_ok in H as (db & s1 & E & H). injection E as <- <-. cbv zeta in H.
  unfold record_key in Hr. rewrite Hr in H. apply bindT_ok in H as (u & s1 & E & H). injection E as _ <-.
  apply bindT_ok in H as (w & s2 & E & H). apply (load_reads (T := PoolRow)) in H as ->. rewrite insert_resource_pool in E. by exists w.
Qed.

(** a pool that is created with a default image is not linked to it.  The pool is
    stored with the image as its default and the image is ready, but there is no link, so
    the warm pool has no template for it and does not list it among the pools that it
    scales; and an update of the pool that names the image, as its own default is, is
    refused as invalid. *)
Theorem default_image_unlinked (clientID key : string) (input : PoolInput) (image : string) (env : Env) (s s' : St) (v : PoolView) :
  catalog_valid (st_db s) -> device_idempotency_records (st_db s) !! (clientID, "create_device_pool", key)%string = None ->
  pli_DefaultImageID input = Some image -> blank image = false -> CreatePool clientID key input env s = (Ok v, s') ->
  let p := vp_row v in
  device_pools (st_db s') !! p_id p = Some p /\ p_default_image_id p = Some (TrimSpace image)
  /\ option_map im_status (device_images (st_db s') !! TrimSpace image) = Some ImageReady
  /\ pool_template (st_db s') p = None
  /\ (forall other, (p_id p, other) ∉ configurations (st_db s'))
  /\ (forall input2 actor requestID env2, pli_DefaultImageID input2 = Some image ->
        (UpdatePool (p_id p) input2 actor requestID env2 s').1 = Fail MgmtErrInvalidArgument).
Proof.
  intros Hv Hr Hi Hb H.
  apply (created_with_default _ _ _ image) in H as (p & meta & s1 & Hs1 & Hkey & Hid & (i & Hready) & Hp1 & Hp2 & H); [|done..].
  rewrite <-Hs1 in Hr, Hv, Hready. clear dependent s. apply map_err_ok in H. apply (proj1 (WithinTx_ok _ _ _ _ _)) in H.
  apply pool_made in H as ((u & Hins) & Hload); [|by rewrite Hkey].
  apply insert_pool_ok in Hins as (name & Hnew & Hpools & Hlinks & Himages). cbn in Hnew, Hpools, Hlinks, Himages.
  set (row := p <| p_name := name |> <| p_created_at := env_clock env |> <| p_updated_at := env_clock env |>) in *.
  assert (device_pools (st_db s') !! p_id p = Some row) as Hrow by (rewrite Hpools; apply lookup_insert_eq).
  rewrite Hid, (GetPool_found _ _ _ _ Hrow) in Hload. injection Hload as <-. cbv zeta. rewrite filled_row.
  assert (forall other, device_pool_images (st_db s') !! (p_id row, other) = None) as Hno.
  { intros other. rewrite Hlinks. apply eq_None_not_Some. intros [l Hl].
    destruct (cv_link _ Hv _ _ Hl) as (_ & _ & [q Hq] & _). cbn in Hq. change (p_id row) with (p_id p) in Hq. congruence. }
  pose proof (unlinked_template (st_db s') row Hp2 Hno) as Htemplate. destruct Hready as [Hi1 Hi2].
  split_and!; [exact Hrow|exact Hp1|by rewrite Himages, Hi1, <-Hi2|exact Htemplate| |].
  - intros other (q & Hq & Ho)%list_elem_of_omap. apply (proj1 (elem_of_order_by by_pool_id _ _)), elem_of_rows in Hq as [k Hq].
    cbv beta in Ho. destruct (active_android q); [|done]. destruct (pool_template (st_db s') q) as [j|] eqn:Hj; [|done]. injection Ho as Ho _.
    rewrite Hpools in Hq. apply lookup_insert_Some in Hq as [[_ <-]|[Hne Hq]]; [congruence|].
    apply Hne. rewrite <-(pool_id _ _ _ Hv Hq). symmetry. exact Ho.
  - intros input2 actor requestID env2 H2. by eapply unlinked_update; [exact Hrow|apply Hno|].
Qed.

(** A pool for two devices of the image of the farm: it is shown as provisionable. *)
Definition with_default : St := after (CreatePool "client-1" "pool-key-1" (pool_form 2)) morning managed.
Definition nightly : PoolView := default (unevaluated (warm_pool "" "" 0 0)) (match outcome (CreatePool "client-1" "pool-key-1" (pool_form 2)) morning managed with Ok v => Some v | Fail _ => None end).

Lemma default_image_unlinked_witness :
  vp_Provisionable nightly = Some true /\ p_total_target (vp_row nightly) = 2
  /\ pool_template (st_db with_default) (vp_row nightly) = None
  /\ (forall other, (p_id (vp_row nightly), other) ∉ configurations (st_db with_default)).
Proof.
  split; [vm_compute; reflexivity|]. split; [vm_compute; reflexivity|].
  assert (CreatePool "client-1" "pool-key-1" (pool_form 2) morning managed = (Ok nightly, with_default)) as E by (vm_compute; reflexivity).
  destruct (default_image_unlinked "client-1" "pool-key-1" (pool_form 2) image_30 morning managed with_default nightly managed_valid
    eq_refl eq_refl eq_refl E) as (_ & _ & _ & Ht & Hc & _).
  split; [exact Ht|exact Hc].
Defined.
