(* ===== verification/AgentLogic.v ===== *)
(** * Reasoning about the host agent

    Hoare triples over the devices that the provider of the agent holds, for any provider
    that keeps the laws of [LawfulProvider], and what the steps of the commands do to
    them. *)
From Stdlib Require Import SpecFloat.
From S2P Require Import Prelude GoText Json RuntimeProfile Capacity Domain Reconcile HostCommand Completion Heartbeat Providers Agent.

Create HintDb agent discriminated.
#[export] Hint Constants Opaque : agent.

Section Logic.
Context {P : Type} `{LP : LawfulProvider P}.
Context (c : AgentConfig).

Abbreviation Ag := (M AgentConfig (AgentState P) GoError).

Definition agent_ok (s : AgentState P) : Prop := provider_ok (w_provider (as_world s)).
Definition held (s : AgentState P) : holdings := provider_view (w_provider (as_world s)).
Definition clock (s : AgentState P) : Z := w_now (as_world s).

(** From devices [pre] to devices [post], in an agent whose provider stays well formed. *)
Definition triple {A} (pre : holdings -> Prop) (m : Ag A) (post : result GoError A -> holdings -> Prop) : Prop :=
  forall s r s', agent_ok s -> pre (held s) -> m c s = (r, s') -> agent_ok s' /\ clock s <= clock s' /\ post r (held s').

(** ** Rules *)
Lemma triple_conseq {A} (pre pre' : holdings -> Prop) (m : Ag A) (post post' : result GoError A -> holdings -> Prop) :
  triple pre' m post' -> (forall h, pre h -> pre' h) -> (forall r h, post' r h -> post r h) -> triple pre m post.
Proof. intros Hm Hpre Hpost s r s' Hs Hp H1. destruct (Hm s r s' Hs (Hpre _ Hp) H1) as (? & ? & ?). eauto. Qed.

Lemma triple_each {A} (pre : holdings -> Prop) (m : Ag A) post : (forall h, pre h -> triple (eq h) m post) -> triple pre m post.
Proof. intros Hm s r s' Hs Hp H1. by apply (Hm _ Hp s). Qed.

Lemma triple_bind {A B} pre (m : Ag A) mid (f : A -> Ag B) post :
  triple pre m mid -> (forall a, triple (mid (Ok a)) (f a) post) -> (forall e h, mid (Fail e) h -> post (Fail e) h) ->
  triple pre (m ≫= f) post.
Proof.
  intros Hm Hf He s r s' Hs Hp H1. unfold mbind, M_bind in H1. destruct (m c s) as [[a|e] s1] eqn:E.
  - destruct (Hm _ _ _ Hs Hp E) as (Hs1 & Ht & Hmid). destruct (Hf a _ _ _ Hs1 Hmid H1) as (? & ? & ?). split; [done|]. split; [lia|done].
  - injection H1 as <- <-. destruct (Hm _ _ _ Hs Hp E) as (? & ? & ?). auto.
Qed.

Lemma triple_attempt {A} pre (m : Ag A) post :
  triple pre m post -> triple pre (attempt m) (fun r h => match r with Ok x => post x h | Fail _ => False end).
Proof.
  intros Hm s r s' Hs Hp H1. unfold attempt in H1. destruct (m c s) as [x s1] eqn:E. injection H1 as <- <-.
  by apply (Hm _ _ _ Hs Hp E).
Qed.

Lemma triple_pure {A} (pre : holdings -> Prop) (m : Ag A) (post : result GoError A -> holdings -> Prop) (r : result GoError A) :
  (forall s, m c s = (r, s)) -> (forall h, pre h -> post r h) -> triple pre m post.
Proof. intros Hm Hr s r' s' Hs Hp H1. rewrite Hm in H1. injection H1 as <- <-. split; [done|]. split; [lia|auto]. Qed.

Lemma triple_ret {A} (pre : holdings -> Prop) (a : A) (post : result GoError A -> holdings -> Prop) :
  (forall h, pre h -> post (Ok a) h) -> triple pre (mret a : Ag A) post.
Proof. by apply triple_pure. Qed.

Lemma triple_fail {A} (pre : holdings -> Prop) e (post : result GoError A -> holdings -> Prop) :
  (forall h, pre h -> post (Fail e) h) -> triple pre (fail e : Ag A) post.
Proof. by apply triple_pure. Qed.

Lemma triple_lift {A} (pre : holdings -> Prop) (r : result GoError A) post :
  (forall h, pre h -> post r h) -> triple pre (lift_result r : Ag A) post.
Proof. by apply triple_pure. Qed.

(** A call of the provider, by its law. *)
Lemma triple_provider {A} (pre : holdings -> Prop) (op : Op P A) done_ failed (post : result GoError A -> holdings -> Prop) :
  op_spec provider_ok provider_view op done_ failed ->
  (forall a h h', pre h -> done_ a h h' -> post (Ok a) h') -> (forall e h h', pre h -> failed h h' -> post (Fail e) h') ->
  triple pre (provider_call op) post.
Proof.
  intros Hop Hdone Hfail s r s' Hs Hp H1. unfold provider_call in H1. destruct (op tt (as_world s)) as [x w] eqn:E.
  injection H1 as <- <-. destruct (Hop _ _ _ Hs E) as (Ht & Hok & Hx). split; [done|]. split; [done|].
  unfold held. destruct x; eauto.
Qed.

(** ** Steps that leave the devices as they are *)
Definition calm {A} (m : Ag A) : Prop := forall h, triple (eq h) m (fun _ => eq h).

Lemma calm_bind {A B} (m : Ag A) (f : A -> Ag B) : calm m -> (forall a, calm (f a)) -> calm (m ≫= f).
Proof. intros Hm Hf h. eapply triple_bind; [apply Hm|intros a; apply Hf|done]. Qed.
Lemma calm_attempt {A} (m : Ag A) : calm m -> calm (attempt m).
Proof. intros Hm h. eapply triple_conseq; [apply triple_attempt, Hm|done|]. by intros [] ?. Qed.
Lemma calm_pure {A} (m : Ag A) r : (forall s, m c s = (r, s)) -> calm m.
Proof. intros Hm h. by eapply triple_pure. Qed.
Lemma calm_ret {A} (a : A) : calm (mret a : Ag A).
Proof. by eapply calm_pure. Qed.
Lemma calm_fail {A} e : calm (fail e : Ag A).
Proof. by eapply calm_pure. Qed.
Lemma calm_lift {A} (r : result GoError A) : calm (lift_result r : Ag A).
Proof. by eapply calm_pure. Qed.
Lemma calm_guard b e : calm (guard_or b e : Ag unit).
Proof. destruct b; [apply calm_ret|apply calm_fail]. Qed.
Lemma calm_ask : calm (ask : Ag AgentConfig).
Proof. by eapply calm_pure. Qed.
Lemma calm_gets {A} (f : AgentState P -> A) : calm (gets f : Ag A).
Proof. intros h s r s' Hs Hp H1. injection H1 as <- <-. split; [done|]. split; [lia|done]. Qed.

(** A step that changes the clock forward or the fields of the agent only. *)
Lemma calm_step {A} (m : Ag A) :
  (forall s r s', m c s = (r, s') -> clock s <= clock s' /\ w_provider (as_world s') = w_provider (as_world s)) -> calm m.
Proof. intros Hm h s r s' Hs Hp H1. destruct (Hm _ _ _ H1) as [Ht E]. unfold agent_ok, held. by rewrite E. Qed.

Lemma calm_external {A} ctx (f : External A) : calm (external ctx f : Ag A).
Proof.
  apply calm_step. intros s r s' H1. unfold external in H1. destruct (f ctx _) as [x t]. injection H1 as <- <-. split; [|done].
  unfold clock. cbn. lia.
Qed.
Lemma calm_sleep ctx d : calm (sleep_in ctx d : Ag (option GoError)).
Proof.
  apply calm_step. intros s r s' H1. unfold sleep_in in H1. pose proof (sleep_forward ctx d (w_now (as_world s))) as Hf.
  destruct (sleep ctx d _) as [x t]. injection H1 as <- <-. done.
Qed.
Lemma calm_provider {A} (op : Op P A) : quiet provider_ok provider_view op -> calm (provider_call op).
Proof. intros Hop h. eapply triple_provider; [exact Hop|by intros ? ? ? -> ->|by intros ? ? ? -> ->]. Qed.

(** What a calm step says of its result is known besides. *)
Lemma triple_calm {A} (m : Ag A) (Q : result GoError A -> Prop) (pre : holdings -> Prop) :
  calm m -> (forall s r s', m c s = (r, s') -> Q r) -> triple pre m (fun r h => pre h /\ Q r).
Proof.
  intros Hm HQ s r s' Hs Hp H1. destruct (Hm (held s) _ _ _ Hs eq_refl H1) as (? & ? & E). rewrite <-E. eauto.
Qed.

Lemma triple_keep {A} (m : Ag A) (pre : holdings -> Prop) : calm m -> triple pre m (fun _ => pre).
Proof. intros Hm. eapply triple_conseq; [exact (triple_calm m (fun _ => True) pre Hm (fun _ _ _ _ => I))|done|by intros ? ? []]. Qed.

(** ** Steps that concern one device *)
Definition local {A} (ref : string) (m : Ag A) : Prop :=
  forall h, triple (fun h' => same_besides ref h h') m (fun _ h' => same_besides ref h h').

Lemma local_bind {A B} ref (m : Ag A) (f : A -> Ag B) : local ref m -> (forall a, local ref (f a)) -> local ref (m ≫= f).
Proof. intros Hm Hf h. eapply triple_bind; [apply Hm|intros a; apply Hf|done]. Qed.
Lemma local_attempt {A} ref (m : Ag A) : local ref m -> local ref (attempt m).
Proof. intros Hm h. eapply triple_conseq; [apply triple_attempt, Hm|done|]. by intros [] ?. Qed.
Lemma local_calm {A} ref (m : Ag A) : calm m -> local ref m.
Proof.
  intros Hm h s r s' Hs Hp H1. destruct (Hm (held s) _ _ _ Hs eq_refl H1) as (? & ? & E). split; [done|]. split; [done|].
  by rewrite <-E.
Qed.
Lemma local_provider {A} ref (op : Op P A) done_ failed : op_spec provider_ok provider_view op done_ failed ->
  (forall a h h', done_ a h h' -> same_besides ref h h') -> (forall h h', failed h h' -> same_besides ref h h') -> local ref (provider_call op).
Proof.
  intros Hop Hd Hf h. unfold same_besides in *. eapply triple_provider; [exact Hop|..].
  - intros a h1 h2 E1 E2. by rewrite <-E1, (Hd _ _ _ E2).
  - intros e h1 h2 E1 E2. by rewrite <-E1, (Hf _ _ E2).
Qed.
End Logic.

#[export] Hint Resolve calm_ret calm_fail calm_lift calm_guard calm_ask calm_gets calm_external calm_sleep : agent.

Ltac calm_run :=
  repeat (cbv beta zeta;
    first
    [ solve [eauto with agent]
    | apply calm_bind; [|intros ?]
    | apply calm_attempt
    | match goal with
      | |- calm _ (match ?x with _ => _ end) => destruct x
      | |- calm _ (if ?b then _ else _) => destruct b
      end ]).

Section Steps.
Context {P : Type} `{LP : LawfulProvider P}.
Context (c : AgentConfig).

Abbreviation Ag := (M AgentConfig (AgentState P) GoError).
Abbreviation calm := (calm c).

Lemma start_spec ctx ref h : triple c (eq h) (provider_call (provider_start ctx ref))
  (fun r h' => h' = h /\ match r with Ok s => sn_ProviderRef s = ref | Fail _ => True end).
Proof. eapply triple_provider; [apply start_law|by intros ? ? ? -> [? ->]|by intros ? ? ? -> ->]. Qed.

Lemma calm_device ref (op : Op P Snapshot) : returns_device provider_ok provider_view ref same_devices op -> calm (provider_call op).
Proof. intros Hop h. eapply triple_provider; [exact Hop|by intros ? ? ? -> [_ ->]|by intros ? ? ? -> ->]. Qed.

Lemma calm_start ctx ref : calm (provider_call (provider_start ctx ref)).
Proof. apply (calm_device ref), start_law. Qed.
Lemma calm_stop ctx ref : calm (provider_call (provider_stop ctx ref)).
Proof. apply (calm_device ref), stop_law. Qed.
Lemma calm_restart ctx ref : calm (provider_call (provider_restart ctx ref)).
Proof. apply (calm_device ref), restart_law. Qed.
Lemma calm_inspect ctx ref : calm (provider_call (provider_inspect ctx ref)).
Proof. apply calm_provider, inspect_law. Qed.
Lemma calm_connection ctx ref : calm (provider_call (provider_connection ctx ref)).
Proof. apply calm_provider, connection_law. Qed.
Lemma calm_discover_call ctx host : calm (provider_call (provider_discover ctx host)).
Proof. apply calm_provider, discover_law. Qed.

#[local] Hint Resolve calm_start calm_stop calm_restart calm_inspect calm_connection calm_discover_call : agent.

Lemma calm_wait_ready fuel ctx s : calm (wait_ready fuel ctx s).
Proof. revert s. induction fuel as [|n IH]; intros s; cbn [wait_ready]; calm_run. Qed.
#[local] Hint Resolve calm_wait_ready : agent.

Lemma calm_waitReady ctx s : calm (waitReady ctx s).
Proof. unfold waitReady, agent_now. calm_run. Qed.
#[local] Hint Resolve calm_waitReady : agent.

Lemma calm_profile payload : calm (profileFromPayload payload).
Proof. unfold profileFromPayload. calm_run. Qed.

Lemma calm_verify ctx payload : calm (verifyRuntimeImage ctx payload).
Proof.
  unfold verifyRuntimeImage. apply calm_bind; [eauto with agent|intros config]. destruct (_ && _ && _); [eauto with agent|].
  apply calm_bind; [eauto with agent|intros _]. apply calm_bind; [eauto with agent|intros _].
  destruct provider_verify as [f|] eqn:E; [|eauto with agent]. apply calm_provider. by apply verify_law.
Qed.

Lemma calm_discover ctx : calm (discover ctx).
Proof. unfold discover. calm_run. Qed.
#[local] Hint Resolve calm_profile calm_verify calm_discover : agent.

Lemma calm_preflight ctx profile image : calm (preflightCreate ctx profile image).
Proof. unfold preflightCreate, measured_host. calm_run. Qed.

Lemma calm_replacement ctx ref profile : calm (preflightReplacement ctx ref profile).
Proof. unfold preflightReplacement, measured_host. calm_run. Qed.

Lemma calm_register ctx registrar endpoint : calm (register ctx registrar endpoint).
Proof.
  unfold register. apply calm_bind; [eauto with agent|intros _]. apply calm_step. intros s r s' H1. by injection H1 as <- <-.
Qed.
#[local] Hint Resolve calm_register : agent.

Lemma calm_registerSTF ctx s : calm (registerSTF ctx s).
Proof. unfold registerSTF. calm_run. Qed.
#[local] Hint Resolve calm_registerSTF : agent.

Lemma calm_start_and_wait ctx ref : calm (start_and_wait ctx ref).
Proof. unfold start_and_wait. calm_run. Qed.

Lemma calm_deliver ctx m : calm m -> calm (deliver ctx m).
Proof. intros Hm. unfold deliver. calm_run. Qed.

Lemma calm_rollback_context : calm rollback_context.
Proof. unfold rollback_context, agent_now. calm_run. Qed.

Lemma calm_with_outcome (m : Ag obj) : calm m -> calm (with_outcome m).
Proof. intros Hm. unfold with_outcome. calm_run. Qed.
End Steps.

#[export] Hint Resolve calm_start calm_stop calm_restart calm_inspect calm_connection calm_discover_call calm_wait_ready calm_waitReady
  calm_profile calm_verify calm_discover calm_preflight calm_replacement calm_register calm_registerSTF calm_start_and_wait calm_deliver
  calm_rollback_context calm_with_outcome : agent.
