(* ===== verification/AgentSteps.v ===== *)
(** * What the steps of the host agent do

    The wait for a device, the cleanup, the recreation of a device and the two commands
    that replace one, as triples over the devices of the provider. *)
From Stdlib Require Import SpecFloat.
From S2P Require Import Prelude GoText Json RuntimeProfile Capacity Domain Reconcile HostCommand Completion Heartbeat Providers Agent AgentLogic.

(** A device that is up under its reference. *)
Definition up (ref : string) (s : Snapshot) : Prop := Ready (sn_Health s) = true /\ sn_ProviderRef s = ref.

(** What a device is built from for a payload. *)
Definition built_from {P : Type} `{LawfulProvider P} (payload : obj) : Built :=
  mkBuilt (stringValue payload "device_id") (stringValue payload "image_id") (provider_image (stringValue payload "docker_image")).

Section Steps.
Context {P : Type} `{LP : LawfulProvider P}.
Context (c : AgentConfig).

Abbreviation Ag := (M AgentConfig (AgentState P) GoError).
Abbreviation built_from := (built_from (P := P)).

(** ** Waiting *)
Lemma wait_ready_up fuel ctx s w x w' :
  wait_ready fuel ctx s c w = (Ok (Some x), w') -> up (sn_ProviderRef s) x.
Proof.
  revert s w. induction fuel as [|n IH]; intros s w Hw; cbn [wait_ready] in Hw; [discriminate|].
  apply bind_ok in Hw as (health & w1 & _ & Hw). cbv beta in Hw.
  destruct health as [health|e]; [destruct (Ready health) eqn:Er|].
  1: apply bind_ok in Hw as (connection & w2 & _ & Hw); by injection Hw as <- _.
  all: apply bind_ok in Hw as (done_ & w2 & _ & Hw); destruct done_; [discriminate|]; exact (IH _ _ Hw).
Qed.

(** A poll that does not end the wait takes its interval, within the deadline. *)
Lemma sleep_step ctx d (s s' : AgentState P) :
  cx_Deadline ctx = Some d -> sleep_in ctx poll_interval c s = (Ok None, s') ->
  clock s' = clock s + poll_interval /\ clock s' < d.
Proof.
  intros Hd Hw. unfold sleep_in, sleep, clock in *. change (poll_interval <=? 0) with false in Hw.
  destruct (done_by _ _ Hd) as (t & Et & Htd).
  rewrite Et in Hw. destruct (t <=? w_now (as_world s) + poll_interval) eqn:E; [discriminate|].
  injection Hw as <-. cbn. lia.
Qed.

(** With a provider that heeds its context, the wait ends by the deadline, up to the grace
    of the two calls of its last poll. *)
Lemma heeded_call `{PP : !PromptProvider P} {A} ctx d (op : Op P A) (w w' : AgentState P) r :
  heeds provider_grace ctx op -> cx_Deadline ctx = Some d -> provider_call op c w = (r, w') -> clock w' <= Z.max (clock w) d + provider_grace.
Proof.
  intros Hop Hd Hw. unfold provider_call in Hw. destruct (op tt (as_world w)) as [x v] eqn:E. injection Hw as _ <-. exact (Hop _ _ _ _ Hd E).
Qed.

Lemma wait_ready_in_time `{PP : !PromptProvider P} fuel ctx d s w r w' :
  cx_Deadline ctx = Some d -> wait_ready fuel ctx s c w = (r, w') -> clock w' <= Z.max (clock w) d + 2 * provider_grace.
Proof.
  intros Hd. pose proof grace_nonneg as Hg. revert s w. induction fuel as [|n IH]; intros s w Hw; cbn [wait_ready] in Hw.
  { injection Hw as _ <-. lia. }
  unfold mbind at 1, M_bind at 1, attempt in Hw. destruct (provider_call _ c w) as [health w1] eqn:E1.
  apply (heeded_call _ d _ _ _ _ (inspect_heeds _ _) Hd) in E1.
  assert (forall err, (done_ ← sleep_in ctx poll_interval;
            match done_ with Some _ => fail (boot_timeout err ctx) | None => wait_ready n ctx s end) c w1 = (r, w') ->
          clock w' <= Z.max (clock w) d + 2 * provider_grace) as Hpoll.
  { intros err H1. unfold mbind, M_bind in H1. destruct (sleep_in ctx poll_interval c w1) as [x w2] eqn:E2.
    assert (clock w2 <= Z.max (clock w1) d) as Hc.
    { unfold sleep_in in E2. pose proof (sleep_heeds ctx poll_interval (w_now (as_world w1)) d Hd) as Hs.
      destruct (sleep _ _ _) as [y t]. injection E2 as _ <-. exact Hs. }
    destruct x as [[e|]|e]; [injection H1 as _ <-; lia| |injection H1 as _ <-; lia].
    destruct (sleep_step _ _ _ _ Hd E2) as [_ Hlt]. apply IH in H1. lia. }
  destruct health as [health|e]; [destruct (Ready health)|]; [|exact (Hpoll _ Hw)..].
  unfold mbind, M_bind in Hw. destruct (provider_call _ c w1) as [x w2] eqn:E2.
  apply (heeded_call _ d _ _ _ _ (connection_heeds _ _) Hd) in E2. destruct x; injection Hw as _ <-; lia.
Qed.

Lemma wait_ready_total fuel ctx d s w r w' :
  cx_Deadline ctx = Some d -> agent_ok w -> d - clock w < Z.of_nat fuel * poll_interval -> 0 < Z.of_nat fuel ->
  wait_ready fuel ctx s c w = (r, w') -> r <> Ok None.
Proof.
  intros Hd. revert s w. induction fuel as [|n IH]; intros s w Hok Hlt Hpos Hw; [lia|]. cbn [wait_ready] in Hw.
  unfold mbind at 1, M_bind at 1 in Hw.
  destruct (attempt _ c w) as [[health|e] w1] eqn:E1; [|by injection Hw as <- _].
  assert (agent_ok w1 /\ clock w <= clock w1) as [Hok1 Hc1]
    by (destruct (calm_attempt c _ (calm_inspect c ctx (sn_ProviderRef s)) _ _ _ _ Hok eq_refl E1) as (? & ? & _); done).
  assert (forall err, (done_ ← sleep_in ctx poll_interval;
            match done_ with Some _ => fail (boot_timeout err ctx) | None => wait_ready n ctx s end) c w1 = (r, w') -> r <> Ok None) as Hpoll.
  { intros err H1. unfold mbind, M_bind in H1. destruct (sleep_in ctx poll_interval c w1) as [[[e|]|e] w2] eqn:E2; try by injection H1 as <- _.
    destruct (calm_sleep c ctx poll_interval _ _ _ _ Hok1 eq_refl E2) as (Hok2 & _ & _).
    destruct (sleep_step _ _ _ _ Hd E2) as [Hc2 Hc2d]. apply (IH _ _ Hok2) in H1; [done|unfold poll_interval in *; lia..]. }
  destruct health as [health|e]; [destruct (Ready health)|]; [|exact (Hpoll _ Hw)..].
  unfold mbind, M_bind in Hw. destruct (provider_call _ c w1) as [[?|?] ?]; by injection Hw as <- _.
Qed.

Lemma waitReady_up ctx s w x w' : waitReady ctx s c w = (Ok x, w') -> up (sn_ProviderRef s) x.
Proof.
  intros Hw. unfold waitReady, agent_now in Hw. apply bind_ok in Hw as (now & w1 & _ & Hw). apply bind_ok in Hw as (ready & w2 & Hr & Hw).
  destruct ready as [y|]; [|discriminate]. injection Hw as <- _. by eapply wait_ready_up.
Qed.

(** ** Rules for the steps *)
Lemma triple_ask (pre : holdings -> Prop) : triple c pre (ask : Ag AgentConfig) (fun r h => r = Ok c /\ pre h).
Proof. apply triple_pure with (r := Ok c); auto. Qed.

Lemma start_and_wait_spec ctx ref pre :
  triple c pre (start_and_wait ctx ref) (fun r h => pre h /\ match r with Ok s => up ref s | Fail _ => True end).
Proof.
  unfold start_and_wait. eapply triple_bind with (mid := fun r h => pre h /\ match r with Ok s => sn_ProviderRef s = ref | Fail _ => True end).
  - eapply triple_provider; [apply start_law|by intros ? ? ? ? [? ->]|by intros ? ? ? ? ->].
  - intros s. eapply triple_conseq; [apply (triple_calm c _ (fun r => match r with Ok x => up (sn_ProviderRef s) x | Fail _ => True end))|..].
    + apply calm_waitReady.
    + intros w [x|e] w' Hw; [by eapply waitReady_up|done].
    + intros h Hh. exact Hh.
    + cbn. by intros [x|e] h [[Hp <-] Hx].
  - by intros e h [].
Qed.

Lemma cleanup_spec ref pre : triple c pre (cleanupProvider ref)
  (fun r h' => exists h, pre h /\ match r with Ok _ => h' = delete ref h | Fail _ => same_besides ref h h' end).
Proof.
  unfold cleanupProvider, agent_now. eapply triple_bind; [apply triple_keep, calm_gets|intros now|by intros e h Hh; exists h].
  destruct provider_cleanup as [f|] eqn:E; (eapply triple_provider; [first [by apply cleanup_law|apply delete_law]|..]); cbn; eauto.
Qed.

Lemma delete_created_spec ref pre : triple c pre (delete_created ref)
  (fun r h' => exists h, pre h /\ match r with Ok _ => h' = delete ref h | Fail _ => same_besides ref h h' end).
Proof.
  unfold delete_created, agent_now. eapply triple_bind; [apply triple_keep, calm_gets|intros now|by intros e h Hh; exists h].
  eapply triple_provider; [apply delete_law|..]; cbn; eauto.
Qed.

Lemma create_spec ctx request pre : triple c pre (provider_call (provider_create ctx request))
  (fun r h' => exists h, pre h /\ match r with Ok s => h' = <[cr_ProviderRef request := built_of provider_image request]> h /\ sn_ProviderRef s = cr_ProviderRef request
                                        | Fail _ => same_besides (cr_ProviderRef request) h h' end).
Proof. eapply triple_provider; [apply create_law|..]; cbn; [intros s h h' Hh (_ & ? & ?)|intros e h h' Hh E]; eauto. Qed.

Lemma besides_insert ref b (h h' : holdings) : same_besides ref h h' -> <[ref := b]> h' = <[ref := b]> h.
Proof. unfold same_besides. intros E. by rewrite <-(insert_delete_eq h'), E, insert_delete_eq. Qed.
Lemma besides_put ref b (h : holdings) : same_besides ref h (<[ref := b]> h).
Proof. unfold same_besides. by rewrite delete_insert_eq. Qed.
Lemma besides_delete ref (h : holdings) : same_besides ref h (delete ref h).
Proof. unfold same_besides. by rewrite delete_delete_eq. Qed.
Lemma besides_trans ref (h1 h2 h3 : holdings) : same_besides ref h1 h2 -> same_besides ref h2 h3 -> same_besides ref h1 h3.
Proof. unfold same_besides. congruence. Qed.

(** ** Recreating *)
Lemma started_or_removed_spec ctx ref h :
  triple c (eq h) (started_or_removed ctx ref)
    (fun r h' => match r with Ok s => up ref s /\ h' = h | Fail _ => same_besides ref h h' end).
Proof.
  unfold started_or_removed. eapply triple_bind; [apply triple_attempt, start_and_wait_spec| |by intros e ? []].
  intros [s|e]; cbn; [by apply triple_ret; intros ? [-> ?]|].
  eapply triple_bind; [apply triple_attempt, cleanup_spec| |by intros ? ? []].
  intros [u|err]; cbn; [|destruct (not_found err)]; apply triple_fail; intros h' (h1 & [<- _] & Hh); [|done..].
  rewrite Hh. apply besides_delete.
Qed.

Lemma recreate_spec ctx payload h :
  let ref := stringValue payload "provider_ref" in
  triple c (eq h) (recreate ctx payload)
    (fun r h' => match r with Ok s => up ref s /\ h' = <[ref := built_from payload]> h | Fail _ => same_besides ref h h' end).
Proof.
  cbn zeta. set (ref := stringValue payload "provider_ref"). unfold recreate.
  eapply triple_bind; [apply triple_ask|intros config|by intros e ? [[=] _]].
  eapply triple_bind; [apply triple_keep, calm_verify|intros ?|by intros e ? [_ ->]].
  eapply triple_bind; [apply triple_keep, calm_profile|intros profile|by intros e ? [_ ->]].
  eapply triple_bind with (mid := fun _ => same_besides ref h); [|intros deleted|done].
  { eapply triple_conseq; [eapply triple_attempt, triple_provider; [apply delete_law|..]|exact (fun _ => id)|].
    - intros v h1 h2 [_ <-] ->. instantiate (1 := fun _ => same_besides ref h). apply besides_delete.
    - by intros e h1 h2 [_ <-] E.
    - by intros [] ?. }
  eapply triple_bind with (mid := fun _ => same_besides ref h); [|intros ?|done].
  { destruct deleted as [|e]; [by apply triple_ret|]. destruct (not_found e); [by apply triple_ret|by apply triple_fail]. }
  eapply triple_bind; [apply create_spec|intros created|].
  - intros s r s' Hs (h1 & Hh1 & Hh & _) H1. destruct (started_or_removed_spec ctx ref (held s) _ _ _ Hs eq_refl H1) as (Hok & Ht & Hr).
    split; [done|]. split; [done|]. cbn in Hh. fold ref in Hh. rewrite Hh in Hr. destruct r as [x|e].
    + destruct Hr as [? ->]. split; [done|]. by apply besides_insert.
    + eapply besides_trans; [exact Hh1|]. eapply besides_trans; [|exact Hr]. apply besides_put.
  - intros e h' (h1 & Hh1 & E). eapply besides_trans; [exact Hh1|exact E].
Qed.

(** A step after which a device is up, and its registration. *)
Lemma deliver_spec ctx (m : Ag Snapshot) pre ref (done_ failed : holdings -> Prop) :
  triple c pre m (fun r h => match r with Ok s => up ref s /\ done_ h | Fail _ => failed h end) ->
  (forall h, done_ h -> failed h) ->
  triple c pre (deliver ctx m)
    (fun r h => match r with Ok result => done_ h /\ (exists s, up ref s /\ result = snapshotResult s) | Fail _ => failed h end).
Proof.
  intros Hm Hd. unfold deliver. eapply triple_bind; [exact Hm|intros s|done].
  eapply triple_bind; [apply triple_keep, calm_registerSTF|intros u|by intros e h [_ ?]; apply Hd].
  apply triple_ret. intros h [Hs Hh]. split; [done|]. by exists s.
Qed.

Lemma recreated_spec ctx payload h :
  let ref := stringValue payload "provider_ref" in
  triple c (eq h) (deliver ctx (recreate ctx payload))
    (fun r h' => match r with
                 | Ok result => h' = <[ref := built_from payload]> h /\ (exists s, up ref s /\ result = snapshotResult s)
                 | Fail _ => same_besides ref h h'
                 end).
Proof. eapply deliver_spec; [apply recreate_spec|]. cbn. intros h' ->. apply besides_put. Qed.

(** ** Validating an image *)
Lemma tried_spec ctx ref pre :
  triple c pre (s ← start_and_wait ctx ref; _ ← registerSTF ctx s; mret s)
    (fun r h => pre h /\ match r with Ok s => up ref s | Fail _ => True end).
Proof.
  eapply triple_bind; [apply start_and_wait_spec|intros s|done].
  eapply triple_bind; [apply triple_keep, calm_registerSTF|intros u|by intros e h []]. by apply triple_ret.
Qed.

Lemma validateImage_spec ctx payload h :
  let ref := stringValue payload "provider_ref" in
  triple c (eq h) (validateImage ctx payload)
    (fun r h' => match r with
                 | Ok result => h' = delete ref h /\ (exists s, up ref s /\ result = validation_result c payload s)
                 | Fail _ => same_besides ref h h'
                 end).
Proof.
  cbn zeta. set (ref := stringValue payload "provider_ref"). unfold validateImage.
  eapply triple_bind; [apply triple_ask|intros config|by intros e ? [[=] _]].
  eapply triple_bind; [apply triple_keep, calm_verify|intros ?|by intros e ? [_ ->]].
  eapply triple_bind; [apply triple_keep, calm_profile|intros profile|by intros e ? [_ ->]].
  eapply triple_bind; [apply triple_keep, calm_preflight|intros ?|by intros e ? [_ ->]].
  eapply triple_bind; [apply create_spec|intros created|by intros e h' (h1 & [_ ->] & E)].
  eapply triple_bind with (mid := fun r h' => h' = <[ref := built_from payload]> h /\ config = c
      /\ match r with Ok (Ok s) => up ref s | _ => True end); [|intros tried|].
  - eapply triple_conseq; [apply triple_attempt, tried_spec|exact (fun _ => id)|cbn].
    intros [[x|e]|e] h' Hh; [| |done]; destruct Hh as [(h1 & [[= <-] <-] & Eh & _) Hu]; done.
  - eapply triple_bind; [apply triple_attempt, delete_created_spec|intros removed|by intros ? ? []]. cbn.
    destruct tried as [s|e], removed as [u|e']; [apply triple_ret|apply triple_fail..];
      intros h' (h1 & (-> & -> & Hu) & Hr).
    + split; [by rewrite Hr, delete_insert_eq|]. by exists s.
    + eapply besides_trans; [apply besides_put|exact Hr].
    + rewrite Hr. unfold same_besides. by rewrite delete_delete_eq, delete_insert_eq.
    + eapply besides_trans; [apply besides_put|exact Hr].
  - intros e h' (-> & _). apply besides_put.
Qed.

(** ** Replacing a device by another image *)
Lemma stringValue_set o k k' v : stringValue (assoc_set k' v o) k = if String.eqb k k' then match v with JStr x => x | _ => "" end else stringValue o k.
Proof.
  unfold stringValue. destruct (String.eqb_spec k k') as [->|Hne]; [by rewrite assoc_set_same|by rewrite assoc_set_other].
Qed.

Lemma rollback_payload_values payload rollback :
  stringValue (rollback_payload payload rollback) "provider_ref" = stringValue payload "provider_ref"
  /\ built_from (rollback_payload payload rollback)
     = mkBuilt (stringValue payload "device_id") (stringValue rollback "image_id") (provider_image (stringValue rollback "docker_image")).
Proof.
  unfold AgentSteps.built_from, rollback_payload. destruct (map_value _ "capabilities"); rewrite ?stringValue_set; cbn; by rewrite ?stringValue_set.
Qed.

Inductive reimaged (payload : obj) (h : holdings) : Outcome -> holdings -> Prop :=
  | reimage_refused e : reimaged payload h (None, Some e) h
  | reimage_applied s :
      up (stringValue payload "provider_ref") s ->
      reimaged payload h (Some (applied "reimage_applied" (snapshotResult s)), None)
        (<[stringValue payload "provider_ref" := built_from payload]> h)
  | reimage_restored rollback s targetErr e :
      map_value payload "rollback" = Some rollback -> up (stringValue payload "provider_ref") s -> ErrorCode e = "REIMAGE_TARGET_FAILED"%string ->
      reimaged payload h (Some (restored_result "reimage_applied" targetErr (snapshotResult s)), Some e)
        (<[stringValue payload "provider_ref" :=
             mkBuilt (stringValue payload "device_id") (stringValue rollback "image_id") (provider_image (stringValue rollback "docker_image"))]> h)
  | reimage_lost targetErr rollbackErr e h' :
      ErrorCode e = "REIMAGE_ROLLBACK_FAILED"%string -> same_besides (stringValue payload "provider_ref") h h' ->
      reimaged payload h (Some (lost_result "reimage_applied" targetErr rollbackErr), Some e) h'.

Lemma rolled_back_spec ctx payload rollback h :
  triple c (same_besides (stringValue payload "provider_ref") h) (deliver ctx (recreate ctx (rollback_payload payload rollback)))
    (fun r h' => match r with
                 | Ok result => h' = <[stringValue payload "provider_ref" :=
                                         mkBuilt (stringValue payload "device_id") (stringValue rollback "image_id") (provider_image (stringValue rollback "docker_image"))]> h
                                /\ (exists s, up (stringValue payload "provider_ref") s /\ result = snapshotResult s)
                 | Fail _ => same_besides (stringValue payload "provider_ref") h h'
                 end).
Proof.
  apply triple_each. intros h1 Hb.
  eapply triple_conseq; [apply recreated_spec|done|cbn]. destruct (rollback_payload_values payload rollback) as [-> ->].
  intros [result|e] h'; [intros [-> Hs]; split; [by apply besides_insert|done]|]. intros Hr. by eapply besides_trans.
Qed.

Lemma rollback_context_spec (pre : holdings -> Prop) :
  triple c pre (rollback_context : Ag Context) (fun r h => match r with Ok _ => pre h | Fail _ => False end).
Proof.
  intros s r s' Hs Hp H1. destruct (calm_rollback_context c _ _ _ _ Hs eq_refl H1) as (? & ? & E). rewrite <-E. by injection H1 as <- _.
Qed.

Lemma reimage_spec ctx payload h :
  triple c (eq h) (reimage ctx payload) (fun r h' => exists o, r = Ok o /\ reimaged payload h o h').
Proof.
  unfold reimage. eapply triple_bind; [apply triple_attempt, triple_keep; eauto with agent|intros checked|by intros ? ? []].
  { apply calm_bind; [eauto with agent|intros profile; eauto with agent]. }
  destruct checked as [u|e]; [|apply triple_ret; cbn; intros ? <-; eexists; split; [done|constructor]].
  eapply triple_bind; [apply triple_attempt, recreated_spec|intros target|by intros ? ? []].
  destruct target as [result|targetErr]; cbn.
  { apply triple_ret. intros ? [-> (s & Hs & ->)]. eexists. split; [done|]. by constructor. }
  destruct (map_value payload "rollback") as [rollback|] eqn:Er;
    [|apply triple_ret; intros h' Hh; eexists; split; [done|by apply (reimage_lost payload h targetErr None)]].
  eapply triple_bind; [apply rollback_context_spec|intros rollbackContext|by intros e h' []].
  eapply triple_bind; [apply triple_attempt, rolled_back_spec|intros restored|by intros ? ? []].
  apply triple_ret. intros h' Hr. eexists. split; [done|]. destruct restored as [result|e];
    [|by apply (reimage_lost payload h targetErr (Some e))].
  destruct Hr as [-> (s & Hs & ->)]. by eapply reimage_restored.
Qed.

(** ** Commands

    A command concerns the device of [ref] only, and when it reports no error the devices
    are [target]. *)
Definition achieves (ref : string) (h target : holdings) (r : result GoError Outcome) (h' : holdings) : Prop :=
  exists o, r = Ok o /\ same_besides ref h h' /\ (o.2 = None -> h' = target).

Lemma achieves_error ref h target (x : option obj) e h' : same_besides ref h h' -> achieves ref h target (Ok (x, Some e)) h'.
Proof. intros Hb. eexists. split; [done|]. by split. Qed.

Lemma with_outcome_spec ref (m : Ag obj) pre h target :
  same_besides ref h target ->
  triple c pre m (fun r h' => match r with Ok _ => h' = target | Fail _ => same_besides ref h h' end) ->
  triple c pre (with_outcome m) (achieves ref h target).
Proof.
  intros Ht Hm. unfold with_outcome. eapply triple_bind; [apply triple_attempt, Hm|intros r|by intros ? ? []].
  apply triple_ret. intros h' Hr. destruct r as [result|e]; [subst h'; eexists; split; [done|]; by split|by apply achieves_error].
Qed.

Lemma with_outcome_calm ref (m : Ag obj) h : calm c m -> triple c (eq h) (with_outcome m) (achieves ref h h).
Proof.
  intros Hm. apply with_outcome_spec; [done|]. eapply triple_conseq; [apply Hm|done|]. by intros [] ? <-.
Qed.

Lemma checked_create_spec ctx payload h :
  let ref := stringValue payload "provider_ref" in
  triple c (eq h) (checked_create ctx payload) (fun r h' => match r with
    Ok s => sn_ProviderRef s = ref /\ h' = <[ref := built_from payload]> h | Fail _ => same_besides ref h h' end).
Proof.
  cbn zeta. unfold checked_create. eapply triple_bind; [apply triple_ask|intros config|by intros e ? [[=] _]].
  eapply triple_bind; [apply triple_keep; calm_run|intros profile|by intros e ? [_ ->]].
  eapply triple_bind; [apply triple_keep; calm_run|intros u|by intros e ? [_ ->]].
  eapply triple_conseq; [apply create_spec|exact (fun _ => id)|cbn]. by intros [s|e] h' (h1 & [_ <-] & Hr); [destruct Hr|].
Qed.

(** What becomes of a device that has been created. *)
Inductive settled (ref : string) (b : Built) (h : holdings) : Outcome -> holdings -> Prop :=
  | settled_up s : up ref s -> settled ref b h (Some (snapshotResult s), None) (<[ref := b]> h)
  | settled_unregistered e : ErrorCode e = "STF_ADB_CONNECT_FAILED"%string -> settled ref b h (None, Some e) (<[ref := b]> h)
  | settled_removed e : settled ref b h (None, Some e) (delete ref h)
  | settled_stuck prefix e cleanupErr h' :
      same_besides ref h h' -> settled ref b h (None, Some (joined_cleanup prefix e cleanupErr)) h'.

Lemma registerSTF_error ctx s pre :
  triple c pre (registerSTF ctx s)
    (fun r h => pre h /\ match r with Fail e => ErrorCode e = "STF_ADB_CONNECT_FAILED"%string | Ok _ => True end).
Proof.
  apply (triple_calm c _ (fun r => match r with Fail e => ErrorCode e = "STF_ADB_CONNECT_FAILED"%string | Ok _ => True end)); [apply calm_registerSTF|].
  intros w r w' H1. unfold registerSTF in H1. unfold mbind at 1, M_bind at 1, ask in H1.
  destruct (ag_STFADBRegistrar c); [|by injection H1 as <- _]. destruct (String.eqb _ _); [by injection H1 as <- _|].
  unfold mbind, M_bind, attempt in H1. destruct (register _ _ _ _ _) as [[u|err] w1]; by injection H1 as <- _.
Qed.

Lemma delivered_spec ctx s (pre : holdings -> Prop) :
  triple c pre (deliver ctx (mret s)) (fun r h => pre h /\ match r with
    Ok result => result = snapshotResult s | Fail e => ErrorCode e = "STF_ADB_CONNECT_FAILED"%string end).
Proof.
  unfold deliver. eapply triple_bind with (mid := fun r h => pre h /\ r = Ok s); [by apply triple_ret|intros x|by intros e h []].
  eapply triple_bind; [apply registerSTF_error|intros u|by intros e h [[? _] ?]]. apply triple_ret. by intros h [[? [= ->]] _].
Qed.

Lemma settle_create_spec ctx payload s h :
  let ref := stringValue payload "provider_ref" in sn_ProviderRef s = ref ->
  triple c (eq (<[ref := built_from payload]> h)) (settle_create ctx payload s)
    (fun r h' => exists o, r = Ok o /\ settled ref (built_from payload) h o h').
Proof.
  cbn zeta. set (ref := stringValue payload "provider_ref"). intros Hs. unfold settle_create.
  set (providerRef := if String.eqb (sn_ProviderRef s) "" then _ else _).
  assert (providerRef = ref) as -> by (unfold providerRef; rewrite Hs; destruct (String.eqb ref ""); reflexivity).
  eapply triple_bind; [apply triple_attempt, start_and_wait_spec|intros ready|by intros ? ? []].
  destruct ready as [x|err]; cbn.
  - unfold with_outcome. eapply triple_bind; [apply triple_attempt, delivered_spec|intros r|by intros ? ? []].
    apply triple_ret. intros h' [[<- Hx] Hr]. eexists. split; [done|]. destruct r as [result|err]; [subst result|]; by constructor.
  - eapply triple_bind; [apply triple_attempt, cleanup_spec|intros removed|by intros ? ? []].
    apply triple_ret. intros h' (h2 & [<- _] & Hr). eexists. split; [done|]. destruct removed as [u|err2].
    + rewrite Hr, delete_insert_eq. constructor.
    + constructor. eapply besides_trans; [apply besides_put|exact Hr].
Qed.

Lemma run_create_spec ctx payload h :
  let ref := stringValue payload "provider_ref" in
  triple c (eq h) (run_create ctx payload) (achieves ref h (<[ref := built_from payload]> h)).
Proof.
  cbn zeta. set (ref := stringValue payload "provider_ref"). unfold run_create.
  eapply triple_bind; [apply triple_attempt, checked_create_spec|intros created|by intros ? ? []].
  destruct created as [s|e]; [|apply triple_ret; intros h' Hh; by apply achieves_error].
  apply triple_each. intros h1 [Hs ->]. eapply triple_conseq; [by apply settle_create_spec|done|].
  intros r h' (o & -> & Ho). exists o. split; [done|].
  destruct Ho; (split; [first [done|apply besides_put|apply besides_delete]|done]).
Qed.

Lemma restart_with_spec f ctx ref profile h :
  provider_restart_with = Some f ->
  triple c (same_besides ref h) (restart_with f ctx ref profile)
    (fun r h' => match r with Ok _ => same_besides ref h h' | Fail _ => False end).
Proof.
  intros Hf. unfold restart_with. eapply triple_bind; [apply triple_attempt|intros r|by intros ? ? []].
  - eapply triple_provider; [by apply restart_with_law|..].
    + instantiate (1 := fun _ => same_besides ref h). intros [s [e|]] h1 h2 Hb Hr; cbn in Hr; [by eapply besides_trans|by destruct Hr as [_ ->]].
    + intros e h1 h2 Hb Hr. by eapply besides_trans.
  - by apply triple_ret.
Qed.

Lemma restarted_spec f ctx ref profile h :
  provider_restart_with = Some f ->
  triple c (eq h) (restart_with f ctx ref profile)
    (fun r h' => match r with Ok (Ok _, _) => h' = h | Ok (Fail _, _) => same_besides ref h h' | Fail _ => False end).
Proof.
  intros Hf. unfold restart_with. eapply triple_bind; [apply triple_attempt|intros r|by intros ? ? []].
  - eapply triple_provider; [by apply restart_with_law|..].
    + instantiate (1 := fun r h' => match r with Ok (_, None) => h' = h | _ => same_besides ref h h' end).
      intros [s [e|]] h1 h2 <- Hr; cbn in Hr; [done|by destruct Hr as [_ ->]].
    + by intros e h1 h2 <- Hr.
  - apply triple_ret. by destruct r as [[s [e|]]|e].
Qed.

Lemma calm_ready_again ctx s : calm c (ready_again ctx s).
Proof. unfold ready_again. eauto with agent. Qed.

Lemma lifted_spec {A} (r : result GoError A) (f : A -> Ag obj) pre post :
  (forall e h, pre h -> r = Fail e -> post (Fail e) h) -> (forall a, r = Ok a -> triple c pre (f a) post) ->
  triple c pre (s ← lift_result r; f s) post.
Proof.
  intros He Hf. destruct r as [a|e]; intros s r s' Hs Hp H1; [exact (Hf a eq_refl s r s' Hs Hp H1)|].
  injection H1 as <- <-. split; [done|]. split; [lia|]. by apply He.
Qed.

(** The restoration of a profile, whatever is left of the device. *)
Lemma restore_profile_spec f ctx ref profile started h :
  provider_restart_with = Some f ->
  triple c (same_besides ref h) (restore_profile f ctx ref profile started) (fun _ => same_besides ref h).
Proof.
  intros Hf. unfold restore_profile. eapply triple_bind; [instantiate (1 := fun _ => same_besides ref h)|intros s|done].
  - destruct started as [s|]; [by apply triple_ret|]. eapply triple_bind; [by apply restart_with_spec|intros r|done]. by apply triple_lift.
  - apply triple_keep, calm_ready_again.
Qed.

Lemma updateRuntimeProfile_spec ctx payload h :
  triple c (eq h) (updateRuntimeProfile ctx payload) (achieves (stringValue payload "provider_ref") h h).
Proof.
  unfold updateRuntimeProfile. set (ref := stringValue payload "provider_ref").
  eapply triple_bind; [apply triple_attempt;
    apply (triple_calm c _ (fun r => match r with Ok (_, _, f) => provider_restart_with = Some f | Fail _ => True end))
    |intros checked|by intros ? ? []].
  - calm_run.
  - intros s [[[p1 p2] f]|e] s' H1; [|done]. apply bind_ok in H1 as (p1' & s1 & _ & H1). apply bind_ok in H1 as (p2' & s2 & _ & H1).
    apply bind_ok in H1 as (f' & s3 & Hf & H1). apply bind_ok in H1 as (u & s4 & _ & H1). injection H1 as _ _ <- _.
    destruct provider_restart_with; [by injection Hf as -> _|discriminate].
  - destruct checked as [[[target rollback] f]|e]; [|apply triple_ret; intros h' [<- _]; by apply achieves_error].
    apply triple_each. intros h1 [<- Hf].
    eapply triple_bind; [by apply restarted_spec|intros [r started]|by intros ? ? []].
    eapply triple_bind; [apply triple_attempt; apply (lifted_spec r _ _ (fun r h' => match r with Ok _ => h' = h | Fail _ => same_besides ref h h' end))
      |intros targeted|by intros ? ? []].
    + intros e h' Hr ->. exact Hr.
    + intros s ->. eapply triple_conseq; [apply triple_keep, calm_ready_again|exact (fun _ => id)|]. by intros [] h' ->.
    + destruct targeted as [result|targetErr]; [apply triple_ret; intros h' ->; eexists; split; [done|by split]|].
      eapply triple_bind; [apply rollback_context_spec|intros rollbackContext|by intros ? ? []].
      eapply triple_bind; [by apply triple_attempt, restore_profile_spec|intros restored|by intros ? ? []].
      apply triple_ret. intros h' Hr. destruct restored; by apply achieves_error.
Qed.

Lemma run_restart_spec ctx payload h :
  triple c (eq h) (run_restart ctx payload) (achieves (stringValue payload "provider_ref") h h).
Proof.
  unfold run_restart. destruct (String.eqb _ "runtime_profile_update"); [apply updateRuntimeProfile_spec|]. apply with_outcome_spec; [done|].
  set (ref := stringValue payload "provider_ref").
  eapply triple_bind with (mid := fun r h' => match r with Ok _ => h' = h | Fail _ => same_besides ref h h' end); [|intros s|done].
  - assert (triple c (eq h) (provider_call (provider_restart ctx ref))
      (fun r h' => match r with Ok _ => h' = h | Fail _ => same_besides ref h h' end)) as Hplain
      by (eapply triple_conseq; [apply calm_restart|done|]; by intros [] ? <-).
    destruct (map_value payload "runtime_profile") as [[|entry rest]|]; [exact Hplain| |exact Hplain].
    eapply triple_bind; [apply triple_keep; calm_run|intros profile|by intros e h' <-].
    destruct provider_restart_with as [f|] eqn:Hf; [|exact Hplain].
    eapply triple_bind; [by apply restarted_spec|intros [r started]|by intros ? ? []]. by apply triple_lift; destruct r.
  - eapply triple_conseq; [apply triple_keep, calm_ready_again|exact (fun _ => id)|]. by intros [] h' ->.
Qed.

Definition rebuilds (payload : obj) : bool :=
  String.eqb (stringValue payload "operation_kind") "reimage"
  || negb (String.eqb (stringValue payload "device_id") "") && negb (String.eqb (stringValue payload "image_id") "").

Lemma run_rebuild_spec ctx payload h :
  let ref := stringValue payload "provider_ref" in
  triple c (eq h) (run_rebuild ctx payload) (achieves ref h (if rebuilds payload then <[ref := built_from payload]> h else h)).
Proof.
  cbn zeta. set (ref := stringValue payload "provider_ref"). unfold run_rebuild, rebuilds. destruct (String.eqb _ "reimage"); cbn [orb].
  - eapply triple_conseq; [apply reimage_spec|done|]. intros r h' (o & -> & Ho). exists o. split; [done|].
    destruct Ho; (split; [first [done|apply besides_put]|done]).
  - destruct (_ && _).
    + apply with_outcome_spec; [apply besides_put|]. eapply triple_conseq; [apply recreated_spec|done|]. by intros [] h' Hr; [destruct Hr|].
    + apply with_outcome_spec; [done|]. eapply triple_bind; [eapply triple_provider; [apply rebuild_law|..]|intros s|].
      * instantiate (1 := fun r h' => match r with Ok _ => h' = h | Fail _ => same_besides ref h h' end). by intros s h1 h2 <- [_ ->].
      * by intros e h1 h2 <- Hr.
      * eapply triple_conseq; [apply triple_keep, calm_ready_again|exact (fun _ => id)|]. by intros [] h' ->.
      * done.
Qed.
End Steps.
