(* ===== verification/AgentSpec.v ===== *)
(** * What the host agent guarantees

    The properties of the commands and of the heartbeats of an agent, for any lawful
    provider, and their composition with the server that reads its reports. *)
From Stdlib Require Import SpecFloat QArith_base Qreduction.
From Stdlib Require Qcanon.
From S2P Require Import Prelude GoText Json Float64 RuntimeProfile Capacity Domain Errors Store CommandRepo Reconcile DeviceOps ImageCatalog HostCommand Completion Heartbeat Providers MockProvider Agent AgentLogic AgentSteps.

Section Spec.
Context {P : Type} `{LP : LawfulProvider P}.
Context (c : AgentConfig).

Abbreviation Ag := (M AgentConfig (AgentState P) GoError).
Abbreviation built_from := (built_from (P := P)).

(** The devices that a command asks for. *)
Definition effect_of (command : Command) (h : holdings) : holdings :=
  let payload := cv_Payload command in
  let ref := stringValue payload "provider_ref" in
  let kind := String.eqb (cv_CommandType command) in
  if kind "create" || (kind "rebuild" && rebuilds payload) then <[ref := built_from payload]> h
  else if kind "delete" || kind "validate_image" then delete ref h
  else h.

(** ** Commands *)
Lemma delete_command_spec ctx ref h :
  triple c (eq h) (with_outcome (_ ← provider_call (provider_delete ctx ref); mret [("provider_ref", JStr ref); ("deleted", JBool true)]%string))
    (achieves ref h (delete ref h)).
Proof.
  apply with_outcome_spec; [apply besides_delete|]. eapply triple_bind; [eapply triple_provider; [apply delete_law|..]|intros u|].
  - instantiate (1 := fun r h' => match r with Ok _ => h' = delete ref h | Fail _ => same_besides ref h h' end). by intros a h1 h2 <- ->.
  - by intros e h1 h2 <- Hr.
  - by apply triple_ret.
  - done.
Qed.

Lemma run_command_spec ctx command h :
  triple c (eq h) (run_command ctx command) (achieves (stringValue (cv_Payload command) "provider_ref") h (effect_of command h)).
Proof.
  unfold run_command, effect_of. cbn zeta. set (ref := stringValue _ "provider_ref").
  destruct (String.eqb_spec (cv_CommandType command) "create") as [E|]; [rewrite ?E; apply run_create_spec|].
  destruct (String.eqb_spec (cv_CommandType command) "start") as [E|]; [rewrite ?E; apply with_outcome_calm; calm_run|].
  destruct (String.eqb_spec (cv_CommandType command) "stop") as [E|]; [rewrite ?E; apply with_outcome_calm; calm_run|].
  destruct (String.eqb_spec (cv_CommandType command) "restart") as [E|]; [rewrite ?E; apply run_restart_spec|].
  destruct (String.eqb_spec (cv_CommandType command) "rebuild") as [E|]; [rewrite ?E; apply run_rebuild_spec|].
  destruct (String.eqb_spec (cv_CommandType command) "delete") as [E|]; [rewrite ?E; apply delete_command_spec|].
  destruct (String.eqb_spec (cv_CommandType command) "inspect") as [E|]; [rewrite ?E; apply with_outcome_calm; calm_run|].
  destruct (String.eqb_spec (cv_CommandType command) "validate_image") as [E|].
  { rewrite ?E. apply with_outcome_spec; [apply besides_delete|]. eapply triple_conseq; [apply validateImage_spec|done|]. by intros [] h' Hr; [destruct Hr|]. }
  cbn [orb andb]. unfold prepared.
  destruct (String.eqb (cv_CommandType command) "sync_android_catalog");
    [|destruct (String.eqb (cv_CommandType command) "prepare_android_image"); [|apply triple_ret; intros ? <-; by apply achieves_error]].
  all: eapply triple_bind; [apply triple_ask|intros config|by intros e ? [[=] _]]; apply triple_each; intros ? [_ <-]; apply with_outcome_calm; calm_run.
Qed.

Lemma execute_outcome fate command s r s' :
  execute fate command c s = (r, s') ->
  exists ctx x, run_command ctx command c s = (x, s')
    /\ match x with
       | Ok o => exists err, (o.2 <> None -> err = o.2) /\ r = Ok (completion_of command o.1 err)
       | Fail e => r = Fail e
       end.
Proof.
  intros H1. unfold execute, agent_now in H1. unfold mbind at 1 2 3, M_bind at 1 2 3, ask, gets at 1 in H1.
  eexists. destruct (run_command _ command c s) as [[o|e] s1] eqn:E; [|injection H1 as <- <-; eexists; by split].
  unfold mbind, M_bind, gets in H1. injection H1 as <- <-. exists (Ok o). split; [exact E|].
  eexists. split; [|reflexivity]. by destruct o.2.
Qed.

Lemma execute_achieves fate command s r s' :
  agent_ok s -> execute fate command c s = (r, s') ->
  exists o err, r = Ok (completion_of command o.1 err) /\ (o.2 <> None -> err = o.2) /\ agent_ok s'
    /\ same_besides (stringValue (cv_Payload command) "provider_ref") (held s) (held s')
    /\ (o.2 = None -> held s' = effect_of command (held s)).
Proof.
  intros Hs (ctx & x & Hx & Hr)%execute_outcome.
  destruct (run_command_spec ctx command (held s) _ _ _ Hs eq_refl Hx) as (Hok & _ & o & -> & Hb & Ht).
  destruct Hr as (err & Herr & ->). by exists o, err.
Qed.

(** C19: what an agent reports has happened.  For any lawful provider, [execute] ends in a
    report that echoes the lease token and the attempt of the claimed command; no other
    device of the host is touched; and when the report says success, the devices are what
    the command asked for ([effect_of]): created or recreated from the image of the
    payload, deleted, or as they were.  Otherwise the report is a failure with a code. *)
Theorem reported_success_happened fate command s r s' :
  agent_ok s -> execute fate command c s = (r, s') ->
  exists input, r = Ok input /\ ci_LeaseToken input = default ""%string (cv_LeaseToken command) /\ ci_Attempt input = cv_Attempt command
    /\ same_besides (stringValue (cv_Payload command) "provider_ref") (held s) (held s')
    /\ match ci_Error input with
       | None => ci_Status input = CommandSucceeded /\ held s' = effect_of command (held s)
       | Some e => ci_Status input = CommandFailed /\ er_Code e <> ""%string
       end.
Proof.
  intros Hs (o & err & -> & Herr & _ & Hb & Ht)%(execute_achieves _ _ _ _ _ Hs). eexists. split; [done|]. split; [done|]. split; [done|].
  split; [exact Hb|]. unfold completion_of. cbn. destruct err as [e|]; cbn.
  - split; [done|]. unfold providerErrorCode. by destruct (String.eqb_spec (ErrorCode e) "").
  - split; [done|]. apply Ht. destruct o.2; [|done]. by destruct Herr.
Qed.

(** ** Creating *)
(** C21: a device that [create] made does not outlive a failed boot.  Once the
    provider has created it, either it is up and with_outcome, or it is up and only its
    registration in STF failed, or it has been removed, or the error joins the one of a
    failed cleanup; when the provider refused, at most its own device is affected. *)
Theorem failed_create_is_removed ctx payload s r s' :
  agent_ok s -> run_create ctx payload c s = (r, s') ->
  exists o, r = Ok o
    /\ if is_ok (checked_create ctx payload c s).1
       then settled (stringValue payload "provider_ref") (built_from payload) (held s) o (held s')
       else same_besides (stringValue payload "provider_ref") (held s) (held s') /\ exists e, o = (None, Some e).
Proof.
  intros Hs H1. unfold run_create in H1. unfold mbind at 1, M_bind at 1, attempt at 1 in H1.
  destruct (checked_create ctx payload c s) as [[x|e] s1] eqn:E;
    destruct (checked_create_spec c ctx payload (held s) _ _ _ Hs eq_refl E) as (Hok & _ & Hx).
  - destruct Hx as [Hx Hh]. symmetry in Hh. by destruct (settle_create_spec c ctx payload x (held s) Hx _ _ _ Hok Hh H1) as (_ & _ & o & Ho & Hf); exists o.
  - injection H1 as <- <-. eexists. split; [done|]. cbn. eauto.
Qed.

(** ** Waiting *)
(** C22: the wait for a device ends, by its deadline.  The polls that fit before the
    deadline of the context are enough fuel, whatever the provider answers.  With a
    provider whose inspections and connection calls end by the deadline of their context,
    or by the instant of the call when that is later, up to a grace, the wait ends by its
    deadline, or by its start when that is later, up to twice the grace (0 for the mock).
    It leaves the devices unchanged, and success means that the last inspection found the
    device ready. *)
Theorem boot_wait_settles `{PP : !PromptProvider P} ctx deadline sn s :
  agent_ok s -> cx_Deadline ctx = Some deadline ->
  let '(r, s') := wait_ready (polls ctx (clock s)) ctx sn c s in
  held s' = held s
  /\ clock s <= clock s' <= Z.max (clock s) deadline + 2 * provider_grace
  /\ match r with
     | Ok None => False
     | Ok (Some x) => up (sn_ProviderRef sn) x /\ waitReady ctx sn c s = (Ok x, s')
     | Fail e => waitReady ctx sn c s = (Fail e, s')
     end.
Proof.
  intros Hs Hd. destruct (wait_ready (polls ctx (clock s)) ctx sn c s) as [x s'] eqn:E.
  assert (x <> Ok None) as Hx.
  { apply (wait_ready_total c _ _ deadline _ _ _ _ Hd Hs) in E; [done|..]; unfold polls; rewrite Hd; [|lia].
    pose proof (Z.div_mod (deadline - clock s) poll_interval) as Hdm. pose proof (Z.mod_pos_bound (deadline - clock s) poll_interval) as Hmb.
    unfold poll_interval in *. lia. }
  destruct (calm_wait_ready c _ _ _ _ _ _ _ Hs eq_refl E) as (_ & Hc & Hh).
  assert (waitReady ctx sn c s = (match x with Ok (Some y) => Ok y | Ok None => Fail (PlainErr "out of fuel") | Fail e => Fail e end, s')) as ->.
  { unfold waitReady, agent_now. unfold mbind, M_bind, gets. fold (clock s). rewrite E. by destruct x as [[y|]|e]. }
  split; [done|]. split; [split; [done|by eapply wait_ready_in_time]|].
  destruct x as [[y|]|e]; [|done|done]. split; [by eapply wait_ready_up|done].
Qed.

(** ** What the server reads *)
Lemma rollback_flag o x : decode_operation o = Some x -> mo_RollbackRestored x = true -> assoc "rollback_restored" o = Some (JBool true).
Proof.
  unfold decode_operation, bind_opt. intros Hd Hx.
  repeat match type of Hd with match ?e with _ => _ end = _ => let E := fresh "E" in destruct e eqn:E; [|discriminate] end.
  injection Hd as <-. cbn in Hx. subst.
  match goal with E : bool_field o "rollback_restored" = Some true |- _ => unfold bool_field in E; destruct (assoc _ o) as [[| | | | |]|]; by simplify_eq end.
Qed.

Lemma outcome_flags record applied x b :
  rollback_outcome record applied = Some (x, b) ->
  if b then c_Status record = CommandSucceeded
  else c_Status record = CommandFailed /\ assoc "rollback_restored" (result_obj record) = Some (JBool true).
Proof.
  unfold rollback_outcome, valid_result, bind_opt. destruct (decode_operation (result_obj record)) as [y|] eqn:E; [|done].
  destruct (validManagementOperationResult y); [|done]. unfold command_is.
  destruct (bool_decide (c_Status record = CommandSucceeded) && applied y) eqn:E1.
  - intros [= _ <-]. apply andb_true_iff in E1 as [E1 _]. by apply bool_decide_eq_true in E1.
  - destruct (_ && mo_RollbackRestored y) eqn:E2; [|done]. intros [= _ <-]. apply andb_true_iff in E2 as [E2 E3].
    apply bool_decide_eq_true in E2. split; [done|]. by eapply rollback_flag.
Qed.

(** C20: the server records the image that the host runs.  When an agent has executed
    a reimage command and the server evaluates the stored report, an applied target means
    that the provider holds the device built from the target image, a restored rollback
    that it holds the device of the previous image under the same reference and device,
    and without an outcome (then the device is quarantined) no other device changed. *)
Theorem server_learns_image fate command s input s' record :
  let payload := cv_Payload command in
  let ref := stringValue payload "provider_ref" in
  agent_ok s -> cv_CommandType command = "rebuild"%string -> stringValue payload "operation_kind" = "reimage"%string ->
  execute fate command c s = (Ok input, s') -> c_Status record = ci_Status input -> result_obj record = ci_Result input ->
  match rollback_outcome record mo_ReimageApplied with
  | Some (_, true) => held s' = <[ref := built_from payload]> (held s)
  | Some (_, false) => exists rollback, map_value payload "rollback" = Some rollback
      /\ held s' = <[ref := mkBuilt (stringValue payload "device_id") (stringValue rollback "image_id") (provider_image (stringValue rollback "docker_image"))]> (held s)
  | None => same_besides ref (held s) (held s')
  end.
Proof.
  intros payload ref Hs Hk Ho H1 Hst Hres. apply execute_outcome in H1 as (ctx & x & Hx & Hr).
  assert (run_command ctx command = reimage ctx payload) as Erun.
  { unfold run_command, run_rebuild. fold payload. by rewrite Hk, Ho. }
  rewrite Erun in Hx. destruct (reimage_spec c ctx payload (held s) _ _ _ Hs eq_refl Hx) as (_ & _ & o & -> & Hreim).
  destruct Hr as (err & Herr & [= ->]). cbn in Hst, Hres.
  pose proof (outcome_flags record mo_ReimageApplied) as Hflags.
  destruct (rollback_outcome record mo_ReimageApplied) as [[y b]|]; [|by destruct Hreim; try apply besides_put].
  specialize (Hflags y b eq_refl). rewrite Hst, Hres in Hflags.
  destruct Hreim as [e|sn Hup|rollback sn te e Hm Hup He|te re e h' He Hb]; try rewrite (Herr ltac:(discriminate)) in Hflags; cbn in Hflags.
  - destruct b; [done|by destruct Hflags].
  - destruct b; [done|]. destruct Hflags as [_ Hflags]. discriminate.
  - destruct b; [done|]. by exists rollback.
  - destruct b; [done|]. destruct Hflags as [_ Hflags]. by destruct re.
Qed.
End Spec.

(** ** Reports *)

(** What the server makes of the report of a device. *)
Definition read_back (s : Snapshot) (reimaged updated restored : bool) : managementOperationResult :=
  let k := sn_Connection s in
  mkOperationResult (sn_Platform s) (state_string (sn_State s)) (sn_Generation s) reimaged updated restored
    (mkConnection (co_Serial k) (co_ProviderID k) (co_ADBEndpoint k) (co_AppiumEndpoint k) (co_AppiumUDID k)) (sn_Health s).

Lemma Q_integral_inject n : Q_integral (inject_Z n) = Some n.
Proof.
  unfold Q_integral. assert (Qred (inject_Z n) = inject_Z n) as ->; [|done].
  apply Qcanon.Qred_identity. cbn. apply Z.gcd_1_r.
Qed.

Lemma decode_components_map l : decode_components (map (fun p => (p.1, JStr p.2)) l) = Some l.
Proof. induction l as [|[k v] l IH]; [done|]. cbn. by rewrite IH. Qed.

Lemma decode_health_result h : decode_health (healthResult h) = Some h.
Proof.
  destruct h as [[|[k v] l] online adb boot appium]; [done|].
  transitivity (components <-? decode_components (map (fun p => (p.1, JStr p.2)) ((k, v) :: l)) ;; Some (mkProviderHealth components online adb boot appium));
    [reflexivity|]. by rewrite decode_components_map.
Qed.

(** Documents that agree with the report of a device but for the flags. *)
Lemma decode_report s o reimaged updated restored :
  in_int8 (sn_Generation s) = true ->
  Forall (fun k => assoc k o = assoc k (snapshotResult s)) ["platform"; "state"; "generation"; "connection"; "health"]%string ->
  bool_field o "reimage_applied" = Some reimaged -> bool_field o "runtime_profile_update_applied" = Some updated ->
  bool_field o "rollback_restored" = Some restored ->
  decode_operation o = Some (read_back s reimaged updated restored).
Proof.
  intros Hg Hk H1 H2 H3. rewrite !Forall_cons in Hk. destruct Hk as (K1 & K2 & K3 & K4 & K5 & _).
  unfold decode_operation. rewrite H1, H2, H3. unfold string_field, int_field, struct_field. rewrite K1, K2, K3, K4, K5.
  transitivity (generation <-? within in_int8 (Q_integral (inject_Z (sn_Generation s))) ;; health <-? decode_health (healthResult (sn_Health s)) ;;
    Some (mkOperationResult (sn_Platform s) (state_string (sn_State s)) generation reimaged updated restored
            (mo_Connection (read_back s reimaged updated restored)) health)); [reflexivity|].
  rewrite Q_integral_inject, decode_health_result. cbn. by rewrite Hg.
Qed.

(** C23: the server reads back what an agent reports.  The document of a
    snapshot decodes to its platform, state, generation, connection and health, with
    exactly the flags that a replacement or its rollback has set. *)
Theorem reports_are_understood s targetErr :
  in_int8 (sn_Generation s) = true ->
  decode_operation (snapshotResult s) = Some (read_back s false false false)
  /\ decode_operation (applied "reimage_applied" (snapshotResult s)) = Some (read_back s true false false)
  /\ decode_operation (applied "runtime_profile_update_applied" (snapshotResult s)) = Some (read_back s false true false)
  /\ decode_operation (restored_result "reimage_applied" targetErr (snapshotResult s)) = Some (read_back s false false true)
  /\ decode_operation (restored_result "runtime_profile_update_applied" targetErr (snapshotResult s)) = Some (read_back s false false true).
Proof.
  intros Hg. repeat split; apply decode_report; try done; repeat constructor.
Qed.

(** ** Heartbeats *)

(** What the server can hold against a device of a heartbeat, which it reads without the
    spaces around the texts and in lower case. *)
Definition acceptable (c : AgentConfig) (s : Snapshot) : bool :=
  nonempty (TrimSpace (sn_ProviderRef s)) && one_of (ToLower (TrimSpace (sn_Platform s))) [""; "android"; "ios"]%string
  && one_of (ToLower (TrimSpace (sn_DeviceKind s))) [""; "emulator"; "simulator"; "physical"]%string
  && one_of (ToLower (TrimSpace (heartbeatProviderType (ag_ProviderType c)))) [""; "mock"; "docker_emulator"; "usb_android"; "appium_device_farm_ios"]%string
  && validComponents (ph_Components (sn_Health s))
  && (nonempty (TrimSpace (co_Serial (sn_Connection s))) || negb (bool_decide (sn_State s = StateRunning)))
  && (is_zero_profile (sn_RuntimeProfile s) || bool_decide (is_Some (Parse (Map (sn_RuntimeProfile s))))).

Lemma discovered_connection c s : is_Some (discoveredConnection (dd_Connection (discovered c s))).
Proof.
  unfold discoveredConnection, optionalConnectionValue, bind_opt. cbn [discovered dd_Connection].
  destruct (String.eqb (co_ADBEndpoint _) ""); cbn; eauto.
Qed.

Lemma valid_discovered c s : valid_device (normalized_device (discovered c s)) = acceptable c s.
Proof.
  unfold valid_device, acceptable.
  change (dd_Connection (normalized_device (discovered c s))) with (dd_Connection (discovered c s)).
  rewrite (bool_decide_eq_true_2 _ (discovered_connection c s)).
  assert (validDiscoveredLifecycle (providerLifecycle s) = true /\ validDiscoveredHealth (providerHealth s) = true
          /\ (bool_decide (providerLifecycle s = DeviceReady) && negb (bool_decide (providerHealth s = HealthHealthy))) = false
          /\ bool_decide (providerLifecycle s = DeviceStopped) = negb (bool_decide (sn_State s = StateRunning))) as (E1 & E2 & E3 & E4).
  { unfold providerLifecycle, providerHealth, snapshot_ready. destruct (bool_decide (sn_State s = StateRunning)), (Ready (sn_Health s)),
      (existsb (fun p => String.eqb p.2 "failed") (ph_Components (sn_Health s))); done. }
  cbn -[TrimSpace ToLower one_of validComponents nonempty providerLifecycle providerHealth heartbeatProviderType Parse is_zero_profile].
  rewrite E1, E2, E3, E4. cbn [negb andb]. rewrite !andb_true_r. f_equal.
  destruct (is_zero_profile _); [done|]. by rewrite bool_decide_eq_false_2.
Qed.

Section Heartbeats.
Context {P : Type} `{DeviceProvider P}.
Context (c : AgentConfig).

(** What the provider lists, and its error. *)
Definition inventory (ctx : Context) (s : AgentState P) : list Snapshot * option GoError :=
  match (provider_call (provider_discover ctx (ag_HostID c)) c s).1 with Ok found => found | Fail e => ([], Some e) end.

Lemma heartbeat_content ctx s input s' :
  sendHeartbeat ctx c s = (Ok input, s') ->
  hb_Devices input = map (discovered c) (inventory ctx s).1
  /\ ((inventory ctx s).2 <> None -> assoc "host_readiness" (hb_Environment input) = Some (not_ready "provider_inventory_failed")).
Proof.
  intros H1. unfold sendHeartbeat in H1. unfold mbind at 1 2, M_bind at 1 2, ask at 1, attempt at 1 in H1. unfold inventory.
  destruct (provider_call _ c s) as [x s1]. cbn [fst]. destruct (match x with Ok found => found | Fail e => ([], Some e) end) as [snapshots err].
  apply bind_ok in H1 as (u & s2 & _ & H1). apply bind_ok in H1 as (u' & s3 & _ & H1).
  apply bind_ok in H1 as (measured & s4 & _ & H1). apply bind_ok in H1 as (now & s5 & _ & H1). apply bind_ok in H1 as (s6 & s7 & _ & H1).
  injection H1 as <- _. split; [done|]. cbn. intros Herr. destruct err; [|done]. cbn. apply assoc_set_same.
Qed.

(** C24: the devices of a heartbeat are refused only for what the provider lists.  The
    devices that an agent reports, as the server normalises them, pass its checks exactly
    when each snapshot has a reference that is not blank, a platform, kind and provider
    type that are known up to case and spaces, known components, a serial unless it is
    stopped and a profile that parses back, and references and serials, without the
    spaces around them, are distinct: the lifecycle, the health and the connection of a
    device are never at fault.  If they do not pass, the heartbeat is refused as invalid;
    if they pass, its capacity, its time and its environment can still refuse it.  If the
    provider failed to list its devices, the server reads that the host is not ready. *)
Theorem heartbeat_is_valid ctx s input s' :
  sendHeartbeat ctx c s = (Ok input, s') ->
  let '(l, err) := inventory ctx s in
  valid_devices (map normalized_device (hb_Devices input))
  = forallb (acceptable c) l && bool_decide (NoDup (map (fun s => TrimSpace (sn_ProviderRef s)) l))
    && bool_decide (NoDup (filter (fun serial => serial <> ""%string) (map (fun s => TrimSpace (co_Serial (sn_Connection s))) l)))
  /\ (valid_devices (map normalized_device (hb_Devices input)) = false ->
      forall normalize hostID env db, (Heartbeat normalize hostID input env db).1 = Fail CmdErrInvalidArgument)
  /\ (err <> None -> reportedHostReadiness (hb_Environment input) = Some (Some false)).
Proof.
  intros [Hd He]%heartbeat_content. destruct (inventory ctx s) as [l err]. cbn in Hd, He. split_and!.
  - rewrite Hd. unfold valid_devices, serials.
    assert (forallb valid_device (map normalized_device (map (discovered c) l)) = forallb (acceptable c) l) as ->
      by (clear; induction l as [|x l IH]; [done|]; cbn [map forallb]; by rewrite valid_discovered, IH).
    by rewrite !map_map.
  - intros Hv normalize hostID env db. unfold Heartbeat. destruct (hb_Capacity input); [|done].
    rewrite Hv. unfold mbind, Tx_bind, M_bind, guard_or. by destruct (negb _).
  - intros Hne. unfold reportedHostReadiness. by rewrite (He Hne).
Qed.
End Heartbeats.

(** ** The agent of a host with the mock provider *)
Definition sample_config : AgentConfig :=
  mkAgentConfig "host-000000000001" "mock" (10 * Second) 60 2 (60 * Second) (60 * Second) (30 * Second) 0 0 0 (Some []) [] None None None None
    "linux" "amd64".
Definition calm_scenario : Scenario := mkScenario ∅ false false false false false false.
Definition sample_agent (scenario : Scenario) : AgentState Mock := mkAgent (mkWorld 0 (NewMock 0 0 "" scenario)) [] None 0 None.
Definition sample_command (kind operation : string) : Command :=
  mkCommandView "command-000000000001" "host-000000000001" kind
    [("device_id", JStr "device-1"); ("image_id", JStr "image-1"); ("provider_ref", JStr "emulator-1"); ("operation_kind", JStr operation)]%string
    CommandLeased (Some "lease-token-000000001"%string) None 1 3 None None None.
Definition undisturbed : Fate := mkFate None None.
Definition failing_start : Scenario := mkScenario ∅ false true false false false false.

Lemma sample_agent_ok scenario : agent_ok (sample_agent scenario).
Proof. apply map_Forall_empty. Qed.

Example reported_success_happened_witness :
  exists input s', execute undisturbed (sample_command "create" "") sample_config (sample_agent calm_scenario) = (Ok input, s')
    /\ ci_Status input = CommandSucceeded /\ held s' = {["emulator-1" := mkBuilt "device-1" "image-1" ""]}%string.
Proof.
  destruct (execute undisturbed (sample_command "create" "") sample_config (sample_agent calm_scenario)) as [r s'] eqn:E.
  destruct (reported_success_happened sample_config _ _ _ _ _ (sample_agent_ok _) E) as (input & -> & _ & _ & _ & H1).
  exists input, s'. split; [done|]. destruct (ci_Error input) as [e|] eqn:Ee; [|exact H1].
  exfalso. assert (option_map ci_Error (match (execute undisturbed (sample_command "create" "") sample_config (sample_agent calm_scenario)).1 with Ok i => Some i | Fail _ => None end) = Some None)
    as H2 by (vm_compute; reflexivity). rewrite E in H2. cbn in H2. congruence.
Defined.

Example failed_create_is_removed_witness :
  exists e s', run_create Background (cv_Payload (sample_command "create" "")) sample_config (sample_agent failing_start) = (Ok (None, Some e), s')
    /\ held s' = ∅.
Proof.
  destruct (run_create Background (cv_Payload (sample_command "create" "")) sample_config (sample_agent failing_start)) as [r s'] eqn:E.
  destruct (failed_create_is_removed sample_config _ _ _ _ _ (sample_agent_ok _) E) as (o & -> & Hf).
  assert ((run_create Background (cv_Payload (sample_command "create" "")) sample_config (sample_agent failing_start)).1
    = Ok (None, Some (ProviderErr "start" "EMULATOR_START_FAILED" true None))) as H2 by (vm_compute; reflexivity).
  rewrite E in H2. injection H2 as ->. change (is_ok _) with true in Hf. cbn iota in Hf. inversion Hf; [discriminate|].
  eexists. eexists. split; [done|]. symmetry. done.
Defined.

(** A reimage whose target image has no digest: the previous image is restored, and the
    server records a restored device. *)
Definition refused_reimage : Command :=
  mkCommandView "command-000000000001" "host-000000000001" "rebuild"
    [("device_id", JStr "device-1"); ("image_id", JStr "image-2"); ("docker_image", JStr "registry/image:2"); ("provider_ref", JStr "emulator-1");
     ("operation_kind", JStr "reimage"); ("rollback", JObj [("image_id", JStr "image-1")])]%string
    CommandLeased (Some "lease-token-000000001"%string) None 1 3 None None None.
Definition completed_record (command : Command) (input : CompletionInput) : CommandRecord :=
  mkCommand (cv_ID command) (cv_HostID command) (cv_CommandType command) (cv_Payload command) (ci_Status input) None None 1 3 ""
    (Some (ci_Result input)) None 0 0 None.
Definition server_view (r : result GoError CompletionInput) : option bool :=
  match r with
  | Ok input => option_map snd (rollback_outcome (completed_record refused_reimage input) mo_ReimageApplied)
  | Fail _ => None
  end.

Example server_learns_image_witness :
  exists input s', execute undisturbed refused_reimage sample_config (sample_agent calm_scenario) = (Ok input, s')
    /\ server_view (Ok input) = Some false /\ held s' = {["emulator-1" := mkBuilt "device-1" "image-1" ""]}%string.
Proof.
  assert (server_view (execute undisturbed refused_reimage sample_config (sample_agent calm_scenario)).1 = Some false) as Hv by (vm_compute; reflexivity).
  destruct (execute undisturbed refused_reimage sample_config (sample_agent calm_scenario)) as [[input|e] s'] eqn:E; [|discriminate].
  exists input, s'. split; [done|]. split; [exact Hv|].
  pose proof (server_learns_image sample_config undisturbed refused_reimage _ _ _ (completed_record refused_reimage input)
    (sample_agent_ok _) eq_refl eq_refl E eq_refl eq_refl) as H1.
  cbn [fst server_view] in Hv. destruct (rollback_outcome _ _) as [[x []]|]; [discriminate| |discriminate].
  destruct H1 as (rollback & [= <-] & H1). exact H1.
Defined.

Definition sample_snapshot : Snapshot :=
  mkSnapshot "device-1" "host-000000000001" "image-1" "android" "emulator" "emulator-1" StateRunning 1 None zero_profile
    (mkProviderHealth [] true true true true) (mkConnectionInfo "android" "serial-1" "serial-1" "emulator-1" "127.0.0.1:5555" "http://127.0.0.1:4723" "serial-1").

Example boot_wait_settles_witness :
  let ctx := WithTimeout Background 0 (10 * Second) in
  let '(r, s') := wait_ready (polls ctx 0) ctx sample_snapshot sample_config (sample_agent calm_scenario) in
  0 <= clock s' <= 10 * Second /\ r <> Ok None.
Proof.
  cbv zeta. pose proof (boot_wait_settles sample_config (WithTimeout Background 0 (10 * Second)) _ sample_snapshot (sample_agent calm_scenario)
    (sample_agent_ok _) eq_refl) as H1.
  change (clock (sample_agent calm_scenario)) with 0 in H1.
  destruct (wait_ready _ _ _ _ _) as [r s']. destruct H1 as (_ & [H1 H2] & H3). split; [|by intros ->].
  split; [exact H1|exact H2].
Defined.

Example reports_are_understood_witness :
  decode_operation (applied "reimage_applied" (snapshotResult sample_snapshot)) = Some (read_back sample_snapshot true false false).
Proof. apply (reports_are_understood sample_snapshot Canceled eq_refl). Defined.

(** The agent after it has created an emulator. *)
Definition created_agent : AgentState Mock :=
  (execute undisturbed (sample_command "create" "") sample_config (sample_agent calm_scenario)).2.

Example heartbeat_is_valid_witness :
  exists input s', sendHeartbeat Background sample_config created_agent = (Ok input, s') /\ length (hb_Devices input) = 1%nat
    /\ valid_devices (map normalized_device (hb_Devices input)) = true.
Proof.
  destruct (sendHeartbeat Background sample_config created_agent) as [[input|e] s'] eqn:E.
  - exists input, s'. split; [done|]. split.
    + assert (match (sendHeartbeat Background sample_config created_agent).1 with Ok i => length (hb_Devices i) | Fail _ => 0%nat end = 1%nat)
        as H1 by (vm_compute; reflexivity). rewrite E in H1. exact H1.
    + apply heartbeat_is_valid in E.
      destruct (inventory sample_config Background created_agent) as [l err] eqn:El. destruct E as [-> _].
      assert (l = (inventory sample_config Background created_agent).1) as -> by (rewrite El; reflexivity). vm_compute. reflexivity.
  - assert (is_ok (sendHeartbeat Background sample_config created_agent).1 = true) as H1 by (vm_compute; reflexivity).
    rewrite E in H1. discriminate.
Defined.
